(* ===== verification/_CoqProject ===== *)
-Q . S2P
Prelude.v
Memory.v
Frames.v
Pmm.v
PmmInv.v
PmmProps.v
Vmm.v
VmmInv.v
VmmOps.v
VmmBuild.v
VmmInit.v
VmmCow.v
VmmSpace.v
VmmProps.v
Heap.v
HeapInv.v
HeapProps.v
Kbd.v
KbdProps.v
Vfs.v
VfsInv.v
VfsProps.v
Path.v
PathProps.v
Exec.v
Sched.v
SchedInv.v
SchedOps.v
SchedProps.v
Uaccess.v
UaccessInv.v
UaccessWrite.v
UaccessProps.v
Usermem.v
UsermemInv.v
UsermemProps.v
Elf.v
ElfProps.v
Syscall.v
SyscallProps.v
SpaceDestroy.v
SpaceClone.v
SpaceProps.v
Isolation.v
ForkProps.v
Console.v
ConsoleProps.v
Power.v
PowerProps.v
User.v
UserSem.v
Sh.v
ShParse.v
ShProps.v
UserProps.v
UserKernel.v
UserFiles.v
UserCat.v
Cpu.v
CpuProps.v
Kout.v
KoutProps.v
Entry.v
Kshell.v
KshellProps.v
KshellFiles.v
Boot.v
BootProps.v
