(* ===== verification/Prelude.v ===== *)
(** * Lithium kernel: verification development

    (header: completed below) *)

From Stdlib Require Import ZArith Lia Bool.
From stdpp Require Export base gmap list numbers strings.

#[global] Open Scope Z_scope.

(** ** Machine integers

    A w-bit unsigned integer is a [Z]; every arithmetic operation whose C
    result could leave the type is followed by the wrap of that type. *)

Declare Scope word_scope.
Delimit Scope word_scope with word.

Definition u8 (x : Z) : Z := x mod 2^8.
Definition u16 (x : Z) : Z := x mod 2^16.
Definition u32 (x : Z) : Z := x mod 2^32.
Definition u64 (x : Z) : Z := x mod 2^64.

(** The value of a 64-bit (32-bit, 8-bit) pattern read as a signed integer. *)
Definition s64 (x : Z) : Z := (x + 2^63) mod 2^64 - 2^63.
Definition s32 (x : Z) : Z := (x + 2^31) mod 2^32 - 2^31.
Definition s8 (x : Z) : Z := (x + 2^7) mod 2^8 - 2^7.

Notation "~64 x" := (u64 (Z.lnot x)) (at level 35, right associativity) : word_scope.
Notation "x .& y" := (Z.land x y) (at level 40, left associativity) : word_scope.
Notation "x .| y" := (Z.lor x y) (at level 45, left associativity) : word_scope.
#[global] Open Scope word_scope.

(** [include/kernel.h] macros, at the 64-bit type of their call sites. *)
Definition ALIGN_UP (v a : Z) : Z := u64 (v + a - 1) .& ~64 (a - 1).
Definition ALIGN_DOWN (v a : Z) : Z := v .& ~64 (a - 1).
Definition MIN (a b : Z) : Z := if a <? b then a else b.
Definition MAX (a b : Z) : Z := if b <? a then a else b.

(** ** Arrays

    A C array of a statically known size that is cleared or filled as a whole
    and then updated cell by cell: a default value and the cells written since. *)
Record array := Arr { arr_default : Z; arr_map : gmap Z Z }.

Definition arr_fill (v : Z) : array := Arr v ∅.
Definition arr_get (a : array) (i : Z) : Z := default (arr_default a) (arr_map a !! i).
Definition arr_set (a : array) (i v : Z) : array :=
  Arr (arr_default a) (<[i := v]> (arr_map a)).

(** Two arrays are equivalent when every cell reads the same. *)
#[export] Instance array_equiv : Equiv array := λ a b, ∀ i, arr_get a i = arr_get b i.

(** ** Kernel computations

    A computation over a state [S] returns a value and a state, stops the
    machine ([Panic]: a failed KASSERT or a call of panic()), or uses up the
    iteration bound the model gives a loop whose termination depends on data
    ([NoFuel]). *)
Inductive res (A : Type) : Type :=
  | Ret (a : A)
  | Panic (why : string)
  | NoFuel.
Arguments Ret {A} _.
Arguments Panic {A} _.
Arguments NoFuel {A}.

Definition M (S A : Type) : Type := S → res (A * S).

#[export] Instance M_ret {S} : MRet (M S) := λ A a s, Ret (a, s).
#[export] Instance M_bind {S} : MBind (M S) := λ A B f m s,
  match m s with
  | Ret (a, s') => f a s'
  | Panic w => Panic w
  | NoFuel => NoFuel
  end.

Definition get {S} : M S S := λ s, Ret (s, s).
Definition gets {S A} (f : S → A) : M S A := λ s, Ret (f s, s).
Definition modify {S} (f : S → S) : M S () := λ s, Ret (tt, f s).
Definition modify_opt {S} (f : S → option S) : M S () := λ s,
  match f s with Some s' => Ret (tt, s') | None => NoFuel end.
Definition panic {S A} (why : string) : M S A := λ _, Panic why.
Definition no_fuel {S A} : M S A := λ _, NoFuel.

(** [KASSERT(cond)] of [include/kernel.h]: a failed condition halts. *)
Definition KASSERT {S} (cond : bool) (why : string) : M S () :=
  if cond then mret () else panic why.

(** Run a computation of a sub-component on its part of a larger state. *)
Definition zoom {S T A} (getp : T → S) (setp : S → T → T) (m : M S A) : M T A :=
  λ t, match m (getp t) with
       | Ret (a, s') => Ret (a, setp s' t)
       | Panic w => Panic w
       | NoFuel => NoFuel
       end.

(** [for (i = lo; i < hi; i++) body], without and with effects on control. *)
Fixpoint for_up {S} (n : nat) (i : Z) (body : Z → S → S) (s : S) : S :=
  match n with
  | O => s
  | S n' => for_up n' (i + 1) body (body i s)
  end.
Definition for_range {S} (lo hi : Z) (body : Z → S → S) (s : S) : S :=
  for_up (Z.to_nat (hi - lo)) lo body s.

Fixpoint for_upM {S} (n : nat) (i : Z) (body : Z → M S ()) : M S () :=
  match n with
  | O => mret ()
  | S n' => body i ≫= λ _, for_upM n' (i + 1) body
  end.
Definition for_rangeM {S} (lo hi : Z) (body : Z → M S ()) : M S () :=
  for_upM (Z.to_nat (hi - lo)) lo body.

(** A loop whose body may leave it early (a [goto], a [return]): it stops at
    the first iteration that answers [true] and passes that on. *)
Fixpoint for_anyM {S} (n : nat) (i : Z) (body : Z → M S bool) : M S bool :=
  match n with
  | O => mret false
  | S n' => body i ≫= λ b : bool, if b then mret true else for_anyM n' (i + 1) body
  end.

(** Total correctness: [wp m Q s] says that [m] started in [s] neither panics
    nor runs out of fuel and ends in a value and a state satisfying [Q]. *)
Definition wp {S A} (m : M S A) (Q : A → S → Prop) (s : S) : Prop :=
  match m s with Ret (a, s') => Q a s' | _ => False end.

(** ** Tactics of the development *)

(** Unfold the widths so that [lia] sees plain moduli. *)
Ltac unfold_words := unfold u8, u16, u32, u64, s8, s32, s64 in *.

(** Turn boolean comparisons in the context and the goal into propositions. *)
Ltac b2p :=
  repeat match goal with
  | H : _ && _ = true |- _ => apply andb_true_iff in H as [? ?]
  | H : _ || _ = false |- _ => apply orb_false_iff in H as [? ?]
  | H : negb _ = true |- _ => apply negb_true_iff in H
  | H : negb _ = false |- _ => apply negb_false_iff in H
  | H : (_ <? _) = true |- _ => apply Z.ltb_lt in H
  | H : (_ <? _) = false |- _ => apply Z.ltb_ge in H
  | H : (_ <=? _) = true |- _ => apply Z.leb_le in H
  | H : (_ <=? _) = false |- _ => apply Z.leb_gt in H
  | H : (_ =? _) = true |- _ => apply Z.eqb_eq in H
  | H : (_ =? _) = false |- _ => apply Z.eqb_neq in H
  end.

(** Case on the first boolean test of the goal, keeping what it decided. *)
Ltac case_if :=
  match goal with
  | |- context [if ?b then _ else _] =>
      match type of b with bool => let E := fresh "E" in destruct b eqn:E; b2p end
  end.

(** ** Lemmas on machine integers *)

Lemma u8_range x : 0 <= u8 x < 2^8.
Proof. apply Z.mod_pos_bound; lia. Qed.

Lemma u16_range x : 0 <= u16 x < 2^16.
Proof. apply Z.mod_pos_bound; lia. Qed.

Lemma u32_range x : 0 <= u32 x < 2^32.
Proof. apply Z.mod_pos_bound; lia. Qed.

Lemma u64_range x : 0 <= u64 x < 2^64.
Proof. apply Z.mod_pos_bound; lia. Qed.

Lemma u8_small x : 0 <= x < 2^8 → u8 x = x.
Proof. apply Z.mod_small. Qed.

Lemma u16_small x : 0 <= x < 2^16 → u16 x = x.
Proof. apply Z.mod_small. Qed.

Lemma u32_small x : 0 <= x < 2^32 → u32 x = x.
Proof. apply Z.mod_small. Qed.

Lemma u64_small x : 0 <= x < 2^64 → u64 x = x.
Proof. apply Z.mod_small. Qed.

Lemma s64_small x : - 2^63 <= x < 2^63 → s64 (u64 x) = x.
Proof.
  intros. unfold s64, u64. rewrite Z.add_mod_idemp_l by lia.
  rewrite Z.mod_small; lia.
Qed.

Lemma s32_small x : - 2^31 <= x < 2^31 → s32 (u32 x) = x.
Proof.
  intros. unfold s32, u32. rewrite Z.add_mod_idemp_l by lia.
  rewrite Z.mod_small; lia.
Qed.

Lemma u8_u8 x : u8 (u8 x) = u8 x.
Proof. apply u8_small, u8_range. Qed.

Lemma u16_u16 x : u16 (u16 x) = u16 x.
Proof. apply u16_small, u16_range. Qed.

(** A mask with its low [k] bits clear keeps the high part of a word. *)
Lemma land_lnot_low v k :
  0 <= k <= 64 → 0 <= v < 2^64 → v .& ~64 (2^k - 1) = v / 2^k * 2^k.
Proof.
  intros Hk Hv.
  replace (2^k - 1) with (Z.ones k) by (rewrite Z.ones_equiv; lia).
  transitivity (Z.ldiff v (Z.ones k)).
  - apply Z.bits_inj'. intros n Hn. unfold u64.
    rewrite Z.land_spec, Z.ldiff_spec.
    destruct (decide (n < 64)).
    + rewrite Z.mod_pow2_bits_low, Z.lnot_spec by lia. done.
    + rewrite (Z.bits_above_log2 v n); [done|lia|].
      destruct (decide (v = 0)) as [->|]; [simpl; lia|].
      apply Z.lt_le_trans with 64; [apply Z.log2_lt_pow2; lia|lia].
  - rewrite Z.ldiff_ones_r by lia.
    rewrite Z.shiftl_mul_pow2, Z.shiftr_div_pow2 by lia. done.
Qed.

Lemma ALIGN_DOWN_spec v k :
  0 <= k <= 64 → 0 <= v < 2^64 → ALIGN_DOWN v (2^k) = v / 2^k * 2^k.
Proof. apply land_lnot_low. Qed.

Lemma ALIGN_UP_spec v k :
  0 <= k <= 64 → 0 <= v → v + 2^k - 1 < 2^64 →
  ALIGN_UP v (2^k) = (v + 2^k - 1) / 2^k * 2^k.
Proof.
  intros Hk Hv Hlt. unfold ALIGN_UP.
  assert (0 < 2^k) by (apply Z.pow_pos_nonneg; lia).
  rewrite u64_small by lia. apply land_lnot_low; lia.
Qed.

Lemma land_low_mod v k : 0 <= k → v .& (2^k - 1) = v mod 2^k.
Proof.
  intros. replace (2^k - 1) with (Z.ones k) by (rewrite Z.ones_equiv; lia).
  by apply Z.land_ones.
Qed.

(** Disjoint bit ranges: [lor] is addition. *)
Lemma lor_add_low a b k : 0 <= k → 0 <= b < 2^k → a mod 2^k = 0 → a .| b = a + b.
Proof.
  intros Hk Hb Ha.
  assert (a .& b = 0) as Hd.
  { apply Z.bits_inj'. intros n Hn. rewrite Z.land_spec, Z.bits_0.
    destruct (decide (n < k)) as [Hlt|Hge].
    - assert (a = a / 2^k * 2^k) as -> by
        (pose proof (Z.div_mod a (2^k) ltac:(lia)); lia).
      rewrite Z.mul_pow2_bits_low by lia. done.
    - destruct (decide (b = 0)) as [->|]; [rewrite Z.bits_0, andb_false_r; done|].
      rewrite (Z.bits_above_log2 b n), andb_false_r; [done|lia|].
      apply Z.lt_le_trans with k; [apply Z.log2_lt_pow2; lia|lia]. }
  rewrite <- Z.add_lor_land, Hd. lia.
Qed.

(** ** Lemmas on arrays *)

Lemma arr_get_fill v i : arr_get (arr_fill v) i = v.
Proof. reflexivity. Qed.

Lemma arr_get_set_eq a i v : arr_get (arr_set a i v) i = v.
Proof. unfold arr_get, arr_set; simpl. by rewrite lookup_insert_eq. Qed.

Lemma arr_get_set_ne a i j v : i ≠ j → arr_get (arr_set a i v) j = arr_get a j.
Proof. intros. unfold arr_get, arr_set; simpl. by rewrite lookup_insert_ne. Qed.

Lemma arr_get_set a i j v :
  arr_get (arr_set a i v) j = if i =? j then v else arr_get a j.
Proof.
  case_if; [subst; apply arr_get_set_eq | by apply arr_get_set_ne].
Qed.

#[export] Instance array_equivalence : Equivalence (≡@{array}).
Proof.
  split.
  - by intros a i.
  - intros a b H i. by rewrite (H i).
  - intros a b c H1 H2 i. by rewrite (H1 i), (H2 i).
Qed.

#[export] Instance arr_get_proper : Proper ((≡) ==> (=) ==> (=)) arr_get.
Proof. intros a b H i _ <-. apply H. Qed.

#[export] Instance arr_set_proper : Proper ((≡) ==> (=) ==> (=) ==> (≡)) arr_set.
Proof. intros a b H i _ <- v _ <- j. rewrite !arr_get_set. by case_if. Qed.

(** ** Counting the indices below [n] that satisfy a test *)

Fixpoint count_if (g : Z → bool) (n : nat) : Z :=
  match n with
  | O => 0
  | S n' => count_if g n' + (if g (Z.of_nat n') then 1 else 0)
  end.

Lemma count_if_bounds g n : 0 <= count_if g n <= Z.of_nat n.
Proof. induction n as [|n IH]; simpl; [lia|]. case_if; lia. Qed.

Lemma count_if_ext g h n :
  (∀ i, 0 <= i < Z.of_nat n → g i = h i) → count_if g n = count_if h n.
Proof.
  induction n as [|n IH]; intros H; simpl; [done|].
  rewrite IH by (intros; apply H; lia). by rewrite H by lia.
Qed.

Lemma count_if_zero g n i : count_if g n = 0 → 0 <= i < Z.of_nat n → g i = false.
Proof.
  induction n as [|n IH]; simpl; intros H Hi; [lia|].
  pose proof (count_if_bounds g n).
  destruct (g (Z.of_nat n)) eqn:E; [lia|].
  destruct (decide (i = Z.of_nat n)) as [->|]; [done|]. apply IH; lia.
Qed.

Lemma count_if_false g n : (∀ i, 0 <= i < Z.of_nat n → g i = false) → count_if g n = 0.
Proof.
  induction n as [|n IH]; intros H; simpl; [done|].
  rewrite IH by (intros; apply H; lia). by rewrite H by lia.
Qed.

Lemma count_if_pos g n : 0 < count_if g n → ∃ i, 0 <= i < Z.of_nat n ∧ g i = true.
Proof.
  induction n as [|n IH]; simpl; intros H; [lia|].
  destruct (g (Z.of_nat n)) eqn:E; [exists (Z.of_nat n); split; [lia|done]|].
  destruct IH as (i & ? & ?); [lia|]. exists i. split; [lia|done].
Qed.

(** Clearing one index that was counted, or setting one that was not. *)
Lemma count_if_clear g h n f :
  0 <= f < Z.of_nat n → g f = true → h f = false → (∀ i, 0 <= i → i ≠ f → h i = g i) →
  count_if h n = count_if g n - 1.
Proof.
  intros Hf Hg Hh Hne. induction n as [|n IH]; simpl; [lia|].
  destruct (decide (f = Z.of_nat n)) as [->|].
  - rewrite Hg, Hh. rewrite (count_if_ext h g) by (intros; apply Hne; lia). lia.
  - rewrite IH by lia. rewrite Hne by lia. lia.
Qed.

Lemma count_if_set g h n f :
  0 <= f < Z.of_nat n → g f = false → h f = true → (∀ i, 0 <= i → i ≠ f → h i = g i) →
  count_if h n = count_if g n + 1.
Proof.
  intros Hf Hg Hh Hne.
  rewrite (count_if_clear h g n f); [lia|done..|]. intros. symmetry. by apply Hne.
Qed.

(** ** Rules for [wp] *)

Section wp_rules.
Context {S : Type}.

Lemma wp_ret {A} (a : A) Q (s : S) : Q a s → wp (mret a) Q s.
Proof. done. Qed.

Lemma wp_bind {A B} (m : M S A) (f : A → M S B) Q s :
  wp m (λ a s', wp (f a) Q s') s → wp (m ≫= f) Q s.
Proof. unfold wp, mbind, M_bind. by destruct (m s) as [[a s']| |]. Qed.

Lemma wp_mono {A} (m : M S A) (P Q : A → S → Prop) s :
  wp m P s → (∀ a s', P a s' → Q a s') → wp m Q s.
Proof. unfold wp. destruct (m s) as [[a s']| |]; auto. Qed.

Lemma wp_and {A} (m : M S A) (P Q : A → S → Prop) s :
  wp m P s → wp m Q s → wp m (λ a s', P a s' ∧ Q a s') s.
Proof. unfold wp. destruct (m s) as [[a s']| |]; auto. Qed.

Lemma wp_get Q (s : S) : Q s s → wp get Q s.
Proof. done. Qed.

Lemma wp_gets {A} (f : S → A) Q (s : S) : Q (f s) s → wp (gets f) Q s.
Proof. done. Qed.

Lemma wp_modify (f : S → S) Q (s : S) : Q tt (f s) → wp (modify f) Q s.
Proof. done. Qed.

Lemma wp_KASSERT b why Q (s : S) : b = true → Q tt s → wp (KASSERT b why) Q s.
Proof. by intros ->. Qed.

Lemma wp_eq {A} (m : M S A) Q s a s' : m s = Ret (a, s') → Q a s' → wp m Q s.
Proof. unfold wp. by intros ->. Qed.

Lemma wp_inv {A} (m : M S A) Q s : wp m Q s → ∃ a s', m s = Ret (a, s') ∧ Q a s'.
Proof. unfold wp. destruct (m s) as [[a s']| |]; [eauto|done|done]. Qed.

Lemma wp_zoom {T A} (getp : T → S) setp (m : M S A) Q (t : T) :
  wp m (λ a s', Q a (setp s' t)) (getp t) → wp (zoom getp setp m) Q t.
Proof. unfold wp, zoom. by destruct (m (getp t)) as [[a s']| |]. Qed.
End wp_rules.

(** ** Loop invariants *)

Lemma for_range_ind {S} (P : Z → S → Prop) lo hi body (s : S) :
  lo <= hi → P lo s →
  (∀ i s, lo <= i < hi → P i s → P (i + 1) (body i s)) →
  P hi (for_range lo hi body s).
Proof.
  intros Hle H0 Hstep. unfold for_range.
  remember (Z.to_nat (hi - lo)) as n eqn:Hn.
  revert lo s Hle H0 Hstep Hn; induction n as [|n IH]; intros lo s Hle H0 Hstep Hn; simpl.
  - replace hi with lo by lia. done.
  - apply IH; [lia|apply Hstep; [lia|done]| |lia].
    intros i t Hi. apply Hstep. lia.
Qed.

Lemma for_range_empty {S} lo hi body (s : S) : hi <= lo → for_range lo hi body s = s.
Proof. intros. unfold for_range. replace (Z.to_nat (hi - lo)) with O by lia. done. Qed.

Lemma wp_for_range {S} (P : Z → S → Prop) lo hi body (Q : () → S → Prop) (s : S) :
  lo <= hi → P lo s →
  (∀ i s, lo <= i < hi → P i s → wp (body i) (λ _ s', P (i + 1) s') s) →
  (∀ s', P hi s' → Q tt s') →
  wp (for_rangeM lo hi body) Q s.
Proof.
  intros Hle H0 Hstep HQ. unfold for_rangeM.
  remember (Z.to_nat (hi - lo)) as n eqn:Hn.
  revert lo s Hle H0 Hstep Hn; induction n as [|n IH]; intros lo s Hle H0 Hstep Hn; simpl.
  - apply wp_ret, HQ. replace hi with lo by lia. done.
  - apply wp_bind. eapply wp_mono; [apply Hstep; [lia|done]|].
    intros [] t Ht. apply IH; [lia|done| |lia].
    intros i t' Hi. apply Hstep. lia.
Qed.

Lemma wp_for_any {S} (P : Z → S → Prop) (E : S → Prop) n lo body (Q : bool → S → Prop) (s : S) :
  P lo s →
  (∀ i s, lo <= i < lo + Z.of_nat n → P i s →
    wp (body i) (λ b s', if b : bool then E s' else P (i + 1) s') s) →
  (∀ s', P (lo + Z.of_nat n) s' → Q false s') → (∀ s', E s' → Q true s') →
  wp (for_anyM n lo body) Q s.
Proof.
  intros H0 Hstep HQ HE. revert lo s H0 Hstep HQ.
  induction n as [|n IH]; intros lo s H0 Hstep HQ; simpl.
  - apply wp_ret, HQ. by replace (lo + Z.of_nat 0) with lo by lia.
  - apply wp_bind. eapply wp_mono; [apply Hstep; [lia|done]|].
    intros [] t Ht; [by apply wp_ret, HE|]. apply IH; [done| |].
    + intros i t' Hi. apply Hstep. lia.
    + intros t' Ht'. apply HQ. by replace (lo + Z.of_nat (Datatypes.S n)) with (lo + 1 + Z.of_nat n) by lia.
Qed.

(** One step of symbolic execution; [wp_steps] runs the straight-line code up
    to the next call or branch. *)
Ltac wp_step :=
  lazymatch goal with
  | |- wp (mbind _ _) _ _ => apply wp_bind
  | |- wp (mret _) _ _ => apply wp_ret
  | |- wp get _ _ => apply wp_get
  | |- wp (gets _) _ _ => apply wp_gets
  | |- wp (modify _) _ _ => apply wp_modify
  | |- wp (zoom _ _ _) _ _ => apply wp_zoom
  end.
Ltac wp_steps := repeat (wp_step; cbv beta).
