(* ===== verification/Memory.v ===== *)
(** * Physical memory and [lib/string.c]

    The kernel runs on an identity map: the address of an object is the index
    of its bytes in physical memory.  Memory is an array of bytes; the words of
    page tables and boot structures are read and written in little-endian
    order.  The second half translates [lib/string.c] loop by loop over that
    memory and relates each routine to the C string or the byte list it is
    meant to handle. *)

From Stdlib Require Import ZArith Lia.
From S2P Require Import Prelude.

Abbreviation mem := array.

(** ** Bytes and little-endian words *)

Definition read8 (m : mem) (a : Z) : Z := u8 (arr_get m a).
Definition write8 (m : mem) (a v : Z) : mem := arr_set m a (u8 v).

Fixpoint read_le (n : nat) (m : mem) (a : Z) : Z :=
  match n with
  | O => 0
  | S n' => read8 m a + 2^8 * read_le n' m (a + 1)
  end.

Fixpoint write_le (n : nat) (m : mem) (a v : Z) : mem :=
  match n with
  | O => m
  | S n' => write_le n' (write8 m a v) (a + 1) (v / 2^8)
  end.

Definition read16 := read_le 2.
Definition read32 := read_le 4.
Definition read64 := read_le 8.
Definition write32 := write_le 4.
Definition write64 := write_le 8.

Lemma read8_range m a : 0 <= read8 m a < 2^8.
Proof. apply u8_range. Qed.

Lemma read8_write8_eq m a v : read8 (write8 m a v) a = u8 v.
Proof. unfold read8, write8. by rewrite arr_get_set_eq, u8_u8. Qed.

Lemma read8_write8_ne m a b v : a ≠ b → read8 (write8 m a v) b = read8 m b.
Proof. intros. unfold read8, write8. by rewrite arr_get_set_ne. Qed.

Lemma read8_write8 m a b v :
  read8 (write8 m a v) b = if a =? b then u8 v else read8 m b.
Proof. case_if; [subst; apply read8_write8_eq | by apply read8_write8_ne]. Qed.

Lemma read_le_range n m a : 0 <= read_le n m a < 2^(8 * Z.of_nat n).
Proof.
  revert a; induction n as [|n IH]; intros a; simpl read_le; [simpl; lia|].
  specialize (IH (a + 1)). pose proof (read8_range m a).
  replace (8 * Z.of_nat (S n)) with (8 + 8 * Z.of_nat n) by lia.
  rewrite Z.pow_add_r by lia. nia.
Qed.

Lemma read_le_ext n m m' a :
  (∀ b, a <= b < a + Z.of_nat n → read8 m b = read8 m' b) → read_le n m a = read_le n m' a.
Proof.
  revert a; induction n as [|n IH]; intros a H; simpl; [done|].
  rewrite (H a) by lia. by rewrite IH by (intros; apply H; lia).
Qed.

Lemma write_le_other n m a v b :
  b < a ∨ a + Z.of_nat n <= b → read8 (write_le n m a v) b = read8 m b.
Proof.
  revert m a v; induction n as [|n IH]; intros m a v H; simpl; [done|].
  rewrite IH by lia. apply read8_write8_ne. lia.
Qed.

Lemma read_write_le_eq n m a v :
  0 <= v < 2^(8 * Z.of_nat n) → read_le n (write_le n m a v) a = v.
Proof.
  revert m a v; induction n as [|n IH]; intros m a v H; [simpl in *; lia|].
  simpl read_le. simpl write_le.
  rewrite write_le_other, read8_write8_eq by lia.
  replace (8 * Z.of_nat (S n)) with (8 + 8 * Z.of_nat n) in H by lia.
  rewrite Z.pow_add_r in H by lia.
  rewrite IH by (split; [apply Z.div_pos; lia | apply Z.div_lt_upper_bound; lia]).
  unfold u8. pose proof (Z.div_mod v (2^8)). lia.
Qed.

Lemma read_write_le_ne n k m a b v :
  b + Z.of_nat k <= a ∨ a + Z.of_nat n <= b →
  read_le k (write_le n m a v) b = read_le k m b.
Proof. intros. apply read_le_ext. intros c Hc. apply write_le_other. lia. Qed.

Lemma read64_range m a : 0 <= read64 m a < 2^64.
Proof. apply (read_le_range 8). Qed.

Lemma read32_range m a : 0 <= read32 m a < 2^32.
Proof. apply (read_le_range 4). Qed.

Lemma read64_write64_eq m a v : 0 <= v < 2^64 → read64 (write64 m a v) a = v.
Proof. apply (read_write_le_eq 8). Qed.

Lemma read64_write64_ne m a b v :
  b + 8 <= a ∨ a + 8 <= b → read64 (write64 m a v) b = read64 m b.
Proof. intros. apply (read_write_le_ne 8 8); lia. Qed.

Lemma read8_write64_ne m a b v :
  b < a ∨ a + 8 <= b → read8 (write64 m a v) b = read8 m b.
Proof. intros. apply (write_le_other 8); lia. Qed.

(** ** [lib/string.c]: blocks of memory *)

Module StringC.

(** [while (n--) *p++ = (uint8_t)c;] *)
Fixpoint memset_loop (n : nat) (m : mem) (p c : Z) : mem :=
  match n with
  | O => m
  | S n' => memset_loop n' (write8 m p c) (p + 1) c
  end.
Definition memset (m : mem) (dst c n : Z) : mem := memset_loop (Z.to_nat n) m dst c.

(** [while (n--) *d++ = *s++;] *)
Fixpoint memcpy_loop (n : nat) (m : mem) (d s : Z) : mem :=
  match n with
  | O => m
  | S n' => memcpy_loop n' (write8 m d (read8 m s)) (d + 1) (s + 1)
  end.
Definition memcpy (m : mem) (dst src n : Z) : mem := memcpy_loop (Z.to_nat n) m dst src.

(** [while (n--) *--d = *--s;] with [d], [s] one past the blocks. *)
Fixpoint memmove_back (n : nat) (m : mem) (d s : Z) : mem :=
  match n with
  | O => m
  | S n' => memmove_back n' (write8 m (d - 1) (read8 m (s - 1))) (d - 1) (s - 1)
  end.
Definition memmove (m : mem) (dst src n : Z) : mem :=
  if dst <? src then memcpy_loop (Z.to_nat n) m dst src
  else memmove_back (Z.to_nat n) m (dst + n) (src + n).

Fixpoint memcmp_loop (n : nat) (m : mem) (p q : Z) : Z :=
  match n with
  | O => 0
  | S n' => if read8 m p =? read8 m q then memcmp_loop n' m (p + 1) (q + 1)
            else read8 m p - read8 m q
  end.
Definition memcmp (m : mem) (a b n : Z) : Z := memcmp_loop (Z.to_nat n) m a b.

(** ** [lib/string.c]: NUL-terminated strings

    The loops that run to a terminator get a bound on the bytes they look at;
    [None] means the bound was reached first. *)

Fixpoint strlen (fuel : nat) (m : mem) (s : Z) : option Z :=
  match fuel with
  | O => None
  | S f => if read8 m s =? 0 then Some 0
           else n ← strlen f m (s + 1); Some (n + 1)
  end.

Fixpoint strcmp (fuel : nat) (m : mem) (a b : Z) : option Z :=
  match fuel with
  | O => None
  | S f => if negb (read8 m a =? 0) && (read8 m a =? read8 m b)
           then strcmp f m (a + 1) (b + 1)
           else Some (read8 m a - read8 m b)
  end.

(** [n--] of the loop test is taken before the comparison: when it reaches 0
    the counter has wrapped to [(size_t)-1] and the result is 0. *)
Fixpoint strncmp_loop (n : nat) (m : mem) (a b : Z) : Z :=
  match n with
  | O => 0
  | S n' => if negb (read8 m a =? 0) && (read8 m a =? read8 m b)
            then strncmp_loop n' m (a + 1) (b + 1)
            else read8 m a - read8 m b
  end.
Definition strncmp (m : mem) (a b n : Z) : Z := strncmp_loop (Z.to_nat n) m a b.

(** The copy loop stores every byte, the terminator included, then tests it. *)
Fixpoint strcpy (fuel : nat) (m : mem) (d src : Z) : option mem :=
  match fuel with
  | O => None
  | S f => let c := read8 m src in
           let m' := write8 m d c in
           if c =? 0 then Some m' else strcpy f m' (d + 1) (src + 1)
  end.

(** A NULL result is 0. *)
Fixpoint strchr (fuel : nat) (m : mem) (s c : Z) : option Z :=
  match fuel with
  | O => None
  | S f => if read8 m s =? 0 then Some (if c =? 0 then s else 0)
           else if read8 m s =? u8 c then Some s
           else strchr f m (s + 1) c
  end.

Fixpoint strrchr_loop (fuel : nat) (m : mem) (s c last : Z) : option Z :=
  match fuel with
  | O => None
  | S f => if read8 m s =? 0 then Some (if c =? 0 then s else last)
           else strrchr_loop f m (s + 1) c (if read8 m s =? u8 c then s else last)
  end.
Definition strrchr (fuel : nat) (m : mem) (s c : Z) : option Z := strrchr_loop fuel m s c 0.

Definition strcat (fuel : nat) (m : mem) (dst src : Z) : option mem :=
  n ← strlen fuel m dst; strcpy fuel m (dst + n) src.

Fixpoint strncat_loop (n : nat) (m : mem) (d src : Z) : mem :=
  match n with
  | O => write8 m d 0
  | S n' => if read8 m src =? 0 then write8 m d 0
            else strncat_loop n' (write8 m d (read8 m src)) (d + 1) (src + 1)
  end.
Definition strncat (fuel : nat) (m : mem) (dst src n : Z) : option mem :=
  k ← strlen fuel m dst; Some (strncat_loop (Z.to_nat n) m (dst + k) src).

(** The copy loop of strncpy: while n is not 0 and the byte just copied is not 0, n--.  The terminator is stored without
    counting it: [n] keeps its value when the loop stops on it. *)
Fixpoint strncpy_copy (n : nat) (m : mem) (d src : Z) : mem * Z * nat :=
  match n with
  | O => (m, d, O)
  | S n' => let c := read8 m src in
            let m' := write8 m d c in
            if c =? 0 then (m', d + 1, n) else strncpy_copy n' m' (d + 1) (src + 1)
  end.
(** [while (n--) *d++ = '\0';] *)
Definition strncpy (m : mem) (dst src n : Z) : mem :=
  let '(m', d, k) := strncpy_copy (Z.to_nat n) m dst src in memset_loop k m' d 0.

(** ** Block routines: what every byte holds afterwards *)

Definition in_block (p n a : Z) : bool := (p <=? a) && (a <? p + n).

Lemma in_block_true p n a : in_block p n a = true ↔ p <= a < p + n.
Proof. unfold in_block. rewrite andb_true_iff, Z.leb_le, Z.ltb_lt. done. Qed.

Lemma in_block_false p n a : in_block p n a = false ↔ ¬ (p <= a < p + n).
Proof. rewrite <- in_block_true. by destruct (in_block p n a). Qed.

Ltac block :=
  repeat match goal with
  | |- context [if in_block ?p ?n ?a then _ else _] =>
      let E := fresh "E" in destruct (in_block p n a) eqn:E;
      [apply in_block_true in E | apply in_block_false in E]
  | |- context [if ?x =? ?y then _ else _] => destruct (Z.eqb_spec x y)
  end.

Lemma read8_memset_loop n m p c a :
  read8 (memset_loop n m p c) a = if in_block p (Z.of_nat n) a then u8 c else read8 m a.
Proof.
  revert m p; induction n as [|n IH]; intros m p; simpl; [by block; try lia|].
  rewrite IH, read8_write8. block; try done; lia.
Qed.

Lemma read8_memset m p c n a :
  0 <= n → read8 (memset m p c n) a = if in_block p n a then u8 c else read8 m a.
Proof. intros. unfold memset. rewrite read8_memset_loop. by rewrite Z2Nat.id. Qed.

Lemma read8_memcpy_loop n m d s a :
  d <= s ∨ s + Z.of_nat n <= d →
  read8 (memcpy_loop n m d s) a =
    if in_block d (Z.of_nat n) a then read8 m (s + (a - d)) else read8 m a.
Proof.
  revert m d s; induction n as [|n IH]; intros m d s H; simpl; [by block; try lia|].
  rewrite IH by lia. rewrite !read8_write8.
  block; subst; try lia; try (f_equal; lia).
  all: try done.
  all: unfold read8; rewrite ?u8_u8; f_equal; f_equal; lia.
Qed.

Lemma read8_memmove_back n m d s a :
  s <= d →
  read8 (memmove_back n m d s) a =
    if in_block (d - Z.of_nat n) (Z.of_nat n) a then read8 m (s + (a - d)) else read8 m a.
Proof.
  revert m d s; induction n as [|n IH]; intros m d s H; simpl; [by block; try lia|].
  rewrite IH by lia. rewrite !read8_write8.
  block; subst; try lia; try (f_equal; lia).
  all: unfold read8; rewrite ?u8_u8; f_equal; f_equal; lia.
Qed.

Lemma read8_memcpy m d s n a :
  0 <= n → d <= s ∨ s + n <= d →
  read8 (memcpy m d s n) a = if in_block d n a then read8 m (s + (a - d)) else read8 m a.
Proof. intros. unfold memcpy. rewrite read8_memcpy_loop; rewrite ?Z2Nat.id by lia; done. Qed.

(** ** C strings

    [bytes_at m a l]: the bytes of [l] lie at [a]; [cstr m a s]: the non-NUL
    bytes [s] lie at [a], followed by a terminator. *)
Fixpoint bytes_at (m : mem) (a : Z) (l : list Z) : Prop :=
  match l with
  | [] => True
  | c :: l' => read8 m a = c ∧ bytes_at m (a + 1) l'
  end.

Fixpoint cstr (m : mem) (a : Z) (s : list Z) : Prop :=
  match s with
  | [] => read8 m a = 0
  | c :: s' => read8 m a = c ∧ c ≠ 0 ∧ cstr m (a + 1) s'
  end.

Abbreviation len l := (Z.of_nat (length l)).

Lemma cstr_ext m m' a s :
  (∀ b, a <= b <= a + len s → read8 m b = read8 m' b) → cstr m a s → cstr m' a s.
Proof.
  revert a; induction s as [|c s IH]; simpl; intros a H Hs.
  - rewrite <- H by lia. done.
  - destruct Hs as (?&?&?). rewrite <- H by lia. split_and!; [done..|].
    apply IH; [intros; apply H; lia | done].
Qed.

Lemma cstr_nonzero m a s : cstr m a s → Forall (λ c, c ≠ 0) s.
Proof.
  revert a; induction s as [|c s IH]; simpl; intros a Hs; constructor; naive_solver.
Qed.

Lemma cstr_cons_inv m a c s :
  cstr m a (c :: s) → read8 m a = c ∧ (read8 m a =? 0) = false ∧ cstr m (a + 1) s.
Proof. simpl. intros (?&?&?). split_and!; [done| |done]. apply Z.eqb_neq. lia. Qed.

Lemma strlen_spec fuel m a s :
  cstr m a s → (length s < fuel)%nat → strlen fuel m a = Some (len s).
Proof.
  revert a fuel; induction s as [|c s IH]; intros a [|fuel] Hs Hf; simpl in Hf; try lia.
  - simpl in *. by rewrite Hs.
  - apply cstr_cons_inv in Hs as (_&E&Hs). simpl. rewrite E, (IH (a + 1)) by (done || lia).
    simpl. f_equal. lia.
Qed.

(** The order strcmp reports: the sign of the first differing byte, a proper
    prefix being smaller. *)
Fixpoint lexcmp (s t : list Z) : Z :=
  match s, t with
  | [], [] => 0
  | [], d :: _ => - d
  | c :: _, [] => c
  | c :: s', d :: t' => if c =? d then lexcmp s' t' else c - d
  end.

Lemma strcmp_lexcmp fuel m a b s t :
  cstr m a s → cstr m b t → (length s < fuel)%nat →
  strcmp fuel m a b = Some (lexcmp s t).
Proof.
  revert a b t fuel; induction s as [|c s IH]; intros a b t [|fuel] Hs Ht Hf;
    simpl in Hf; try lia.
  - simpl in Hs. simpl. rewrite Hs. destruct t as [|d t]; simpl in Ht.
    + by rewrite Ht.
    + destruct Ht as (->&?&?). done.
  - apply cstr_cons_inv in Hs as (E1&E&Hs). simpl. rewrite E, E1. simpl.
    destruct t as [|d t]; simpl in Ht.
    + rewrite Ht. rewrite E1 in E. rewrite E. f_equal; lia.
    + destruct Ht as (->&?&?). case_if; [|done]. apply IH; [done..|lia].
Qed.

Lemma lexcmp_eq s t :
  Forall (λ c, 0 < c) s → Forall (λ c, 0 < c) t → lexcmp s t = 0 ↔ s = t.
Proof.
  intros Hs. revert t; induction Hs as [|c s Hc Hs IH]; intros [|d t] Ht; simpl.
  - done.
  - inversion Ht; subst. split; [lia|done].
  - split; [lia|done].
  - inversion Ht; subst. case_if; [subst; rewrite IH by done|]; naive_solver lia.
Qed.

Lemma cstr_positive m a s : cstr m a s → Forall (λ c, 0 < c) s.
Proof.
  revert a; induction s as [|c s IH]; simpl; intros a Hs; constructor.
  - destruct Hs as (<-&?&?). pose proof (read8_range m a). lia.
  - naive_solver.
Qed.

(** *** strncpy *)

Lemma strncpy_copy_short n m d src s :
  cstr m src s → (length s < n)%nat → d + len s < src ∨ src + len s < d →
  ∃ m', strncpy_copy n m d src = (m', d + len s + 1, (n - length s)%nat) ∧
    ∀ a, read8 m' a =
      if in_block d (len s) a then read8 m (src + (a - d))
      else if a =? d + len s then 0 else read8 m a.
Proof.
  revert n m d src; induction s as [|c s IH]; intros [|n] m d src Hs Hn Hd;
    simpl in Hn; try lia; simpl in Hd.
  - simpl in Hs. simpl. rewrite Hs. eexists; split; [repeat first [lia | f_equal]|].
    intros a. rewrite read8_write8. block; try lia; done.
  - pose proof Hs as (E1&E&Hs')%cstr_cons_inv. simpl. rewrite E.
    set (m1 := write8 m d (read8 m src)).
    assert (cstr m1 (src + 1) s) as Hs1.
    { revert Hs'. apply cstr_ext. intros. unfold m1. rewrite read8_write8_ne by lia. done. }
    destruct (IH n m1 (d + 1) (src + 1)) as (m' & -> & Hm'); [done|lia|lia|].
    exists m'. split; [repeat first [lia | f_equal]|].
    intros a. rewrite Hm'. unfold m1. rewrite !read8_write8.
    block; subst; try lia; try done; try (f_equal; lia).
    all: unfold read8; rewrite ?u8_u8; f_equal; f_equal; lia.
Qed.

Lemma strncpy_copy_long n m d src s :
  bytes_at m src s → Forall (λ c, c ≠ 0) s → length s = n →
  d + len s <= src ∨ src + len s <= d →
  ∃ m', strncpy_copy n m d src = (m', d + len s, O) ∧
    ∀ a, read8 m' a = if in_block d (len s) a then read8 m (src + (a - d)) else read8 m a.
Proof.
  revert n m d src; induction s as [|c s IH]; intros [|n] m d src Hs Hnz Hn Hd;
    simpl in Hn; try lia; simpl in Hd.
  - simpl. eexists; split; [repeat first [lia | f_equal]|]. intros a. by block; try lia.
  - destruct Hs as [E1 Hs']. inversion Hnz; subst. simpl.
    replace (read8 m src =? 0) with false by (symmetry; apply Z.eqb_neq; lia).
    set (m1 := write8 m d (read8 m src)).
    assert (bytes_at m1 (src + 1) s) as Hs1.
    { unfold m1. assert (d < src + 1 ∨ src + 1 + len s <= d) as Hout by lia.
      revert Hs' Hout. generalize (src + 1) as b. clear. induction s as [|e s IHs]; simpl; [done|].
      intros b [E H] Hout. rewrite read8_write8_ne by lia. split; [done|]. apply IHs; [done|lia]. }
    destruct (IH n m1 (d + 1) (src + 1)) as (m' & -> & Hm'); [done|done|lia|lia|].
    exists m'. split; [repeat first [lia | f_equal]|].
    intros a. rewrite Hm'. unfold m1. rewrite !read8_write8.
    block; subst; try lia; try done; try (f_equal; lia).
    all: unfold read8; rewrite ?u8_u8; f_equal; f_equal; lia.
Qed.

(** A little-endian word of [n] bytes. *)
Fixpoint to_le (n : nat) (x : Z) : list Z :=
  match n with O => [] | S n' => u8 x :: to_le n' (x / 2^8) end.

(** A memory with the given bytes at [a], for concrete inputs. *)
Fixpoint store_bytes (m : mem) (a : Z) (l : list Z) : mem :=
  match l with
  | [] => m
  | c :: l' => store_bytes (write8 m a c) (a + 1) l'
  end.

(** memmove is correct for overlapping blocks in either direction: after
    [memmove(dst, src, n)] every byte of the destination block holds what the
    corresponding source byte held before the call, and no other byte changed. *)
Theorem memmove_correct (m : mem) (dst src : Z) (n : nat) :
  ∀ a, read8 (memmove m dst src (Z.of_nat n)) a =
    if in_block dst (Z.of_nat n) a then read8 m (src + (a - dst)) else read8 m a.
Proof.
  intros a. unfold memmove. rewrite Nat2Z.id. case_if.
  - apply read8_memcpy_loop. lia.
  - rewrite read8_memmove_back by lia.
    replace (dst + Z.of_nat n - Z.of_nat n) with dst by lia.
    block; [f_equal; lia | done].
Qed.

(** strcmp on two terminated strings returns 0 exactly when they are the
    same byte sequence, and otherwise the lexicographic difference; it looks at
    no more bytes than the first string has, plus its terminator. *)
Theorem strcmp_correct (fuel : nat) (m : mem) (a b : Z) (s t : list Z) :
  cstr m a s → cstr m b t → (length s < fuel)%nat →
  strcmp fuel m a b = Some (lexcmp s t) ∧ (lexcmp s t = 0 ↔ s = t).
Proof.
  intros Hs Ht Hf. split; [by apply strcmp_lexcmp|].
  apply lexcmp_eq; eauto using cstr_positive.
Qed.

Lemma strcmp_correct_witness :
  let m := store_bytes (store_bytes (arr_fill 0) 16 [104; 105]) 32 [104; 111] in
  strcmp 3 m 16 32 = Some (lexcmp [104; 105] [104; 111]) ∧
  (lexcmp [104; 105] [104; 111] = 0 ↔ [104; 105] = [104; 111]).
Proof.
  apply (strcmp_correct 3 _ 16 32 [104; 105] [104; 111]);
    [vm_compute; intuition congruence..|simpl; lia].
Defined.

(** strncpy(dst, src, n) of a string shorter than n stores n + 1 bytes: the
    string, then zeroes up to and including dst[n].  ISO C allows it n bytes;
    the copy loop stores the terminator without counting it. *)
Theorem strncpy_overruns_by_one (m : mem) (dst src n : Z) (s : list Z) :
  cstr m src s → len s < n → dst + n < src ∨ src + len s < dst →
  ∀ a, read8 (strncpy m dst src n) a =
    if in_block dst (len s) a then read8 m (src + (a - dst))
    else if in_block dst (n + 1) a then 0 else read8 m a.
Proof.
  intros Hs Hn Hd a. unfold strncpy.
  destruct (strncpy_copy_short (Z.to_nat n) m dst src s) as (m' & -> & Hm'); [done|lia|lia|].
  rewrite read8_memset_loop, Hm'. change (u8 0) with 0.
  block; try lia; done.
Qed.

Lemma strncpy_overruns_by_one_witness :
  let m := store_bytes (arr_fill 7) 100 [97; 98; 0] in
  read8 m (0 + 4) = 7 ∧ read8 (strncpy m 0 100 4) (0 + 4) = 0.
Proof.
  split; [reflexivity|].
  rewrite (strncpy_overruns_by_one _ 0 100 4 [97; 98]);
    [reflexivity | vm_compute; intuition congruence | simpl; lia | simpl; lia].
Defined.

(** strncpy of a string of n or more bytes copies exactly the first n and
    stores no terminator. *)
Theorem strncpy_truncates (m : mem) (dst src : Z) (s : list Z) :
  bytes_at m src s → Forall (λ c, c ≠ 0) s →
  dst + len s <= src ∨ src + len s <= dst →
  ∀ a, read8 (strncpy m dst src (len s)) a =
    if in_block dst (len s) a then read8 m (src + (a - dst)) else read8 m a.
Proof.
  intros Hs Hnz Hd a. unfold strncpy. rewrite Nat2Z.id.
  destruct (strncpy_copy_long (length s) m dst src s) as (m' & -> & Hm'); [done..|].
  simpl. apply Hm'.
Qed.

Lemma strncpy_truncates_witness :
  let m := store_bytes (arr_fill 7) 100 [97; 98; 99; 0] in
  read8 (strncpy m 0 100 2) 1 = 98 ∧ read8 (strncpy m 0 100 2) 2 = 7.
Proof.
  pose proof (strncpy_truncates (store_bytes (arr_fill 7) 100 [97; 98; 99; 0]) 0 100 [97; 98]) as H.
  specialize (H ltac:(vm_compute; intuition congruence)
                ltac:(repeat constructor; lia) ltac:(simpl; lia)).
  change (len [97; 98]) with 2 in H. cbv zeta. rewrite !H. split; reflexivity.
Defined.

End StringC.
