(* ===== verification/Frames.v ===== *)
(** * The frame-allocator interface ([kernel/mm/pmm.h])

    What the page-table code, the heap and the ELF loader rely on when they
    call the physical memory manager.  [fa_rc s a] is the reference count of the
    frame at physical address [a] (0 when nobody holds it) and [fa_avail s] the
    number of frames left.  Clients are proved against the laws below;
    [Pmm.v] proves that the bitmap allocator satisfies them. *)

From Stdlib Require Import ZArith Lia.
From S2P Require Import Prelude.

Definition PMM_FRAME_SIZE : Z := 4096.
Definition PMM_MAX_PHYS : Z := 4 * 1024 * 1024 * 1024.
Definition PMM_MAX_FRAMES : Z := PMM_MAX_PHYS / PMM_FRAME_SIZE.
Definition PMM_BITMAP_BYTES : Z := PMM_MAX_FRAMES / 8.
(** [~0ULL] *)
Definition PMM_ALLOC_FAILED : Z := 2^64 - 1.

(** A page-aligned physical address the allocator can hand out: never frame 0. *)
Definition is_frame (a : Z) : Prop := a mod PMM_FRAME_SIZE = 0 ∧ 0 < a < PMM_MAX_PHYS.

(** [rc'] is [rc] with the count of [a] replaced. *)
Definition rc_update (rc rc' : Z → Z) (a n : Z) : Prop :=
  ∀ b, rc' b = if a =? b then n else rc b.

Class FrameAllocator (S : Type) := {
  fa_alloc : M S Z;
  fa_free : Z → M S ();
  fa_ref : Z → M S ();
  fa_refcount : Z → M S Z;

  fa_wf : S → Prop;
  fa_rc : S → Z → Z;
  fa_avail : S → Z;

  fa_rc_range s a : fa_wf s → 0 <= fa_rc s a < 2^16;
  fa_rc_frame s a : fa_wf s → 0 < a → 0 < fa_rc s a → is_frame a;

  fa_alloc_spec s : fa_wf s →
    wp fa_alloc (λ a s',
      (a = PMM_ALLOC_FAILED ∧ s' = s ∧ fa_avail s = 0) ∨
      (is_frame a ∧ fa_rc s a = 0 ∧ fa_wf s' ∧ rc_update (fa_rc s) (fa_rc s') a 1 ∧
       fa_avail s' = fa_avail s - 1 ∧ 0 <= fa_avail s')) s;

  fa_free_spec s a : fa_wf s → 0 < a → 0 < fa_rc s a →
    wp (fa_free a) (λ _ s',
      fa_wf s' ∧ rc_update (fa_rc s) (fa_rc s') a (fa_rc s a - 1) ∧
      fa_avail s' = fa_avail s + (if fa_rc s a =? 1 then 1 else 0)) s;

  fa_ref_spec s a : fa_wf s → 0 < a → 0 < fa_rc s a < 65535 →
    wp (fa_ref a) (λ _ s',
      fa_wf s' ∧ rc_update (fa_rc s) (fa_rc s') a (fa_rc s a + 1) ∧
      fa_avail s' = fa_avail s) s;

  fa_refcount_spec s a : fa_wf s → 0 < a → 0 < fa_rc s a →
    wp (fa_refcount a) (λ n s', n = fa_rc s a ∧ s' = s) s;
}.

Lemma is_frame_not_failed a : is_frame a → a ≠ PMM_ALLOC_FAILED.
Proof. unfold is_frame, PMM_MAX_PHYS, PMM_ALLOC_FAILED. lia. Qed.
