(* ===== verification/Pmm.v ===== *)
(** * Physical memory manager ([kernel/mm/pmm.c]): the model

    The bitmap allocator of 4 KiB frames with reference counts: its static
    variables as a record, the memory-map parsers of the two boot protocols,
    and every operation of the public interface.  The kprintf calls of the
    source only log and are left out. *)


From Stdlib Require Import ZArith Lia.
From S2P Require Import Prelude Memory Frames.
Import StringC.

(** The static variables of pmm.c. *)
Record pmm_state := Pmm {
  pmm_bitmap : array;
  pmm_refcount : array;
  pmm_total_frames : Z;
  pmm_free_frames : Z;
  pmm_next_hint : Z;
}.

Definition set_bitmap (b : array) (s : pmm_state) : pmm_state :=
  Pmm b (pmm_refcount s) (pmm_total_frames s) (pmm_free_frames s) (pmm_next_hint s).
Definition set_refcount (r : array) (s : pmm_state) : pmm_state :=
  Pmm (pmm_bitmap s) r (pmm_total_frames s) (pmm_free_frames s) (pmm_next_hint s).
Definition set_total (n : Z) (s : pmm_state) : pmm_state :=
  Pmm (pmm_bitmap s) (pmm_refcount s) n (pmm_free_frames s) (pmm_next_hint s).
Definition set_free (n : Z) (s : pmm_state) : pmm_state :=
  Pmm (pmm_bitmap s) (pmm_refcount s) (pmm_total_frames s) n (pmm_next_hint s).
Definition set_hint (n : Z) (s : pmm_state) : pmm_state :=
  Pmm (pmm_bitmap s) (pmm_refcount s) (pmm_total_frames s) (pmm_free_frames s) n.

(** ** Bit-level helpers *)

Definition bit_mask (k : Z) : Z := u8 (Z.shiftl 1 k).

Definition frame_set_used (f : Z) (s : pmm_state) : pmm_state :=
  let i := Z.shiftr f 3 in
  set_bitmap (write8 (pmm_bitmap s) i (read8 (pmm_bitmap s) i .| bit_mask (f .& 7))) s.

Definition frame_set_free (f : Z) (s : pmm_state) : pmm_state :=
  let i := Z.shiftr f 3 in
  set_bitmap (write8 (pmm_bitmap s) i
    (read8 (pmm_bitmap s) i .& u8 (Z.lnot (Z.shiftl 1 (f .& 7))))) s.

Definition frame_is_free (s : pmm_state) (f : Z) : bool :=
  (read8 (pmm_bitmap s) (Z.shiftr f 3) .& bit_mask (f .& 7)) =? 0.

Definition refcount (s : pmm_state) (f : Z) : Z := u16 (arr_get (pmm_refcount s) f).
Definition put_refcount (f v : Z) (s : pmm_state) : pmm_state :=
  set_refcount (arr_set (pmm_refcount s) f (u16 v)) s.

(** ** Region helpers *)

Definition region_mark_free (base len : Z) (s : pmm_state) : pmm_state :=
  let first := base / PMM_FRAME_SIZE in
  let last := u64 (base + len) / PMM_FRAME_SIZE in
  for_range first (Z.min last (pmm_total_frames s)) (λ f s,
    if frame_is_free s f then s
    else
      let s := frame_set_free f s in
      let s := put_refcount f 0 s in
      set_free (u64 (pmm_free_frames s + 1)) s) s.

Definition region_mark_used (base len : Z) (s : pmm_state) : pmm_state :=
  let first := base / PMM_FRAME_SIZE in
  let last := ALIGN_UP (u64 (base + len)) PMM_FRAME_SIZE / PMM_FRAME_SIZE in
  for_range first (Z.min last (pmm_total_frames s)) (λ f s,
    if frame_is_free s f then
      let s := frame_set_used f s in
      let s := put_refcount f 1 s in
      set_free (u64 (pmm_free_frames s - 1)) s
    else s) s.

(** ** Allocation *)

(** The loop over the bits of one byte; [n] is [8 - bit]. *)
Fixpoint scan_bits (n : nat) (byte bit : Z) (s : pmm_state) : option Z :=
  match n with
  | O => None
  | S n' =>
      let f := byte * 8 + bit in
      if pmm_total_frames s <=? f then None
      else if (read8 (pmm_bitmap s) byte .& bit_mask bit) =? 0 then Some f
      else scan_bits n' byte (bit + 1) s
  end.

(** The loop over the bytes of one pass; [n] is [byte_end - byte]. *)
Fixpoint scan_bytes (n : nat) (byte : Z) (s : pmm_state) : option Z :=
  match n with
  | O => None
  | S n' =>
      if read8 (pmm_bitmap s) byte =? 255 then scan_bytes n' (byte + 1) s
      else match scan_bits 8 byte 0 s with
           | Some f => Some f
           | None => scan_bytes n' (byte + 1) s
           end
  end.

Definition scan_range (lo hi : Z) (s : pmm_state) : option Z :=
  scan_bytes (Z.to_nat (hi - lo)) lo s.

(** The body reached when a clear bit is found. *)
Definition take_frame (f : Z) (s : pmm_state) : pmm_state :=
  let s := frame_set_used f s in
  let s := put_refcount f 1 s in
  let s := set_free (u64 (pmm_free_frames s - 1)) s in
  set_hint (f + 1) s.

Definition pmm_alloc_frame : M pmm_state Z := λ s,
  if pmm_free_frames s =? 0 then Ret (PMM_ALLOC_FAILED, s)
  else
    let n_bytes := (pmm_total_frames s + 7) / 8 in
    let start_byte := Z.shiftr (pmm_next_hint s) 3 in
    let found :=
      match scan_range start_byte n_bytes s with
      | Some f => Some f
      | None => scan_range 0 start_byte s
      end in
    match found with
    | Some f => Ret (u64 (f * PMM_FRAME_SIZE), take_frame f s)
    | None => Ret (PMM_ALLOC_FAILED, s)
    end.

Definition pmm_free_frame (phys_addr : Z) : M pmm_state () :=
  KASSERT ((phys_addr .& (PMM_FRAME_SIZE - 1)) =? 0) "aligned";;
  let f := phys_addr / PMM_FRAME_SIZE in
  s ← get;
  KASSERT (f <? pmm_total_frames s) "f < pmm_total_frames";;
  KASSERT (negb (frame_is_free s f)) "!frame_is_free(f)";;
  KASSERT (0 <? refcount s f) "pmm_refcount[f] > 0";;
  modify (put_refcount f (refcount s f - 1));;
  s ← get;
  if 0 <? refcount s f then mret ()
  else
    modify (frame_set_free f);;
    modify (λ s, if f <? pmm_next_hint s then set_hint f s else s);;
    modify (λ s, set_free (u64 (pmm_free_frames s + 1)) s).

Definition pmm_ref_frame (phys_addr : Z) : M pmm_state () :=
  KASSERT ((phys_addr .& (PMM_FRAME_SIZE - 1)) =? 0) "aligned";;
  let f := phys_addr / PMM_FRAME_SIZE in
  s ← get;
  KASSERT (f <? pmm_total_frames s) "f < pmm_total_frames";;
  KASSERT (negb (frame_is_free s f)) "!frame_is_free(f)";;
  KASSERT (0 <? refcount s f) "pmm_refcount[f] > 0";;
  KASSERT (refcount s f <? 65535) "pmm_refcount[f] < UINT16_MAX";;
  modify (put_refcount f (refcount s f + 1)).

Definition pmm_frame_refcount (phys_addr : Z) : M pmm_state Z :=
  KASSERT ((phys_addr .& (PMM_FRAME_SIZE - 1)) =? 0) "aligned";;
  let f := phys_addr / PMM_FRAME_SIZE in
  s ← get;
  KASSERT (f <? pmm_total_frames s) "f < pmm_total_frames";;
  mret (refcount s f).

(** The search loop of pmm_alloc_contiguous; [n] is [pmm_total_frames - f]. *)
Fixpoint contig_scan (n : nat) (f run_start run_len count : Z) (s : pmm_state) : option Z :=
  match n with
  | O => None
  | S n' =>
      if frame_is_free s f then
        let run_start := if run_len =? 0 then f else run_start in
        let run_len := u32 (run_len + 1) in
        if run_len =? count then Some run_start
        else contig_scan n' (f + 1) run_start run_len count s
      else contig_scan n' (f + 1) run_start 0 count s
  end.

Definition pmm_alloc_contiguous (count : Z) : M pmm_state Z := λ s,
  if (count =? 0) || (pmm_free_frames s <? count) then Ret (PMM_ALLOC_FAILED, s)
  else
    match contig_scan (Z.to_nat (pmm_total_frames s)) 0 0 0 count s with
    | Some run_start =>
        let s := for_range run_start (run_start + count) (λ j s,
                   put_refcount j 1 (frame_set_used j s)) s in
        Ret (u64 (run_start * PMM_FRAME_SIZE),
             set_free (u64 (pmm_free_frames s - count)) s)
    | None => Ret (PMM_ALLOC_FAILED, s)
    end.

Definition pmm_total_bytes (s : pmm_state) : Z := u64 (pmm_total_frames s * PMM_FRAME_SIZE).
Definition pmm_free_bytes (s : pmm_state) : Z := u64 (pmm_free_frames s * PMM_FRAME_SIZE).

(** ** Memory-map parsers

    The boot structures ([include/multiboot2.h], [arch/x86_64/boot/pvh.h]) are
    packed structs in memory: a field is a little-endian read at its offset. *)

Definition MB2_BOOTLOADER_MAGIC : Z := 0x36D76289.
Definition MB2_TAG_END : Z := 0.
Definition MB2_TAG_MMAP : Z := 6.
Definition MB2_MMAP_AVAILABLE : Z := 1.
Definition HVM_START_MAGIC : Z := 0x336ec578.
Definition HVM_MMAP_RAM : Z := 1.

(** hvm_start_info_t *)
Definition si_magic (m : mem) (si : Z) := read32 m si.
Definition si_memmap_paddr (m : mem) (si : Z) := read64 m (si + 40).
Definition si_memmap_entries (m : mem) (si : Z) := read32 m (si + 48).

(** hvm_memmap_entry_t and mb2_mmap_entry_t have the same layout. *)
Definition ent_addr (m : mem) (e : Z) := read64 m e.
Definition ent_size (m : mem) (e : Z) := read64 m (e + 8).
Definition ent_type (m : mem) (e : Z) := read32 m (e + 16).
Definition sizeof_entry : Z := 24.

(** mb2_info_t, mb2_tag_t, mb2_tag_mmap_t *)
Definition info_total_size (m : mem) (p : Z) := read32 m p.
Definition tag_type (m : mem) (p : Z) := read32 m p.
Definition tag_size (m : mem) (p : Z) := read32 m (p + 4).
Definition tag_entry_size (m : mem) (p : Z) := read32 m (p + 8).

(** [ALIGN_UP(tag->size, 8)]: both operands are 32 bits wide. *)
Definition ALIGN_UP32 (v a : Z) : Z := u32 (v + a - 1) .& u32 (Z.lnot (a - 1)).

Definition raise_top (m : mem) (e top : Z) : Z :=
  let end_ := u64 (ent_addr m e + ent_size m e) in
  if top <? end_ then end_ else top.

Definition clamp_total (top : Z) : Z :=
  (if PMM_MAX_PHYS <? top then PMM_MAX_PHYS else top) / PMM_FRAME_SIZE.

Definition pvh_top (m : mem) (mmap count : Z) : Z :=
  for_range 0 count (λ i top,
    let e := mmap + i * sizeof_entry in
    if ent_type m e =? HVM_MMAP_RAM then raise_top m e top else top) 0.

Definition pmm_calc_total_frames_pvh (m : mem) (mmap count : Z) (s : pmm_state) : pmm_state :=
  set_total (clamp_total (pvh_top m mmap count)) s.

(** [while (p + entry_size <= end)] *)
Fixpoint mb2_top (fuel : nat) (m : mem) (p end_ esz top : Z) : option Z :=
  match fuel with
  | O => None
  | S fuel' =>
      if p + esz <=? end_ then
        mb2_top fuel' m (p + esz) end_ esz
          (if ent_type m p =? MB2_MMAP_AVAILABLE then raise_top m p top else top)
      else Some top
  end.

(** The loops over the entries of a tag are given one iteration per byte of
    the tag and one more; an entry size of 0 is the only way to need more. *)
Definition tag_fuel (p end_ : Z) : nat := S (Z.to_nat (end_ - p)).

Definition pmm_calc_total_frames_mb2 (m : mem) (tag : Z) : M pmm_state () :=
  let p := tag + 16 in
  let end_ := tag + tag_size m tag in
  match mb2_top (tag_fuel p end_) m p end_ (tag_entry_size m tag) 0 with
  | Some top => modify (set_total (clamp_total top))
  | None => no_fuel
  end.

(** [memset] of the two arrays and [pmm_free_frames = 0]. *)
Definition pmm_clear (s : pmm_state) : pmm_state :=
  set_free 0 (set_refcount (arr_fill 0) (set_bitmap (arr_fill 0xFF) s)).

Definition pmm_parse_pvh (m : mem) (info_phys : Z) : M pmm_state () :=
  KASSERT (si_magic m info_phys =? HVM_START_MAGIC) "PMM: PVH start_info magic mismatch";;
  let count := si_memmap_entries m info_phys in
  let mmap := si_memmap_paddr m info_phys in
  modify (pmm_calc_total_frames_pvh m mmap count);;
  modify pmm_clear;;
  modify (for_range 0 count (λ i s,
    let e := mmap + i * sizeof_entry in
    if ent_type m e =? HVM_MMAP_RAM then region_mark_free (ent_addr m e) (ent_size m e) s
    else s)).

(** The tag walk of pmm_parse_mb2: the address of the memory-map tag, 0 when
    there is none. *)
Fixpoint mb2_find_mmap (fuel : nat) (m : mem) (p end_ : Z) : option Z :=
  match fuel with
  | O => None
  | S fuel' =>
      if p <? end_ then
        if tag_type m p =? MB2_TAG_END then Some 0
        else if tag_type m p =? MB2_TAG_MMAP then Some p
        else mb2_find_mmap fuel' m (p + ALIGN_UP32 (tag_size m p) 8) end_
      else Some 0
  end.

Fixpoint mb2_mark (fuel : nat) (m : mem) (ep eend esz : Z) (s : pmm_state) : option pmm_state :=
  match fuel with
  | O => None
  | S fuel' =>
      if ep + esz <=? eend then
        mb2_mark fuel' m (ep + esz) eend esz
          (if ent_type m ep =? MB2_MMAP_AVAILABLE
           then region_mark_free (ent_addr m ep) (ent_size m ep) s else s)
      else Some s
  end.

Definition pmm_parse_mb2 (m : mem) (info_phys : Z) : M pmm_state () :=
  let p := info_phys + 8 in
  let end_ := info_phys + info_total_size m info_phys in
  match mb2_find_mmap (tag_fuel p end_) m p end_ with
  | None => no_fuel
  | Some mmap_tag =>
      if mmap_tag =? 0 then panic "PMM: no Multiboot2 memory-map tag found"
      else
        pmm_calc_total_frames_mb2 m mmap_tag;;
        modify pmm_clear;;
        let ep := mmap_tag + 16 in
        let eend := mmap_tag + tag_size m mmap_tag in
        modify_opt (mb2_mark (tag_fuel ep eend) m ep eend (tag_entry_size m mmap_tag))
  end.

(** [kernel_end] is the address of the linker symbol [_kernel_end]. *)
Definition pmm_init (kernel_end : Z) (m : mem) (boot_magic boot_info_phys : Z) : M pmm_state () :=
  (if boot_magic =? MB2_BOOTLOADER_MAGIC then pmm_parse_mb2 m boot_info_phys
   else if negb (boot_info_phys =? 0) && (si_magic m boot_info_phys =? HVM_START_MAGIC)
   then pmm_parse_pvh m boot_info_phys
   else panic "PMM: cannot locate a memory map");;
  s ← get;
  KASSERT (0 <? pmm_total_frames s) "pmm_total_frames > 0";;
  modify (set_hint 0);;
  modify (region_mark_used 0 0x100000);;
  modify (region_mark_used 0x100000 (u64 (kernel_end - 0x100000))).
