(* ===== verification/PmmInv.v ===== *)
(** * Physical memory manager: the invariant and the interface

    The bit-level facts of the bitmap, the invariant [pmm_wf] that ties the free
    counter and the search hint to it, the effect of every operation on a
    well-formed state, and the instance [pmm_frame_allocator] of the interface
    the page-table code is verified against. *)

From Stdlib Require Import ZArith Lia.
From S2P Require Import Prelude Memory Frames Pmm.
Import StringC.

(** ** Bitmap lemmas *)

Lemma bit_mask_pow k : 0 <= k < 8 → bit_mask k = 2^k.
Proof.
  intros. unfold bit_mask. rewrite Z.shiftl_1_l. apply u8_small.
  split; [lia|]. apply Z.pow_lt_mono_r; lia.
Qed.

Lemma land_pow2_eqb x k : 0 <= k → (x .& 2^k =? 0) = negb (Z.testbit x k).
Proof.
  intros Hk. destruct (Z.testbit x k) eqn:E; simpl.
  - apply Z.eqb_neq. intros H0.
    assert (Z.testbit (x .& 2^k) k = true) as H1
      by (rewrite Z.land_spec, E, Z.pow2_bits_true by lia; done).
    rewrite H0, Z.bits_0 in H1. done.
  - apply Z.eqb_eq, Z.bits_inj'. intros n Hn. rewrite Z.land_spec, Z.bits_0.
    destruct (decide (n = k)) as [->|]; [rewrite E; done|].
    rewrite Z.pow2_bits_false by lia. apply andb_false_r.
Qed.

Lemma frame_coords f : 0 <= f → Z.shiftr f 3 = f / 8 ∧ f .& 7 = f mod 8.
Proof.
  intros. split; [apply Z.shiftr_div_pow2; lia|]. apply (land_low_mod f 3). lia.
Qed.

Lemma frame_is_free_testbit s f :
  0 <= f → frame_is_free s f = negb (Z.testbit (read8 (pmm_bitmap s) (f / 8)) (f mod 8)).
Proof.
  intros Hf. unfold frame_is_free. destruct (frame_coords f Hf) as [-> ->].
  pose proof (Z.mod_pos_bound f 8). rewrite bit_mask_pow, land_pow2_eqb by lia. done.
Qed.

Lemma frame_is_free_bits s byte bit :
  0 <= byte → 0 <= bit < 8 →
  ((read8 (pmm_bitmap s) byte .& bit_mask bit) =? 0) = frame_is_free s (byte * 8 + bit).
Proof.
  intros. rewrite frame_is_free_testbit, bit_mask_pow, land_pow2_eqb by lia.
  rewrite Z.div_add_l, Z.div_small, Z.add_0_r by lia.
  rewrite Z.add_comm, Z.mod_add, Z.mod_small by lia. done.
Qed.

(** Writing one bit of one byte; the two helpers are the two instances. *)
Lemma frame_is_free_write s v f g b :
  0 <= f → 0 <= g → 0 <= v < 2^8 →
  (∀ k, 0 <= k < 8 → Z.testbit v k =
     if k =? f mod 8 then b else Z.testbit (read8 (pmm_bitmap s) (f / 8)) k) →
  frame_is_free (set_bitmap (write8 (pmm_bitmap s) (f / 8) v) s) g =
    if f =? g then negb b else frame_is_free s g.
Proof.
  intros Hf Hg Hv Hbits. rewrite !frame_is_free_testbit by done. simpl.
  pose proof (Z.mod_pos_bound g 8). pose proof (Z.mod_pos_bound f 8).
  rewrite read8_write8. destruct (Z.eqb_spec (f / 8) (g / 8)) as [E|E].
  - rewrite u8_small by done. rewrite Hbits by lia. rewrite E.
    destruct (Z.eqb_spec (g mod 8) (f mod 8)) as [E'|E'].
    + replace (f =? g) with true; [done|]. symmetry. apply Z.eqb_eq.
      rewrite (Z.div_mod f 8), (Z.div_mod g 8) by lia. congruence.
    + replace (f =? g) with false; [done|]. symmetry. apply Z.eqb_neq. congruence.
  - replace (f =? g) with false; [done|]. symmetry. apply Z.eqb_neq. congruence.
Qed.

Lemma u8_bits_low x k : 0 <= k < 8 → Z.testbit (u8 x) k = Z.testbit x k.
Proof. intros. unfold u8. apply Z.mod_pow2_bits_low. lia. Qed.

Lemma land_u8_range x y : 0 <= x < 2^8 → 0 <= x .& u8 y < 2^8.
Proof.
  intros Hx. pose proof (u8_range y). split; [apply Z.land_nonneg; lia|].
  destruct (decide (x .& u8 y = 0)) as [->|Hne]; [lia|].
  apply Z.log2_lt_pow2; [pose proof (proj2 (Z.land_nonneg x (u8 y))); lia|].
  eapply Z.le_lt_trans; [apply Z.log2_land; lia|].
  destruct (decide (x = 0)) as [->|]; [simpl in *; lia|].
  apply Z.min_lt_iff. left. apply Z.log2_lt_pow2; lia.
Qed.

Lemma lor_u8_range x y : 0 <= x < 2^8 → 0 <= y < 2^8 → 0 <= x .| y < 2^8.
Proof.
  intros Hx Hy. split; [apply Z.lor_nonneg; lia|].
  destruct (decide (x .| y = 0)) as [->|Hne]; [lia|].
  apply Z.log2_lt_pow2; [pose proof (proj2 (Z.lor_nonneg x y)); lia|].
  rewrite Z.log2_lor by lia.
  assert (∀ z, 0 <= z < 2^8 → Z.log2 z < 8).
  { intros z Hz. destruct (decide (z = 0)) as [->|]; [simpl; lia|].
    apply Z.log2_lt_pow2; lia. }
  apply Z.max_lub_lt; auto.
Qed.

Lemma frame_is_free_set_used s f g :
  0 <= f → 0 <= g →
  frame_is_free (frame_set_used f s) g = if f =? g then false else frame_is_free s g.
Proof.
  intros Hf Hg. unfold frame_set_used. destruct (frame_coords f Hf) as [-> ->].
  pose proof (Z.mod_pos_bound f 8). pose proof (read8_range (pmm_bitmap s) (f / 8)).
  rewrite bit_mask_pow by lia. change false with (negb true).
  apply frame_is_free_write; [done..| |].
  - apply lor_u8_range; [done|]. split; [lia|]. apply Z.pow_lt_mono_r; lia.
  - intros k Hk. rewrite Z.lor_spec, Z.pow2_bits_eqb, Z.eqb_sym by lia.
    case_if; [apply orb_true_r | apply orb_false_r].
Qed.

Lemma frame_is_free_set_free s f g :
  0 <= f → 0 <= g →
  frame_is_free (frame_set_free f s) g = if f =? g then true else frame_is_free s g.
Proof.
  intros Hf Hg. unfold frame_set_free. destruct (frame_coords f Hf) as [-> ->].
  pose proof (Z.mod_pos_bound f 8). pose proof (read8_range (pmm_bitmap s) (f / 8)).
  change true with (negb false).
  apply frame_is_free_write; [done..| |].
  - by apply land_u8_range.
  - intros k Hk. rewrite Z.land_spec, u8_bits_low, Z.lnot_spec, Z.shiftl_1_l by lia.
    rewrite Z.pow2_bits_eqb, Z.eqb_sym by lia.
    case_if; simpl; [apply andb_false_r | apply andb_true_r].
Qed.

(** ** The invariant *)

Definition nframes (s : pmm_state) : nat := Z.to_nat (pmm_total_frames s).

(** What holds from the moment the bitmap is cleared: the counter counts the
    clear bits below the limit and a free frame has no references. *)
Record pmm_core (s : pmm_state) : Prop := {
  core_total : 0 <= pmm_total_frames s <= PMM_MAX_FRAMES;
  core_free : pmm_free_frames s = count_if (frame_is_free s) (nframes s);
  core_rc : ∀ f, 0 <= f < pmm_total_frames s → frame_is_free s f = true → refcount s f = 0;
}.

(** What holds once pmm_init has returned: besides, no frame below the search
    hint is free and frame 0 is never free. *)
Record pmm_wf (s : pmm_state) : Prop := {
  wf_core : pmm_core s;
  wf_pos : 0 < pmm_total_frames s;
  wf_hint : 0 <= pmm_next_hint s <= pmm_total_frames s;
  wf_below : ∀ f, 0 <= f < pmm_next_hint s → frame_is_free s f = false;
  wf_zero : frame_is_free s 0 = false;
}.

Create HintDb pmm.
Create Rewrite HintDb pmm.
#[export] Hint Resolve wf_core core_total core_rc : pmm.

Lemma refcount_put s f g v :
  refcount (put_refcount f v s) g = if f =? g then u16 v else refcount s g.
Proof.
  unfold refcount, put_refcount; simpl. rewrite arr_get_set. case_if; [apply u16_u16|done].
Qed.

Lemma frame_is_free_put_refcount s f v g :
  frame_is_free (put_refcount f v s) g = frame_is_free s g.
Proof. reflexivity. Qed.

Lemma frame_is_free_set_free_count s n g : frame_is_free (set_free n s) g = frame_is_free s g.
Proof. reflexivity. Qed.

Lemma frame_is_free_set_hint s n g : frame_is_free (set_hint n s) g = frame_is_free s g.
Proof. reflexivity. Qed.

#[export] Hint Rewrite frame_is_free_put_refcount frame_is_free_set_free_count
  frame_is_free_set_hint : pmm.

Lemma core_free_bounds s : pmm_core s → 0 <= pmm_free_frames s <= pmm_total_frames s.
Proof.
  intros [Ht Hf _]. rewrite Hf. pose proof (count_if_bounds (frame_is_free s) (nframes s)).
  unfold nframes in *. lia.
Qed.

Lemma core_free_pos s f :
  pmm_core s → 0 <= f < pmm_total_frames s → frame_is_free s f = true → 0 < pmm_free_frames s.
Proof.
  intros Hc Hf E. destruct (decide (pmm_free_frames s = 0)) as [H0|].
  - rewrite (core_free s Hc) in H0.
    rewrite (count_if_zero _ _ f H0) in E; [done|]. unfold nframes. lia.
  - pose proof (core_free_bounds s Hc). lia.
Qed.

Lemma max_frames_small : PMM_MAX_FRAMES = 2^20.
Proof. reflexivity. Qed.

(** Taking one free frame out, with any new count of at most 16 bits. *)
Definition mark_used (f v : Z) (s : pmm_state) : pmm_state :=
  let s := put_refcount f v (frame_set_used f s) in
  set_free (u64 (pmm_free_frames s - 1)) s.

Lemma mark_used_core s f v :
  pmm_core s → 0 <= f < pmm_total_frames s → frame_is_free s f = true →
  pmm_core (mark_used f v s) ∧ pmm_free_frames (mark_used f v s) = pmm_free_frames s - 1.
Proof.
  intros Hc Hf E. pose proof (core_free_bounds s Hc). pose proof (core_free_pos s f Hc Hf E).
  pose proof (core_total s Hc) as Ht. rewrite max_frames_small in Ht.
  assert (pmm_free_frames (mark_used f v s) = pmm_free_frames s - 1) as Hcount
    by (unfold mark_used; simpl; apply u64_small; lia).
  split; [|done]. split; [apply (core_total s Hc)| |].
  - rewrite Hcount, (core_free s Hc).
    symmetry. apply (count_if_clear _ _ _ f).
    + unfold nframes; simpl; lia.
    + done.
    + unfold mark_used. autorewrite with pmm. rewrite frame_is_free_set_used by lia.
      by rewrite Z.eqb_refl.
    + intros i Hi Hne. unfold mark_used. autorewrite with pmm.
      rewrite frame_is_free_set_used by lia. by rewrite (proj2 (Z.eqb_neq f i)).
  - intros g Hg. unfold mark_used. autorewrite with pmm.
    rewrite frame_is_free_set_used by lia. case_if; [done|]. intros Hfree.
    unfold set_free, refcount; simpl. rewrite arr_get_set_ne by done.
    apply (core_rc s Hc g Hg Hfree).
Qed.

(** Giving one used frame back. *)
Definition mark_free (f : Z) (s : pmm_state) : pmm_state :=
  let s := put_refcount f 0 (frame_set_free f s) in
  set_free (u64 (pmm_free_frames s + 1)) s.

Lemma mark_free_core s f :
  pmm_core s → 0 <= f < pmm_total_frames s → frame_is_free s f = false →
  pmm_core (mark_free f s) ∧ pmm_free_frames (mark_free f s) = pmm_free_frames s + 1.
Proof.
  intros Hc Hf E. pose proof (core_free_bounds s Hc).
  pose proof (core_total s Hc) as Ht. rewrite max_frames_small in Ht.
  assert (pmm_free_frames (mark_free f s) = pmm_free_frames s + 1) as Hcount
    by (unfold mark_free; simpl; apply u64_small; lia).
  split; [|done]. split; [apply (core_total s Hc)| |].
  - rewrite Hcount, (core_free s Hc).
    symmetry. apply (count_if_set _ _ _ f).
    + unfold nframes; simpl; lia.
    + done.
    + unfold mark_free. autorewrite with pmm. rewrite frame_is_free_set_free by lia.
      by rewrite Z.eqb_refl.
    + intros i Hi Hne. unfold mark_free. autorewrite with pmm.
      rewrite frame_is_free_set_free by lia. by rewrite (proj2 (Z.eqb_neq f i)).
  - intros g Hg. unfold mark_free. autorewrite with pmm.
    rewrite frame_is_free_set_free by lia.
    unfold set_free, refcount; simpl. rewrite arr_get_set.
    case_if; [done|]. intros Hfree. apply (core_rc s Hc g Hg Hfree).
Qed.

(** ** The search for a free frame *)

(** [found lo hi s o]: [o] is the lowest free frame of [lo, hi) below the limit. *)
Definition found (lo hi : Z) (s : pmm_state) (o : option Z) : Prop :=
  match o with
  | Some f => lo <= f < hi ∧ f < pmm_total_frames s ∧ frame_is_free s f = true ∧
              ∀ g, lo <= g < f → frame_is_free s g = false
  | None => ∀ g, lo <= g < hi → g < pmm_total_frames s → frame_is_free s g = false
  end.

Lemma found_app lo mid hi s o o' :
  lo <= mid <= hi → found lo mid s o → found mid hi s o' →
  mid <= pmm_total_frames s ∨ o' = None →
  found lo hi s (match o with Some f => Some f | None => o' end).
Proof.
  intros Hle H1 H2 Hm. destruct o as [f|]; simpl in *.
  - destruct H1 as (?&?&?&?). split_and!; first [lia | done].
  - destruct o' as [f|]; simpl in *.
    + destruct H2 as (?&?&?&Hlow), Hm as [Hm|]; [|done]. split_and!; try first [lia | done].
      intros g Hg. destruct (decide (g < mid)); [apply H1; lia | apply Hlow; lia].
    + intros g Hg Ht. destruct (decide (g < mid)); [apply H1 | apply H2]; lia.
Qed.

Lemma scan_bits_found n byte bit s :
  0 <= byte → 0 <= bit → bit + Z.of_nat n = 8 →
  found (byte * 8 + bit) (byte * 8 + 8) s (scan_bits n byte bit s).
Proof.
  revert bit; induction n as [|n IH]; intros bit Hby Hbi Hn; simpl.
  - intros g Hg. lia.
  - case_if; [simpl; intros; lia|].
    rewrite frame_is_free_bits by lia. destruct (frame_is_free s _) eqn:Ef.
    + simpl. split_and!; try first [lia | done].
    + specialize (IH (bit + 1) Hby ltac:(lia) ltac:(lia)).
      destruct (scan_bits n byte (bit + 1) s) as [f|]; simpl in *.
      * destruct IH as (?&?&?&Hlow). split_and!; try first [lia | done].
        intros g Hg. destruct (decide (g = byte * 8 + bit)) as [->|]; [done|apply Hlow; lia].
      * intros g Hg Ht. destruct (decide (g = byte * 8 + bit)) as [->|]; [done|apply IH; lia].
Qed.

Lemma byte_full_not_free s byte g :
  0 <= byte → read8 (pmm_bitmap s) byte = 255 → byte * 8 <= g < byte * 8 + 8 →
  frame_is_free s g = false.
Proof.
  intros Hby E Hg. rewrite frame_is_free_testbit by lia.
  replace (g / 8) with byte by (apply Z.div_unique with (g - byte * 8); lia).
  rewrite E. replace 255 with (Z.ones 8) by done.
  pose proof (Z.mod_pos_bound g 8). rewrite Z.ones_spec_low by lia. done.
Qed.

Lemma scan_bytes_found n byte s :
  0 <= byte → found (byte * 8) ((byte + Z.of_nat n) * 8) s (scan_bytes n byte s).
Proof.
  revert byte; induction n as [|n IH]; intros byte Hby; simpl.
  - intros g Hg. lia.
  - pose proof (IH (byte + 1) ltac:(lia)) as IH'.
    replace (byte + 1 + Z.of_nat n) with (byte + Z.of_nat (S n)) in IH' by lia.
    case_if.
    + eapply (found_app (byte * 8) ((byte + 1) * 8) _ s None); [lia| |exact IH'|].
      * intros g Hg _. apply (byte_full_not_free s byte); [done|done|lia].
      * destruct (scan_bytes n (byte + 1) s) as [f|]; [|by right]. left.
        destruct IH' as (?&?&?&?). lia.
    + pose proof (scan_bits_found 8 byte 0 s Hby ltac:(lia) ltac:(lia)) as Hb.
      replace (byte * 8 + 0) with (byte * 8) in Hb by lia.
      eapply (found_app (byte * 8) ((byte + 1) * 8)); [lia| |exact IH'|].
      * replace ((byte + 1) * 8) with (byte * 8 + 8) by lia. exact Hb.
      * destruct (scan_bytes n (byte + 1) s) as [f|]; [|by right]. left.
        destruct IH' as (?&?&?&?). lia.
Qed.

Lemma scan_range_found lo hi s :
  0 <= lo <= hi → found (lo * 8) (hi * 8) s (scan_range lo hi s).
Proof.
  intros. unfold scan_range. pose proof (scan_bytes_found (Z.to_nat (hi - lo)) lo s) as H'.
  replace (lo + Z.of_nat (Z.to_nat (hi - lo))) with hi in H' by lia. apply H'. lia.
Qed.

(** The two passes together cover every frame below the limit. *)
Lemma scan_first_free s :
  pmm_wf s → 0 < pmm_free_frames s →
  ∃ f, scan_range (Z.shiftr (pmm_next_hint s) 3) ((pmm_total_frames s + 7) / 8) s = Some f ∧
    0 < f < pmm_total_frames s ∧ frame_is_free s f = true ∧
    ∀ g, 0 <= g < f → frame_is_free s g = false.
Proof.
  intros Hwf Hfree. destruct Hwf as [Hc Hpos Hh Hbelow Hz].
  rewrite Z.shiftr_div_pow2 by lia. change (2^3) with 8.
  set (start := pmm_next_hint s / 8). set (nb := (pmm_total_frames s + 7) / 8).
  assert (0 <= start <= nb) as Hs.
  { split; [apply Z.div_pos; lia|]. unfold start, nb. apply Z.div_le_mono; lia. }
  assert (start * 8 <= pmm_next_hint s < start * 8 + 8) as Hst.
  { unfold start. pose proof (Z.div_mod (pmm_next_hint s) 8).
    pose proof (Z.mod_pos_bound (pmm_next_hint s) 8). lia. }
  assert (pmm_total_frames s <= nb * 8) as Hnb.
  { unfold nb. pose proof (Z.div_mod (pmm_total_frames s + 7) 8).
    pose proof (Z.mod_pos_bound (pmm_total_frames s + 7) 8). lia. }
  pose proof (scan_range_found start nb s Hs) as Hfound.
  destruct (scan_range start nb s) as [f|] eqn:E; simpl in Hfound.
  - destruct Hfound as (?&?&Hff&Hlow). exists f. split; [done|].
    assert (∀ g, 0 <= g < f → frame_is_free s g = false) as Hall.
    { intros g Hg. destruct (decide (g < pmm_next_hint s)); [apply Hbelow; lia|apply Hlow; lia]. }
    split_and!; try first [lia | done].
    destruct (decide (f = 0)) as [->|]; [congruence|lia].
  - exfalso. rewrite (core_free s Hc) in Hfree.
    apply count_if_pos in Hfree as (i & Hi & Ei). unfold nframes in Hi.
    destruct (decide (i < pmm_next_hint s)); [rewrite Hbelow in Ei by lia; done|].
    rewrite Hfound in Ei by lia. done.
Qed.

(** ** The operations *)

Lemma take_frame_mark f s : take_frame f s = set_hint (f + 1) (mark_used f 1 s).
Proof. reflexivity. Qed.

Lemma frame_addr_small s f :
  pmm_core s → 0 <= f < pmm_total_frames s → 0 <= f * PMM_FRAME_SIZE < PMM_MAX_PHYS.
Proof.
  intros Hc Hf. pose proof (core_total s Hc) as Ht. rewrite max_frames_small in Ht.
  unfold PMM_FRAME_SIZE, PMM_MAX_PHYS in *. lia.
Qed.

Lemma take_frame_wf s f :
  pmm_wf s → 0 < f < pmm_total_frames s → frame_is_free s f = true →
  (∀ g, 0 <= g < f → frame_is_free s g = false) →
  pmm_wf (take_frame f s) ∧ pmm_free_frames (take_frame f s) = pmm_free_frames s - 1.
Proof.
  intros [Hc Hpos Hh Hbelow Hz] Hf E Hlow. rewrite take_frame_mark.
  destruct (mark_used_core s f 1) as [Hc' Hn]; [done|lia|done|].
  split; [|done]. split.
  - destruct Hc' as [H1 H2 H3]. by split.
  - done.
  - simpl. lia.
  - simpl pmm_next_hint. intros g Hg. autorewrite with pmm. unfold mark_used.
    autorewrite with pmm. rewrite frame_is_free_set_used by lia.
    case_if; [done|]. apply Hlow. lia.
  - autorewrite with pmm. unfold mark_used. autorewrite with pmm.
    rewrite frame_is_free_set_used by lia. case_if; [done|]. done.
Qed.

(** pmm_alloc_frame fails exactly when nothing is free, and otherwise takes the
    lowest free frame. *)
Lemma pmm_alloc_frame_cases s :
  pmm_wf s →
  (pmm_free_frames s = 0 ∧ pmm_alloc_frame s = Ret (PMM_ALLOC_FAILED, s)) ∨
  ∃ f, pmm_alloc_frame s = Ret (f * PMM_FRAME_SIZE, take_frame f s) ∧
    0 < f < pmm_total_frames s ∧ frame_is_free s f = true ∧
    (∀ g, 0 <= g < f → frame_is_free s g = false).
Proof.
  intros Hwf. unfold pmm_alloc_frame. case_if; [by left|]. right.
  pose proof (core_free_bounds s (wf_core s Hwf)).
  destruct (scan_first_free s Hwf) as (f & -> & Hf & Hfree & Hlow); [lia|].
  exists f. split_and!; try done; try lia.
  pose proof (frame_addr_small s f (wf_core s Hwf) ltac:(lia)).
  rewrite u64_small; [done|]. unfold PMM_MAX_PHYS in *. lia.
Qed.

(** The effect of dropping one reference. *)
Definition drop_ref (f : Z) (s : pmm_state) : pmm_state :=
  if refcount s f =? 1
  then let s := frame_set_free f (put_refcount f 0 s) in
       let s := if f <? pmm_next_hint s then set_hint f s else s in
       set_free (u64 (pmm_free_frames s + 1)) s
  else put_refcount f (refcount s f - 1) s.

Lemma refcount_range s f : 0 <= refcount s f < 2^16.
Proof. apply u16_range. Qed.

Lemma held_not_free s f :
  pmm_core s → 0 <= f < pmm_total_frames s → 0 < refcount s f → frame_is_free s f = false.
Proof.
  intros Hc Hf Hr. destruct (frame_is_free s f) eqn:E; [|done].
  rewrite (core_rc s Hc f Hf E) in Hr. lia.
Qed.

(** The checks every operation on a frame address starts with. *)
Lemma frame_addr_checks f :
  0 <= f → (f * PMM_FRAME_SIZE .& (PMM_FRAME_SIZE - 1) =? 0) = true ∧
           f * PMM_FRAME_SIZE / PMM_FRAME_SIZE = f.
Proof.
  intros. unfold PMM_FRAME_SIZE. split; [|apply Z.div_mul; lia].
  rewrite (land_low_mod _ 12) by lia. change (2^12) with 4096.
  rewrite Z.mod_mul by lia. done.
Qed.

Lemma pmm_free_frame_eq s f :
  pmm_core s → 0 <= f < pmm_total_frames s → 0 < refcount s f →
  pmm_free_frame (f * PMM_FRAME_SIZE) s = Ret (tt, drop_ref f s).
Proof.
  intros Hc Hf Hr. unfold pmm_free_frame.
  destruct (frame_addr_checks f) as [-> ->]; [lia|].
  pose proof (refcount_range s f).
  unfold KASSERT, mbind, M_bind, mret, M_ret, get, modify.
  rewrite (proj2 (Z.ltb_lt f _)), (held_not_free s f), (proj2 (Z.ltb_lt 0 _)) by (done || lia).
  simpl. rewrite refcount_put, Z.eqb_refl, u16_small by lia. unfold drop_ref.
  destruct (Z.eqb_spec (refcount s f) 1) as [->|Hne].
  - simpl. by destruct (f <? pmm_next_hint s).
  - rewrite (proj2 (Z.ltb_lt 0 _)) by lia. done.
Qed.

Lemma drop_ref_shape s f :
  refcount s f = 1 → ∃ h, drop_ref f s = set_hint h (mark_free f s) ∧
    h = Z.min f (pmm_next_hint s).
Proof.
  intros Hr. unfold drop_ref. rewrite Hr. simpl.
  exists (Z.min f (pmm_next_hint s)). split; [|done].
  destruct (Z.ltb_spec f (pmm_next_hint s)); unfold mark_free, set_hint, set_free; simpl;
    f_equal; lia.
Qed.

Lemma put_refcount_core s f v :
  pmm_core s → 0 <= f < pmm_total_frames s → frame_is_free s f = false →
  pmm_core (put_refcount f v s).
Proof.
  intros Hc Hf E. split; [apply (core_total s Hc)|apply (core_free s Hc)|].
  intros g Hg. rewrite frame_is_free_put_refcount, refcount_put. intros Hfree.
  case_if; [congruence|]. by apply (core_rc s Hc).
Qed.

Lemma drop_ref_wf s f :
  pmm_wf s → 0 < f < pmm_total_frames s → 0 < refcount s f → pmm_wf (drop_ref f s).
Proof.
  intros [Hc Hpos Hh Hbelow Hz] Hf Hr.
  pose proof (held_not_free s f Hc ltac:(lia) Hr) as Hused.
  destruct (decide (refcount s f = 1)) as [H1|H1].
  - destruct (drop_ref_shape s f H1) as (h & -> & ->).
    destruct (mark_free_core s f Hc ltac:(lia) Hused) as [[C1 C2 C3] _].
    split; [by split|done|simpl; lia| |].
    + simpl pmm_next_hint. intros g Hg. autorewrite with pmm. unfold mark_free.
      autorewrite with pmm. rewrite frame_is_free_set_free by lia.
      case_if; [lia|]. apply Hbelow. lia.
    + autorewrite with pmm. unfold mark_free. autorewrite with pmm.
      rewrite frame_is_free_set_free by lia. case_if; [lia|done].
  - unfold drop_ref. rewrite (proj2 (Z.eqb_neq _ 1)) by done.
    split; [apply put_refcount_core; [done|lia|done]|done|done|done|done].
Qed.

Lemma drop_ref_counts s f :
  pmm_core s → 0 <= f < pmm_total_frames s → 0 < refcount s f →
  (∀ g, refcount (drop_ref f s) g = if f =? g then refcount s f - 1 else refcount s g) ∧
  pmm_free_frames (drop_ref f s) = pmm_free_frames s + (if refcount s f =? 1 then 1 else 0).
Proof.
  intros Hc Hf Hr. pose proof (held_not_free s f Hc Hf Hr) as Hused.
  pose proof (refcount_range s f).
  destruct (decide (refcount s f = 1)) as [H1|H1].
  - destruct (drop_ref_shape s f H1) as (h & -> & ->).
    destruct (mark_free_core s f Hc Hf Hused) as [_ Hn]. rewrite H1. split; [|exact Hn].
    intros g. change (refcount (put_refcount f 0 (frame_set_free f s)) g =
                      if f =? g then 0 else refcount s g).
    rewrite refcount_put. by case_if.
  - unfold drop_ref. rewrite (proj2 (Z.eqb_neq _ 1)) by done. split; [|simpl; lia].
    intros g. rewrite refcount_put. case_if; [apply u16_small; lia|done].
Qed.

Lemma pmm_ref_frame_eq s f :
  pmm_core s → 0 <= f < pmm_total_frames s → 0 < refcount s f < 65535 →
  pmm_ref_frame (f * PMM_FRAME_SIZE) s = Ret (tt, put_refcount f (refcount s f + 1) s).
Proof.
  intros Hc Hf Hr. unfold pmm_ref_frame.
  destruct (frame_addr_checks f) as [-> ->]; [lia|].
  unfold KASSERT, mbind, M_bind, mret, M_ret, get, modify.
  rewrite (proj2 (Z.ltb_lt f _)), (held_not_free s f), (proj2 (Z.ltb_lt 0 _)),
    (proj2 (Z.ltb_lt _ 65535)) by (done || lia).
  done.
Qed.

Lemma pmm_frame_refcount_eq s f :
  0 <= f < pmm_total_frames s →
  pmm_frame_refcount (f * PMM_FRAME_SIZE) s = Ret (refcount s f, s).
Proof.
  intros Hf. unfold pmm_frame_refcount.
  destruct (frame_addr_checks f) as [-> ->]; [lia|].
  unfold KASSERT, mbind, M_bind, mret, M_ret, get.
  rewrite (proj2 (Z.ltb_lt f _)) by lia. done.
Qed.

(** ** The bitmap allocator implements [FrameAllocator] *)

Definition pmm_rc (s : pmm_state) (a : Z) : Z :=
  if (0 <=? a) && (a mod PMM_FRAME_SIZE =? 0) && (a / PMM_FRAME_SIZE <? pmm_total_frames s)
  then refcount s (a / PMM_FRAME_SIZE) else 0.

Lemma pmm_rc_frame s f : 0 <= f < pmm_total_frames s → pmm_rc s (f * PMM_FRAME_SIZE) = refcount s f.
Proof.
  intros Hf. unfold pmm_rc, PMM_FRAME_SIZE. rewrite Z.mod_mul, Z.div_mul by lia.
  rewrite (proj2 (Z.leb_le 0 _)), (proj2 (Z.ltb_lt f _)) by lia. done.
Qed.

Lemma pmm_rc_pos s a :
  0 < pmm_rc s a →
  ∃ f, a = f * PMM_FRAME_SIZE ∧ 0 <= f < pmm_total_frames s ∧ 0 < refcount s f.
Proof.
  unfold pmm_rc. case_if; [|lia]. b2p. intros Hr. exists (a / PMM_FRAME_SIZE).
  unfold PMM_FRAME_SIZE in *. pose proof (Z.div_mod a 4096).
  split_and!; [lia|apply Z.div_pos; lia|lia|lia].
Qed.

Lemma pmm_rc_update s s' f v :
  0 <= f < pmm_total_frames s → pmm_total_frames s' = pmm_total_frames s →
  (∀ g, 0 <= g → refcount s' g = if f =? g then v else refcount s g) →
  rc_update (pmm_rc s) (pmm_rc s') (f * PMM_FRAME_SIZE) v.
Proof.
  intros Hf Ht Hr b. destruct (Z.eqb_spec (f * PMM_FRAME_SIZE) b) as [<-|Hne].
  - rewrite pmm_rc_frame by lia. rewrite Hr by lia. by rewrite Z.eqb_refl.
  - unfold pmm_rc. rewrite Ht. case_if; [|done]. b2p.
    assert (0 <= b / PMM_FRAME_SIZE) by (apply Z.div_pos; unfold PMM_FRAME_SIZE; lia).
    rewrite Hr by done. case_if; [|done]. exfalso. apply Hne.
    unfold PMM_FRAME_SIZE in *. pose proof (Z.div_mod b 4096). lia.
Qed.

Lemma is_frame_addr s f :
  pmm_core s → 0 < f < pmm_total_frames s → is_frame (f * PMM_FRAME_SIZE).
Proof.
  intros Hc Hf. pose proof (frame_addr_small s f Hc). unfold is_frame, PMM_FRAME_SIZE in *.
  rewrite Z.mod_mul by lia. lia.
Qed.

Lemma pmm_alloc_interface s : pmm_wf s →
  wp pmm_alloc_frame (λ a s',
    (a = PMM_ALLOC_FAILED ∧ s' = s ∧ pmm_free_frames s = 0) ∨
    (is_frame a ∧ pmm_rc s a = 0 ∧ pmm_wf s' ∧ rc_update (pmm_rc s) (pmm_rc s') a 1 ∧
     pmm_free_frames s' = pmm_free_frames s - 1 ∧ 0 <= pmm_free_frames s')) s.
Proof.
  intros Hwf. destruct (pmm_alloc_frame_cases s Hwf) as [[H0 E]|(f & E & Hf & Hfree & Hlow)];
    eapply wp_eq; try exact E; [by left|right].
  destruct (take_frame_wf s f Hwf Hf Hfree Hlow) as [Hwf' Hn].
  split_and!; [by eapply is_frame_addr, Hf; apply wf_core| |done| |done|].
  - rewrite pmm_rc_frame by lia. apply (core_rc s (wf_core s Hwf)); [lia|done].
  - apply pmm_rc_update; [lia|done|]. intros g Hg.
    change (refcount (put_refcount f 1 (frame_set_used f s)) g = if f =? g then 1 else refcount s g).
    rewrite refcount_put. by case_if.
  - apply (core_free_bounds _ (wf_core _ Hwf')).
Qed.

Lemma pmm_free_interface s a : pmm_wf s → 0 < a → 0 < pmm_rc s a →
  wp (pmm_free_frame a) (λ _ s',
    pmm_wf s' ∧ rc_update (pmm_rc s) (pmm_rc s') a (pmm_rc s a - 1) ∧
    pmm_free_frames s' = pmm_free_frames s + (if pmm_rc s a =? 1 then 1 else 0)) s.
Proof.
  intros Hwf Ha Hr. apply pmm_rc_pos in Hr as (f & -> & Hf & Hr).
  assert (0 < f) by (unfold PMM_FRAME_SIZE in *; lia).
  eapply wp_eq; [apply pmm_free_frame_eq; [apply Hwf|done|done]|].
  rewrite pmm_rc_frame by done.
  destruct (drop_ref_counts s f (wf_core s Hwf) Hf Hr) as [Hrc Hn].
  split_and!; [by apply drop_ref_wf; [|lia|]| |done].
  apply pmm_rc_update; [done| |by intros; apply Hrc].
  unfold drop_ref. case_if; [|done]. by destruct (f <? _).
Qed.

Lemma pmm_ref_interface s a : pmm_wf s → 0 < a → 0 < pmm_rc s a < 65535 →
  wp (pmm_ref_frame a) (λ _ s',
    pmm_wf s' ∧ rc_update (pmm_rc s) (pmm_rc s') a (pmm_rc s a + 1) ∧
    pmm_free_frames s' = pmm_free_frames s) s.
Proof.
  intros Hwf Ha [Hr Hlt]. pose proof Hr as (f & -> & Hf & Hr')%pmm_rc_pos.
  rewrite pmm_rc_frame in * by done.
  eapply wp_eq; [apply pmm_ref_frame_eq; [apply Hwf|done|done]|].
  pose proof (held_not_free s f (wf_core s Hwf) Hf Hr') as Hused.
  destruct Hwf as [Hc Hpos Hh Hbelow Hz]. split_and!; [| |done].
  - split; [by apply put_refcount_core|done..].
  - apply pmm_rc_update; [done..|]. intros g _. rewrite refcount_put.
    case_if; [apply u16_small; lia|done].
Qed.

Lemma pmm_refcount_interface s a : pmm_wf s → 0 < a → 0 < pmm_rc s a →
  wp (pmm_frame_refcount a) (λ n s', n = pmm_rc s a ∧ s' = s) s.
Proof.
  intros Hwf Ha Hr. apply pmm_rc_pos in Hr as (f & -> & Hf & Hr).
  eapply wp_eq; [by apply pmm_frame_refcount_eq|]. by rewrite pmm_rc_frame.
Qed.

#[export] Program Instance pmm_frame_allocator : FrameAllocator pmm_state := {
  fa_alloc := pmm_alloc_frame;
  fa_free := pmm_free_frame;
  fa_ref := pmm_ref_frame;
  fa_refcount := pmm_frame_refcount;
  fa_wf := pmm_wf;
  fa_rc := pmm_rc;
  fa_avail := pmm_free_frames;
  fa_alloc_spec := pmm_alloc_interface;
  fa_free_spec := pmm_free_interface;
  fa_ref_spec := pmm_ref_interface;
  fa_refcount_spec := pmm_refcount_interface;
}.
Next Obligation.
  intros s a Hwf. unfold pmm_rc. case_if; [apply refcount_range | lia].
Qed.
Next Obligation.
  intros s a Hwf Ha Hr. apply pmm_rc_pos in Hr as (f & -> & Hf & Hr).
  eapply is_frame_addr; [apply wf_core, Hwf|]. unfold PMM_FRAME_SIZE in *. lia.
Qed.
