(* ===== verification/PmmProps.v ===== *)
(** * Physical memory manager: properties

    Contiguous allocation, initialisation from the boot memory maps, and the
    properties of the allocator as its callers see them. *)

From Stdlib Require Import ZArith Lia.
From S2P Require Import Prelude Memory Frames Pmm PmmInv.
Import StringC.

(** ** Contiguous runs *)

Definition run_free (s : pmm_state) (lo n : Z) : Prop :=
  ∀ g, lo <= g < lo + n → frame_is_free s g = true.

(** The invariant of the search at frame [f]: the current run is the maximal
    one ending at [f], and no run of [count] frames ends at or before [f]. *)
Record contig_inv (s : pmm_state) (count f run_start run_len : Z) : Prop := {
  ci_len : 0 <= run_len < count ∧ run_len <= f;
  ci_start : 0 < run_len → run_start = f - run_len;
  ci_run : run_free s (f - run_len) run_len;
  ci_max : 0 < f - run_len → frame_is_free s (f - run_len - 1) = false;
  ci_none : ∀ lo, 0 <= lo → lo + count <= f → ¬ run_free s lo count;
}.

Definition contig_post (s : pmm_state) (count : Z) (o : option Z) : Prop :=
  match o with
  | Some r => 0 <= r ∧ r + count <= pmm_total_frames s ∧ run_free s r count ∧
              ∀ lo, 0 <= lo < r → ¬ run_free s lo count
  | None => ∀ lo, 0 <= lo → lo + count <= pmm_total_frames s → ¬ run_free s lo count
  end.

Lemma contig_inv_used s count f rs rl :
  0 < count → 0 <= f → contig_inv s count f rs rl → frame_is_free s f = false →
  contig_inv s count (f + 1) rs 0.
Proof.
  intros Hc Hf [Hl Hs Hr Hm Hn] E. split; [lia|lia| | |].
  - intros g Hg. lia.
  - intros _. by replace (f + 1 - 0 - 1) with f by lia.
  - intros lo Hlo Hle Hrun. destruct (decide (lo + count <= f)); [by eapply Hn|].
    rewrite Hrun in E by lia. done.
Qed.

(** Any run of [count] frames that ends at [f + 1] starts where the current
    run does. *)
Lemma contig_run_start s count f rs rl lo :
  0 <= lo → contig_inv s count f rs rl → lo + count = f + 1 → run_free s lo count →
  f - rl <= lo.
Proof.
  intros Hlo [Hl Hs Hr Hm Hn] Hle Hrun. destruct (decide (f - rl <= lo)); [done|].
  rewrite Hrun in Hm by lia. specialize (Hm ltac:(lia)). done.
Qed.

Lemma contig_inv_free s count f rs rl :
  contig_inv s count f rs rl → frame_is_free s f = true → rl + 1 ≠ count → 0 <= f →
  contig_inv s count (f + 1) (if rl =? 0 then f else rs) (rl + 1).
Proof.
  intros Hi E Hne Hf. pose proof Hi as [Hl Hs Hr Hm Hn]. split; [lia| | | |].
  - intros _. case_if; [lia|]. rewrite Hs by lia. lia.
  - intros g Hg. destruct (decide (g = f)) as [->|]; [done|apply Hr; lia].
  - replace (f + 1 - (rl + 1)) with (f - rl) by lia. done.
  - intros lo Hlo Hle Hrun. destruct (decide (lo + count <= f)); [by eapply Hn|].
    pose proof (contig_run_start s count f rs rl lo Hlo Hi ltac:(lia) Hrun). lia.
Qed.

Lemma contig_scan_post n f rs rl count s :
  0 <= f → f + Z.of_nat n = pmm_total_frames s → pmm_total_frames s < 2^32 →
  contig_inv s count f rs rl → contig_post s count (contig_scan n f rs rl count s).
Proof.
  revert f rs rl; induction n as [|n IH]; intros f rs rl Hf Hn Ht Hi; simpl.
  - intros lo Hlo Hle. apply (ci_none _ _ _ _ _ Hi); lia.
  - pose proof Hi as [Hl Hs Hr Hm Hnone]. destruct (frame_is_free s f) eqn:E.
    + rewrite u32_small by lia. destruct (Z.eqb_spec (rl + 1) count) as [Hc|Hc].
      * assert ((if rl =? 0 then f else rs) = f - rl) as -> by (case_if; [lia|apply Hs; lia]).
        simpl. split_and!; [lia|lia| |].
        -- intros g Hg. destruct (decide (g = f)) as [->|]; [done|apply Hr; lia].
        -- intros lo Hlo. apply Hnone; lia.
      * apply IH; [lia|lia|done|]. by apply contig_inv_free.
    + apply IH; [lia|lia|done|]. eapply contig_inv_used; [lia|done|done|done].
Qed.

(** Marking the run: frames of [lo, j) are used once, the rest is untouched. *)
Definition run_marked (s0 : pmm_state) (lo j : Z) (s : pmm_state) : Prop :=
  (∀ g, 0 <= g → frame_is_free s g = if in_block lo (j - lo) g then false else frame_is_free s0 g) ∧
  (∀ g, 0 <= g → refcount s g = if in_block lo (j - lo) g then 1 else refcount s0 g) ∧
  pmm_total_frames s = pmm_total_frames s0 ∧ pmm_free_frames s = pmm_free_frames s0 ∧
  pmm_next_hint s = pmm_next_hint s0 ∧
  count_if (frame_is_free s) (nframes s0) = count_if (frame_is_free s0) (nframes s0) - (j - lo).

Lemma mark_run_spec s0 lo n :
  0 <= lo → 0 <= n → lo + n <= pmm_total_frames s0 → run_free s0 lo n →
  run_marked s0 lo (lo + n)
    (for_range lo (lo + n) (λ j s, put_refcount j 1 (frame_set_used j s)) s0).
Proof.
  intros Hlo Hn Hle Hrun.
  apply (for_range_ind (run_marked s0 lo)); [lia| |].
  - split_and!; try done; try lia; intros g Hg; block; try done; lia.
  - intros j s Hj (H1&H2&H3&H4&H5&H6).
    assert (frame_is_free s j = true) as Hjf.
    { rewrite H1 by lia. block; [lia|]. apply Hrun. lia. }
    split_and!; try done.
    + intros g Hg. rewrite frame_is_free_put_refcount, frame_is_free_set_used, H1 by lia.
      block; try done; lia.
    + intros g Hg. rewrite refcount_put. change (refcount (frame_set_used j s) g) with (refcount s g).
      rewrite H2 by lia. block; try done; lia.
    + rewrite (count_if_clear (frame_is_free s) _ _ j); [lia| |done| |].
      * unfold nframes. lia.
      * rewrite frame_is_free_put_refcount, frame_is_free_set_used by lia.
        by rewrite Z.eqb_refl.
      * intros i Hi Hne. rewrite frame_is_free_put_refcount, frame_is_free_set_used by lia.
        by rewrite (proj2 (Z.eqb_neq j i)).
Qed.

(** Fewer free frames than [n] leave no room for a run of [n]. *)
Lemma run_free_needs_count s lo n :
  pmm_core s → pmm_free_frames s < n → 0 <= lo → lo + n <= pmm_total_frames s →
  ¬ run_free s lo n.
Proof.
  intros Hc Hlt Hlo Hle Hrun. pose proof (core_free_bounds s Hc).
  destruct (mark_run_spec s lo n Hlo ltac:(lia) Hle Hrun) as (_&_&_&_&_&Hcount).
  rewrite <- (core_free s Hc) in Hcount.
  match type of Hcount with count_if ?g ?k = _ => pose proof (count_if_bounds g k) end. lia.
Qed.

Lemma run_marked_wf s s1 r n :
  pmm_wf s → 0 <= r → 0 < n → run_free s r n → run_marked s r (r + n) s1 →
  let s' := set_free (u64 (pmm_free_frames s1 - n)) s1 in
  pmm_wf s' ∧ pmm_free_frames s' = pmm_free_frames s - n.
Proof.
  intros [Hc Hpos Hh Hbelow Hz] Hr Hn Hrun (H1&H2&H3&H4&H5&H6) s'.
  pose proof (core_free_bounds s Hc). pose proof (core_total s Hc) as Ht.
  rewrite max_frames_small in Ht.
  match type of H6 with count_if ?g ?k = _ => pose proof (count_if_bounds g k) end.
  rewrite <- (core_free s Hc) in H6.
  assert (pmm_free_frames s' = pmm_free_frames s - n) as Hfree
    by (unfold s'; simpl; rewrite H4; apply u64_small; lia).
  assert (0 < r) as Hr0.
  { destruct (decide (r = 0)) as [->|]; [|lia]. rewrite Hrun in Hz by lia. done. }
  split; [|done]. split; [split| | | |].
  - unfold s'. simpl. rewrite H3, max_frames_small. lia.
  - rewrite Hfree. unfold nframes, s'. simpl. rewrite H3.
    change (pmm_free_frames s - n = count_if (frame_is_free s1) (nframes s)). lia.
  - intros f Hf E. unfold s' in *. simpl in Hf. autorewrite with pmm in E.
    change (refcount s1 f = 0). rewrite H1 in E by lia. rewrite H2 by lia.
    rewrite H3 in Hf. block; [done|]. by apply (core_rc s Hc).
  - unfold s'. simpl. lia.
  - unfold s'. simpl. lia.
  - unfold s'. simpl pmm_next_hint. intros f Hf. autorewrite with pmm.
    rewrite H1 by lia. block; [done|]. apply Hbelow. lia.
  - unfold s'. autorewrite with pmm. rewrite H1 by lia. block; [lia|done].
Qed.

(** ** Initialisation *)

(** A region operation that leaves the frames of [lo, hi) all free or all used. *)
Record region_set (s s' : pmm_state) (lo hi : Z) (b : bool) : Prop := {
  rg_core : pmm_core s';
  rg_total : pmm_total_frames s' = pmm_total_frames s;
  rg_hint : pmm_next_hint s' = pmm_next_hint s;
  rg_free : ∀ g, 0 <= g → frame_is_free s' g = if in_block lo (hi - lo) g then b else frame_is_free s g;
}.

Lemma region_set_refl s lo b : pmm_core s → region_set s s lo lo b.
Proof. intros. split; try done. intros g Hg. block; [lia|done]. Qed.

Lemma region_set_empty s lo hi b : pmm_core s → hi <= lo → region_set s s lo hi b.
Proof. intros. split; try done. intros g Hg. block; [lia|done]. Qed.

Lemma region_set_step s0 s s' lo f b :
  0 <= lo <= f → region_set s0 s lo f b → pmm_core s' →
  pmm_total_frames s' = pmm_total_frames s → pmm_next_hint s' = pmm_next_hint s →
  (∀ g, 0 <= g → frame_is_free s' g = if f =? g then b else frame_is_free s g) →
  region_set s0 s' lo (f + 1) b.
Proof.
  intros Hf [H1 H2 H3 H4] Hc Ht Hh Hg. split; [done|congruence|congruence|].
  intros g Hg0. rewrite Hg, H4 by done. block; try done; lia.
Qed.

Lemma region_mark_free_spec base len s :
  pmm_core s → 0 <= base →
  region_set s (region_mark_free base len s) (base / PMM_FRAME_SIZE)
    (Z.min (u64 (base + len) / PMM_FRAME_SIZE) (pmm_total_frames s)) true.
Proof.
  intros Hc Hb. unfold region_mark_free.
  set (lo := base / PMM_FRAME_SIZE). set (hi := Z.min _ _).
  assert (0 <= lo) by (apply Z.div_pos; unfold PMM_FRAME_SIZE; lia).
  destruct (decide (hi <= lo)); [rewrite for_range_empty by done; by apply region_set_empty|].
  apply (for_range_ind (λ f s', region_set s s' lo f true)); [lia|by apply region_set_refl|].
  intros f s' Hf Hr. pose proof (rg_core _ _ _ _ _ Hr) as Hc'.
  assert (0 <= f < pmm_total_frames s') by (rewrite (rg_total _ _ _ _ _ Hr); lia).
  destruct (frame_is_free s' f) eqn:E.
  - apply (region_set_step s s'); try done; [lia|]. intros g Hg. by case_if; [subst|].
  - destruct (mark_free_core s' f) as [Hm _]; [done..|].
    apply (region_set_step s s' (mark_free f s')); try done; [lia|].
    intros g Hg. unfold mark_free. autorewrite with pmm. apply frame_is_free_set_free; lia.
Qed.

Lemma region_mark_used_spec base len s :
  pmm_core s → 0 <= base →
  region_set s (region_mark_used base len s) (base / PMM_FRAME_SIZE)
    (Z.min (ALIGN_UP (u64 (base + len)) PMM_FRAME_SIZE / PMM_FRAME_SIZE) (pmm_total_frames s)) false.
Proof.
  intros Hc Hb. unfold region_mark_used.
  set (lo := base / PMM_FRAME_SIZE). set (hi := Z.min _ _).
  assert (0 <= lo) by (apply Z.div_pos; unfold PMM_FRAME_SIZE; lia).
  destruct (decide (hi <= lo)); [rewrite for_range_empty by done; by apply region_set_empty|].
  apply (for_range_ind (λ f s', region_set s s' lo f false)); [lia|by apply region_set_refl|].
  intros f s' Hf Hr. pose proof (rg_core _ _ _ _ _ Hr) as Hc'.
  assert (0 <= f < pmm_total_frames s') by (rewrite (rg_total _ _ _ _ _ Hr); lia).
  destruct (frame_is_free s' f) eqn:E.
  - destruct (mark_used_core s' f 1) as [Hm _]; [done..|].
    apply (region_set_step s s' (mark_used f 1 s')); try done; [lia|].
    intros g Hg. unfold mark_used. autorewrite with pmm. apply frame_is_free_set_used; lia.
  - apply (region_set_step s s'); try done; [lia|]. intros g Hg. by case_if; [subst|].
Qed.

(** Frame [g] lies in one of the first [n] RAM entries of the map at [mmap]. *)
Definition ram_frame (m : mem) (mmap n g : Z) : Prop :=
  ∃ k, 0 <= k < n ∧ let e := mmap + k * sizeof_entry in
    ent_type m e = HVM_MMAP_RAM ∧ ent_addr m e / PMM_FRAME_SIZE <= g ∧
    g < u64 (ent_addr m e + ent_size m e) / PMM_FRAME_SIZE.

Lemma ram_frame_S m mmap n g :
  0 <= n → ram_frame m mmap (n + 1) g ↔ ram_frame m mmap n g ∨
    (let e := mmap + n * sizeof_entry in
     ent_type m e = HVM_MMAP_RAM ∧ ent_addr m e / PMM_FRAME_SIZE <= g ∧
     g < u64 (ent_addr m e + ent_size m e) / PMM_FRAME_SIZE).
Proof.
  intros Hn. split.
  - intros (k & Hk & He). destruct (decide (k = n)) as [->|]; [by right|].
    left. exists k. split; [lia|done].
  - intros [(k & Hk & He)|He]; [exists k; split; [lia|done] | exists n; split; [lia|done]].
Qed.

Definition marked_upto (m : mem) (mmap total : Z) (i : Z) (s : pmm_state) : Prop :=
  pmm_core s ∧ pmm_total_frames s = total ∧
  ∀ g, 0 <= g → frame_is_free s g = true ↔ g < total ∧ ram_frame m mmap i g.

Lemma pmm_clear_core s :
  0 <= pmm_total_frames s <= PMM_MAX_FRAMES → pmm_core (pmm_clear s).
Proof.
  intros Ht. assert (∀ g, 0 <= g → frame_is_free (pmm_clear s) g = false) as Hnone.
  { intros g Hg. rewrite frame_is_free_testbit by done. simpl.
    unfold read8. rewrite arr_get_fill. change (u8 255) with (Z.ones 8).
    pose proof (Z.mod_pos_bound g 8). rewrite Z.ones_spec_low by lia. done. }
  split; [done| |].
  - simpl. symmetry. apply count_if_false. intros i Hi. apply Hnone. lia.
  - intros f Hf. rewrite Hnone by lia. done.
Qed.

Lemma clamp_total_range top : 0 <= top → 0 <= clamp_total top <= PMM_MAX_FRAMES.
Proof.
  intros. unfold clamp_total, PMM_MAX_FRAMES. unfold PMM_FRAME_SIZE.
  split; [case_if; apply Z.div_pos; unfold PMM_MAX_PHYS in *; lia|].
  apply Z.div_le_mono; [lia|]. case_if; lia.
Qed.

Lemma pvh_top_nonneg m mmap count : 0 <= count → 0 <= pvh_top m mmap count.
Proof.
  intros. apply (for_range_ind (λ _ top, 0 <= top)); [done|lia|].
  intros i top _ Ht. unfold raise_top. repeat case_if; try lia; apply u64_range.
Qed.

Lemma pvh_mark_loop m mmap count s :
  0 <= count → 0 <= pmm_total_frames s <= PMM_MAX_FRAMES →
  marked_upto m mmap (pmm_total_frames s) count
    (for_range 0 count (λ i s,
       let e := mmap + i * sizeof_entry in
       if ent_type m e =? HVM_MMAP_RAM then region_mark_free (ent_addr m e) (ent_size m e) s
       else s) (pmm_clear s)).
Proof.
  intros Hc Ht. apply (for_range_ind (marked_upto m mmap (pmm_total_frames s))); [done| |].
  - split_and!; [by apply pmm_clear_core|done|]. intros g Hg.
    rewrite frame_is_free_testbit by done. simpl. unfold read8. rewrite arr_get_fill.
    change (u8 255) with (Z.ones 8). pose proof (Z.mod_pos_bound g 8).
    rewrite Z.ones_spec_low by lia. split; [done|]. intros (_ & k & ? & _). lia.
  - intros i s' Hi (Hc' & Ht' & Hf'). cbv zeta. case_if.
    + pose proof (region_mark_free_spec (ent_addr m (mmap + i * sizeof_entry))
        (ent_size m (mmap + i * sizeof_entry)) s' Hc') as Hr.
      destruct Hr as [R1 R2 _ R4]; [apply read64_range|].
      split_and!; [done|congruence|]. intros g Hg. rewrite R4, ram_frame_S, Ht' by lia.
      cbv zeta. block; rewrite ?Hf' by done; split; try done.
      all: try (intros _; split; [lia|right; split_and!; [done|lia|lia]]).
      all: try (intros [? ?]; split; [done|by left]).
      intros (? & [Hram|(_ & ? & ?)]); [done|lia].
    + split_and!; [done..|]. intros g Hg. rewrite Hf', ram_frame_S by lia.
      split; [intros [? ?]; split; [done|by left] |].
      intros (? & [Hram|(? & _)]); [done|congruence].
Qed.

(** The two region_mark_used calls that end pmm_init. *)
Lemma reserve_low_and_kernel kernel_end s :
  pmm_core s → 0x100000 <= kernel_end < PMM_MAX_PHYS → kernel_end mod PMM_FRAME_SIZE = 0 →
  let s' := region_mark_used 0x100000 (u64 (kernel_end - 0x100000)) (region_mark_used 0 0x100000 s) in
  pmm_core s' ∧ pmm_total_frames s' = pmm_total_frames s ∧ pmm_next_hint s' = pmm_next_hint s ∧
  ∀ g, 0 <= g < pmm_total_frames s →
    frame_is_free s' g = frame_is_free s g && (kernel_end <=? g * PMM_FRAME_SIZE).
Proof.
  intros Hc Hk Ha s'.
  pose proof (region_mark_used_spec 0 0x100000 s Hc ltac:(lia)) as [A1 A2 A3 A4].
  pose proof (region_mark_used_spec 0x100000 (u64 (kernel_end - 0x100000))
    (region_mark_used 0 0x100000 s) A1 ltac:(lia)) as [B1 B2 B3 B4].
  split_and!; [done|unfold s'; congruence|unfold s'; congruence|].
  intros g Hg. unfold s'. rewrite B4, A4 by lia. rewrite A2.
  change (ALIGN_UP (u64 (0 + 0x100000)) PMM_FRAME_SIZE / PMM_FRAME_SIZE) with 256.
  change (0x100000 / PMM_FRAME_SIZE) with 256. change (0 / PMM_FRAME_SIZE) with 0.
  unfold PMM_MAX_PHYS in Hk. rewrite (u64_small (kernel_end - 0x100000)) by lia.
  replace (0x100000 + (kernel_end - 0x100000)) with kernel_end by lia.
  rewrite (u64_small kernel_end) by lia.
  change PMM_FRAME_SIZE with (2^12) in *. rewrite ALIGN_UP_spec by lia.
  rewrite Z.div_mul by lia.
  assert ((kernel_end + 2^12 - 1) / 2^12 = kernel_end / 2^12) as ->.
  { symmetry. apply Z.div_unique with (2^12 - 1); [lia|].
    pose proof (Z.div_mod kernel_end (2^12)). lia. }
  pose proof (Z.div_mod kernel_end (2^12) ltac:(lia)) as Hdm. rewrite Ha in Hdm.
  block; destruct (Z.leb_spec kernel_end (g * 2^12)); try lia;
    rewrite ?andb_false_r, ?andb_true_r; done.
Qed.

Definition pvh_total (m : mem) (info : Z) : Z :=
  clamp_total (pvh_top m (si_memmap_paddr m info) (si_memmap_entries m info)).

Lemma pmm_parse_pvh_spec m info s :
  si_magic m info = HVM_START_MAGIC →
  wp (pmm_parse_pvh m info) (λ _ s',
    marked_upto m (si_memmap_paddr m info) (pvh_total m info) (si_memmap_entries m info) s') s.
Proof.
  intros Hm. unfold pmm_parse_pvh. rewrite Hm. wp_steps. apply wp_KASSERT; [done|].
  wp_steps. pose proof (read32_range m (info + 48)).
  apply (pvh_mark_loop m _ _ (set_total (pvh_total m info) s)); [apply H|].
  apply clamp_total_range, pvh_top_nonneg, H.
Qed.

Lemma pmm_init_pvh_spec (kernel_end : Z) (m : mem) (boot_magic info : Z) (s : pmm_state) :
  boot_magic ≠ MB2_BOOTLOADER_MAGIC → info ≠ 0 → si_magic m info = HVM_START_MAGIC →
  0x100000 <= kernel_end < PMM_MAX_PHYS → kernel_end mod PMM_FRAME_SIZE = 0 →
  0 < pvh_total m info →
  wp (pmm_init kernel_end m boot_magic info) (λ _ s',
    pmm_wf s' ∧ pmm_total_frames s' = pvh_total m info ∧
    ∀ g, 0 <= g → g < pvh_total m info →
      frame_is_free s' g = true ↔
      ram_frame m (si_memmap_paddr m info) (si_memmap_entries m info) g ∧
      kernel_end <= g * PMM_FRAME_SIZE) s.
Proof.
  intros Hmb Hi Hm Hk Ha Ht. unfold pmm_init.
  rewrite (proj2 (Z.eqb_neq _ _) Hmb), (proj2 (Z.eqb_neq _ _) Hi), Hm, Z.eqb_refl. simpl negb.
  wp_steps. eapply wp_mono; [by apply pmm_parse_pvh_spec|].
  intros _ s1 (Hc & Htot & Hfree). cbv beta. wp_steps.
  apply wp_KASSERT; [apply Z.ltb_lt; lia|]. wp_steps.
  assert (pmm_core (set_hint 0 s1)) as Hc1 by (destruct Hc; by split).
  destruct (reserve_low_and_kernel kernel_end (set_hint 0 s1) Hc1 Hk Ha) as (D1&D2&D3&D4).
  cbv beta. simpl pmm_total_frames in D2, D4. simpl pmm_next_hint in D3.
  rewrite Htot in D2, D4.
  split_and!; [|done|].
  - split; [done|lia|lia|rewrite D3; intros; lia|].
    rewrite D4 by lia. rewrite (proj2 (Z.leb_gt _ _)) by lia. apply andb_false_r.
  - intros g Hg Hgt. rewrite D4, frame_is_free_set_hint, andb_true_iff, Z.leb_le, Hfree by lia.
    intuition lia.
Qed.

(** *** Properties *)

(** C29: boot from a PVH memory map.  pmm_init returns with the allocator's
    invariant established, and the frames it leaves free are exactly those
    below the clamped top of RAM that lie in a RAM entry and are above the end
    of the kernel image; in particular nothing of the first MiB or of the
    kernel (whose last section holds the bitmap itself) can be handed out. *)
Theorem pmm_init_pvh_exact (kernel_end : Z) (m : mem) (boot_magic info : Z) (s : pmm_state) :
  boot_magic ≠ MB2_BOOTLOADER_MAGIC → info ≠ 0 → si_magic m info = HVM_START_MAGIC →
  0x100000 <= kernel_end < PMM_MAX_PHYS → kernel_end mod PMM_FRAME_SIZE = 0 →
  0 < pvh_total m info →
  wp (pmm_init kernel_end m boot_magic info) (λ _ s',
    pmm_wf s' ∧ pmm_total_frames s' = pvh_total m info ∧
    ∀ g, 0 <= g → g < pvh_total m info →
      frame_is_free s' g = true ↔
      ram_frame m (si_memmap_paddr m info) (si_memmap_entries m info) g ∧
      kernel_end <= g * PMM_FRAME_SIZE) s.
Proof. apply pmm_init_pvh_spec. Qed.

(** A PVH start_info at 0x1000 whose one-entry map is 2 MiB of RAM at 0. *)
Definition sample_boot_mem : mem :=
  write32 (write64 (write64 (write32 (write64 (write32 (arr_fill 0) 0x1000 HVM_START_MAGIC)
    (0x1000 + 40) 0x2000) (0x1000 + 48) 1) 0x2000 0) (0x2000 + 8) 0x200000) (0x2000 + 16) 1.

Definition empty_pmm : pmm_state := Pmm (arr_fill 0) (arr_fill 0) 0 0 0.

Lemma pmm_init_pvh_exact_witness :
  wp (pmm_init 0x110000 sample_boot_mem 0 0x1000) (λ _ s',
    pmm_wf s' ∧ pmm_total_frames s' = pvh_total sample_boot_mem 0x1000 ∧
    ∀ g, 0 <= g → g < pvh_total sample_boot_mem 0x1000 →
      frame_is_free s' g = true ↔
      ram_frame sample_boot_mem (si_memmap_paddr sample_boot_mem 0x1000)
        (si_memmap_entries sample_boot_mem 0x1000) g ∧ 0x110000 <= g * PMM_FRAME_SIZE) empty_pmm.
Proof.
  apply (pmm_init_pvh_exact 0x110000 sample_boot_mem 0 0x1000 empty_pmm);
    try (vm_compute; congruence); try (split; vm_compute; congruence); vm_compute; reflexivity.
Defined.

(** The allocator after that boot, for the concrete runs below. *)
Definition booted_pmm : pmm_state :=
  match pmm_init 0x110000 sample_boot_mem 0 0x1000 empty_pmm with
  | Ret (_, s) => s
  | _ => empty_pmm
  end.

Example booted_pmm_counts :
  pmm_total_frames booted_pmm = 512 ∧ pmm_free_frames booted_pmm = 512 - 0x110.
Proof. vm_compute. done. Qed.

Lemma booted_pmm_wf : pmm_wf booted_pmm.
Proof.
  assert (wp (pmm_init 0x110000 sample_boot_mem 0 0x1000) (λ _ s, pmm_wf s) empty_pmm) as H.
  { eapply wp_mono; [apply pmm_init_pvh_spec|by intros ?? (?&?&?)];
      try (vm_compute; congruence); try (split; vm_compute; congruence); vm_compute; reflexivity. }
  unfold booted_pmm. unfold wp in H. by destruct (pmm_init _ _ _ _ _) as [[[] s]| |].
Qed.

(** C22: pmm_alloc_frame on a well-formed state never panics and keeps it
    well-formed.  It returns PMM_ALLOC_FAILED, changing nothing, exactly when no
    frame is free; otherwise it returns the address of the lowest-numbered free
    frame, which is not frame 0, leaves it used with one reference, and changes
    no other frame. *)
Theorem pmm_alloc_frame_first_fit (s : pmm_state) :
  pmm_wf s →
  wp pmm_alloc_frame (λ a s',
    pmm_wf s' ∧
    if pmm_free_frames s =? 0 then a = PMM_ALLOC_FAILED ∧ s' = s
    else ∃ f, a = f * PMM_FRAME_SIZE ∧ 0 < f < pmm_total_frames s ∧
      frame_is_free s f = true ∧ (∀ g, 0 <= g < f → frame_is_free s g = false) ∧
      (∀ g, 0 <= g → frame_is_free s' g = if f =? g then false else frame_is_free s g) ∧
      (∀ g, 0 <= g → refcount s' g = if f =? g then 1 else refcount s g) ∧
      pmm_free_frames s' = pmm_free_frames s - 1) s.
Proof.
  intros Hwf. destruct (pmm_alloc_frame_cases s Hwf) as [[H0 E]|(f & E & Hf & Hfree & Hlow)].
  - eapply wp_eq; [exact E|]. rewrite H0. done.
  - eapply wp_eq; [exact E|]. destruct (take_frame_wf s f Hwf Hf Hfree Hlow) as [Hwf' Hn].
    split; [done|]. pose proof (core_free_pos s f (wf_core s Hwf) ltac:(lia) Hfree).
    rewrite (proj2 (Z.eqb_neq _ 0)) by lia. exists f. split_and!; try done; try lia.
    + intros g Hg. apply frame_is_free_set_used; lia.
    + intros g Hg.
      change (refcount (put_refcount f 1 (frame_set_used f s)) g = if f =? g then 1 else refcount s g).
      rewrite refcount_put. by case_if.
Qed.

Lemma pmm_alloc_frame_first_fit_witness :
  wp pmm_alloc_frame (λ a s',
    pmm_wf s' ∧
    if pmm_free_frames booted_pmm =? 0 then a = PMM_ALLOC_FAILED ∧ s' = booted_pmm
    else ∃ f, a = f * PMM_FRAME_SIZE ∧ 0 < f < pmm_total_frames booted_pmm ∧
      frame_is_free booted_pmm f = true ∧
      (∀ g, 0 <= g < f → frame_is_free booted_pmm g = false) ∧
      (∀ g, 0 <= g → frame_is_free s' g = if f =? g then false else frame_is_free booted_pmm g) ∧
      (∀ g, 0 <= g → refcount s' g = if f =? g then 1 else refcount booted_pmm g) ∧
      pmm_free_frames s' = pmm_free_frames booted_pmm - 1) booted_pmm.
Proof. exact (pmm_alloc_frame_first_fit booted_pmm booted_pmm_wf). Defined.

Example first_allocation : wp pmm_alloc_frame (λ a _, a = 0x110000) booted_pmm.
Proof. vm_compute. reflexivity. Qed.

(** allocating a frame and freeing it is the identity on what the
    allocator tells its clients: the same frames are free, every reference
    count and the free count are back, and the state is well-formed. *)
Theorem pmm_alloc_free_roundtrip (s : pmm_state) :
  pmm_wf s → pmm_free_frames s ≠ 0 →
  wp (pmm_alloc_frame ≫= pmm_free_frame) (λ _ s',
    pmm_wf s' ∧ pmm_free_frames s' = pmm_free_frames s ∧
    (∀ g, 0 <= g → frame_is_free s' g = frame_is_free s g) ∧
    (∀ g, 0 <= g → refcount s' g = refcount s g)) s.
Proof.
  intros Hwf Hne. apply wp_bind.
  destruct (pmm_alloc_frame_cases s Hwf) as [[H0 E]|(f & E & Hf & Hfree & Hlow)]; [done|].
  eapply wp_eq; [exact E|]. destruct (take_frame_wf s f Hwf Hf Hfree Hlow) as [Hwf' Hn].
  assert (refcount (take_frame f s) f = 1) as Hr1.
  { change (refcount (put_refcount f 1 (frame_set_used f s)) f = 1).
    rewrite refcount_put, Z.eqb_refl. done. }
  eapply wp_eq; [apply pmm_free_frame_eq; [apply Hwf'|simpl; lia|lia]|].
  pose proof (drop_ref_wf _ f Hwf' ltac:(simpl; lia) ltac:(lia)) as Hwf2.
  destruct (drop_ref_counts _ f (wf_core _ Hwf') ltac:(simpl; lia) ltac:(lia)) as [Hrc Hcnt].
  rewrite Hr1 in Hcnt, Hrc. split_and!; [done|rewrite Hn in Hcnt; simpl Z.eqb in Hcnt; cbv iota in Hcnt; lia| |].
  - intros g Hg. destruct (drop_ref_shape _ f Hr1) as (h & -> & _).
    autorewrite with pmm. unfold mark_free. autorewrite with pmm.
    rewrite frame_is_free_set_free by lia. rewrite take_frame_mark. autorewrite with pmm.
    unfold mark_used. autorewrite with pmm. rewrite frame_is_free_set_used by lia.
    by case_if; [subst|].
  - intros g Hg. rewrite Hrc. case_if; [subst|].
    + symmetry. apply (core_rc s (wf_core s Hwf)); [lia|done].
    + change (refcount (put_refcount f 1 (frame_set_used f s)) g = refcount s g).
      rewrite refcount_put. by rewrite (proj2 (Z.eqb_neq f g)).
Qed.

Lemma pmm_alloc_free_roundtrip_witness :
  wp (pmm_alloc_frame ≫= pmm_free_frame) (λ _ s',
    pmm_wf s' ∧ pmm_free_frames s' = pmm_free_frames booted_pmm ∧
    (∀ g, 0 <= g → frame_is_free s' g = frame_is_free booted_pmm g) ∧
    (∀ g, 0 <= g → refcount s' g = refcount booted_pmm g)) booted_pmm.
Proof.
  apply (pmm_alloc_free_roundtrip booted_pmm); [exact booted_pmm_wf|vm_compute; congruence].
Defined.

(** pmm_free_frame stops the machine instead of corrupting the bitmap: on
    a misaligned address, on a frame beyond the limit, on a frame that is
    already free (a double free), and on a reserved frame nobody holds. *)
Theorem pmm_free_frame_rejects (s : pmm_state) (a : Z) :
  0 <= a → pmm_core s →
  (a mod PMM_FRAME_SIZE ≠ 0 ∨ pmm_total_frames s <= a / PMM_FRAME_SIZE ∨
   frame_is_free s (a / PMM_FRAME_SIZE) = true ∨ refcount s (a / PMM_FRAME_SIZE) = 0) →
  ∃ why, pmm_free_frame a s = Panic why.
Proof.
  intros Ha Hc Hbad. unfold pmm_free_frame.
  unfold KASSERT, mbind, M_bind, mret, M_ret, get, panic.
  change (PMM_FRAME_SIZE - 1) with (2^12 - 1). rewrite land_low_mod by lia.
  change (2^12) with PMM_FRAME_SIZE.
  case_if; [|eauto]. simpl. case_if; [|eauto]. case_if; [|eauto]. case_if; [|eauto].
  exfalso. b2p. destruct Hbad as [?|[?|[?|?]]]; (lia || congruence).
Qed.

Lemma pmm_free_frame_rejects_witness :
  frame_is_free booted_pmm (0x120000 / PMM_FRAME_SIZE) = true ∧
  ∃ why, pmm_free_frame 0x120000 booted_pmm = Panic why.
Proof.
  split; [vm_compute; reflexivity|].
  apply (pmm_free_frame_rejects booted_pmm 0x120000); [lia|apply booted_pmm_wf|].
  right; right; left. vm_compute. reflexivity.
Defined.

(** pmm_alloc_contiguous(count) finds the lowest run of count free frames
    if there is one and fails, changing nothing, only if there is none.  On
    success exactly the frames of the run become used, with one reference each,
    and the invariant (search hint included) still holds. *)
Theorem pmm_alloc_contiguous_correct (s : pmm_state) (count : Z) :
  pmm_wf s → 0 < count < 2^32 →
  wp (pmm_alloc_contiguous count) (λ a s',
    (a = PMM_ALLOC_FAILED ∧ s' = s ∧
     ∀ lo, 0 <= lo → lo + count <= pmm_total_frames s → ¬ run_free s lo count) ∨
    (∃ r, a = r * PMM_FRAME_SIZE ∧ 0 <= r ∧ r + count <= pmm_total_frames s ∧
      run_free s r count ∧ (∀ lo, 0 <= lo < r → ¬ run_free s lo count) ∧
      pmm_wf s' ∧ pmm_free_frames s' = pmm_free_frames s - count ∧
      (∀ g, 0 <= g → frame_is_free s' g = if in_block r count g then false else frame_is_free s g) ∧
      (∀ g, 0 <= g → refcount s' g = if in_block r count g then 1 else refcount s g))) s.
Proof.
  intros Hwf Hcount. pose proof (wf_core s Hwf) as Hc.
  pose proof (core_total s Hc) as Ht. rewrite max_frames_small in Ht.
  unfold wp, pmm_alloc_contiguous.
  pose proof (contig_scan_post (nframes s) 0 0 0 count s ltac:(lia)
    ltac:(unfold nframes; lia) ltac:(lia)) as Hpost.
  specialize (Hpost ltac:(split; [lia|lia|intros g Hg; lia|lia|intros; lia])).
  fold (nframes s). rewrite (proj2 (Z.eqb_neq count 0)) by lia. simpl orb.
  destruct (Z.ltb_spec (pmm_free_frames s) count) as [Hlt|Hge].
  { left. split_and!; [done..|]. intros. by apply run_free_needs_count. }
  destruct (contig_scan _ _ _ _ _ _) as [r|]; simpl in Hpost; [|by left].
  right. destruct Hpost as (Hr & Hle & Hrun & Hlow). exists r.
  pose proof (mark_run_spec s r count Hr ltac:(lia) Hle Hrun) as Hm.
  destruct (run_marked_wf s _ r count Hwf Hr ltac:(lia) Hrun Hm) as [Hwf' Hn].
  destruct Hm as (H1&H2&_). replace (r + count - r) with count in * by lia.
  split_and!; try done. unfold PMM_FRAME_SIZE. rewrite u64_small by lia. done.
Qed.

Lemma pmm_alloc_contiguous_correct_witness :
  wp (pmm_alloc_contiguous 16) (λ a s',
    (a = PMM_ALLOC_FAILED ∧ s' = booted_pmm ∧
     ∀ lo, 0 <= lo → lo + 16 <= pmm_total_frames booted_pmm → ¬ run_free booted_pmm lo 16) ∨
    (∃ r, a = r * PMM_FRAME_SIZE ∧ 0 <= r ∧ r + 16 <= pmm_total_frames booted_pmm ∧
      run_free booted_pmm r 16 ∧ (∀ lo, 0 <= lo < r → ¬ run_free booted_pmm lo 16) ∧
      pmm_wf s' ∧ pmm_free_frames s' = pmm_free_frames booted_pmm - 16 ∧
      (∀ g, 0 <= g → frame_is_free s' g = if in_block r 16 g then false else frame_is_free booted_pmm g) ∧
      (∀ g, 0 <= g → refcount s' g = if in_block r 16 g then 1 else refcount booted_pmm g))) booted_pmm.
Proof.
  apply (pmm_alloc_contiguous_correct booted_pmm 16); [exact booted_pmm_wf|lia].
Defined.

Example contiguous_allocation : wp (pmm_alloc_contiguous 16) (λ a _, a = 0x110000) booted_pmm.
Proof. vm_compute. reflexivity. Qed.

(** The two loops over the entries of a Multiboot2 memory-map tag advance by
    the entry size the boot loader wrote into the tag. *)
Lemma mb2_top_fuel fuel m p end_ esz top :
  0 < esz → end_ - p < Z.of_nat fuel → 0 < Z.of_nat fuel →
  ∃ r, mb2_top fuel m p end_ esz top = Some r.
Proof.
  intros He. revert p top; induction fuel as [|fuel IH]; intros p top Hf Hpos; simpl; [lia|].
  case_if; [|eauto]. apply IH; lia.
Qed.

Lemma mb2_mark_fuel fuel m p end_ esz s :
  0 < esz → end_ - p < Z.of_nat fuel → 0 < Z.of_nat fuel →
  ∃ s', mb2_mark fuel m p end_ esz s = Some s'.
Proof.
  intros He. revert p s; induction fuel as [|fuel IH]; intros p s Hf Hpos; simpl; [lia|].
  case_if; [|eauto]. apply IH; lia.
Qed.

Lemma mb2_top_stuck fuel m p end_ top : p <= end_ → mb2_top fuel m p end_ 0 top = None.
Proof.
  intros Hp. revert top; induction fuel as [|fuel IH]; intros top; simpl; [done|].
  rewrite (proj2 (Z.leb_le _ _)) by lia. rewrite Z.add_0_r. apply IH.
Qed.

Lemma mb2_mark_stuck fuel m p end_ s : p <= end_ → mb2_mark fuel m p end_ 0 s = None.
Proof.
  intros Hp. revert s; induction fuel as [|fuel IH]; intros s; simpl; [done|].
  rewrite (proj2 (Z.leb_le _ _)) by lia. rewrite Z.add_0_r. apply IH.
Qed.

(** C39: the entry loops of the Multiboot2 parser terminate exactly when the
    tag's entry_size is not 0: within one iteration per byte of the tag if it
    is positive, and under no bound at all if it is 0 (a malformed tag hangs
    the boot; the code does not check the field). *)
Theorem mb2_entry_loops_terminate_iff (m : mem) (tag : Z) (s : pmm_state) :
  16 <= tag_size m tag →
  let p := tag + 16 in
  let end_ := tag + tag_size m tag in
  let esz := tag_entry_size m tag in
  (esz ≠ 0 → (∃ top, mb2_top (tag_fuel p end_) m p end_ esz 0 = Some top) ∧
             (∃ s', mb2_mark (tag_fuel p end_) m p end_ esz s = Some s')) ∧
  (esz = 0 → ∀ fuel, mb2_top fuel m p end_ esz 0 = None ∧ mb2_mark fuel m p end_ esz s = None).
Proof.
  intros Hsz p end_ esz. pose proof (read32_range m (tag + 8)) as Hr.
  change (0 <= esz < 2^32) in Hr. unfold tag_fuel. split.
  - intros Hne. split; [apply mb2_top_fuel | apply mb2_mark_fuel]; lia.
  - intros -> fuel. split; [apply mb2_top_stuck | apply mb2_mark_stuck]; lia.
Qed.

Lemma mb2_entry_loops_terminate_iff_witness :
  let m := write32 (write32 (arr_fill 0) 0x3004 40) 0x3008 24 in
  (∃ top, mb2_top (tag_fuel 0x3010 0x3028) m 0x3010 0x3028 24 0 = Some top) ∧
  (∃ s', mb2_mark (tag_fuel 0x3010 0x3028) m 0x3010 0x3028 24 empty_pmm = Some s').
Proof.
  pose proof (mb2_entry_loops_terminate_iff
    (write32 (write32 (arr_fill 0) 0x3004 40) 0x3008 24) 0x3000 empty_pmm) as H.
  cbv zeta in H. destruct H as [H _]; [vm_compute; congruence|].
  apply H. vm_compute. congruence.
Defined.
