(* ===== verification/Vmm.v ===== *)
(** * Virtual memory manager ([kernel/mm/vmm.c]): the model

    Four-level page tables in physical memory.  A table is an address, an entry
    a 64-bit word at [table + 8 * index]; pointers are physical addresses since
    the kernel runs on its identity map.  The frame allocator is reached through
    the interface of [Frames.v].  Instructions that only affect the processor's
    translation caches (invlpg, the flush of a CR3 load) have no counterpart;
    the value of CR3 is part of the state. *)

From Stdlib Require Import ZArith Lia.
From S2P Require Import Prelude Memory Frames.
Import StringC.

Definition KERNEL_VMA : Z := 0xFFFFFFFF80000000.
Definition USER_SPACE_TOP : Z := 0x0000800000000000.
Definition PAGE_SIZE : Z := 4096.

Definition VMM_PRESENT : Z := 2^0.
Definition VMM_WRITE : Z := 2^1.
Definition VMM_USER : Z := 2^2.
Definition VMM_HUGE : Z := 2^7.
Definition VMM_COW : Z := 2^9.
Definition VMM_NX : Z := 2^63.
Definition VMM_PHYS_MASK : Z := 0x000FFFFFFFFFF000.

(** [e & flag] as a condition. *)
Definition has (e flag : Z) : bool := negb (e .& flag =? 0).

(** [(e & flags) == flags] *)
Definition has_all (e flags : Z) : bool := e .& flags =? flags.

Definition pml4_idx (v : Z) : Z := Z.shiftr v 39 .& 0x1FF.
Definition pdpt_idx (v : Z) : Z := Z.shiftr v 30 .& 0x1FF.
Definition pd_idx (v : Z) : Z := Z.shiftr v 21 .& 0x1FF.
Definition pt_idx (v : Z) : Z := Z.shiftr v 12 .& 0x1FF.

Definition make_virt (pml4 pdpt pd pt : Z) : Z :=
  u64 (Z.shiftl pml4 39) .| u64 (Z.shiftl pdpt 30) .| u64 (Z.shiftl pd 21) .| u64 (Z.shiftl pt 12).

(** [&table[i]] and [table[i]] for a [pte_t *table]. *)
Definition pte_addr (table i : Z) : Z := table + 8 * i.
Definition pte (m : mem) (table i : Z) : Z := read64 m (pte_addr table i).

(** ** Walks that only read *)

(** NULL is 0. *)
Definition vmm_get_pte (m : mem) (pml4 virt : Z) : Z :=
  let e4 := pte m pml4 (pml4_idx virt) in
  if negb (has e4 VMM_PRESENT) then 0
  else
    let pdpt := e4 .& VMM_PHYS_MASK in
    let e3 := pte m pdpt (pdpt_idx virt) in
    if negb (has e3 VMM_PRESENT) || has e3 VMM_HUGE then 0
    else
      let pd := e3 .& VMM_PHYS_MASK in
      let e2 := pte m pd (pd_idx virt) in
      if negb (has e2 VMM_PRESENT) || has e2 VMM_HUGE then 0
      else
        let pt := e2 .& VMM_PHYS_MASK in
        pte_addr pt (pt_idx virt).

Definition vmm_get_physical (m : mem) (pml4 virt : Z) : Z :=
  let e4 := pte m pml4 (pml4_idx virt) in
  if negb (has e4 VMM_PRESENT) then PMM_ALLOC_FAILED
  else
    let pdpt := e4 .& VMM_PHYS_MASK in
    let e3 := pte m pdpt (pdpt_idx virt) in
    if negb (has e3 VMM_PRESENT) then PMM_ALLOC_FAILED
    else if has e3 VMM_HUGE then (e3 .& 0x000FFFFFC0000000) .| (virt .& 0x3FFFFFFF)
    else
      let pd := e3 .& VMM_PHYS_MASK in
      let e2 := pte m pd (pd_idx virt) in
      if negb (has e2 VMM_PRESENT) then PMM_ALLOC_FAILED
      else if has e2 VMM_HUGE then (e2 .& 0x000FFFFFFFE00000) .| (virt .& 0x1FFFFF)
      else
        let pt := e2 .& VMM_PHYS_MASK in
        let e1 := pte m pt (pt_idx virt) in
        if negb (has e1 VMM_PRESENT) then PMM_ALLOC_FAILED
        else (e1 .& VMM_PHYS_MASK) .| (virt .& 0xFFF).

Definition vmm_get_flags (m : mem) (pml4 virt : Z) : Z :=
  let e4 := pte m pml4 (pml4_idx virt) in
  if negb (has e4 VMM_PRESENT) then 0
  else
    let pdpt := e4 .& VMM_PHYS_MASK in
    let e3 := pte m pdpt (pdpt_idx virt) in
    if negb (has e3 VMM_PRESENT) then 0
    else if has e3 VMM_HUGE then e3 .& ~64 VMM_PHYS_MASK
    else
      let pd := e3 .& VMM_PHYS_MASK in
      let e2 := pte m pd (pd_idx virt) in
      if negb (has e2 VMM_PRESENT) then 0
      else if has e2 VMM_HUGE then e2 .& ~64 VMM_PHYS_MASK
      else
        let pt := e2 .& VMM_PHYS_MASK in
        let e1 := pte m pt (pt_idx virt) in
        if negb (has e1 VMM_PRESENT) then 0
        else e1 .& ~64 VMM_PHYS_MASK.

(** ** State *)

(** The allocator, physical memory, CR3, and the static variables of vmm.c. *)
Record vm (S : Type) := Vm {
  vm_pmm : S;
  vm_mem : mem;
  vm_cr3 : Z;
  kernel_pml4 : Z;
  kheap_next : Z;
}.
Arguments Vm {S}.
Arguments vm_pmm {S}.
Arguments vm_mem {S}.
Arguments vm_cr3 {S}.
Arguments kernel_pml4 {S}.
Arguments kheap_next {S}.

Section Vmm.
Context {S : Type} `{FA : FrameAllocator S}.
Implicit Types v : vm S.

Definition set_pmm (p : S) (v : vm S) : vm S :=
  Vm p (vm_mem v) (vm_cr3 v) (kernel_pml4 v) (kheap_next v).
Definition set_mem (m : mem) (v : vm S) : vm S :=
  Vm (vm_pmm v) m (vm_cr3 v) (kernel_pml4 v) (kheap_next v).
Definition set_cr3 (c : Z) (v : vm S) : vm S :=
  Vm (vm_pmm v) (vm_mem v) c (kernel_pml4 v) (kheap_next v).
Definition set_kernel_pml4 (a : Z) (v : vm S) : vm S :=
  Vm (vm_pmm v) (vm_mem v) (vm_cr3 v) a (kheap_next v).
Definition set_kheap_next (a : Z) (v : vm S) : vm S :=
  Vm (vm_pmm v) (vm_mem v) (vm_cr3 v) (kernel_pml4 v) a.

(** Calls of the frame allocator, loads and stores of entries, memset. *)
Definition on_pmm {A} (c : M S A) : M (vm S) A := zoom vm_pmm set_pmm c.
Definition alloc_frame : M (vm S) Z := on_pmm fa_alloc.
Definition free_frame (a : Z) : M (vm S) () := on_pmm (fa_free a).
Definition ref_frame (a : Z) : M (vm S) () := on_pmm (fa_ref a).
Definition frame_refcount (a : Z) : M (vm S) Z := on_pmm (fa_refcount a).
Definition load (table i : Z) : M (vm S) Z := gets (λ v, pte (vm_mem v) table i).
Definition store (table i e : Z) : M (vm S) () :=
  modify (λ v, set_mem (write64 (vm_mem v) (pte_addr table i) e) v).
Definition zero_page (a : Z) : M (vm S) () :=
  modify (λ v, set_mem (memset (vm_mem v) a 0 PAGE_SIZE) v).

(** [return (pte_t * )(table[i] & VMM_PHYS_MASK)], allocating the next table if
    the entry is empty; NULL is 0.  The source takes the address of the entry. *)
Definition pt_walk_or_alloc (table i : Z) : M (vm S) Z :=
  e ← load table i;
  if has e VMM_PRESENT then mret (e .& VMM_PHYS_MASK)
  else
    phys ← alloc_frame;
    if phys =? PMM_ALLOC_FAILED then mret 0
    else
      zero_page phys;;
      store table i (phys .| VMM_PRESENT .| VMM_WRITE);;
      mret phys.

(** [if (flags & VMM_USER) table[i] |= VMM_USER;] *)
Definition mark_user (flags table i : Z) : M (vm S) () :=
  if has flags VMM_USER then e ← load table i; store table i (e .| VMM_USER) else mret ().

Definition vmm_switch (pml4 : Z) : M (vm S) () := modify (set_cr3 pml4).

Definition vmm_current_pml4 (v : vm S) : Z := vm_cr3 v .& ~64 0xFFF.

Definition leaf_entry (phys flags : Z) : Z :=
  (phys .& VMM_PHYS_MASK) .| (flags .& ~64 VMM_PHYS_MASK) .| VMM_PRESENT.

Definition vmm_map_page (pml4 virt phys flags : Z) : M (vm S) Z :=
  pdpt ← pt_walk_or_alloc pml4 (pml4_idx virt);
  if pdpt =? 0 then mret (-1)
  else
    mark_user flags pml4 (pml4_idx virt);;
    pd ← pt_walk_or_alloc pdpt (pdpt_idx virt);
    if pd =? 0 then mret (-1)
    else
      mark_user flags pdpt (pdpt_idx virt);;
      e2 ← load pd (pd_idx virt);
      if has e2 VMM_HUGE then mret (-1)
      else
        pt ← pt_walk_or_alloc pd (pd_idx virt);
        if pt =? 0 then mret (-1)
        else
          mark_user flags pd (pd_idx virt);;
          store pt (pt_idx virt) (leaf_entry phys flags);;
          mret 0.

Definition vmm_unmap_page (pml4 virt : Z) : M (vm S) () :=
  e4 ← load pml4 (pml4_idx virt);
  if negb (has e4 VMM_PRESENT) then mret ()
  else
    let pdpt := e4 .& VMM_PHYS_MASK in
    e3 ← load pdpt (pdpt_idx virt);
    if negb (has e3 VMM_PRESENT) then mret ()
    else
      let pd := e3 .& VMM_PHYS_MASK in
      e2 ← load pd (pd_idx virt);
      if negb (has e2 VMM_PRESENT) || has e2 VMM_HUGE then mret ()
      else store (e2 .& VMM_PHYS_MASK) (pt_idx virt) 0.

Definition vmm_create_address_space : M (vm S) Z :=
  phys ← alloc_frame;
  if phys =? PMM_ALLOC_FAILED then mret 0
  else
    let new_pml4 := phys in
    zero_page new_pml4;;
    cur ← gets vmm_current_pml4;
    for_rangeM 256 512 (λ i, e ← load cur i; store new_pml4 i e);;
    cur0 ← load cur 0;
    if has cur0 VMM_PRESENT then
      low_pdpt ← alloc_frame;
      if low_pdpt =? PMM_ALLOC_FAILED then free_frame phys;; mret 0
      else
        let cur_low_pdpt := cur0 .& VMM_PHYS_MASK in
        zero_page low_pdpt;;
        e ← load cur_low_pdpt 0;
        store low_pdpt 0 e;;
        store new_pml4 0 (low_pdpt .| VMM_PRESENT .| VMM_WRITE .| VMM_USER);;
        mret new_pml4
    else mret new_pml4.

Definition destroy_pt (pt : Z) : M (vm S) () :=
  for_rangeM 0 512 (λ i,
    e ← load pt i;
    if has_all e (VMM_PRESENT .| VMM_USER)
    then free_frame (e .& VMM_PHYS_MASK);; store pt i 0
    else mret ()).

(** The body of the loop over one page directory. *)
Definition destroy_pd_entry (pd k : Z) : M (vm S) () :=
  e ← load pd k;
  if negb (has e VMM_PRESENT) then mret ()
  else if has e VMM_HUGE then
    (if has e VMM_USER then free_frame (e .& VMM_PHYS_MASK) else mret ());;
    store pd k 0
  else
    destroy_pt (e .& VMM_PHYS_MASK);;
    e' ← load pd k;
    free_frame (e' .& VMM_PHYS_MASK);;
    store pd k 0.

(** The body of the loop over one page-directory-pointer table. *)
Definition destroy_pdpt_entry (i pdpt j : Z) : M (vm S) () :=
  if (i =? 0) && (j =? 0) then mret ()
  else
    e ← load pdpt j;
    if negb (has e VMM_PRESENT) then mret ()
    else if has e VMM_HUGE then
      (if has e VMM_USER then free_frame (e .& VMM_PHYS_MASK) else mret ());;
      store pdpt j 0
    else
      for_rangeM 0 512 (destroy_pd_entry (e .& VMM_PHYS_MASK));;
      e' ← load pdpt j;
      free_frame (e' .& VMM_PHYS_MASK);;
      store pdpt j 0.

Definition destroy_pml4_entry (pml4 i : Z) : M (vm S) () :=
  e ← load pml4 i;
  if negb (has e VMM_PRESENT) then mret ()
  else
    for_rangeM 0 512 (destroy_pdpt_entry i (e .& VMM_PHYS_MASK));;
    e' ← load pml4 i;
    free_frame (e' .& VMM_PHYS_MASK);;
    store pml4 i 0.

Definition vmm_destroy_user_address_space (pml4 : Z) : M (vm S) () :=
  if pml4 =? 0 then mret ()
  else
    for_rangeM 0 256 (destroy_pml4_entry pml4);;
    free_frame pml4.

(** The body of the innermost loop of vmm_clone_user_address_space; [true] is
    the jump to [fail]. *)
Definition clone_pte (dst_pml4 src_pt i j k l : Z) : M (vm S) bool :=
  e ← load src_pt l;
  if negb (has_all e (VMM_PRESENT .| VMM_USER)) then mret false
  else
    let src_phys := e .& VMM_PHYS_MASK in
    let virt := make_virt i j k l in
    let flags := e .& ~64 VMM_PHYS_MASK in
    ref_frame src_phys;;
    flags ← (if has flags VMM_WRITE then
               let flags := (flags .& ~64 VMM_WRITE) .| VMM_COW in
               store src_pt l (src_phys .| flags);;
               mret flags
             else mret flags);
    rc ← vmm_map_page dst_pml4 virt src_phys flags;
    if negb (rc =? 0) then free_frame src_phys;; mret true
    else mret false.

Definition clone_pd_entry (dst_pml4 src_pd i j k : Z) : M (vm S) bool :=
  e ← load src_pd k;
  if negb (has e VMM_PRESENT) then mret false
  else if has e VMM_HUGE then mret (has e VMM_USER)
  else for_anyM 512 0 (clone_pte dst_pml4 (e .& VMM_PHYS_MASK) i j k).

Definition clone_pdpt_entry (dst_pml4 src_pdpt i j : Z) : M (vm S) bool :=
  if (i =? 0) && (j =? 0) then mret false
  else
    e ← load src_pdpt j;
    if negb (has e VMM_PRESENT) then mret false
    else if has e VMM_HUGE then mret (has e VMM_USER)
    else for_anyM 512 0 (clone_pd_entry dst_pml4 (e .& VMM_PHYS_MASK) i j).

Definition clone_pml4_entry (dst_pml4 src_pml4 i : Z) : M (vm S) bool :=
  e ← load src_pml4 i;
  if negb (has e VMM_PRESENT) then mret false
  else for_anyM 512 0 (clone_pdpt_entry dst_pml4 (e .& VMM_PHYS_MASK) i).

Definition vmm_clone_user_address_space (src_pml4 : Z) : M (vm S) Z :=
  if src_pml4 =? 0 then mret 0
  else
    dst_pml4 ← vmm_create_address_space;
    if dst_pml4 =? 0 then mret 0
    else
      failed ← for_anyM 256 0 (clone_pml4_entry dst_pml4 src_pml4);
      if failed : bool then vmm_destroy_user_address_space dst_pml4;; mret 0
      else mret dst_pml4.

Definition vmm_handle_page_fault (fault_addr error_code : Z) : M (vm S) bool :=
  if negb (error_code .& 3 =? 3) || (USER_SPACE_TOP <=? fault_addr) then mret false
  else
    let page := ALIGN_DOWN fault_addr PAGE_SIZE in
    p ← gets (λ v, vmm_get_pte (vm_mem v) (vmm_current_pml4 v) page);
    e ← gets (λ v, read64 (vm_mem v) p);
    if (p =? 0) || negb (has_all e (VMM_PRESENT .| VMM_USER .| VMM_COW)) then mret false
    else
      let old_phys := e .& VMM_PHYS_MASK in
      let flags := (e .& ~64 VMM_PHYS_MASK .& ~64 VMM_COW) .| VMM_WRITE in
      n ← frame_refcount old_phys;
      if n <=? 1 then
        modify (λ v, set_mem (write64 (vm_mem v) p (old_phys .| flags)) v);;
        mret true
      else
        new_phys ← alloc_frame;
        if new_phys =? PMM_ALLOC_FAILED then mret false
        else
          modify (λ v, set_mem (memcpy (vm_mem v) new_phys old_phys PAGE_SIZE) v);;
          modify (λ v, set_mem (write64 (vm_mem v) p (new_phys .| flags)) v);;
          free_frame old_phys;;
          mret true.

Definition vmm_alloc_kernel (size : Z) : M (vm S) Z :=
  let size := ALIGN_UP size PAGE_SIZE in
  addr ← gets kheap_next;
  modify (λ v, set_kheap_next (u64 (kheap_next v + size)) v);;
  mret addr.

(** ** Initialisation

    [stack_bottom] and [kernel_end] are the addresses of the linker symbols. *)

Definition alloc_table (why : string) : M (vm S) Z :=
  phys ← alloc_frame;
  KASSERT (negb (phys =? PMM_ALLOC_FAILED)) why;;
  zero_page phys;;
  mret phys.

Definition vmm_init (stack_bottom kernel_end : Z) : M (vm S) () :=
  let guard_phys := u64 (stack_bottom - PAGE_SIZE) in
  pml4 ← alloc_table "pml4_phys";
  pt0 ← alloc_table "pt0_phys";
  for_rangeM 1 512 (λ i,
    let phys := i * PAGE_SIZE in
    if phys =? guard_phys then mret ()
    else store pt0 i (phys .| VMM_PRESENT .| VMM_WRITE));;
  pd0 ← alloc_table "pd0_phys";
  store pd0 0 (pt0 .| VMM_PRESENT .| VMM_WRITE);;
  for_rangeM 1 512 (λ i,
    store pd0 i ((i * 0x200000) .| VMM_PRESENT .| VMM_WRITE .| VMM_HUGE));;
  pdpt_id ← alloc_table "pdpt_id_phys";
  store pdpt_id 0 (pd0 .| VMM_PRESENT .| VMM_WRITE);;
  store pml4 0 (pdpt_id .| VMM_PRESENT .| VMM_WRITE);;
  pdpt_hh ← alloc_table "pdpt_hh_phys";
  pd_hh ← alloc_table "pd_hh_phys";
  store pd_hh 0 (0 .| VMM_PRESENT .| VMM_WRITE .| VMM_HUGE);;
  store pdpt_hh 510 (pd_hh .| VMM_PRESENT .| VMM_WRITE);;
  store pml4 511 (pdpt_hh .| VMM_PRESENT .| VMM_WRITE);;
  modify (set_kernel_pml4 pml4);;
  vmm_switch pml4;;
  let kend_hh := u64 (KERNEL_VMA + kernel_end) in
  modify (set_kheap_next (ALIGN_UP kend_hh 0x200000)).

End Vmm.
