(* ===== verification/VmmInv.v ===== *)
(** * Virtual memory manager: entries, walks and the page-table invariant

    The bits of an entry, the tables a root reaches ([walk]), the leaf that
    translates a page ([leaf]) and the invariant [pt_wf]: every table of a root
    is a page held by the allocator, no table is reached by two paths, and huge
    entries occur in page directories only. *)

From Stdlib Require Import ZArith Lia.
From S2P Require Import Prelude Memory Frames Vmm.
Import StringC.

(** ** Bits of an entry *)

Lemma has_pow2 e k : 0 <= k → has e (2^k) = Z.testbit e k.
Proof.
  intros Hk. unfold has. apply eq_true_iff_eq. rewrite negb_true_iff, Z.eqb_neq. split.
  - intros H. destruct (Z.testbit e k) eqn:E; [done|]. destruct H.
    apply Z.bits_inj'. intros n Hn. rewrite Z.land_spec, Z.bits_0, Z.pow2_bits_eqb by done.
    destruct (k =? n) eqn:E'; b2p; [subst; by rewrite E|]. apply andb_false_r.
  - intros H H0. assert (Z.testbit (e .& 2^k) k = false) as Hb by (rewrite H0; apply Z.bits_0).
    rewrite Z.land_spec, H, Z.pow2_bits_true in Hb by done. done.
Qed.

Lemma has_present e : has e VMM_PRESENT = Z.testbit e 0.
Proof. by apply has_pow2. Qed.
Lemma has_write e : has e VMM_WRITE = Z.testbit e 1.
Proof. by apply has_pow2. Qed.
Lemma has_user e : has e VMM_USER = Z.testbit e 2.
Proof. by apply has_pow2. Qed.
Lemma has_huge e : has e VMM_HUGE = Z.testbit e 7.
Proof. by apply has_pow2. Qed.
Lemma has_cow e : has e VMM_COW = Z.testbit e 9.
Proof. by apply has_pow2. Qed.

Lemma phys_mask_bits n : 0 <= n → Z.testbit VMM_PHYS_MASK n = (12 <=? n) && (n <? 52).
Proof.
  intros Hn. change VMM_PHYS_MASK with (Z.shiftl (Z.ones 40) 12).
  destruct (12 <=? n) eqn:E; b2p; simpl.
  - rewrite Z.shiftl_spec_high by lia. destruct (n <? 52) eqn:E'; b2p.
    + apply Z.ones_spec_low. lia.
    + apply Z.ones_spec_high. lia.
  - apply Z.shiftl_spec_low. lia.
Qed.

Lemma u64_bits x n : 0 <= n → Z.testbit (u64 x) n = (n <? 64) && Z.testbit x n.
Proof.
  intros. unfold u64. case_eq (n <? 64); intros; b2p.
  - by rewrite Z.mod_pow2_bits_low by lia.
  - by rewrite Z.mod_pow2_bits_high by lia.
Qed.

Lemma bits_above x n k : 0 <= k → 0 <= x < 2^k → k <= n → Z.testbit x n = false.
Proof.
  intros Hk Hx Hn. destruct (decide (x = 0)) as [->|]; [apply Z.bits_0|].
  apply Z.bits_above_log2; [lia|]. apply Z.lt_le_trans with k; [apply Z.log2_lt_pow2; lia|lia].
Qed.

Lemma frame_bits a n : is_frame a → 0 <= n → n < 12 ∨ 32 <= n → Z.testbit a n = false.
Proof.
  unfold is_frame, PMM_FRAME_SIZE, PMM_MAX_PHYS. intros [Ha ?] Hn [Hlt|Hge].
  - assert (a = a / 2^12 * 2^12) as -> by
      (pose proof (Z.div_mod a 4096 ltac:(lia)); change (2^12) with 4096; lia).
    rewrite Z.mul_pow2_bits_low by lia. done.
  - apply (bits_above _ _ 32); lia.
Qed.

(** Expand every test of a bit of a word built from flags and masks. *)
Ltac bits_expand :=
  unfold VMM_PRESENT, VMM_WRITE, VMM_USER, VMM_HUGE, VMM_COW, VMM_NX;
  repeat first
    [ rewrite Z.land_spec | rewrite Z.lor_spec | rewrite Z.bits_0
    | rewrite u64_bits by lia | rewrite Z.lnot_spec by lia
    | rewrite phys_mask_bits by lia | rewrite Z.pow2_bits_eqb by lia ].

(** Equality of two such words, bit by bit. *)
Ltac bits_eq :=
  apply Z.bits_inj'; let n := fresh "n" in let Hn := fresh "Hn" in intros n Hn;
  bits_expand;
  repeat match goal with
  | |- context [?a <=? ?b] => destruct (Z.leb_spec a b)
  | |- context [?a <? ?b] => destruct (Z.ltb_spec a b)
  | |- context [?a =? ?b] => destruct (Z.eqb_spec a b)
  end; try lia; simpl;
  repeat match goal with |- context [Z.testbit ?e n] => destruct (Z.testbit e n) eqn:? end;
  try done.

Lemma range_of_bits x k : 0 <= k → (∀ n, k <= n → Z.testbit x n = false) → 0 <= x < 2^k.
Proof.
  intros Hk H. replace x with (x mod 2^k); [apply Z.mod_pos_bound; lia|].
  apply Z.bits_inj'. intros n Hn. destruct (decide (n < k)).
  - by apply Z.mod_pow2_bits_low.
  - rewrite Z.mod_pow2_bits_high, H by lia. done.
Qed.

Lemma lor_range x y k : 0 <= k → 0 <= x < 2^k → 0 <= y < 2^k → 0 <= x .| y < 2^k.
Proof.
  intros Hk Hx Hy. apply range_of_bits; [done|]. intros n Hn.
  by rewrite Z.lor_spec, (bits_above x n k), (bits_above y n k).
Qed.

Lemma land_range_l x y k : 0 <= k → 0 <= x < 2^k → 0 <= x .& y < 2^k.
Proof.
  intros Hk Hx. apply range_of_bits; [done|]. intros n Hn.
  by rewrite Z.land_spec, (bits_above x n k).
Qed.

(** ** Memory seen as entries *)

Definition page_range (t b : Z) : Prop := t <= b < t + PAGE_SIZE.

Lemma frames_disjoint a b x : is_frame a → is_frame b → page_range a x → page_range b x → a = b.
Proof.
  unfold is_frame, page_range, PMM_FRAME_SIZE, PAGE_SIZE. intros [Ha _] [Hb _] ? ?.
  pose proof (Z.div_mod a 4096). pose proof (Z.div_mod b 4096). lia.
Qed.

Lemma pte_range m t i : 0 <= pte m t i < 2^64.
Proof. apply read64_range. Qed.

Lemma pte_ext m m' t i :
  0 <= i < 512 → (∀ b, page_range t b → read8 m' b = read8 m b) → pte m' t i = pte m t i.
Proof.
  intros Hi H. unfold pte, pte_addr. apply (read_le_ext 8). intros b Hb. apply H.
  unfold page_range, PAGE_SIZE. lia.
Qed.

Lemma pte_store_eq m t i e : 0 <= e < 2^64 → pte (write64 m (pte_addr t i) e) t i = e.
Proof. apply read64_write64_eq. Qed.

Lemma pte_store_ne m t i t' i' e :
  is_frame t → is_frame t' → 0 <= i < 512 → 0 <= i' < 512 → (t, i) ≠ (t', i') →
  pte (write64 m (pte_addr t i) e) t' i' = pte m t' i'.
Proof.
  intros Ht Ht' Hi Hi' Hne. apply read64_write64_ne. unfold pte_addr.
  destruct (decide (t = t')) as [->|Hneq].
  - assert (i ≠ i') by congruence. lia.
  - unfold is_frame, PMM_FRAME_SIZE in *. destruct Ht as [Ha _], Ht' as [Hb _].
    pose proof (Z.div_mod t 4096). pose proof (Z.div_mod t' 4096). lia.
Qed.

Lemma pte_zero_page m a i : 0 <= i < 512 → pte (memset m a 0 PAGE_SIZE) a i = 0.
Proof.
  intros Hi. unfold pte, pte_addr.
  rewrite (read_le_ext 8 _ (arr_fill 0)); [reflexivity|].
  intros b Hb. rewrite read8_memset by done. unfold PAGE_SIZE. block; [done|lia].
Qed.

Lemma read8_zero_page_ne m a b : ¬ page_range a b → read8 (memset m a 0 PAGE_SIZE) b = read8 m b.
Proof. intros H. rewrite read8_memset by done. block; [by destruct H|done]. Qed.

Lemma read8_store_ne m t i e b :
  0 <= i < 512 → ¬ page_range t b → read8 (write64 m (pte_addr t i) e) b = read8 m b.
Proof.
  unfold page_range, PAGE_SIZE, pte_addr. intros Hi H. apply read8_write64_ne. lia.
Qed.

(** Clearing page [n] and pointing entry [i] of table [t] at it. *)
Lemma linked_entries m t i n e m2 :
  is_frame t → is_frame n → t ≠ n → 0 <= i < 512 → 0 <= e < 2^64 →
  m2 = write64 (memset m n 0 PAGE_SIZE) (pte_addr t i) e →
  (∀ j, 0 <= j < 512 → pte m2 n j = 0) ∧ pte m2 t i = e ∧
  (∀ u j, is_frame u → 0 <= j < 512 → u ≠ n → (u, j) ≠ (t, i) → pte m2 u j = pte m u j) ∧
  (∀ b, ¬ page_range n b → ¬ page_range t b → read8 m2 b = read8 m b).
Proof.
  intros Ht Hn Hne Hi He ->. split_and!.
  - intros j Hj. rewrite pte_store_ne by (assumption || congruence). by apply pte_zero_page.
  - by apply pte_store_eq.
  - intros u j Hu Hj Hun Huj. rewrite pte_store_ne by (assumption || congruence).
    apply pte_ext; [assumption|]. intros b Hb. apply read8_zero_page_ne. intros Hb'.
    by destruct Hun; apply (frames_disjoint u n b).
  - intros b Hb Hb'. rewrite read8_store_ne by assumption. by apply read8_zero_page_ne.
Qed.

(** One store into table [t]. *)
Lemma stored_entries m t i e m2 :
  is_frame t → 0 <= i < 512 → 0 <= e < 2^64 → m2 = write64 m (pte_addr t i) e →
  pte m2 t i = e ∧
  (∀ u j, is_frame u → 0 <= j < 512 → (u, j) ≠ (t, i) → pte m2 u j = pte m u j) ∧
  (∀ b, ¬ page_range t b → read8 m2 b = read8 m b).
Proof.
  intros Ht Hi He ->. split_and!.
  - by apply pte_store_eq.
  - intros u j Hu Hj Huj. apply pte_store_ne; (assumption || congruence).
  - intros b Hb. by apply read8_store_ne.
Qed.

(** From here on, memory is reasoned about through the lemmas above. *)
#[global] Opaque pte memset memcpy write64 read64.

(** ** Walks *)

(** The table an entry leads to. *)
Definition next (e : Z) : option Z :=
  if has e VMM_PRESENT && negb (has e VMM_HUGE) then Some (e .& VMM_PHYS_MASK) else None.

Fixpoint walk (m : mem) (t : Z) (p : list Z) : option Z :=
  match p with
  | [] => Some t
  | i :: p' => match next (pte m t i) with Some t' => walk m t' p' | None => None end
  end.

Definition valid_path (p : list Z) : Prop := Forall (λ i, 0 <= i < 512) p.

Lemma valid_path_app p q : valid_path (p ++ q) ↔ valid_path p ∧ valid_path q.
Proof. apply Forall_app. Qed.

Lemma valid_path_one i : valid_path [i] ↔ 0 <= i < 512.
Proof. unfold valid_path. rewrite Forall_singleton. done. Qed.

Lemma valid_path_prefix p q : p `prefix_of` q → valid_path q → valid_path p.
Proof. intros [k ->]. by intros [? ?]%valid_path_app. Qed.

Lemma walk_app m t p q :
  walk m t (p ++ q) = match walk m t p with Some t' => walk m t' q | None => None end.
Proof.
  revert t; induction p as [|i p IH]; intros t; simpl; [done|].
  destruct (next _); [apply IH|done].
Qed.

Lemma walk_snoc m t p i :
  walk m t (p ++ [i]) = match walk m t p with Some t' => next (pte m t' i) | None => None end.
Proof. rewrite walk_app. destruct (walk m t p); [|done]. simpl. by destruct (next _). Qed.

(** A walk reads one entry per step: equal next tables give equal walks. *)
Lemma walk_agree m m' t p :
  (∀ q i u, q ++ [i] `prefix_of` p → walk m t q = Some u → next (pte m' u i) = next (pte m u i)) →
  walk m' t p = walk m t p.
Proof.
  revert t; induction p as [|i p IH]; intros t H; simpl; [done|].
  rewrite (H [] i t); [|exists p; done|done].
  destruct (next (pte m t i)) as [u|] eqn:E; [|done].
  apply IH. intros q j w Hq Hw. apply (H (i :: q) j).
  - destruct Hq as [k ->]. exists k. done.
  - simpl. by rewrite E.
Qed.

(** The entry that translates a page: a 4 KiB entry ([false]) or a 2 MiB one. *)
Definition leaf (m : mem) (r : Z) (i4 i3 i2 i1 : Z) : option (bool * Z) :=
  match walk m r [i4; i3; i2] with
  | Some pt => if has (pte m pt i1) VMM_PRESENT then Some (false, pte m pt i1) else None
  | None =>
      match walk m r [i4; i3] with
      | Some pd => if has (pte m pd i2) VMM_PRESENT then Some (true, pte m pd i2) else None
      | None => None
      end
  end.

(** ** The invariant of a root *)

Record pt_wf (m : mem) (rc : Z → Z) (r : Z) : Prop := {
  pt_tables p t : valid_path p → (length p <= 3)%nat → walk m r p = Some t →
    is_frame t ∧ 0 < rc t;
  pt_inj p q t : valid_path p → valid_path q → (length p <= 3)%nat → (length q <= 3)%nat →
    walk m r p = Some t → walk m r q = Some t → p = q;
  pt_nohuge p t i : valid_path p → (length p <= 1)%nat → walk m r p = Some t → 0 <= i < 512 →
    has (pte m t i) VMM_PRESENT = true → has (pte m t i) VMM_HUGE = false;
}.

(** ** Entries the code builds *)

Lemma next_frame a : is_frame a → next (a .| VMM_PRESENT .| VMM_WRITE) = Some a.
Proof.
  intros Ha. unfold next. rewrite has_present, has_huge.
  rewrite !Z.lor_spec, (frame_bits a 7) by (done || lia). simpl. rewrite !orb_true_r.
  simpl. f_equal. bits_eq; by rewrite (frame_bits a) in * by (done || lia).
Qed.

Lemma next_mark_user e : next (e .| VMM_USER) = next e.
Proof.
  unfold next. rewrite !has_present, !has_huge, !Z.lor_spec.
  change (Z.testbit VMM_USER 0) with false. change (Z.testbit VMM_USER 7) with false.
  rewrite !orb_false_r.
  replace ((e .| VMM_USER) .& VMM_PHYS_MASK) with (e .& VMM_PHYS_MASK); [done|]. bits_eq.
Qed.

Lemma next_zero : next 0 = None.
Proof. done. Qed.

Lemma next_present e t : next e = Some t → has e VMM_PRESENT = true ∧ has e VMM_HUGE = false.
Proof. unfold next. destruct (has e VMM_PRESENT), (has e VMM_HUGE); done. Qed.

Lemma next_absent e : has e VMM_PRESENT = false → next e = None.
Proof. unfold next. by intros ->. Qed.

Lemma next_intro e : has e VMM_PRESENT = true → has e VMM_HUGE = false →
  next e = Some (e .& VMM_PHYS_MASK).
Proof. unfold next. by intros -> ->. Qed.

Lemma frame_entry_range a : is_frame a → 0 <= a .| VMM_PRESENT .| VMM_WRITE < 2^64.
Proof.
  intros [_ Ha]. unfold PMM_MAX_PHYS in Ha.
  repeat apply lor_range; unfold VMM_PRESENT, VMM_WRITE; lia.
Qed.

(** ** What an update does to the walks of a root *)

Section Updates.
Context (m : mem) (rc : Z → Z) (r : Z) (Hwf : pt_wf m rc r).

(** Entries of all tables unchanged: same walks, same leaves, same invariant. *)
Lemma same_entries_walk m' q :
  (∀ p t i, valid_path p → (length p <= 3)%nat → walk m r p = Some t → 0 <= i < 512 →
     pte m' t i = pte m t i) →
  valid_path q → (length q <= 4)%nat → walk m' r q = walk m r q.
Proof.
  intros H Hq Hl. apply walk_agree. intros p i u Hpre Hu. f_equal.
  pose proof (valid_path_prefix _ _ Hpre Hq) as [Hp Hi]%valid_path_app.
  apply prefix_length in Hpre. rewrite length_app in Hpre. simpl in Hpre.
  apply (H p); [done|lia|done|by apply valid_path_one].
Qed.

Lemma same_entries_leaf m' i4 i3 i2 i1 :
  (∀ p t i, valid_path p → (length p <= 3)%nat → walk m r p = Some t → 0 <= i < 512 →
     pte m' t i = pte m t i) →
  valid_path [i4; i3; i2; i1] → leaf m' r i4 i3 i2 i1 = leaf m r i4 i3 i2 i1.
Proof.
  intros H Hv. unfold leaf.
  assert (valid_path [i4; i3; i2] ∧ valid_path [i1]) as [Hv3 Hv1]
    by (by apply valid_path_app).
  assert (valid_path [i4; i3] ∧ valid_path [i2]) as [Hv2 Hv2'] by (by apply valid_path_app).
  apply valid_path_one in Hv1, Hv2'.
  rewrite !(same_entries_walk m') by (done || simpl; lia).
  destruct (walk m r [i4; i3; i2]) as [pt|] eqn:E.
  - by rewrite (H [i4; i3; i2] pt i1) by (done || simpl; lia).
  - destruct (walk m r [i4; i3]) as [pd|] eqn:E2; [|done].
    by rewrite (H [i4; i3] pd i2) by (done || simpl; lia).
Qed.

Lemma same_tables_wf m' rc' :
  (∀ p t i, valid_path p → (length p <= 3)%nat → walk m r p = Some t → 0 <= i < 512 →
     pte m' t i = pte m t i) →
  (∀ p t, valid_path p → (length p <= 3)%nat → walk m r p = Some t → 0 < rc' t) → pt_wf m' rc' r.
Proof.
  intros H Hrc. constructor.
  - intros p t Hp Hl. rewrite same_entries_walk by (done || lia). intros Hw.
    split; [by apply (pt_tables _ _ _ Hwf p t)|by apply (Hrc p)].
  - intros p q t Hp Hq Hlp Hlq. rewrite (same_entries_walk m' p), (same_entries_walk m' q) by (done || lia).
    by apply (pt_inj _ _ _ Hwf).
  - intros p t i Hp Hl. rewrite same_entries_walk by (done || lia). intros Hw Hi.
    rewrite (H p) by (done || lia). by apply (pt_nohuge _ _ _ Hwf p).
Qed.

Lemma same_entries_wf m' rc' :
  (∀ p t i, valid_path p → (length p <= 3)%nat → walk m r p = Some t → 0 <= i < 512 →
     pte m' t i = pte m t i) →
  (∀ t, 0 < rc t → 0 < rc' t) → pt_wf m' rc' r.
Proof.
  intros H Hrc. apply same_tables_wf; [done|]. intros p t Hp Hl Hw.
  apply Hrc. by apply (pt_tables _ _ _ Hwf p t).
Qed.

(** A page that is no table may change freely. *)
Lemma foreign_page_entries m' n :
  is_frame n → rc n = 0 → (∀ b, ¬ page_range n b → read8 m' b = read8 m b) →
  ∀ p t i, valid_path p → (length p <= 3)%nat → walk m r p = Some t → 0 <= i < 512 →
     pte m' t i = pte m t i.
Proof.
  intros Hn Hrc H p t i Hp Hl Hw Hi. destruct (pt_tables _ _ _ Hwf p t) as [Ht Hrt]; try done.
  apply pte_ext; [done|]. intros b Hb. apply H. intros Hb'.
  assert (n = t) as -> by eauto using frames_disjoint. lia.
Qed.

(** One store into a table. *)
Context (p : list Z) (t i e : Z).
Context (Hp : valid_path p) (Hlp : (length p <= 3)%nat) (Hw : walk m r p = Some t)
  (Hi : 0 <= i < 512).

(** The store, by what it does to the entries of tables. *)
Context (m' : mem) (Hset : pte m' t i = e)
  (Hother : ∀ u j, is_frame u → 0 <= j < 512 → (u, j) ≠ (t, i) → pte m' u j = pte m u j).

Lemma store_pte q u j :
  valid_path q → (length q <= 3)%nat → walk m r q = Some u → 0 <= j < 512 →
  pte m' u j = if decide (q ++ [j] = p ++ [i]) then e else pte m u j.
Proof.
  intros Hq Hl Hu Hj. destruct (pt_tables _ _ _ Hwf q u) as [Hfu _]; try done.
  case_decide as Hd.
  - apply app_inj_tail in Hd as [-> ->]. by assert (u = t) as -> by congruence.
  - apply Hother; [done..|]. intros [= -> ->]. destruct Hd.
    by rewrite (pt_inj _ _ _ Hwf p q t).
Qed.

Lemma store_walk_skip q :
  valid_path q → (length q <= 4)%nat →
  ¬ (p ++ [i]) `prefix_of` q ∨ next e = next (pte m t i) →
  walk m' r q = walk m r q.
Proof.
  intros Hq Hl Hor. apply walk_agree. intros q' j u Hpre Hu.
  pose proof (valid_path_prefix _ _ Hpre Hq) as [Hq' Hj]%valid_path_app.
  pose proof (prefix_length _ _ Hpre) as Hlen. rewrite length_app in Hlen. simpl in Hlen.
  apply valid_path_one in Hj. rewrite (store_pte q') by (done || lia).
  case_decide as Hd; [|done].
  destruct Hor as [Hn|He']; [destruct Hn; by rewrite <- Hd|].
  apply app_inj_tail in Hd as [-> ->]. by assert (u = t) as -> by congruence.
Qed.

(** A store that leads to the same table (or to none, as before). *)
Lemma store_same_walk q :
  next e = next (pte m t i) ∨ length p = 3%nat → valid_path q → (length q <= 3)%nat →
  walk m' r q = walk m r q.
Proof.
  intros Hor Hq Hl. apply store_walk_skip; [done|lia|].
  destruct Hor as [?|Hlen]; [by right|left]. intros Hpre%prefix_length.
  rewrite length_app in Hpre. simpl in Hpre. lia.
Qed.

Lemma store_same_wf :
  next e = next (pte m t i) ∨ length p = 3%nat →
  (has e VMM_PRESENT = true → has e VMM_HUGE = false) ∨ (2 <= length p)%nat →
  pt_wf m' rc r.
Proof.
  intros Hor Hh. constructor.
  - intros q u Hq Hl. rewrite store_same_walk by done. by apply (pt_tables _ _ _ Hwf).
  - intros q q' u Hq Hq' Hl Hl'. rewrite (store_same_walk q), (store_same_walk q') by done. by apply (pt_inj _ _ _ Hwf).
  - intros q u j Hq Hl. rewrite store_same_walk by (done || lia). intros Hu Hj.
    rewrite (store_pte q) by (done || lia). case_decide as Hd.
    + apply app_inj_tail in Hd as [-> ->]. destruct Hh as [Hh|Hh]; [done|lia].
    + by apply (pt_nohuge _ _ _ Hwf q).
Qed.

(** Leaves after a store that marks an entry leading to a table. *)
Lemma store_table_leaf i4 i3 i2 i1 :
  (length p <= 2)%nat → next e = next (pte m t i) → next e ≠ None →
  valid_path [i4; i3; i2; i1] → leaf m' r i4 i3 i2 i1 = leaf m r i4 i3 i2 i1.
Proof.
  intros Hlp2 Hn Hsome Hv. unfold leaf.
  pose proof (proj1 (valid_path_app [i4; i3; i2] [i1]) Hv) as [Hv3 Hv1%valid_path_one].
  pose proof (proj1 (valid_path_app [i4; i3] [i2]) Hv3) as [Hv2 Hv2'%valid_path_one].
  rewrite (store_same_walk [i4; i3; i2]), (store_same_walk [i4; i3]) by (auto || simpl; lia).
  destruct (walk m r [i4; i3; i2]) as [pt|] eqn:E.
  - rewrite (store_pte [i4; i3; i2] pt) by (done || simpl; lia).
    case_decide as Hd; [|done]. apply (f_equal length) in Hd.
    rewrite !length_app in Hd. simpl in Hd. lia.
  - destruct (walk m r [i4; i3]) as [pd|] eqn:E2; [|done].
    rewrite (store_pte [i4; i3] pd) by (done || simpl; lia).
    case_decide as Hd; [|done]. exfalso.
    apply app_inj_tail in Hd as [<- ->]. assert (t = pd) as -> by congruence.
    change [i4; i3; i] with ([i4; i3] ++ [i]) in E.
    rewrite walk_snoc, E2 in E. congruence.
Qed.

(** Leaves after a store into a page table. *)
Lemma store_leaf i4 i3 i2 i1 :
  length p = 3%nat → valid_path [i4; i3; i2; i1] →
  leaf m' r i4 i3 i2 i1 =
    if decide ([i4; i3; i2; i1] = p ++ [i])
    then if has e VMM_PRESENT then Some (false, e) else None
    else leaf m r i4 i3 i2 i1.
Proof.
  intros Hlp3 Hv. unfold leaf.
  pose proof (proj1 (valid_path_app [i4; i3; i2] [i1]) Hv) as [Hv3 Hv1%valid_path_one].
  pose proof (proj1 (valid_path_app [i4; i3] [i2]) Hv3) as [Hv2 Hv2'%valid_path_one].
  rewrite (store_same_walk [i4; i3; i2]), (store_same_walk [i4; i3]) by (auto || simpl; lia).
  destruct (walk m r [i4; i3; i2]) as [pt|] eqn:E.
  - rewrite (store_pte [i4; i3; i2] pt) by (done || simpl; lia).
    change ([i4; i3; i2] ++ [i1]) with [i4; i3; i2; i1]. by case_decide.
  - rewrite decide_False.
    + destruct (walk m r [i4; i3]) as [pd|] eqn:E2; [|done].
      rewrite (store_pte [i4; i3] pd) by (done || simpl; lia).
      case_decide as Hd; [|done]. apply (f_equal length) in Hd.
      rewrite !length_app in Hd. simpl in Hd. lia.
    + change [i4; i3; i2; i1] with ([i4; i3; i2] ++ [i1]).
      intros [Hd _]%app_inj_tail. congruence.
Qed.

End Updates.

(** ** Linking a new table *)

Section Link.
Context (m m2 : mem) (rc rc' : Z → Z) (r : Z) (Hwf : pt_wf m rc r).
Context (p : list Z) (t i n e : Z).
Context (Hp : valid_path p) (Hlp : (length p <= 2)%nat) (Hw : walk m r p = Some t)
  (Hi : 0 <= i < 512) (Hn : is_frame n) (Hfresh : rc n = 0)
  (Habs : has (pte m t i) VMM_PRESENT = false) (Hrc : rc_update rc rc' n 1).
(** The new table is empty, its parent's entry leads to it, nothing else changed. *)
Context (Hzero : ∀ j, 0 <= j < 512 → pte m2 n j = 0)
  (Hset : pte m2 t i = e) (He : next e = Some n)
  (Hother : ∀ u j, is_frame u → 0 <= j < 512 → u ≠ n → (u, j) ≠ (t, i) → pte m2 u j = pte m u j).

Lemma table_not_new q u :
  valid_path q → (length q <= 3)%nat → walk m r q = Some u → u ≠ n.
Proof. intros Hq Hl Hu ->. destruct (pt_tables _ _ _ Hwf q n); try done. lia. Qed.

Lemma link_pte q u j :
  valid_path q → (length q <= 3)%nat → walk m r q = Some u → 0 <= j < 512 →
  q ++ [j] ≠ p ++ [i] → pte m2 u j = pte m u j.
Proof.
  intros Hq Hl Hu Hj Hne. apply Hother; [by apply (pt_tables _ _ _ Hwf q)|done| |].
  - by apply (table_not_new q).
  - intros [= -> ->]. destruct Hne. rewrite (pt_inj _ _ _ Hwf p q t); (done || lia).
Qed.

Lemma link_walk_skip q :
  valid_path q → (length q <= 4)%nat → ¬ (p ++ [i]) `prefix_of` q → walk m2 r q = walk m r q.
Proof.
  intros Hq Hl Hpre. apply walk_agree. intros q' j u Hq' Hu. f_equal.
  pose proof (valid_path_prefix _ _ Hq' Hq) as [Hv Hj%valid_path_one]%valid_path_app.
  pose proof (prefix_length _ _ Hq') as Hlen. rewrite length_app in Hlen. simpl in Hlen.
  apply (link_pte q'); [done|lia|done|done|]. intros Hd. by rewrite Hd in Hq'.
Qed.

Lemma link_new : walk m2 r (p ++ [i]) = Some n.
Proof.
  rewrite walk_snoc, link_walk_skip, Hw, Hset; [done|done|lia|].
  intros Hpre%prefix_length. rewrite length_app in Hpre. simpl in Hpre. lia.
Qed.

Lemma link_old q u :
  valid_path q → (length q <= 3)%nat → walk m r q = Some u → walk m2 r q = Some u.
Proof.
  intros Hq Hl Hu. rewrite link_walk_skip; [done|done|lia|].
  intros [k ->]. rewrite <- app_assoc, walk_app, Hw in Hu. simpl in Hu.
  by rewrite next_absent in Hu.
Qed.

Lemma link_inv q u :
  valid_path q → (length q <= 3)%nat → walk m2 r q = Some u →
  (q = p ++ [i] ∧ u = n) ∨ walk m r q = Some u.
Proof.
  intros Hq Hl Hu. destruct (decide ((p ++ [i]) `prefix_of` q)) as [[k ->]|Hpre].
  - rewrite walk_app, link_new in Hu. destruct k as [|j k]; simpl in Hu.
    + left. rewrite app_nil_r. naive_solver.
    + apply valid_path_app in Hq as [_ [Hj _]%Forall_cons]. by rewrite Hzero in Hu.
  - right. rewrite <- link_walk_skip; [done|done|lia|done].
Qed.

Lemma link_wf : pt_wf m2 rc' r.
Proof.
  assert (∀ u, 0 < rc u → 0 < rc' u) as Hpos.
  { intros u Hu. rewrite Hrc. case_if; lia. }
  constructor.
  - intros q u Hq Hl Hu. apply link_inv in Hu as [[-> ->]|Hu]; [| |done..].
    + split; [done|]. rewrite Hrc, Z.eqb_refl. lia.
    + destruct (pt_tables _ _ _ Hwf q u); auto.
  - intros q q' u Hq Hq' Hl Hl' [[-> ->]|Hu]%link_inv [[-> Hu']|Hu']%link_inv; try done.
    + by destruct (table_not_new q' n).
    + subst. by destruct (table_not_new q n).
    + by apply (pt_inj _ _ _ Hwf q q' u).
  - intros q u j Hq Hl [[-> ->]|Hu]%link_inv Hj; [ | |done|lia].
    + by rewrite Hzero.
    + destruct (decide (q ++ [j] = p ++ [i])) as [Hd|Hne].
      * apply app_inj_tail in Hd as [-> ->]. assert (u = t) as -> by congruence.
        rewrite Hset. intros _. by apply (next_present _ n).
      * rewrite (link_pte q) by (done || lia). by apply (pt_nohuge _ _ _ Hwf q).
Qed.

Lemma link_leaf i4 i3 i2 i1 :
  valid_path [i4; i3; i2; i1] → leaf m2 r i4 i3 i2 i1 = leaf m r i4 i3 i2 i1.
Proof.
  intros Hv. unfold leaf.
  pose proof (proj1 (valid_path_app [i4; i3; i2] [i1]) Hv) as [Hv3 Hv1%valid_path_one].
  pose proof (proj1 (valid_path_app [i4; i3] [i2]) Hv3) as [Hv2 Hv2'%valid_path_one].
  destruct (walk m r [i4; i3; i2]) as [pt|] eqn:E.
  { rewrite (link_old _ pt) by (done || simpl; lia).
    rewrite (link_pte [i4; i3; i2] pt); [done|done|simpl; lia|done|done|].
    intros Hd%(f_equal length). rewrite !length_app in Hd. simpl in Hd. lia. }
  destruct (walk m2 r [i4; i3; i2]) as [pt|] eqn:E'.
  - apply link_inv in E' as [[Hd ->]|]; [|congruence|done|simpl; lia].
    change [i4; i3; i2] with ([i4; i3] ++ [i2]) in Hd. apply app_inj_tail in Hd as [Hd ->].
    by rewrite Hd, Hw, Habs, Hzero.
  - destruct (walk m r [i4; i3]) as [pd|] eqn:E2.
    + rewrite (link_old _ pd) by (done || simpl; lia).
      rewrite (link_pte [i4; i3] pd); [done|done|simpl; lia|done|done|].
      intros Hd. simpl in Hd. by rewrite Hd, link_new in E'.
    + destruct (walk m2 r [i4; i3]) as [pd|] eqn:E3; [|done].
      apply link_inv in E3 as [[Hd ->]|]; [|congruence|done|simpl; lia].
      by rewrite Hzero.
Qed.

End Link.

(** ** Indices of a virtual address *)

(** The virtual page number, over the 36 bits the four indices cover. *)
Definition vpage (va : Z) : Z := (va / 2^12) mod 2^36.

(** A slice of the low bits of a word. *)
Lemma div_mod_slice x a b : 0 < a → 0 < b → (x mod (a * b)) / a = (x / a) mod b.
Proof.
  intros Ha Hb. rewrite Z.rem_mul_r by lia.
  rewrite (Z.mul_comm a), Z.div_add by lia.
  rewrite (Z.div_small (x mod a)) by (apply Z.mod_pos_bound; lia). lia.
Qed.

Lemma mod_mod_slice x a b : 0 < a → 0 < b → (x mod (a * b)) mod a = x mod a.
Proof.
  intros Ha Hb. rewrite Z.rem_mul_r by lia.
  rewrite (Z.mul_comm a), Z.mod_add by lia. apply Z.mod_mod. lia.
Qed.

Lemma idx_slice va k : 0 <= k → Z.shiftr va (12 + k) .& 0x1FF = (va / 2^12) / 2^k mod 2^9.
Proof.
  intros. change 0x1FF with (2^9 - 1). rewrite land_low_mod, Z.shiftr_div_pow2 by lia.
  rewrite Z.pow_add_r, Z.div_div by lia. done.
Qed.

Lemma pml4_idx_vpage va : pml4_idx va = vpage va / 2^27.
Proof.
  unfold pml4_idx, vpage. change 39 with (12 + 27) at 1. rewrite idx_slice by lia.
  change (2^36) with (2^27 * 2^9). by rewrite div_mod_slice by lia.
Qed.

Lemma pdpt_idx_vpage va : pdpt_idx va = vpage va / 2^18 mod 2^9.
Proof.
  unfold pdpt_idx, vpage. change 30 with (12 + 18) at 1. rewrite idx_slice by lia.
  change (2^36) with (2^18 * 2^18). rewrite div_mod_slice by lia.
  change (2^18) with (2^9 * 2^9) at 3. by rewrite mod_mod_slice by lia.
Qed.

Lemma pd_idx_vpage va : pd_idx va = vpage va / 2^9 mod 2^9.
Proof.
  unfold pd_idx, vpage. change 21 with (12 + 9) at 1. rewrite idx_slice by lia.
  change (2^36) with (2^9 * 2^27). rewrite div_mod_slice by lia.
  change (2^27) with (2^9 * 2^18). by rewrite mod_mod_slice by lia.
Qed.

Lemma pt_idx_vpage va : pt_idx va = vpage va mod 2^9.
Proof.
  unfold pt_idx, vpage. change 12 with (12 + 0) at 1. rewrite idx_slice, Z.div_1_r by lia.
  change (2^36) with (2^9 * 2^27). by rewrite mod_mod_slice by lia.
Qed.

Lemma vpage_range va : 0 <= vpage va < 2^36.
Proof. apply Z.mod_pos_bound. lia. Qed.

(** The path of a virtual address: the four indices, from the root. *)
Definition tables_path (va : Z) : list Z := [pml4_idx va; pdpt_idx va; pd_idx va].
Definition vpath (va : Z) : list Z := tables_path va ++ [pt_idx va].

Lemma idx_range va :
  (0 <= pml4_idx va < 512) ∧ (0 <= pdpt_idx va < 512) ∧
  (0 <= pd_idx va < 512) ∧ (0 <= pt_idx va < 512).
Proof.
  rewrite pml4_idx_vpage, pdpt_idx_vpage, pd_idx_vpage, pt_idx_vpage.
  pose proof (vpage_range va). change (2^36) with (2^27 * 512) in *. change 512 with (2^9) in *.
  split_and!; try (apply Z.mod_pos_bound; lia).
  - apply Z.div_pos; lia.
  - apply Z.div_lt_upper_bound; lia.
Qed.

Lemma vpath_valid va : valid_path (vpath va).
Proof. pose proof (idx_range va). unfold vpath, tables_path, valid_path. repeat constructor; lia. Qed.

Lemma tables_path_valid va : valid_path (tables_path va).
Proof. by apply (valid_path_app _ [pt_idx va]), vpath_valid. Qed.

Lemma vpage_slices x :
  x = x mod 2^9 + 2^9 * ((x / 2^9) mod 2^9 + 2^9 * ((x / 2^18) mod 2^9 + 2^9 * (x / 2^27))).
Proof.
  change (2^27) with (2^18 * 2^9). change (2^18) with (2^9 * 2^9).
  rewrite <- !Z.div_div by lia.
  rewrite (Z.div_mod x (2^9)) at 1 by lia.
  rewrite (Z.div_mod (x / 2^9) (2^9)) at 1 by lia.
  rewrite (Z.div_mod (x / 2^9 / 2^9) (2^9)) at 1 by lia. lia.
Qed.

Lemma vpath_vpage va vb : vpath va = vpath vb ↔ vpage va = vpage vb.
Proof.
  unfold vpath, tables_path. simpl. split.
  - rewrite !pml4_idx_vpage, !pdpt_idx_vpage, !pd_idx_vpage, !pt_idx_vpage. intros [= H4 H3 H2 H1].
    rewrite (vpage_slices (vpage va)), (vpage_slices (vpage vb)). congruence.
  - rewrite !pml4_idx_vpage, !pdpt_idx_vpage, !pd_idx_vpage, !pt_idx_vpage. by intros ->.
Qed.

(** ** The three lookups as functions of the leaf *)

Definition vleaf (m : mem) (r va : Z) : option (bool * Z) :=
  leaf m r (pml4_idx va) (pdpt_idx va) (pd_idx va) (pt_idx va).

Definition leaf_physical (l : option (bool * Z)) (va : Z) : Z :=
  match l with
  | None => PMM_ALLOC_FAILED
  | Some (false, e) => (e .& VMM_PHYS_MASK) .| (va .& 0xFFF)
  | Some (true, e) => (e .& 0x000FFFFFFFE00000) .| (va .& 0x1FFFFF)
  end.

Definition leaf_flags (l : option (bool * Z)) : Z :=
  match l with None => 0 | Some (_, e) => e .& ~64 VMM_PHYS_MASK end.

Section Lookups.
Context (m : mem) (rc : Z → Z) (r : Z) (Hwf : pt_wf m rc r).

Lemma pml4_entry_next i :
  0 <= i < 512 → next (pte m r i) =
    if has (pte m r i) VMM_PRESENT then Some (pte m r i .& VMM_PHYS_MASK) else None.
Proof.
  intros Hi. unfold next. destruct (has _ VMM_PRESENT) eqn:E; [|done].
  rewrite (pt_nohuge _ _ _ Hwf [] r i); try done; [constructor|simpl; lia].
Qed.

Lemma pdpt_entry_next i4 t i :
  0 <= i4 < 512 → 0 <= i < 512 → next (pte m r i4) = Some t →
  has (pte m t i) VMM_PRESENT = true → has (pte m t i) VMM_HUGE = false.
Proof.
  intros Hi4 Hi Ht. apply (pt_nohuge _ _ _ Hwf [i4]); [by apply valid_path_one|simpl; lia| |done].
  simpl. by rewrite Ht.
Qed.

Lemma get_physical_leaf va : vmm_get_physical m r va = leaf_physical (vleaf m r va) va.
Proof.
  destruct (idx_range va) as (H4 & H3 & H2 & H1).
  unfold vmm_get_physical, vleaf, leaf. simpl.
  pose proof (pml4_entry_next (pml4_idx va) H4) as E4.
  destruct (has (pte m r (pml4_idx va)) VMM_PRESENT); rewrite E4; simpl; [|done].
  pose proof (pdpt_entry_next _ _ (pdpt_idx va) H4 H3 E4) as Hh.
  unfold next. destruct (has (pte m _ (pdpt_idx va)) VMM_PRESENT) eqn:E3; simpl; [|done].
  rewrite Hh by done. simpl.
  destruct (has (pte m _ (pd_idx va)) VMM_PRESENT) eqn:E2; simpl; [|done].
  destruct (has (pte m _ (pd_idx va)) VMM_HUGE) eqn:E1; simpl; [done|].
  by destruct (has (pte m _ (pt_idx va)) VMM_PRESENT).
Qed.

Lemma get_flags_leaf va : vmm_get_flags m r va = leaf_flags (vleaf m r va).
Proof.
  destruct (idx_range va) as (H4 & H3 & H2 & H1).
  unfold vmm_get_flags, vleaf, leaf. simpl.
  pose proof (pml4_entry_next (pml4_idx va) H4) as E4.
  destruct (has (pte m r (pml4_idx va)) VMM_PRESENT); rewrite E4; simpl; [|done].
  pose proof (pdpt_entry_next _ _ (pdpt_idx va) H4 H3 E4) as Hh.
  unfold next. destruct (has (pte m _ (pdpt_idx va)) VMM_PRESENT) eqn:E3; simpl; [|done].
  rewrite Hh by done. simpl.
  destruct (has (pte m _ (pd_idx va)) VMM_PRESENT) eqn:E2; simpl; [|done].
  destruct (has (pte m _ (pd_idx va)) VMM_HUGE) eqn:E1; simpl; [done|].
  by destruct (has (pte m _ (pt_idx va)) VMM_PRESENT).
Qed.

Lemma get_pte_walk va :
  vmm_get_pte m r va =
    match walk m r (tables_path va) with Some pt => pte_addr pt (pt_idx va) | None => 0 end.
Proof.
  destruct (idx_range va) as (H4 & H3 & H2 & H1).
  unfold vmm_get_pte. simpl. pose proof (pml4_entry_next (pml4_idx va) H4) as E4.
  destruct (has (pte m r (pml4_idx va)) VMM_PRESENT); rewrite E4; simpl; [|done].
  unfold next.
  destruct (has (pte m _ (pdpt_idx va)) VMM_PRESENT), (has (pte m _ (pdpt_idx va)) VMM_HUGE);
    simpl; try done.
  by destruct (has (pte m _ (pd_idx va)) VMM_PRESENT), (has (pte m _ (pd_idx va)) VMM_HUGE).
Qed.

End Lookups.
