(* ===== verification/VmmOps.v ===== *)
(** * Virtual memory manager: mapping and unmapping

    The effect of [vmm_map_page] and [vmm_unmap_page] on a well-formed root, on
    the translation of every virtual address and on every byte of memory, proved
    against the frame-allocator interface. *)

From Stdlib Require Import ZArith Lia.
From S2P Require Import Prelude Memory Frames Vmm VmmInv.
Import StringC.

Section VmmOps.
Context {S : Type} `{FA : FrameAllocator S}.
Implicit Types v : vm S.

Abbreviation rc_of v := (fa_rc (vm_pmm v)).

(** A root and the allocator are in order. *)
Definition root_ok (v : vm S) (r : Z) : Prop :=
  fa_wf (vm_pmm v) ∧ pt_wf (vm_mem v) (rc_of v) r.

(** From [v] to [v'] the tables of root [r] were only extended along [path]: no
    translation changed, and memory only inside tables on the path. *)
Record grows (path : list Z) (r : Z) (v v' : vm S) : Prop := {
  grows_ok : root_ok v' r;
  grows_leaf i4 i3 i2 i1 : valid_path [i4; i3; i2; i1] →
    leaf (vm_mem v') r i4 i3 i2 i1 = leaf (vm_mem v) r i4 i3 i2 i1;
  grows_walk q t : valid_path q → (length q <= 3)%nat →
    walk (vm_mem v) r q = Some t → walk (vm_mem v') r q = Some t;
  grows_rc a : rc_of v' a = rc_of v a ∨
    (rc_of v a = 0 ∧ rc_of v' a = 1 ∧ ∃ q, q `prefix_of` path ∧ walk (vm_mem v') r q = Some a);
  grows_mem b : read8 (vm_mem v') b = read8 (vm_mem v) b ∨
    ∃ q t, q `prefix_of` path ∧ walk (vm_mem v') r q = Some t ∧ page_range t b;
  grows_bits q t i k : valid_path (q ++ [i]) → (length q <= 3)%nat →
    walk (vm_mem v) r q = Some t → has (pte (vm_mem v) t i) VMM_PRESENT = true → 0 <= k →
    Z.testbit (pte (vm_mem v) t i) k = true → Z.testbit (pte (vm_mem v') t i) k = true;
  grows_new q t : valid_path q → (length q <= 3)%nat → walk (vm_mem v') r q = Some t →
    walk (vm_mem v) r q = Some t ∨ rc_of v t = 0;
  grows_huge q t i : valid_path (q ++ [i]) → (length q <= 2)%nat → walk (vm_mem v') r q = Some t →
    has (pte (vm_mem v') t i) VMM_HUGE = true →
    walk (vm_mem v) r q = Some t ∧ has (pte (vm_mem v) t i) VMM_HUGE = true;
  grows_cr3 : vm_cr3 v' = vm_cr3 v;
  grows_kheap : kheap_next v' = kheap_next v;
}.

Lemma grows_refl path r v : root_ok v r → grows path r v v.
Proof. intros [? ?]. constructor; try done; auto. Qed.

Lemma grows_trans path r v1 v2 v3 :
  valid_path path → (length path <= 3)%nat →
  grows path r v1 v2 → grows path r v2 v3 → grows path r v1 v3.
Proof.
  intros Hv Hl H12 H23.
  assert (∀ q t, q `prefix_of` path → walk (vm_mem v2) r q = Some t →
    walk (vm_mem v3) r q = Some t) as Hkeep.
  { intros q t Hq. apply (grows_walk _ _ _ _ H23); [by eapply valid_path_prefix|].
    apply prefix_length in Hq. lia. }
  constructor.
  - apply H23.
  - intros. rewrite (grows_leaf _ _ _ _ H23) by done. by apply H12.
  - intros q t Hq Hlq Hw. by apply H23, H12.
  - intros a. destruct (grows_rc _ _ _ _ H23 a) as [->|(H0 & H1 & q & Hq & Hw)].
    + destruct (grows_rc _ _ _ _ H12 a) as [?|(? & ? & q & ? & ?)]; [by left|].
      right. split_and!; [done..|]. exists q. auto.
    + destruct (grows_rc _ _ _ _ H12 a) as [Heq|(? & ? & _)]; [|lia].
      right. split_and!; [lia|done|]. exists q. auto.
  - intros b. destruct (grows_mem _ _ _ _ H23 b) as [->|?]; [|by right].
    destruct (grows_mem _ _ _ _ H12 b) as [?|(q & t & ? & ? & ?)]; [by left|].
    right. exists q, t. auto.
  - intros q t i k Hq Hlq Hw Hpr Hk Hb. apply (grows_bits _ _ _ _ H23 q); try done.
    + apply H12; try done. by apply valid_path_app in Hq as [? _].
    + rewrite has_present in *. by apply (grows_bits _ _ _ _ H12 q); [| | |rewrite has_present| |].
    + by apply (grows_bits _ _ _ _ H12 q).
  - intros q t Hq Hlq Hw3. destruct (grows_new _ _ _ _ H23 q t Hq Hlq Hw3) as [Hw2|H0].
    + by apply (grows_new _ _ _ _ H12 q).
    + right. destruct (grows_rc _ _ _ _ H12 t) as [?|(? & _)]; lia.
  - intros q t i Hq Hlq Hw3 Hh. destruct (grows_huge _ _ _ _ H23 q t i Hq Hlq Hw3 Hh) as [Hw2 Hh2].
    by apply (grows_huge _ _ _ _ H12).
  - rewrite (grows_cr3 _ _ _ _ H23). apply H12.
  - rewrite (grows_kheap _ _ _ _ H23). apply H12.
Qed.

Lemma prefix_snoc_l (p : list Z) i path : p ++ [i] `prefix_of` path → p `prefix_of` path.
Proof. intros [k ->]. exists ([i] ++ k). by rewrite app_assoc. Qed.

(** ** [pt_walk_or_alloc] and the user-bit update *)

Section Step.
Context (path p : list Z) (r t i : Z) (v : vm S).
Context (Hok : root_ok v r) (Hpath : valid_path path) (Hlen : (length path <= 3)%nat).
Context (Hpre : p ++ [i] `prefix_of` path) (Hw : walk (vm_mem v) r p = Some t).

Lemma step_facts : valid_path p ∧ 0 <= i < 512 ∧ (length p <= 2)%nat.
Proof.
  pose proof (valid_path_prefix _ _ Hpre Hpath) as [? ?%valid_path_one]%valid_path_app.
  pose proof (prefix_length _ _ Hpre) as Hl. rewrite length_app in Hl. simpl in Hl.
  split_and!; (done || lia).
Qed.

Lemma step_frame : is_frame t.
Proof.
  destruct step_facts as (? & ? & ?), Hok as [_ Hwf].
  apply (pt_tables _ _ _ Hwf p); [done|lia|done].
Qed.

Lemma pt_walk_or_alloc_grows :
  (has (pte (vm_mem v) t i) VMM_PRESENT = true → has (pte (vm_mem v) t i) VMM_HUGE = false) →
  wp (pt_walk_or_alloc t i) (λ a v',
    (a = 0 ∧ v' = v ∧ fa_avail (vm_pmm v) = 0 ∧ has (pte (vm_mem v) t i) VMM_PRESENT = false) ∨
    (is_frame a ∧ grows path r v v' ∧ walk (vm_mem v') r (p ++ [i]) = Some a)) v.
Proof.
  intros Hh. destruct step_facts as (Hp & Hi & Hl), Hok as [Hfa Hwf].
  pose proof step_frame as Ht.
  unfold pt_walk_or_alloc, load. repeat wp_step.
  destruct (has (pte (vm_mem v) t i) VMM_PRESENT) eqn:E; wp_steps.
  - right. assert (walk (vm_mem v) r (p ++ [i]) = Some (pte (vm_mem v) t i .& VMM_PHYS_MASK)) as Hw'.
    { rewrite walk_snoc, Hw. apply next_intro; auto. }
    split_and!; [|by apply grows_refl|done]. apply (pt_tables _ _ _ Hwf (p ++ [i])); [| |done].
    + by eapply valid_path_prefix.
    + rewrite length_app. simpl. lia.
  - unfold alloc_frame, on_pmm. repeat wp_step. eapply wp_mono; [by apply fa_alloc_spec|].
    intros n s' [(-> & -> & Hav)|(Hn & Hrc0 & Hfa' & Hrc & Hav & Hav')].
    { rewrite Z.eqb_refl. apply wp_ret. left. destruct v. done. }
    rewrite (proj2 (Z.eqb_neq _ _)) by (by apply is_frame_not_failed).
    unfold zero_page, store. repeat wp_step. right. simpl.
    assert (t ≠ n) as Hne.
    { intros ->. destruct (pt_tables _ _ _ Hwf p n); [done|lia|done|lia]. }
    edestruct (linked_entries (vm_mem v) t i n) as (Hzero & Hset & Hother & Hmem);
      [exact Ht|exact Hn|exact Hne|exact Hi|exact (frame_entry_range n Hn)|reflexivity|].
    generalize dependent (write64 (memset (vm_mem v) n 0 PAGE_SIZE) (pte_addr t i)
      (n .| VMM_PRESENT .| VMM_WRITE)). intros m2 Hzero Hset Hother Hmem.
    assert (walk m2 r (p ++ [i]) = Some n) as Hlink.
    { eapply link_new; try done. by apply next_frame. }
    split_and!; [done| |done].
    constructor; simpl.
    + split; [done|]. eapply link_wf; try done. by apply next_frame.
    + intros. eapply (link_leaf (vm_mem v) m2 (rc_of v) (fa_rc s') r Hwf p t i n); try done. by apply next_frame.
    + intros. eapply (link_old (vm_mem v) m2 (rc_of v) r Hwf p t i n); (done || lia).
    + intros a. rewrite Hrc. case_if; [subst|by left]. right. split_and!; [done..|].
      by exists (p ++ [i]).
    + intros b. destruct (decide (page_range n b)).
      { right. by exists (p ++ [i]), n. }
      destruct (decide (page_range t b)).
      { right. exists p, t. split_and!; [by eapply prefix_snoc_l| |done..].
        apply (link_old (vm_mem v) m2 (rc_of v) r Hwf p t i n); (done || lia). }
      left. by apply Hmem.
    + intros q u j k [Hq Hj%valid_path_one]%valid_path_app Hlq Hu Hpr Hk Hb.
      rewrite Hother; [done|by apply (pt_tables _ _ _ Hwf q)|done| |].
      * intros ->. destruct (pt_tables _ _ _ Hwf q n); [done..|lia].
      * intros [= -> ->]. congruence.
    + intros q u Hq Hlq Hu.
      assert ((q = p ++ [i] ∧ u = n) ∨ walk (vm_mem v) r q = Some u) as [[_ ->]|?]; auto.
      eapply (link_inv (vm_mem v) m2 (rc_of v)); eauto using next_frame.
    + intros q u j [Hq Hj%valid_path_one]%valid_path_app Hlq Hu Hhu.
      assert ((q = p ++ [i] ∧ u = n) ∨ walk (vm_mem v) r q = Some u) as [[_ ->]|Hu0].
      { eapply (link_inv (vm_mem v) m2 (rc_of v)); eauto using next_frame. }
      { by rewrite Hzero in Hhu. }
      split; [done|]. destruct (decide ((u, j) = (t, i))) as [[= -> ->]|Hne'].
      * rewrite Hset in Hhu. by destruct (next_present _ _ (next_frame n Hn)) as [_ ?]; congruence.
      * rewrite Hother in Hhu; [done|apply (pt_tables _ _ _ Hwf q); (done || lia)|done| |done].
        intros ->. destruct (pt_tables _ _ _ Hwf q n); [done|lia|done|lia].
    + done.
    + done.
Qed.

Lemma mark_user_grows flags a :
  walk (vm_mem v) r (p ++ [i]) = Some a →
  wp (mark_user flags t i) (λ _ v',
    grows path r v v' ∧ vm_pmm v' = vm_pmm v ∧ walk (vm_mem v') r (p ++ [i]) = Some a ∧
    (has flags VMM_USER = true → has (pte (vm_mem v') t i) VMM_USER = true)) v.
Proof.
  intros Ha. destruct step_facts as (Hp & Hi & Hl), Hok as [Hfa Hwf].
  pose proof step_frame as Ht.
  unfold mark_user. destruct (has flags VMM_USER).
  2: { apply wp_ret. split_and!; [by apply grows_refl|done..]. }
  unfold load, store. repeat wp_step. simpl.
  pose proof Ha as Hnext. rewrite walk_snoc, Hw in Hnext.
  set (e := pte (vm_mem v) t i) in *.
  assert (0 <= e .| VMM_USER < 2^64) as He.
  { apply lor_range; [lia|apply pte_range|unfold VMM_USER; lia]. }
  destruct (stored_entries (vm_mem v) t i (e .| VMM_USER) _ Ht Hi He eq_refl)
    as (Hset & Hother & Hmem).
  generalize dependent (write64 (vm_mem v) (pte_addr t i) (e .| VMM_USER)).
  intros m' Hset Hother Hmem.
  assert (∀ q, valid_path q → (length q <= 3)%nat → walk m' r q = walk (vm_mem v) r q) as Hsame.
  { intros q Hq Hlq. eapply (store_same_walk (vm_mem v) (rc_of v) r Hwf p t i); try done; [lia|].
    left. apply next_mark_user. }
  pose proof (next_present _ _ Hnext) as [Hpr Hhu].
  split_and!.
  - constructor; simpl.
    + split; [done|]. eapply (store_same_wf (vm_mem v) (rc_of v) r Hwf p t i); try done; [lia| |].
      * left. apply next_mark_user.
      * left. intros _. apply (next_present _ a). by rewrite next_mark_user.
    + intros. eapply (store_table_leaf (vm_mem v) (rc_of v) r Hwf p t i); try done; [lia| |].
      * apply next_mark_user.
      * rewrite next_mark_user. congruence.
    + intros q u Hq Hlq. by rewrite Hsame.
    + by left.
    + intros b. destruct (decide (page_range t b)); [|left; by apply Hmem].
      right. exists p, t. split_and!; [by eapply prefix_snoc_l|rewrite Hsame; [done|done|lia]|done..].
    + intros q u j k [Hq Hj%valid_path_one]%valid_path_app Hlq Hu _ Hk Hb.
      destruct (decide ((u, j) = (t, i))) as [[= -> ->]|Hne].
      * rewrite Hset, Z.lor_spec. subst e. by rewrite Hb.
      * rewrite Hother; [done|by apply (pt_tables _ _ _ Hwf q)|done|done].
    + intros q u Hq Hlq. rewrite Hsame by done. by left.
    + intros q u j [Hq Hj%valid_path_one]%valid_path_app Hlq. rewrite Hsame by (done || lia). intros Hu Hh'.
      split; [done|]. destruct (decide ((u, j) = (t, i))) as [[= -> ->]|Hne].
      * rewrite Hset, has_huge, Z.lor_spec in Hh'. rewrite has_huge. unfold VMM_USER in Hh'. simpl in Hh'.
        by rewrite orb_false_r in Hh'.
      * rewrite Hother in Hh'; [done|apply (pt_tables _ _ _ Hwf q); (done || lia)|done|done].
    + done.
    + done.
  - done.
  - rewrite Hsame; [done|by eapply valid_path_prefix|rewrite length_app; simpl; lia].
  - intros _. rewrite Hset, has_user, Z.lor_spec. apply orb_true_r.
Qed.

End Step.

(** ** [vmm_map_page] *)

(** Every entry above the leaf of [va] lets user code through. *)
Definition user_path (m : mem) (r va : Z) : Prop :=
  ∀ q i, q ++ [i] `prefix_of` tables_path va →
    ∃ t, walk m r q = Some t ∧ has (pte m t i) VMM_USER = true.

(** One level of the descent: the table behind the entry, marked for user code
    when the mapping is. *)
Lemma level_step path p r t i flags v (k : Z → M (vm S) Z) (Q : Z → vm S → Prop) :
  root_ok v r → valid_path path → (length path <= 3)%nat → p ++ [i] `prefix_of` path →
  walk (vm_mem v) r p = Some t →
  (has (pte (vm_mem v) t i) VMM_PRESENT = true → has (pte (vm_mem v) t i) VMM_HUGE = false) →
  (fa_avail (vm_pmm v) = 0 → Q (-1) v) →
  (∀ a v', grows path r v v' → walk (vm_mem v') r p = Some t →
     walk (vm_mem v') r (p ++ [i]) = Some a →
     (has flags VMM_USER = true → has (pte (vm_mem v') t i) VMM_USER = true) →
     wp (k a) Q v') →
  wp (a ← pt_walk_or_alloc t i;
      if a =? 0 then mret (-1) else mark_user flags t i;; k a) Q v.
Proof.
  intros Hok Hpath Hlen Hpre Hw Hh Hfail Hk. repeat wp_step.
  eapply wp_mono; [by eapply (pt_walk_or_alloc_grows path p r t i v)|].
  intros a v1 [(-> & -> & Hav & _)|(Ha & Hg & Hw1)]; simpl; [by apply wp_ret, Hfail|].
  rewrite (proj2 (Z.eqb_neq _ _)) by (destruct Ha; lia).
  apply wp_bind.
  assert (valid_path p ∧ (length p <= 2)%nat) as [Hp Hl].
  { pose proof (valid_path_prefix _ _ Hpre Hpath) as [? _]%valid_path_app.
    apply prefix_length in Hpre. rewrite length_app in Hpre. simpl in Hpre. split; [done|lia]. }
  eapply wp_mono.
  { apply (mark_user_grows path p r t i v1); [apply Hg|done..| |exact Hw1].
    apply (grows_walk _ _ _ _ Hg); [done|lia|done]. }
  intros _ v2 (Hg2 & _ & Hw2 & Hu). apply Hk; [by eapply grows_trans| |done..].
  apply (grows_walk _ _ _ _ Hg2); [done|lia|].
  apply (grows_walk _ _ _ _ Hg); [done|lia|done].
Qed.

(** A user-marked entry stays marked while the tables grow. *)
Lemma grows_user path r v v' q t i a :
  grows path r v v' → valid_path (q ++ [i]) → (length q <= 2)%nat →
  walk (vm_mem v) r q = Some t → walk (vm_mem v) r (q ++ [i]) = Some a →
  has (pte (vm_mem v) t i) VMM_USER = true →
  walk (vm_mem v') r q = Some t ∧ walk (vm_mem v') r (q ++ [i]) = Some a ∧
  has (pte (vm_mem v') t i) VMM_USER = true.
Proof.
  intros G Hv Hl Hq Ha Hu. pose proof Hv as [Hvq _]%valid_path_app. split_and!.
  - apply G; [done|lia|done].
  - apply G; [done|rewrite length_app; simpl; lia|done].
  - rewrite has_user in *. rewrite walk_snoc, Hq in Ha. apply next_present in Ha as [? _].
    apply (grows_bits _ _ _ _ G q); (done || lia).
Qed.

Lemma user_path_intro m r va t4 t3 t2 :
  walk m r [] = Some t4 → walk m r [pml4_idx va] = Some t3 →
  walk m r [pml4_idx va; pdpt_idx va] = Some t2 →
  has (pte m t4 (pml4_idx va)) VMM_USER = true → has (pte m t3 (pdpt_idx va)) VMM_USER = true →
  has (pte m t2 (pd_idx va)) VMM_USER = true → user_path m r va.
Proof.
  intros W4 W3 W2 U4 U3 U2 q i [k Hq]. unfold tables_path in Hq.
  destruct q as [|? [|? [|? q]]]; simplify_eq/=; eauto.
  by destruct q.
Qed.

(** The page-directory entry of [va] has the huge bit. *)
Definition pd_huge (m : mem) (r va : Z) : Prop :=
  ∃ pd, walk m r [pml4_idx va; pdpt_idx va] = Some pd ∧ has (pte m pd (pd_idx va)) VMM_HUGE = true.

Lemma map_page_steps r va phys flags v :
  root_ok v r →
  wp (vmm_map_page r va phys flags) (λ res v',
    (res = -1 ∧ grows (tables_path va) r v v' ∧
      (fa_avail (vm_pmm v') = 0 ∨ pd_huge (vm_mem v') r va)) ∨
    (res = 0 ∧ ∃ v1 pt, grows (tables_path va) r v v1 ∧
      walk (vm_mem v1) r (tables_path va) = Some pt ∧
      (has flags VMM_USER = true → user_path (vm_mem v1) r va) ∧
      v' = set_mem (write64 (vm_mem v1) (pte_addr pt (pt_idx va)) (leaf_entry phys flags)) v1)) v.
Proof.
  intros Hok. pose proof (tables_path_valid va) as Hv. pose proof (vpath_valid va) as Hvp.
  destruct (idx_range va) as (H4 & H3 & H2 & H1).
  assert (∀ v q t i, root_ok v r → (length q <= 1)%nat → valid_path q → 0 <= i < 512 →
    walk (vm_mem v) r q = Some t →
    has (pte (vm_mem v) t i) VMM_PRESENT = true → has (pte (vm_mem v) t i) VMM_HUGE = false) as Hnh.
  { intros v0 q t i [_ Hwf] Hl Hq Hi Hw. by apply (pt_nohuge _ _ _ Hwf q). }
  assert (valid_path [pml4_idx va]) as Hv1 by (by apply valid_path_one).
  assert (valid_path [pml4_idx va; pdpt_idx va]) as Hv2.
  { eapply valid_path_prefix; [|exact Hv]. by exists [pd_idx va]. }
  assert (length (tables_path va) <= 3)%nat as Hl by (simpl; lia).
  unfold vmm_map_page.
  apply (level_step (tables_path va) [] r);
    [done|done|done|by exists [pdpt_idx va; pd_idx va]|done| | |].
  { apply (Hnh v []); (done || simpl; lia || constructor). }
  { left. split_and!; [done|by apply grows_refl|by left]. }
  intros pdpt v1 G1 W0 W1 U1. simpl in W1.
  apply (level_step (tables_path va) [pml4_idx va] r);
    [apply G1|done|done|by exists [pd_idx va]|exact W1| | |].
  { apply (Hnh v1 [pml4_idx va]); (done || simpl; lia || apply G1). }
  { left. split_and!; [done|done|by left]. }
  intros pd v2 G2 W1' W2 U2. simpl in W2. unfold load at 1. wp_step. wp_step.
  assert (grows (tables_path va) r v v2) as G02 by (by eapply grows_trans).
  destruct (has (pte (vm_mem v2) pd (pd_idx va)) VMM_HUGE) eqn:Eh.
  { apply wp_ret. left. split_and!; [done|done|]. right. by exists pd. }
  apply (level_step (tables_path va) [pml4_idx va; pdpt_idx va] r);
    [apply G2|done|done|by exists []|exact W2|done| |].
  { left. split_and!; [done|done|by left]. }
  intros pt v3 G3 W2' W3 U3. unfold store. repeat wp_step.
  right. split; [done|]. exists v3, pt. split_and!; [by eapply grows_trans|done| |done].
  intros Hf.
  destruct (grows_user _ _ _ _ [] r (pml4_idx va) pdpt G2) as (A0 & A1 & A2); auto.
  destruct (grows_user _ _ _ _ [] r (pml4_idx va) pdpt G3) as (B0 & B1 & B2); auto.
  destruct (grows_user _ _ _ _ [pml4_idx va] pdpt (pdpt_idx va) pd G3) as (C0 & C1 & C2); auto.
  eapply user_path_intro; eauto.
Qed.

(** ** A store into the page table that translates [va] *)

Section LeafStore.
Context (v : vm S) (r va pt e : Z).
Context (Hok : root_ok v r) (Hw : walk (vm_mem v) r (tables_path va) = Some pt)
  (He : 0 <= e < 2^64).
Context (m' : mem) (Hm' : m' = write64 (vm_mem v) (pte_addr pt (pt_idx va)) e).

Lemma leaf_store_table : is_frame pt ∧ 0 < rc_of v pt.
Proof.
  destruct Hok as [_ Hwf]. apply (pt_tables _ _ _ Hwf (tables_path va)); [|simpl; lia|done].
  apply tables_path_valid.
Qed.

Lemma leaf_store_entries :
  pte m' pt (pt_idx va) = e ∧
  (∀ u j, is_frame u → 0 <= j < 512 → (u, j) ≠ (pt, pt_idx va) → pte m' u j = pte (vm_mem v) u j) ∧
  (∀ b, ¬ page_range pt b → read8 m' b = read8 (vm_mem v) b).
Proof.
  apply (stored_entries (vm_mem v)); [apply leaf_store_table|apply idx_range|done|done].
Qed.

Lemma leaf_store_walk q : valid_path q → (length q <= 3)%nat → walk m' r q = walk (vm_mem v) r q.
Proof.
  destruct Hok as [_ Hwf], leaf_store_entries as (Hset & Hother & _).
  apply (store_same_walk _ _ _ Hwf (tables_path va) pt (pt_idx va) e);
    [apply tables_path_valid|simpl; lia|done|done|done|by right].
Qed.

Lemma leaf_store_wf : pt_wf m' (rc_of v) r.
Proof.
  destruct Hok as [_ Hwf], leaf_store_entries as (Hset & Hother & _).
  apply (store_same_wf _ _ _ Hwf (tables_path va) pt (pt_idx va) e);
    [apply tables_path_valid|simpl; lia|done|done|done|by right|right; simpl; lia].
Qed.

Lemma leaf_store_vleaf vb :
  vleaf m' r vb =
    if vpage vb =? vpage va then if has e VMM_PRESENT then Some (false, e) else None
    else vleaf (vm_mem v) r vb.
Proof.
  destruct Hok as [_ Hwf], leaf_store_entries as (Hset & Hother & _). unfold vleaf.
  rewrite (store_leaf _ _ _ Hwf (tables_path va) pt (pt_idx va) e);
    [|apply tables_path_valid|simpl; lia|done|done|done|done|apply vpath_valid].
  change [pml4_idx vb; pdpt_idx vb; pd_idx vb; pt_idx vb] with (vpath vb).
  change (tables_path va ++ [pt_idx va]) with (vpath va).
  destruct (vpage vb =? vpage va) eqn:E; b2p; case_decide as Hd; try done; exfalso.
  - by apply Hd, vpath_vpage.
  - by apply E, vpath_vpage.
Qed.

Lemma leaf_store_upper q t i :
  valid_path (q ++ [i]) → (length q <= 2)%nat → walk (vm_mem v) r q = Some t →
  pte m' t i = pte (vm_mem v) t i.
Proof.
  intros [Hq Hi%valid_path_one]%valid_path_app Hl Hq'.
  destruct Hok as [_ Hwf], leaf_store_entries as (_ & Hother & _).
  apply Hother; [apply (pt_tables _ _ _ Hwf q); (done || lia)|done|]. intros [= -> _].
  assert (q = tables_path va) as -> by
    (apply (pt_inj _ _ _ Hwf _ _ pt); (done || apply tables_path_valid || simpl; lia)).
  simpl in Hl. lia.
Qed.

Lemma leaf_store_user_path : user_path (vm_mem v) r va → user_path m' r va.
Proof.
  intros H q i Hq. destruct (H q i Hq) as (t & Ht & Hu). exists t.
  assert (length q <= 2)%nat.
  { apply prefix_length in Hq. rewrite length_app in Hq. simpl in Hq. lia. }
  pose proof (valid_path_prefix _ _ Hq (tables_path_valid va)) as Hv.
  split.
  - rewrite leaf_store_walk; [done| |lia]. by apply valid_path_app in Hv as [? _].
  - by rewrite (leaf_store_upper q).
Qed.

End LeafStore.

Lemma leaf_entry_range phys flags : 0 <= leaf_entry phys flags < 2^64.
Proof.
  unfold leaf_entry. repeat apply lor_range; try done.
  - rewrite Z.land_comm. apply land_range_l; (done || unfold VMM_PHYS_MASK; lia).
  - rewrite Z.land_comm. apply land_range_l; [done|]. apply u64_range.
Qed.

Lemma leaf_entry_present phys flags : has (leaf_entry phys flags) VMM_PRESENT = true.
Proof. rewrite has_present. unfold leaf_entry. rewrite Z.lor_spec. apply orb_true_r. Qed.

Lemma leaf_entry_phys phys flags : leaf_entry phys flags .& VMM_PHYS_MASK = phys .& VMM_PHYS_MASK.
Proof. unfold leaf_entry. bits_eq. Qed.

Lemma leaf_entry_flags phys flags :
  leaf_entry phys flags .& ~64 VMM_PHYS_MASK = (flags .& ~64 VMM_PHYS_MASK) .| VMM_PRESENT.
Proof. unfold leaf_entry. bits_eq. Qed.

Lemma grows_vleaf path r v v' va :
  grows path r v v' → vleaf (vm_mem v') r va = vleaf (vm_mem v) r va.
Proof. intros G. apply (grows_leaf _ _ _ _ G), (vpath_valid va). Qed.

(** ** [vmm_unmap_page] *)

Lemma unmap_page_walk r va v :
  root_ok v r →
  vmm_unmap_page r va v =
    match walk (vm_mem v) r (tables_path va) with
    | Some pt => Ret (tt, set_mem (write64 (vm_mem v) (pte_addr pt (pt_idx va)) 0) v)
    | None => Ret (tt, v)
    end.
Proof.
  intros [_ Hwf]. destruct (idx_range va) as (H4 & H3 & H2 & H1).
  pose proof (pml4_entry_next _ _ _ Hwf _ H4) as E4.
  unfold vmm_unmap_page, load, store, gets, modify, mbind, M_bind, mret, M_ret. simpl.
  destruct (has (pte (vm_mem v) r (pml4_idx va)) VMM_PRESENT); rewrite E4; simpl; [|done].
  pose proof (pdpt_entry_next _ _ _ Hwf _ _ (pdpt_idx va) H4 H3 E4) as Hh. unfold next.
  destruct (has (pte _ _ (pdpt_idx va)) VMM_PRESENT) eqn:E3; simpl; [|done].
  rewrite Hh by done. simpl.
  by destruct (has (pte _ _ (pd_idx va)) VMM_PRESENT), (has (pte _ _ (pd_idx va)) VMM_HUGE).
Qed.

(** ** Frames held outside the tables *)

(** A frame taken from the allocator: the root stays in order and the frame is
    none of its tables. *)
Lemma root_ok_alloc v r n s' :
  root_ok v r → is_frame n → rc_of v n = 0 → fa_wf s' → rc_update (rc_of v) (fa_rc s') n 1 →
  root_ok (set_pmm s' v) r ∧
  (∀ q, valid_path q → (length q <= 3)%nat → walk (vm_mem v) r q ≠ Some n).
Proof.
  intros [Hfa Hwf] Hn H0 Hfa' Hrc. split.
  - split; [done|]. eapply same_entries_wf; [exact Hwf|done|].
    intros t Ht. simpl. rewrite Hrc. case_if; lia.
  - intros q Hq Hl Hw. destruct (pt_tables _ _ _ Hwf q n); [done..|lia].
Qed.

(** Mapping leaves the count of a held frame alone and does not make it a table. *)
Lemma grows_held path r v v' n :
  grows path r v v' → 0 < rc_of v n →
  (∀ q, valid_path q → (length q <= 3)%nat → walk (vm_mem v) r q ≠ Some n) →
  rc_of v' n = rc_of v n ∧
  (∀ q, valid_path q → (length q <= 3)%nat → walk (vm_mem v') r q ≠ Some n).
Proof.
  intros G Hn Hno. split.
  - destruct (grows_rc _ _ _ _ G n) as [?|(? & _)]; [done|lia].
  - intros q Hq Hl Hw. destruct (grows_new _ _ _ _ G q n Hq Hl Hw) as [Hw'|?]; [by eapply Hno|lia].
Qed.

(** Giving back a frame that is no table. *)
Lemma root_ok_free v r n s' :
  root_ok v r → (∀ q, valid_path q → (length q <= 3)%nat → walk (vm_mem v) r q ≠ Some n) →
  fa_wf s' → rc_update (rc_of v) (fa_rc s') n (rc_of v n - 1) → root_ok (set_pmm s' v) r.
Proof.
  intros [Hfa Hwf] Hno Hfa' Hrc. split; [done|]. eapply same_tables_wf; [exact Hwf|done|].
  intros q t Hq Hl Hw. simpl. rewrite Hrc. case_if; [subst; by destruct (Hno q Hq Hl)|].
  by apply (pt_tables _ _ _ Hwf q).
Qed.

End VmmOps.
