(* ===== verification/VmmBuild.v ===== *)
(** * Virtual memory manager: building tables from fresh frames

    [vmm_init] and [vmm_create_address_space] allocate pages, clear them and
    fill them entry by entry.  [built v0 v T] describes such a construction: the
    tables [T] (their address and the entries they hold) are pages that were
    free in [v0], and nothing else changed since. *)

From Stdlib Require Import ZArith Lia.
From S2P Require Import Prelude Memory Frames Vmm VmmInv.
Import StringC.

Section VmmBuild.
Context {S : Type} `{FA : FrameAllocator S}.
Implicit Types v : vm S.

Abbreviation rc_of v := (fa_rc (vm_pmm v)).
Abbreviation table := (Z * (Z → Z))%type.

Definition upd (f : Z → Z) (i e : Z) : Z → Z := λ j, if j =? i then e else f j.

Record built (v0 v : vm S) (T : list table) : Prop := {
  built_fa : fa_wf (vm_pmm v);
  built_nodup : NoDup T.*1;
  built_tab a f : (a, f) ∈ T → is_frame a ∧ rc_of v0 a = 0 ∧ rc_of v a = 1 ∧
    ∀ i, 0 <= i < 512 → pte (vm_mem v) a i = f i;
  built_rc a : a ∉ T.*1 → rc_of v a = rc_of v0 a;
  built_mem b : (∀ a, a ∈ T.*1 → ¬ page_range a b) → read8 (vm_mem v) b = read8 (vm_mem v0) b;
  built_avail : fa_avail (vm_pmm v) = fa_avail (vm_pmm v0) - Z.of_nat (length T);
}.

Lemma built_nil v : fa_wf (vm_pmm v) → built v v [].
Proof. intros. constructor; try done; [constructor|by intros ? ? ?%elem_of_nil|simpl; lia]. Qed.

Lemma built_regs v0 v T v' :
  built v0 v T → vm_pmm v' = vm_pmm v → vm_mem v' = vm_mem v → built v0 v' T.
Proof. intros [] Hp Hm. constructor; rewrite ?Hp, ?Hm; auto. Qed.

(** A page taken from the allocator and cleared. *)
Lemma built_fresh v0 v T n s' :
  built v0 v T → is_frame n → rc_of v n = 0 → fa_wf s' → rc_update (rc_of v) (fa_rc s') n 1 →
  fa_avail s' = fa_avail (vm_pmm v) - 1 →
  built v0 (set_mem (memset (vm_mem v) n 0 PAGE_SIZE) (set_pmm s' v)) (T ++ [(n, λ _, 0)]).
Proof.
  intros B Hn Hrc0 Hfa Hrc Hav.
  assert (n ∉ T.*1) as Hnew.
  { intros ([a f] & -> & Hin)%list_elem_of_fmap. simpl in *.
    destruct (built_tab _ _ _ B _ _ Hin) as (_ & _ & ? & _). lia. }
  constructor; simpl.
  - done.
  - rewrite fmap_app. simpl. apply NoDup_app. split_and!; [apply B| |apply NoDup_singleton].
    intros a Ha ->%list_elem_of_singleton. done.
  - intros a f [Hin|Hin]%elem_of_app.
    + destruct (built_tab _ _ _ B _ _ Hin) as (Ha & H0 & H1 & Hf).
      assert (a ≠ n) as Hne by (intros ->; lia).
      split_and!; [done..|rewrite Hrc; case_if; congruence|].
      intros i Hi. rewrite <- Hf by done. apply pte_ext; [done|]. intros b Hb.
      apply read8_zero_page_ne. intros Hb'. by destruct Hne; eapply frames_disjoint.
    + apply list_elem_of_singleton in Hin. simplify_eq.
      split_and!; [done| |by rewrite Hrc, Z.eqb_refl|intros; by apply pte_zero_page].
      by rewrite <- (built_rc _ _ _ B).
  - intros a Ha. rewrite fmap_app, not_elem_of_app in Ha. destruct Ha as [Ha Han].
    simpl in Han. rewrite list_elem_of_singleton in Han.
    rewrite Hrc. case_if; [congruence|]. by apply B.
  - intros b Hb. rewrite read8_zero_page_ne.
    + apply B. intros a Ha. apply Hb. rewrite fmap_app. apply elem_of_app. by left.
    + apply Hb. rewrite fmap_app. apply elem_of_app. right. by apply list_elem_of_singleton.
  - rewrite Hav, (built_avail _ _ _ B), length_app. simpl. lia.
Qed.

Lemma lookup_fst (T : list table) k a f : T !! k = Some (a, f) → T.*1 !! k = Some a.
Proof. intros H. by rewrite list_lookup_fmap, H. Qed.

Lemma insert_fst (T : list table) k a f g : T !! k = Some (a, f) → (<[k := (a, g)]> T).*1 = T.*1.
Proof. intros H. rewrite list_fmap_insert. simpl. apply list_insert_id. by eapply lookup_fst. Qed.

Lemma built_set v0 v T k a f g m' :
  built v0 v T → T !! k = Some (a, f) →
  (∀ i, 0 <= i < 512 → pte m' a i = g i) →
  (∀ b, ¬ page_range a b → read8 m' b = read8 (vm_mem v) b) →
  built v0 (set_mem m' v) (<[k := (a, g)]> T).
Proof.
  intros B Hk Hset Hother. pose proof (insert_fst T k a f g Hk) as Hfst.
  assert (a ∈ T.*1) as Ha by (eapply list_elem_of_lookup_2, lookup_fst; done).
  constructor; simpl; rewrite ?Hfst.
  - apply B.
  - apply B.
  - intros c h [j Hj]%list_elem_of_lookup_1.
    apply list_lookup_insert_Some in Hj as [(<- & [= <- <-] & _)|[Hne Hj]].
    + destruct (built_tab _ _ _ B a f) as (? & ? & ? & _); [by eapply list_elem_of_lookup_2|].
      split_and!; done.
    + destruct (built_tab _ _ _ B c h) as (Hc & ? & ? & Hh); [by eapply list_elem_of_lookup_2|].
      split_and!; [done..|]. intros i Hi. rewrite <- Hh by done.
      apply pte_ext; [done|]. intros b Hb. apply Hother. intros Hb'.
      destruct (built_tab _ _ _ B a f) as (Hfa & _); [by eapply list_elem_of_lookup_2|].
      assert (a = c) as -> by (by eapply frames_disjoint).
      destruct Hne. eapply NoDup_lookup; [apply (built_nodup _ _ _ B)|by eapply lookup_fst..].
  - intros c Hc. by apply B.
  - intros b Hb. rewrite Hother by auto. by apply B.
  - rewrite length_insert. apply B.
Qed.

Lemma built_store v0 v T k a f i e :
  built v0 v T → T !! k = Some (a, f) → 0 <= i < 512 → 0 <= e < 2^64 →
  built v0 (set_mem (write64 (vm_mem v) (pte_addr a i) e) v) (<[k := (a, upd f i e)]> T).
Proof.
  intros B Hk Hi He.
  destruct (built_tab _ _ _ B a f) as (Ha & _ & _ & Hf); [by eapply list_elem_of_lookup_2|].
  destruct (stored_entries (vm_mem v) a i e _ Ha Hi He eq_refl) as (Hset & Hother & Hmem).
  eapply built_set; [done|done| |done].
  intros j Hj. unfold upd. destruct (j =? i) eqn:E; b2p; [by subst|].
  rewrite Hother by (done || congruence). by apply Hf.
Qed.

(** The entries of a table matter, not the function that describes them. *)
Lemma built_ext v0 v T k a f g :
  built v0 v T → T !! k = Some (a, f) → (∀ i, 0 <= i < 512 → f i = g i) →
  built v0 v (<[k := (a, g)]> T).
Proof.
  intros B Hk Hfg.
  destruct (built_tab _ _ _ B a f) as (Ha & _ & _ & Hf); [by eapply list_elem_of_lookup_2|].
  assert (built v0 (set_mem (vm_mem v) v) (<[k := (a, g)]> T)) as B'.
  { eapply built_set; [done|done| |done]. intros i Hi. rewrite Hf by done. by apply Hfg. }
  by eapply built_regs; [exact B'|..].
Qed.

Lemma built_insert_ext v0 v T k a h g :
  (k < length T)%nat → built v0 v (<[k := (a, h)]> T) → (∀ i, 0 <= i < 512 → h i = g i) →
  built v0 v (<[k := (a, g)]> T).
Proof.
  intros Hk B Hhg. rewrite <- (list_insert_insert_eq T k (a, g) (a, h)).
  eapply built_ext; [exact B|by apply list_lookup_insert_eq|done].
Qed.

Lemma built_insert_store v0 v T k a h i e :
  (k < length T)%nat → built v0 v (<[k := (a, h)]> T) → 0 <= i < 512 → 0 <= e < 2^64 →
  wp (store a i e) (λ _ v', built v0 v' (<[k := (a, upd h i e)]> T)) v.
Proof.
  intros Hk B Hi He. unfold store. repeat wp_step.
  rewrite <- (list_insert_insert_eq T k (a, upd h i e) (a, h)).
  eapply built_store; [exact B|by apply list_lookup_insert_eq|done|done].
Qed.

Lemma built_same v0 v T T' :
  built v0 v T → Forall2 (λ x y : table, x.1 = y.1 ∧ ∀ i, 0 <= i < 512 → x.2 i = y.2 i) T T' →
  built v0 v T'.
Proof.
  intros B HT. assert (T.*1 = T'.*1) as Hfst.
  { clear B. induction HT as [|x y T T' [? _] _ IH]; [done|]. by simpl; f_equal. }
  constructor; rewrite <- ?Hfst, <- ?(Forall2_length _ _ _ HT); try apply B.
  intros a f Hin.
  destruct (list_elem_of_lookup_1 _ _ Hin) as [k Hk].
  destruct (Forall2_lookup_r _ _ _ _ _ HT Hk) as ([a' g] & Hk' & Ha & Hg). simpl in *; subst.
  destruct (built_tab _ _ _ B a g) as (? & ? & ? & Hf); [by eapply list_elem_of_lookup_2|].
  split_and!; [done..|]. intros i Hi. by rewrite <- Hg, <- Hf.
Qed.

(** A loop that sets entries [lo..hi-1] of table number [k], one per iteration. *)
Lemma built_loop v0 T k a f g lo hi body (Q : () → vm S → Prop) v :
  0 <= lo → lo <= hi → hi <= 512 → built v0 v T → T !! k = Some (a, f) →
  (∀ i v h, lo <= i < hi → built v0 v (<[k := (a, h)]> T) →
     (∀ j, i <= j < 512 → h j = f j) →
     wp (body i) (λ _ v', built v0 v' (<[k := (a, upd h i (g i))]> T)) v) →
  (∀ v', built v0 v' (<[k := (a, λ i, if in_block lo (hi - lo) i then g i else f i)]> T) → Q tt v') →
  wp (for_rangeM lo hi body) Q v.
Proof.
  intros Hlo Hle Hhi B Hk Hbody HQ.
  assert (k < length T)%nat as Hlt by (by eapply lookup_lt_Some).
  apply (wp_for_range (λ i v, built v0 v
    (<[k := (a, λ j, if in_block lo (i - lo) j then g j else f j)]> T))); [done| | |exact HQ].
  - eapply built_ext; [done|done|]. intros j Hj. cbv beta. block; [lia|done].
  - intros i s Hi Bi. eapply wp_mono; [apply Hbody; [done|exact Bi|]|].
    + intros j Hj. cbv beta. block; [lia|done].
    + intros [] s' B'. eapply built_insert_ext; [done|exact B'|].
      intros j Hj. unfold upd. destruct (j =? i) eqn:E; b2p; block; subst; (done || lia).
Qed.

Lemma alloc_table_built v0 v T why :
  built v0 v T → 0 < fa_avail (vm_pmm v) →
  wp (alloc_table why) (λ n v',
    is_frame n ∧ built v0 v' (T ++ [(n, λ _, 0)])) v.
Proof.
  intros B Hav. unfold alloc_table, alloc_frame, on_pmm. repeat wp_step.
  eapply wp_mono; [apply fa_alloc_spec, B|].
  intros n s' [(-> & -> & H0)|(Hn & Hrc0 & Hfa & Hrc & Hav' & _)]; [lia|]. apply wp_bind.
  apply wp_KASSERT; [by apply negb_true_iff, Z.eqb_neq, is_frame_not_failed|].
  unfold zero_page. repeat wp_step. split; [done|]. by apply (built_fresh v0 v T n s').
Qed.

End VmmBuild.
