(* ===== verification/VmmInit.v ===== *)
(** * Virtual memory manager: the boot page tables

    What [vmm_init] builds: six tables with exactly the entries of
    [boot_tables], a well-formed root, and the translation they define. *)

From Stdlib Require Import ZArith Lia.
From S2P Require Import Prelude Memory Frames Vmm VmmInv VmmOps VmmBuild.
Import StringC.

(** ** The entries of the six tables *)

Definition to_table (a : Z) : Z := a .| VMM_PRESENT .| VMM_WRITE.
Definition small_page (i : Z) : Z := (i * PAGE_SIZE) .| VMM_PRESENT .| VMM_WRITE.
Definition huge_page (i : Z) : Z := (i * 0x200000) .| VMM_PRESENT .| VMM_WRITE .| VMM_HUGE.

Definition pml4_entries (pdpt_id pdpt_hh i : Z) : Z :=
  if i =? 0 then to_table pdpt_id else if i =? 511 then to_table pdpt_hh else 0.
Definition pt0_entries (guard i : Z) : Z :=
  if (i =? 0) || (i * PAGE_SIZE =? guard) then 0 else small_page i.
Definition pd0_entries (pt0 i : Z) : Z := if i =? 0 then to_table pt0 else huge_page i.
Definition one_entry (k e i : Z) : Z := if i =? k then e else 0.

Definition boot_tables (guard pml4 pt0 pd0 pdpt_id pdpt_hh pd_hh : Z) : list (Z * (Z → Z)) :=
  [(pml4, pml4_entries pdpt_id pdpt_hh);
   (pt0, pt0_entries guard);
   (pd0, pd0_entries pt0);
   (pdpt_id, one_entry 0 (to_table pd0));
   (pdpt_hh, one_entry 510 (to_table pd_hh));
   (pd_hh, one_entry 0 (huge_page 0))].

Lemma small_page_range i : 0 <= i < 512 → 0 <= small_page i < 2^64.
Proof. intros. unfold small_page, PAGE_SIZE. repeat apply lor_range; try done; lia. Qed.

Lemma huge_page_range i : 0 <= i < 512 → 0 <= huge_page i < 2^64.
Proof. intros. unfold huge_page. repeat apply lor_range; try done; lia. Qed.

Lemma small_page_bits i : 0 <= i < 512 →
  has (small_page i) VMM_PRESENT = true ∧ small_page i .& VMM_PHYS_MASK = i * PAGE_SIZE.
Proof.
  intros Hi. unfold small_page, PAGE_SIZE. change 4096 with (2^12). split.
  - rewrite has_present, !Z.lor_spec. simpl. by rewrite orb_true_r.
  - assert (∀ n, 52 <= n → Z.testbit (i * 2^12) n = false) as Hhi.
    { intros n Hn. apply (bits_above _ _ 52); lia. }
    assert (∀ n, 0 <= n < 12 → Z.testbit (i * 2^12) n = false) as Hlow.
    { intros n Hn. apply Z.mul_pow2_bits_low; lia. }
    bits_eq; match goal with H : Z.testbit (i * _) _ = true |- _ =>
      (rewrite Hhi in H by lia) || (rewrite Hlow in H by lia); done end.
Qed.

Lemma huge_mask_bits n :
  0 <= n → Z.testbit 0x000FFFFFFFE00000 n = (21 <=? n) && (n <? 52).
Proof.
  intros Hn. change 0x000FFFFFFFE00000 with (Z.shiftl (Z.ones 31) 21).
  destruct (21 <=? n) eqn:E; b2p; simpl.
  - rewrite Z.shiftl_spec_high by lia. destruct (n <? 52) eqn:E'; b2p.
    + apply Z.ones_spec_low. lia.
    + apply Z.ones_spec_high. lia.
  - apply Z.shiftl_spec_low. lia.
Qed.

Lemma huge_page_bits i : 0 <= i < 512 →
  has (huge_page i) VMM_PRESENT = true ∧ has (huge_page i) VMM_HUGE = true ∧
  huge_page i .& 0x000FFFFFFFE00000 = i * 0x200000.
Proof.
  intros Hi. unfold huge_page. change 0x200000 with (2^21). split_and!.
  - rewrite has_present, !Z.lor_spec. simpl. by rewrite !orb_true_r.
  - rewrite has_huge, !Z.lor_spec. simpl. by rewrite !orb_true_r.
  - assert (∀ n, 52 <= n → Z.testbit (i * 2^21) n = false) as Hhi.
    { intros n Hn. apply (bits_above _ _ 52); lia. }
    assert (∀ n, 0 <= n < 21 → Z.testbit (i * 2^21) n = false) as Hlow.
    { intros n Hn. apply Z.mul_pow2_bits_low; lia. }
    apply Z.bits_inj'. intros n Hn. rewrite Z.land_spec, huge_mask_bits by done.
    bits_expand.
    destruct (Z.eqb_spec 0 n), (Z.eqb_spec 1 n), (Z.eqb_spec 7 n), (Z.leb_spec 21 n),
      (Z.ltb_spec n 52); try lia; rewrite ?Hhi, ?Hlow by lia; simpl;
      by rewrite ?andb_false_r, ?andb_true_r, ?orb_false_r.
Qed.

Lemma next_huge_page i : 0 <= i < 512 → next (huge_page i) = None.
Proof. intros Hi. unfold next. destruct (huge_page_bits i Hi) as (-> & -> & _). done. Qed.

Section VmmInit.
Context {S : Type} `{FA : FrameAllocator S}.
Implicit Types v : vm S.

Lemma store_built v0 v T k a f i e :
  built v0 v T → T !! k = Some (a, f) → 0 <= i < 512 → 0 <= e < 2^64 →
  wp (store a i e) (λ _ v', built v0 v' (<[k := (a, upd f i e)]> T)) v.
Proof. intros. unfold store. repeat wp_step. by apply built_store. Qed.

Ltac alloc B n :=
  apply wp_bind; eapply wp_mono;
  [eapply alloc_table_built; [exact B|rewrite (built_avail _ _ _ B); simpl; lia]|];
  clear B; intros n ? [? B]; simpl in B.
Ltac put B k :=
  apply wp_bind; eapply wp_mono;
  [eapply (store_built _ _ _ k); [exact B|reflexivity|lia|done || by apply frame_entry_range]|];
  clear B; intros [] ? B; simpl in B.

Lemma vmm_init_built v stack_bottom kernel_end :
  fa_wf (vm_pmm v) → 6 <= fa_avail (vm_pmm v) →
  wp (vmm_init stack_bottom kernel_end) (λ _ v', ∃ pml4 pt0 pd0 pdpt_id pdpt_hh pd_hh,
    built v v' (boot_tables (u64 (stack_bottom - PAGE_SIZE)) pml4 pt0 pd0 pdpt_id pdpt_hh pd_hh) ∧
    kernel_pml4 v' = pml4 ∧ vm_cr3 v' = pml4 ∧
    kheap_next v' = ALIGN_UP (u64 (KERNEL_VMA + kernel_end)) 0x200000) v.
Proof.
  intros Hfa Hav. unfold vmm_init. cbv zeta.
  set (guard := u64 (stack_bottom - PAGE_SIZE)).
  pose proof (built_nil v Hfa) as B.
  alloc B pml4. alloc B pt0. apply wp_bind.
  eapply (built_loop v _ 1 pt0 _ (λ i, if i * PAGE_SIZE =? guard then 0 else small_page i));
    [lia|lia|lia|exact B|reflexivity| |].
  { intros i v' h Hi B' Hh. destruct (i * PAGE_SIZE =? guard).
    - apply wp_ret. eapply built_insert_ext; [simpl; lia|exact B'|].
      intros j Hj. unfold upd. destruct (j =? i) eqn:E; b2p; [subst; apply Hh; lia|done].
    - eapply built_insert_store; [simpl; lia|exact B'|lia|apply small_page_range; lia]. }
  clear B. intros v1 B. simpl in B.
  alloc B pd0. put B 2%nat. apply wp_bind.
  eapply (built_loop v _ 2 pd0 _ huge_page); [lia|lia|lia|exact B|reflexivity| |].
  { intros i v' h Hi B' Hh.
    eapply built_insert_store; [simpl; lia|exact B'|lia|apply huge_page_range; lia]. }
  clear B. intros v2 B. simpl in B.
  alloc B pdpt_id. put B 3%nat. put B 0%nat.
  alloc B pdpt_hh. alloc B pd_hh. put B 5%nat. put B 4%nat. put B 0%nat.
  unfold vmm_switch. repeat wp_step.
  exists pml4, pt0, pd0, pdpt_id, pdpt_hh, pd_hh. split_and!; [|done..].
  eapply built_same; [eapply built_regs; [exact B|done..]|].
  unfold boot_tables, upd, pml4_entries, pt0_entries, pd0_entries, one_entry.
  repeat (constructor; [split; [done|]|]); [..|constructor]; simpl; intros i Hi;
    destruct (Z.eqb_spec i 0), (Z.eqb_spec i 511), (Z.eqb_spec i 510); subst; simpl;
    block; try done; lia.
Qed.

(** ** The root they form *)

Section Boot.
Context (v0 v : vm S) (guard pml4 pt0 pd0 pdpt_id pdpt_hh pd_hh : Z).
Context (B : built v0 v (boot_tables guard pml4 pt0 pd0 pdpt_id pdpt_hh pd_hh)).
Abbreviation m := (vm_mem v).

Lemma boot_table k a f :
  boot_tables guard pml4 pt0 pd0 pdpt_id pdpt_hh pd_hh !! k = Some (a, f) →
  is_frame a ∧ fa_rc (vm_pmm v) a = 1 ∧ ∀ i, 0 <= i < 512 → pte m a i = f i.
Proof.
  intros Hk. destruct (built_tab _ _ _ B a f) as (? & _ & ? & ?);
    [by eapply list_elem_of_lookup_2|done].
Qed.

Lemma boot_next_pml4 i : 0 <= i < 512 →
  next (pte m pml4 i) = if i =? 0 then Some pdpt_id else if i =? 511 then Some pdpt_hh else None.
Proof.
  intros Hi. destruct (boot_table 0 _ _ eq_refl) as (_ & _ & ->); [|done].
  destruct (boot_table 3 _ _ eq_refl) as (? & _), (boot_table 4 _ _ eq_refl) as (? & _).
  unfold pml4_entries. repeat case_if; [by apply next_frame..|done].
Qed.

Lemma boot_next_one k a j b i :
  boot_tables guard pml4 pt0 pd0 pdpt_id pdpt_hh pd_hh !! k = Some (a, one_entry j (to_table b)) →
  is_frame b → 0 <= i < 512 → next (pte m a i) = if i =? j then Some b else None.
Proof.
  intros Hk Hb Hi. destruct (boot_table _ _ _ Hk) as (_ & _ & ->); [|done].
  unfold one_entry. case_if; [by apply next_frame|done].
Qed.

Lemma boot_next_pd0 i : 0 <= i < 512 → next (pte m pd0 i) = if i =? 0 then Some pt0 else None.
Proof.
  intros Hi. destruct (boot_table 2 _ _ eq_refl) as (_ & _ & ->); [|done].
  destruct (boot_table 1 _ _ eq_refl) as (? & _).
  unfold pd0_entries. case_if; [by apply next_frame|by apply next_huge_page].
Qed.

Lemma boot_next_pd_hh i : 0 <= i < 512 → next (pte m pd_hh i) = None.
Proof.
  intros Hi. destruct (boot_table 5 _ _ eq_refl) as (_ & _ & ->); [|done].
  unfold one_entry. case_if; [by apply next_huge_page|done].
Qed.

(** The tables the root reaches, with their paths. *)
Definition boot_paths : list (list Z * Z) :=
  [([], pml4); ([0; 0; 0], pt0); ([0; 0], pd0); ([0], pdpt_id); ([511], pdpt_hh);
   ([511; 510], pd_hh)].

Lemma boot_walk q :
  valid_path q → (length q <= 3)%nat →
  walk m pml4 q = match q with
    | [] => Some pml4
    | [i] => if i =? 0 then Some pdpt_id else if i =? 511 then Some pdpt_hh else None
    | [i; j] => if (i =? 0) && (j =? 0) then Some pd0
                else if (i =? 511) && (j =? 510) then Some pd_hh else None
    | [i; j; k] => if (i =? 0) && (j =? 0) && (k =? 0) then Some pt0 else None
    | _ => None
    end.
Proof.
  intros Hq Hl.
  destruct (boot_table 2 _ _ eq_refl) as (Hpd0 & _), (boot_table 5 _ _ eq_refl) as (Hpdhh & _).
  destruct q as [|i [|j [|k [|]]]]; simpl in Hl; try lia; [done|..];
    unfold valid_path in Hq; rewrite ?Forall_cons in Hq; simpl;
    destruct Hq as (Hi & Hq); rewrite boot_next_pml4 by done.
  - by repeat case_if.
  - destruct Hq as (Hj & _). destruct (Z.eqb_spec i 0) as [->|]; simpl.
    + rewrite (boot_next_one 3 pdpt_id 0 pd0) by done. by case_if.
    + destruct (i =? 511); [|done]. rewrite (boot_next_one 4 pdpt_hh 510 pd_hh) by done.
      by case_if.
  - destruct Hq as (Hj & Hk & _). destruct (Z.eqb_spec i 0) as [->|]; simpl.
    + rewrite (boot_next_one 3 pdpt_id 0 pd0) by done. destruct (j =? 0); [|done]. simpl.
      rewrite boot_next_pd0 by done. by case_if.
    + destruct (i =? 511); [|done]. rewrite (boot_next_one 4 pdpt_hh 510 pd_hh) by done.
      destruct (j =? 510); [|done]. by rewrite boot_next_pd_hh.
Qed.

Lemma boot_walk_paths q t :
  valid_path q → (length q <= 3)%nat → walk m pml4 q = Some t → (q, t) ∈ boot_paths.
Proof.
  intros Hq Hl. rewrite boot_walk by done.
  destruct q as [|i [|j [|k [|]]]]; intros H; try done;
    repeat case_match; b2p; simplify_eq; unfold boot_paths; set_solver.
Qed.

Lemma boot_wf : pt_wf m (fa_rc (vm_pmm v)) pml4.
Proof.
  assert (∀ q t, (q, t) ∈ boot_paths →
    ∃ k f, boot_tables guard pml4 pt0 pd0 pdpt_id pdpt_hh pd_hh !! k = Some (t, f)) as Htab.
  { intros q t Hin. unfold boot_paths in Hin. rewrite !elem_of_cons, elem_of_nil in Hin.
    destruct Hin as [?|[?|[?|[?|[?|[?|[]]]]]]]; simplify_eq.
    - by exists 0%nat, (pml4_entries pdpt_id pdpt_hh).
    - by eexists 1%nat, _. - by eexists 2%nat, _. - by eexists 3%nat, _.
    - by eexists 4%nat, _. - by eexists 5%nat, _. }
  constructor.
  - intros q t Hq Hl Hw. apply boot_walk_paths, Htab in Hw as (k & f & Hk); [|done..].
    destruct (boot_table _ _ _ Hk) as (? & -> & _). done.
  - intros q q' t Hq Hq' Hl Hl' Hw Hw'.
    apply boot_walk_paths in Hw as [k Hk]%list_elem_of_lookup_1; [|done..].
    apply boot_walk_paths in Hw' as [k' Hk']%list_elem_of_lookup_1; [|done..].
    assert (k = k') as ->; [|congruence].
    eapply (NoDup_lookup (boot_paths.*2)); [exact (built_nodup _ _ _ B)|..];
      rewrite list_lookup_fmap; [rewrite Hk|rewrite Hk']; done.
  - intros q t i Hq Hl Hw Hi Hpr.
    rewrite boot_walk in Hw by (done || lia).
    destruct (boot_table 0 _ _ eq_refl) as (_ & _ & E0), (boot_table 3 _ _ eq_refl) as (F3 & _ & E3),
      (boot_table 4 _ _ eq_refl) as (F4 & _ & E4), (boot_table 2 _ _ eq_refl) as (F2 & _),
      (boot_table 5 _ _ eq_refl) as (F5 & _).
    destruct q as [|j [|]]; simplify_eq; [| |simpl in Hl; lia].
    + rewrite E0 in * by done. unfold pml4_entries in *.
      repeat case_match; [by eapply next_present, next_frame..|done].
    + repeat case_match; simplify_eq; rewrite ?E3, ?E4 in * by done; unfold one_entry in *;
        case_match; [by eapply next_present, next_frame|done|by eapply next_present, next_frame|done].
Qed.

(** The leaf of every page. *)
Lemma boot_leaf i4 i3 i2 i1 :
  valid_path [i4; i3; i2; i1] →
  leaf m pml4 i4 i3 i2 i1 =
    if (i4 =? 0) && (i3 =? 0) then
      if i2 =? 0 then
        if (i1 =? 0) || (i1 * PAGE_SIZE =? guard) then None else Some (false, small_page i1)
      else Some (true, huge_page i2)
    else if (i4 =? 511) && (i3 =? 510) && (i2 =? 0) then Some (true, huge_page 0) else None.
Proof.
  intros Hv. pose proof Hv as Hv'. unfold valid_path in Hv'. rewrite !Forall_cons in Hv'.
  destruct Hv' as (H4 & H3 & H2 & H1 & _). unfold leaf.
  pose proof (proj1 (valid_path_app [i4; i3; i2] [i1]) Hv) as [Hv3 _].
  pose proof (proj1 (valid_path_app [i4; i3] [i2]) Hv3) as [Hv2 _].
  rewrite (boot_walk [i4; i3; i2]), (boot_walk [i4; i3]) by (done || simpl; lia).
  destruct (boot_table 1 _ _ eq_refl) as (_ & _ & E1), (boot_table 2 _ _ eq_refl) as (_ & _ & E2),
    (boot_table 5 _ _ eq_refl) as (_ & _ & E5).
  destruct (Z.eqb_spec i4 0) as [->|], (Z.eqb_spec i3 0) as [->|]; simpl.
  - destruct (Z.eqb_spec i2 0) as [->|]; simpl.
    + rewrite E1 by done. unfold pt0_entries. destruct ((i1 =? 0) || _); [done|].
      by rewrite (proj1 (small_page_bits i1 H1)).
    + rewrite E2 by done. unfold pd0_entries. rewrite (proj2 (Z.eqb_neq i2 0)) by done.
      by rewrite (proj1 (huge_page_bits i2 H2)).
  - done.
  - by rewrite andb_false_r.
  - destruct ((i4 =? 511) && (i3 =? 510)); simpl; [|done]. rewrite E5 by done.
    unfold one_entry. by destruct (i2 =? 0).
Qed.

End Boot.
End VmmInit.
