(* ===== verification/VmmCow.v ===== *)
(** * Virtual memory manager: copy-on-write faults

    [vmm_handle_page_fault] on a well-formed root. *)

From Stdlib Require Import ZArith Lia.
From S2P Require Import Prelude Memory Frames Vmm VmmInv VmmOps.
Import StringC.

(** The flags of the entry the handler writes. *)
Definition cow_resolved (e : Z) : Z := (e .& ~64 VMM_PHYS_MASK .& ~64 VMM_COW) .| VMM_WRITE.

Lemma has_all_bit e K k : has_all e K = true → 0 <= k → Z.testbit K k = true → Z.testbit e k = true.
Proof.
  unfold has_all. intros H Hk HK. b2p. rewrite <- H, Z.land_spec in HK. by apply andb_true_iff in HK as [? _].
Qed.

Lemma cow_flags_range e : 0 <= cow_resolved e < 2^64.
Proof.
  unfold cow_resolved. apply lor_range; [done| |done].
  rewrite Z.land_comm. apply land_range_l; [done|apply u64_range].
Qed.

Section Entry.
Context (f e : Z) (Hf : is_frame f) (He : has_all e (VMM_PRESENT .| VMM_USER .| VMM_COW) = true).
Abbreviation e' := (f .| cow_resolved e).

Lemma cow_entry_range : 0 <= e' < 2^64.
Proof.
  apply lor_range; [done| |apply cow_flags_range]. destruct Hf. unfold PMM_MAX_PHYS in *. lia.
Qed.

Lemma cow_entry_phys : e' .& VMM_PHYS_MASK = f.
Proof.
  unfold cow_resolved. bits_eq;
    match goal with H : Z.testbit f _ = true |- _ => by rewrite frame_bits in H by (done || lia) end.
Qed.

Lemma cow_entry_flags : e' .& ~64 VMM_PHYS_MASK = cow_resolved e.
Proof.
  unfold cow_resolved. bits_eq;
    match goal with H : Z.testbit f _ = true |- _ => by rewrite frame_bits in H by (done || lia) end.
Qed.

Lemma cow_entry_present : has e' VMM_PRESENT = true.
Proof.
  rewrite has_present. unfold cow_resolved. bits_expand.
  rewrite (has_all_bit e _ 0 He) by done. simpl. by rewrite orb_true_r.
Qed.

End Entry.

Section VmmCow.
Context {S : Type} `{FA : FrameAllocator S}.
Implicit Types v : vm S.

(** The handler takes the fault: a user write to a present page marked
    copy-on-write, below the user limit. *)
Definition cow_fault (v : vm S) (addr code e : Z) : Prop :=
  code .& 3 = 3 ∧ addr < USER_SPACE_TOP ∧
  vleaf (vm_mem v) (vmm_current_pml4 v) addr = Some (false, e) ∧
  has_all e (VMM_PRESENT .| VMM_USER .| VMM_COW) = true.

(** What holds of the page behind a copy-on-write entry: a frame somebody holds,
    and not the page table that maps it. *)
Definition user_frame (v : vm S) (addr e : Z) : Prop :=
  0 < e .& VMM_PHYS_MASK ∧ 0 < fa_rc (vm_pmm v) (e .& VMM_PHYS_MASK) ∧
  walk (vm_mem v) (vmm_current_pml4 v) (tables_path addr) ≠ Some (e .& VMM_PHYS_MASK).

(** The page is now at frame [f'], writable, with the bytes it had. *)
Record page_moved (v v' : vm S) (addr e f' : Z) : Prop := {
  moved_ok : root_ok v' (vmm_current_pml4 v);
  moved_frame : is_frame f';
  moved_cr3 : vm_cr3 v' = vm_cr3 v;
  moved_leaf vb : vleaf (vm_mem v') (vmm_current_pml4 v) vb =
    if vpage vb =? vpage addr then Some (false, f' .| cow_resolved e)
    else vleaf (vm_mem v) (vmm_current_pml4 v) vb;
  moved_bytes k : 0 <= k < PAGE_SIZE →
    read8 (vm_mem v') (f' + k) = read8 (vm_mem v) (e .& VMM_PHYS_MASK + k);
  moved_old k : 0 <= k < PAGE_SIZE →
    read8 (vm_mem v') (e .& VMM_PHYS_MASK + k) = read8 (vm_mem v) (e .& VMM_PHYS_MASK + k);
  moved_walk q : valid_path q → (length q <= 3)%nat →
    walk (vm_mem v') (vmm_current_pml4 v) q = walk (vm_mem v) (vmm_current_pml4 v) q;
  moved_mem b : read8 (vm_mem v') b = read8 (vm_mem v) b ∨ page_range f' b ∨
    ∃ pt, walk (vm_mem v) (vmm_current_pml4 v) (tables_path addr) = Some pt ∧ page_range pt b;
}.

Lemma page_align_vpage addr :
  0 <= addr < 2^64 → vpage (ALIGN_DOWN addr PAGE_SIZE) = vpage addr.
Proof.
  intros H. change PAGE_SIZE with (2^12). rewrite ALIGN_DOWN_spec by lia.
  unfold vpage. by rewrite Z.div_mul by lia.
Qed.

Lemma vpage_paths va vb :
  vpage va = vpage vb → tables_path va = tables_path vb ∧ pt_idx va = pt_idx vb.
Proof. intros H. by apply vpath_vpage, app_inj_tail in H. Qed.

(** The entry the handler looks at. *)
Lemma fault_entry m rc r addr pt :
  pt_wf m rc r → walk m r (tables_path addr) = Some pt →
  vleaf m r addr = if has (pte m pt (pt_idx addr)) VMM_PRESENT
                   then Some (false, pte m pt (pt_idx addr)) else None.
Proof. intros Hwf Hw. unfold vleaf, leaf. unfold tables_path in Hw. by rewrite Hw. Qed.

(** A page changes hands: the copy is made in a frame that was free, then the
    entry is redirected. *)
Section Move.
Context (v : vm S) (addr e pt : Z).
Abbreviation r := (vmm_current_pml4 v).
Abbreviation old := (e .& VMM_PHYS_MASK).
Context (Hok : root_ok v r) (Hw : walk (vm_mem v) r (tables_path addr) = Some pt)
  (Hall : has_all e (VMM_PRESENT .| VMM_USER .| VMM_COW) = true)
  (Hold : is_frame old) (Hrc : 0 < fa_rc (vm_pmm v) old) (Hne : pt ≠ old).

Lemma move_in_place :
  page_moved v (set_mem (write64 (vm_mem v) (pte_addr pt (pt_idx addr)) (old .| cow_resolved e)) v)
    addr e old.
Proof.
  pose proof (cow_entry_range old e Hold) as Hr.
  destruct (leaf_store_table v r addr pt Hok Hw) as [Hpt _].
  pose proof (leaf_store_entries v r addr pt _ Hok Hw Hr _ eq_refl) as (_ & _ & Hmem).
  constructor; simpl.
  - split; [apply Hok|]. by eapply (leaf_store_wf v r addr pt).
  - done.
  - done.
  - intros vb. rewrite (leaf_store_vleaf v r addr pt _ Hok Hw Hr _ eq_refl).
    by rewrite (cow_entry_present old e Hall).
  - intros k Hk. apply Hmem. intros Hb. destruct Hne.
    by apply (frames_disjoint pt old (old + k)); [..|unfold page_range; lia].
  - intros k Hk. apply Hmem. intros Hb. destruct Hne.
    by apply (frames_disjoint pt old (old + k)); [..|unfold page_range; lia].
  - intros q Hq Hl. by apply (leaf_store_walk v r addr pt _ Hok Hw Hr _ eq_refl).
  - intros b. destruct (decide (page_range pt b)) as [?|Hb]; [right; right; eauto|]. left. by apply Hmem.
Qed.

Lemma move_to_copy n s' s'' :
  is_frame n → fa_rc (vm_pmm v) n = 0 → rc_update (fa_rc (vm_pmm v)) (fa_rc s') n 1 →
  fa_wf s' → fa_wf s'' → 1 < fa_rc (vm_pmm v) old →
  rc_update (fa_rc s') (fa_rc s'') old (fa_rc (vm_pmm v) old - 1) →
  page_moved v
    (set_pmm s'' (set_mem (write64 (memcpy (vm_mem v) n old PAGE_SIZE) (pte_addr pt (pt_idx addr))
      (n .| cow_resolved e)) v)) addr e n.
Proof.
  intros Hn Hn0 Hrc1 Hfa1 Hfa Hold1 Hrc2. pose proof Hok as [_ Hwf].
  assert (n ≠ old) as Hno by (intros ->; lia).
  destruct (leaf_store_table v r addr pt Hok Hw) as [Hpt Hptrc].
  assert (n ≠ pt) as Hnp by (intros ->; lia).
  assert (∀ b, page_range n b → ¬ page_range old b) as Hd1.
  { intros b Hb Hb'. by destruct Hno; eapply frames_disjoint. }
  assert (∀ b, page_range n b → ¬ page_range pt b) as Hd2.
  { intros b Hb Hb'. by destruct Hnp; eapply frames_disjoint. }
  assert (∀ b, page_range old b → ¬ page_range pt b) as Hd3.
  { intros b Hb Hb'. by destruct Hne; eapply frames_disjoint. }
  assert (n <= old ∨ old + PAGE_SIZE <= n) as Hov.
  { destruct (decide (n <= old)); [by left|]. right.
    destruct (decide (old + PAGE_SIZE <= n)); [done|].
    destruct (Hd1 n); unfold page_range, PAGE_SIZE in *; lia. }
  assert (∀ b, read8 (memcpy (vm_mem v) n old PAGE_SIZE) b =
    if in_block n PAGE_SIZE b then read8 (vm_mem v) (old + (b - n)) else read8 (vm_mem v) b) as Hcpy.
  { intros b. by apply read8_memcpy. }
  generalize dependent (memcpy (vm_mem v) n old PAGE_SIZE). intros m1 Hcpy.
  assert (∀ p t i, valid_path p → (length p <= 3)%nat → walk (vm_mem v) r p = Some t →
    0 <= i < 512 → pte m1 t i = pte (vm_mem v) t i) as Hsame.
  { apply (foreign_page_entries _ _ _ Hwf m1 n Hn Hn0). intros b Hb. rewrite Hcpy. block; [|done].
    by destruct Hb. }
  assert (pt_wf m1 (fa_rc s') r) as Hwf1.
  { eapply same_entries_wf; [exact Hwf|exact Hsame|]. intros t Ht. rewrite Hrc1. case_if; lia. }
  pose proof (cow_entry_range n e Hn) as Hr.
  assert (walk m1 r (tables_path addr) = Some pt) as Hw1.
  { rewrite (same_entries_walk _ _ _ _ Hsame); [done|apply tables_path_valid|simpl; lia]. }
  assert (root_ok (set_pmm s' (set_mem m1 v)) r) as Hok1 by done.
  pose proof (leaf_store_entries _ r addr pt _ Hok1 Hw1 Hr _ eq_refl) as (_ & _ & Hmem).
  pose proof (leaf_store_wf _ r addr pt _ Hok1 Hw1 Hr _ eq_refl) as Hwf2.
  pose proof (leaf_store_vleaf _ r addr pt _ Hok1 Hw1 Hr _ eq_refl) as Hleaf. simpl in *.
  constructor; simpl.
  - split; [done|]. simpl. eapply same_entries_wf; [exact Hwf2|done|].
    intros t Ht. rewrite Hrc2. case_if; [subst; lia|done].
  - done.
  - done.
  - intros vb. rewrite Hleaf, (cow_entry_present n e Hall).
    unfold vleaf. by rewrite (same_entries_leaf _ _ _ _ _ _ _ Hsame) by apply (vpath_valid vb).
  - intros k Hk. rewrite Hmem by (apply Hd2; unfold page_range; lia). rewrite Hcpy.
    block; [|lia]. f_equal. lia.
  - intros k Hk. rewrite Hmem by (apply Hd3; unfold page_range; lia). rewrite Hcpy.
    block; [|done]. destruct (Hd1 (old + k)); unfold page_range; lia.
  - intros q Hq Hl. rewrite (leaf_store_walk _ r addr pt _ Hok1 Hw1 Hr _ eq_refl) by done. simpl.
    apply (same_entries_walk _ _ _ _ Hsame); [done|lia].
  - intros b. destruct (decide (page_range pt b)) as [?|Hb]; [right; right; eauto|].
    rewrite Hmem by done. rewrite Hcpy. block; [right; left; unfold page_range; lia|by left].
Qed.

End Move.

(** The handler on a well-formed root. *)
Lemma page_fault_steps v addr code :
  root_ok v (vmm_current_pml4 v) → 0 <= addr < 2^64 →
  (∀ e, cow_fault v addr code e → user_frame v addr e) →
  wp (vmm_handle_page_fault addr code) (λ ok v',
    if ok : bool then ∃ e f', cow_fault v addr code e ∧ page_moved v v' addr e f' ∧
      let old := e .& VMM_PHYS_MASK in
      if fa_rc (vm_pmm v) old =? 1 then f' = old ∧ vm_pmm v' = vm_pmm v
      else fa_rc (vm_pmm v) f' = 0 ∧
        (∀ b, fa_rc (vm_pmm v') b = if b =? f' then 1 else
              if b =? old then fa_rc (vm_pmm v) old - 1 else fa_rc (vm_pmm v) b)
    else v' = v ∧ ∀ e, cow_fault v addr code e →
      fa_avail (vm_pmm v) = 0 ∧ 1 < fa_rc (vm_pmm v) (e .& VMM_PHYS_MASK)) v.
Proof.
  intros Hok Haddr Huser. pose proof Hok as [Hfa Hwf]. unfold vmm_handle_page_fault.
  destruct (negb (code .& 3 =? 3) || (USER_SPACE_TOP <=? addr)) eqn:Egate.
  { apply wp_ret. split; [done|]. intros e (Hc & Ha & _).
    apply orb_true_iff in Egate as [?|?]; b2p; [done|lia]. }
  apply orb_false_iff in Egate as [Hcode Htop]. b2p.
  set (r := vmm_current_pml4 v) in *.
  pose proof (page_align_vpage addr Haddr) as Hpg. pose proof (vpage_paths _ _ Hpg) as [Hpath Hidx].
  repeat wp_step. rewrite !(get_pte_walk _ _ _ Hwf), Hpath, Hidx. fold r.
  destruct (walk (vm_mem v) r (tables_path addr)) as [pt|] eqn:Hw.
  2: { simpl. apply wp_ret. split; [done|]. intros e (_ & _ & Hl & _). fold r in Hl.
       unfold vleaf, leaf in Hl. unfold tables_path in Hw. rewrite Hw in Hl.
       by repeat case_match. }
  destruct (leaf_store_table v r addr pt Hok Hw) as [Hpt _].
  pose proof (idx_range addr) as (_ & _ & _ & Hi).
  rewrite (proj2 (Z.eqb_neq _ 0)) by (unfold pte_addr; destruct Hpt; lia). simpl.
  change (read64 (vm_mem v) (pte_addr pt (pt_idx addr))) with (pte (vm_mem v) pt (pt_idx addr)).
  pose proof (fault_entry _ _ _ _ _ Hwf Hw) as Hl.
  set (e := pte (vm_mem v) pt (pt_idx addr)) in *.
  destruct (has_all e (VMM_PRESENT .| VMM_USER .| VMM_COW)) eqn:Hall; simpl.
  2: { apply wp_ret. split; [done|]. intros e' (_ & _ & Hl' & He'). fold r in Hl'.
       rewrite Hl in Hl'. case_match; [|done]. injection Hl' as <-. congruence. }
  rewrite has_present, (has_all_bit e _ 0 Hall) in Hl by done.
  assert (cow_fault v addr code e) as Hcow by (split_and!; done).
  assert (∀ e', cow_fault v addr code e' → e' = e) as Huniq.
  { intros e' (_ & _ & Hl' & _). fold r in Hl'. congruence. }
  destruct (Huser e Hcow) as (H0 & Hrc & Hnt). fold r in Hnt.
  assert (is_frame (e .& VMM_PHYS_MASK)) as Hold by (by apply (fa_rc_frame (vm_pmm v))).
  assert (pt ≠ e .& VMM_PHYS_MASK) as Hne by congruence.
  unfold frame_refcount, alloc_frame, free_frame, on_pmm. repeat wp_step.
  eapply wp_mono; [by apply fa_refcount_spec|]. intros n s [-> ->].
  destruct (fa_rc (vm_pmm v) (e .& VMM_PHYS_MASK) <=? 1) eqn:E1; b2p; repeat wp_step.
  { exists e, (e .& VMM_PHYS_MASK). rewrite (proj2 (Z.eqb_eq _ 1)) by lia.
    split_and!; [done| |done|done]. pose proof (move_in_place v addr e pt Hok Hw Hall Hold Hne) as Hm.
    destruct v. exact Hm. }
  eapply wp_mono; [by apply fa_alloc_spec|].
  intros n s' [(-> & -> & Hav)|(Hn & Hn0 & Hfa' & Hrc1 & _ & _)].
  { rewrite Z.eqb_refl. apply wp_ret. destruct v. split; [done|].
    intros e' ->%Huniq. split; [done|lia]. }
  rewrite (proj2 (Z.eqb_neq _ _)) by (by apply is_frame_not_failed).
  repeat wp_step. simpl.
  assert (n ≠ e .& VMM_PHYS_MASK) as Hno by (intros Hx; rewrite Hx in Hn0; simpl in Hn0; lia).
  assert (fa_rc s' (e .& VMM_PHYS_MASK) = fa_rc (vm_pmm v) (e .& VMM_PHYS_MASK)) as Hrc'.
  { rewrite Hrc1. case_if; [done|done]. }
  eapply wp_mono; [apply fa_free_spec; [done|done|lia]|].
  intros [] s'' (Hfa'' & Hrc2 & _). apply wp_ret. rewrite Hrc' in Hrc2.
  exists e, n. rewrite (proj2 (Z.eqb_neq _ 1)) by lia. split_and!; [done| |done|].
  - exact (move_to_copy v addr e pt Hok Hw Hall Hold Hrc Hne n s' s'' Hn Hn0 Hrc1 Hfa' Hfa'' E1 Hrc2).
  - intros b. simpl. rewrite Hrc2, Hrc1, (Z.eqb_sym b n), (Z.eqb_sym b (e .& VMM_PHYS_MASK)).
    destruct (Z.eqb_spec (e .& VMM_PHYS_MASK) b), (Z.eqb_spec n b); subst; done || (by destruct Hno).
Qed.

End VmmCow.
