(* ===== verification/VmmSpace.v ===== *)
(** * Virtual memory manager: new address spaces

    [vmm_create_address_space]: the new root shares the kernel half and the first
    GiB with the current one and maps nothing else. *)

From Stdlib Require Import ZArith Lia.
From S2P Require Import Prelude Memory Frames Vmm VmmInv VmmOps VmmBuild VmmInit.
Import StringC.

Definition to_user_table (a : Z) : Z := a .| VMM_PRESENT .| VMM_WRITE .| VMM_USER.

Lemma next_user_frame a : is_frame a → next (to_user_table a) = Some a.
Proof. intros Ha. unfold to_user_table. rewrite next_mark_user. by apply next_frame. Qed.

Lemma user_table_range a : is_frame a → 0 <= to_user_table a < 2^64.
Proof. intros Ha. apply lor_range; [done|by apply frame_entry_range|done]. Qed.

Section VmmSpace.
Context {S : Type} `{FA : FrameAllocator S}.
Implicit Types v : vm S.

Lemma built_held v0 v T a : built v0 v T → 0 < fa_rc (vm_pmm v0) a → a ∉ T.*1.
Proof.
  intros B Hrc ([c f] & -> & Hin)%list_elem_of_fmap. simpl in *.
  destruct (built_tab _ _ _ B _ _ Hin) as (_ & ? & _). lia.
Qed.

(** Held pages are untouched by a construction. *)
Lemma built_foreign v0 v T a :
  built v0 v T → is_frame a → 0 < fa_rc (vm_pmm v0) a →
  (∀ b, page_range a b → read8 (vm_mem v) b = read8 (vm_mem v0) b) ∧
  (∀ i, 0 <= i < 512 → pte (vm_mem v) a i = pte (vm_mem v0) a i) ∧
  fa_rc (vm_pmm v) a = fa_rc (vm_pmm v0) a.
Proof.
  intros B Ha Hrc.
  pose proof (built_held _ _ _ _ B Hrc) as Hna.
  assert (∀ b, page_range a b → read8 (vm_mem v) b = read8 (vm_mem v0) b) as Hb.
  { intros b Hb. apply B. intros c Hc Hb'. apply list_elem_of_fmap in Hc as ([c' f] & -> & Hin).
    destruct (built_tab _ _ _ B _ _ Hin) as (Hc & ? & _).
    assert (a = c') as -> by (by eapply frames_disjoint). lia. }
  split_and!; [done| |by apply B]. intros i Hi. by apply pte_ext.
Qed.

(** A construction keeps every well-formed root and its leaves. *)
Lemma built_root v0 v T r :
  built v0 v T → root_ok v0 r →
  root_ok v r ∧ (∀ vb, vleaf (vm_mem v) r vb = vleaf (vm_mem v0) r vb) ∧
  (∀ q, valid_path q → (length q <= 3)%nat → walk (vm_mem v) r q = walk (vm_mem v0) r q).
Proof.
  intros B [Hfa Hwf].
  assert (∀ p t i, valid_path p → (length p <= 3)%nat → walk (vm_mem v0) r p = Some t →
    0 <= i < 512 → pte (vm_mem v) t i = pte (vm_mem v0) t i) as Hsame.
  { intros p t i Hp Hl Hw Hi. destruct (pt_tables _ _ _ Hwf p t) as [Ht Hrt]; [done..|].
    by apply (built_foreign _ _ _ _ B). }
  split_and!.
  - split; [apply B|]. eapply same_entries_wf; [exact Hwf|exact Hsame|].
    intros t Ht. rewrite (built_rc _ _ _ B); [done|by eapply built_held].
  - intros vb. unfold vleaf. by rewrite (same_entries_leaf _ _ _ _ _ _ _ Hsame) by apply (vpath_valid vb).
  - intros q Hq Hl. apply (same_entries_walk _ _ _ _ Hsame); [done|lia].
Qed.

(** ** The entries of the new tables *)

Section Space.
Context (v0 v : vm S) (cur new low : Z).
Abbreviation m0 := (vm_mem v0).
Context (Hcur : root_ok v0 cur).
Context (Hlow0 : has (pte m0 cur 0) VMM_PRESENT = true).

Definition space_pml4 (i : Z) : Z :=
  if i =? 0 then to_user_table low else if 256 <=? i then pte m0 cur i else 0.
Definition space_pdpt (i : Z) : Z :=
  if i =? 0 then pte m0 (pte m0 cur 0 .& VMM_PHYS_MASK) 0 else 0.

Context (B : built v0 v [(new, space_pml4); (low, space_pdpt)]).

Lemma space_frames :
  is_frame new ∧ is_frame low ∧ new ≠ low ∧
  fa_rc (vm_pmm v0) new = 0 ∧ fa_rc (vm_pmm v0) low = 0 ∧
  fa_rc (vm_pmm v) new = 1 ∧ fa_rc (vm_pmm v) low = 1 ∧
  (∀ i, 0 <= i < 512 → pte (vm_mem v) new i = space_pml4 i) ∧
  (∀ i, 0 <= i < 512 → pte (vm_mem v) low i = space_pdpt i).
Proof.
  destruct (built_tab _ _ _ B new space_pml4) as (? & ? & ? & ?); [by left|].
  destruct (built_tab _ _ _ B low space_pdpt) as (? & ? & ? & ?); [by right; left|].
  pose proof (built_nodup _ _ _ B) as [Hnd _]%NoDup_cons.
  split_and!; try done. intros ->. apply Hnd. by left.
Qed.

(** The part of the address space that is shared with the current root. *)
Definition shared_path (q : list Z) : bool :=
  match q with
  | i :: q' => (256 <=? i) || ((i =? 0) && match q' with j :: _ => j =? 0 | [] => false end)
  | [] => false
  end.

Lemma shared_path_prefix q l : q `prefix_of` l → shared_path q = true → shared_path l = true.
Proof.
  intros [k ->] H. destruct q as [|i [|j q]]; simpl in *; [done| |done].
  rewrite andb_false_r, orb_false_r in H. by rewrite H.
Qed.

(** Below a table both roots reach, walks agree with the ones before. *)
Lemma shared_walk p q t :
  valid_path (p ++ q) → (length (p ++ q) <= 3)%nat → walk m0 cur p = Some t →
  walk (vm_mem v) t q = walk m0 t q.
Proof.
  intros Hv Hl Hw. destruct (built_root _ _ _ _ B Hcur) as (_ & _ & Hkeep).
  pose proof (Hkeep _ Hv Hl) as H. rewrite !walk_app, Hw in H.
  rewrite Hkeep, Hw in H; [done|by apply valid_path_app in Hv as [? _]|].
  rewrite length_app in Hl. lia.
Qed.

Lemma space_walk q :
  valid_path q → (length q <= 3)%nat →
  walk (vm_mem v) new q =
    if shared_path q then walk m0 cur q
    else match q with [] => Some new | [i] => if i =? 0 then Some low else None | _ => None end.
Proof.
  intros Hq Hl. destruct space_frames as (Hn & Hlo & Hne & _ & _ & _ & _ & E4 & E3).
  pose proof Hcur as [_ Hwf].
  destruct q as [|i q]; [done|]. simpl.
  pose proof Hq as [Hi Hq']%Forall_cons. rewrite E4 by done. unfold space_pml4.
  destruct (Z.eqb_spec i 0) as [->|Hi0]; simpl.
  - rewrite next_user_frame by done. destruct q as [|j q]; [done|]. simpl.
    pose proof Hq' as [Hj _]%Forall_cons. rewrite E3 by done. unfold space_pdpt.
    destruct (Z.eqb_spec j 0) as [->|]; [|done].
    rewrite (pml4_entry_next _ _ _ Hwf 0), Hlow0 by done.
    destruct (next (pte m0 (pte m0 cur 0 .& VMM_PHYS_MASK) 0)) as [t|] eqn:Et; [|done].
    apply (shared_walk [0; 0]); [done|done|]. simpl.
    by rewrite (pml4_entry_next _ _ _ Hwf 0), Hlow0, Et by done.
  - rewrite orb_false_r. destruct (256 <=? i); [|by destruct q].
    destruct (next (pte m0 cur i)) as [t|] eqn:Et; [|done].
    apply (shared_walk [i]); [done|done|]. simpl. by rewrite Et.
Qed.

Lemma space_walk_inv q t :
  valid_path q → (length q <= 3)%nat → walk (vm_mem v) new q = Some t →
  (shared_path q = true ∧ walk m0 cur q = Some t) ∨ (q = [] ∧ t = new) ∨ (q = [0] ∧ t = low).
Proof.
  intros Hq Hl. rewrite space_walk by done. destruct (shared_path q) eqn:E; [by left|].
  intros H. right. destruct q as [|i [|]]; simplify_eq; [by left|right].
  destruct (Z.eqb_spec i 0); simplify_eq. done.
Qed.

(** The entry at a shared path is the one of the current root. *)
Lemma space_entry q t i :
  valid_path (q ++ [i]) → (length q <= 3)%nat → shared_path (q ++ [i]) = true →
  walk m0 cur q = Some t →
  (q = [] ∧ pte (vm_mem v) new i = pte m0 cur i) ∨
  (q = [0] ∧ i = 0 ∧ pte (vm_mem v) low 0 = pte m0 t 0) ∨
  (shared_path q = true ∧ pte (vm_mem v) t i = pte m0 t i).
Proof.
  intros [Hv Hi%valid_path_one]%valid_path_app Hl Hs Hw. pose proof Hcur as [_ Hwf].
  destruct space_frames as (_ & _ & _ & _ & _ & _ & _ & E4 & E3).
  destruct q as [|j q].
  - left. split; [done|]. simpl in Hs. rewrite E4 by done. unfold space_pml4.
    destruct (Z.eqb_spec i 0) as [->|]; [done|]. rewrite orb_false_r in Hs. by rewrite Hs.
  - destruct (shared_path (j :: q)) eqn:E.
    + right; right. split; [done|]. destruct (pt_tables _ _ _ Hwf (j :: q) t) as [Ht Hrt]; [done..|].
      by apply (built_foreign _ _ _ _ B).
    + right; left. simpl in Hs, E. destruct (256 <=? j); [done|]. simpl in Hs, E.
      destruct (Z.eqb_spec j 0) as [->|]; [|done]. simpl in Hs, E.
      destruct q as [|k q]; simpl in *; [|congruence].
      apply Z.eqb_eq in Hs as ->. split_and!; [done..|]. rewrite E3 by done. unfold space_pdpt.
      simpl. rewrite (pml4_entry_next _ _ _ Hwf 0), Hlow0 in Hw by done. by simplify_eq.
Qed.

Lemma space_wf : pt_wf (vm_mem v) (fa_rc (vm_pmm v)) new.
Proof.
  destruct space_frames as (Hn & Hlo & Hne & Hn0 & Hl0 & Hn1 & Hl1 & E4 & E3).
  pose proof Hcur as [_ Hwf].
  assert (∀ q t, valid_path q → (length q <= 3)%nat → walk m0 cur q = Some t →
    is_frame t ∧ 0 < fa_rc (vm_pmm v0) t ∧ t ≠ new ∧ t ≠ low) as Hold.
  { intros q t Hq Hl Hw. destruct (pt_tables _ _ _ Hwf q t) as [? ?]; [done..|].
    split_and!; [done|done|intros ->; lia|intros ->; lia]. }
  constructor.
  - intros q t Hq Hl [[_ Hw]|[[-> ->]|[-> ->]]]%space_walk_inv; [|split; [done|lia]..|done|done].
    destruct (Hold q t) as (Hf & Hrc & _); [done..|]. split; [done|].
    destruct (built_foreign _ _ _ _ B Hf Hrc) as (_ & _ & ->). done.
  - intros q q' t Hq Hq' Hl Hl' Hw Hw'.
    apply space_walk_inv in Hw; [|done..]. apply space_walk_inv in Hw'; [|done..].
    destruct Hw as [[_ Hw]|[[-> ->]|[-> ->]]], Hw' as [[_ Hw']|[[-> Ht]|[-> Ht]]]; subst; try done.
    + by apply (pt_inj _ _ _ Hwf q q' t).
    + by destruct (Hold q new) as (_ & _ & ? & ?).
    + by destruct (Hold q low) as (_ & _ & ? & ?).
    + by destruct (Hold q' new) as (_ & _ & ? & ?).
    + by destruct (Hold q' low) as (_ & _ & ? & ?).
  - intros q t i Hq Hl [[Hs Hw]|[[-> ->]|[-> ->]]]%space_walk_inv Hi; [| | |done|lia].
    + destruct (Hold q t) as (Hf & Hrc & _); [done|lia|done|].
      destruct (built_foreign _ _ _ _ B Hf Hrc) as (_ & -> & _); [|done].
      by apply (pt_nohuge _ _ _ Hwf q).
    + rewrite E4 by done. unfold space_pml4. destruct (i =? 0).
      { intros _. by apply (next_present _ low), next_user_frame. }
      destruct (256 <=? i); [|done]. by apply (pt_nohuge _ _ _ Hwf []); [constructor|simpl; lia|..].
    + rewrite E3 by done. unfold space_pdpt. destruct (i =? 0); [|done].
      apply (pt_nohuge _ _ _ Hwf [0]); [by apply valid_path_one|simpl; lia| |done].
      simpl. by rewrite (pml4_entry_next _ _ _ Hwf 0), Hlow0.
Qed.

Lemma space_leaf vb :
  vleaf (vm_mem v) new vb =
    if shared_path (tables_path vb) then vleaf m0 cur vb else None.
Proof.
  unfold vleaf, leaf. pose proof (tables_path_valid vb) as Hv. pose proof (vpath_valid vb) as Hvp.
  change [pml4_idx vb; pdpt_idx vb; pd_idx vb] with (tables_path vb).
  assert (valid_path [pml4_idx vb; pdpt_idx vb]) as Hv2.
  { eapply valid_path_prefix; [|exact Hv]. by exists [pd_idx vb]. }
  rewrite (space_walk (tables_path vb)), (space_walk [pml4_idx vb; pdpt_idx vb]) by (done || simpl; lia).
  change (shared_path [pml4_idx vb; pdpt_idx vb]) with (shared_path (tables_path vb)).
  destruct (shared_path (tables_path vb)) eqn:Es; [|done].
  destruct (walk m0 cur (tables_path vb)) as [pt|] eqn:E.
  - destruct (space_entry (tables_path vb) pt (pt_idx vb)) as [[? _]|[[? _]|[_ ->]]]; try done; simpl; lia.
  - destruct (walk m0 cur [pml4_idx vb; pdpt_idx vb]) as [pd|] eqn:E2; [|done].
    destruct (space_entry [pml4_idx vb; pdpt_idx vb] pd (pd_idx vb)) as [[? _]|[[? _]|[_ ->]]];
      try done; simpl; lia.
Qed.

(** The tables a private address goes through are not tables of the current root. *)
Lemma space_private va q q' t :
  shared_path (tables_path va) = false → q `prefix_of` tables_path va →
  walk (vm_mem v) new q = Some t → valid_path q' → (length q' <= 3)%nat →
  walk (vm_mem v) cur q' ≠ Some t.
Proof.
  intros Hs Hq Hw Hq' Hl'. destruct (built_root _ _ _ _ B Hcur) as (_ & _ & ->); [|done..].
  intros Hw'. destruct (pt_tables _ _ _ (proj2 Hcur) q' t) as [_ Hrc]; [done..|].
  destruct space_frames as (_ & _ & _ & ? & ? & _).
  assert (valid_path q) as Hv by (eapply valid_path_prefix; [done|apply tables_path_valid]).
  apply prefix_length in Hq as Hl. simpl in Hl.
  apply space_walk_inv in Hw as [[Hsq _]|[[_ ->]|[_ ->]]]; [|lia|lia|done|lia].
  by rewrite (shared_path_prefix q (tables_path va)) in Hs.
Qed.

End Space.
(** ** [vmm_create_address_space] *)

Lemma create_address_space_steps v :
  let cur := vmm_current_pml4 v in
  root_ok v cur → has (pte (vm_mem v) cur 0) VMM_PRESENT = true →
  wp vmm_create_address_space (λ a v',
    vm_cr3 v' = vm_cr3 v ∧
    ((a = 0 ∧ fa_avail (vm_pmm v) < 2 ∧ fa_wf (vm_pmm v') ∧
      fa_avail (vm_pmm v') = fa_avail (vm_pmm v) ∧
      (∀ x, fa_rc (vm_pmm v') x = fa_rc (vm_pmm v) x) ∧
      (∀ x b, is_frame x → 0 < fa_rc (vm_pmm v) x → page_range x b →
         read8 (vm_mem v') b = read8 (vm_mem v) b)) ∨
     (∃ low, built v v' [(a, space_pml4 v cur low); (low, space_pdpt v cur)]))) v.
Proof.
  intros cur Hok Hlow. pose proof Hok as [Hfa Hwf].
  unfold vmm_create_address_space, alloc_frame, free_frame, on_pmm, zero_page.
  assert (is_frame cur ∧ 0 < fa_rc (vm_pmm v) cur) as [Hcf Hcrc].
  { apply (pt_tables _ _ _ Hwf []); [constructor|simpl; lia|done]. }
  set (curlow := pte (vm_mem v) cur 0 .& VMM_PHYS_MASK).
  assert (is_frame curlow ∧ 0 < fa_rc (vm_pmm v) curlow) as [Hlf Hlrc].
  { apply (pt_tables _ _ _ Hwf [0]); [by apply valid_path_one|simpl; lia|].
    simpl. by rewrite (pml4_entry_next _ _ _ Hwf 0), Hlow. }
  repeat wp_step. eapply wp_mono; [by apply fa_alloc_spec|].
  intros new s1 [(-> & -> & Hav)|(Hn & Hn0 & Hfa1 & Hrc1 & Hav1 & _)].
  { rewrite Z.eqb_refl. apply wp_ret. split; [done|]. left. simpl. split_and!; (done || lia). }
  rewrite (proj2 (Z.eqb_neq _ _)) by (by apply is_frame_not_failed).
  pose proof (built_fresh _ _ _ _ _ (built_nil v Hfa) Hn Hn0 Hfa1 Hrc1 Hav1) as B. simpl in B.
  repeat wp_step.
  unfold vmm_current_pml4 at 1. simpl. fold (vmm_current_pml4 v). fold cur.
  set (v1 := set_mem (memset (vm_mem v) new 0 PAGE_SIZE) (set_pmm s1 v)) in *.
  apply (wp_mono _ (λ _ v2, built v v2 [(new, λ i, if in_block 256 (512 - 256) i
    then pte (vm_mem v) cur i else 0)] ∧ vm_cr3 v2 = vm_cr3 v)).
  { apply wp_and.
    - eapply (built_loop v _ 0 new _ (pte (vm_mem v) cur)); [lia|lia|lia|exact B|reflexivity| |].
      + intros i v2 h Hi B2 _. unfold load. repeat wp_step.
        destruct (built_foreign _ _ _ _ B2 Hcf Hcrc) as (_ & -> & _); [|lia].
        eapply built_insert_store; [simpl; lia|exact B2|lia|apply pte_range].
      + intros v2 B2. exact B2.
    - apply (wp_for_range (λ _ v2, vm_cr3 v2 = vm_cr3 v)); [lia|done| |intros v2 H; exact H].
      intros i v2 _ H. unfold load, store. repeat wp_step. exact H. }
  clear B. intros [] v2 [B Hc2]. simpl in B. unfold load. repeat wp_step.
  destruct (built_foreign _ _ _ _ B Hcf Hcrc) as (_ & -> & _); [|lia]. rewrite Hlow.
  repeat wp_step. eapply wp_mono; [apply fa_alloc_spec, B|].
  pose proof (built_avail _ _ _ B) as Hav2. simpl in Hav2.
  intros low s3 [(-> & -> & Hav)|(Hl & Hl0 & Hfa3 & Hrc3 & Hav3 & _)].
  { rewrite Z.eqb_refl. repeat wp_step. simpl.
    edestruct (built_tab _ _ _ B new) as (_ & _ & Hnew1 & _); [by left|].
    eapply wp_mono; [apply fa_free_spec; [apply B|destruct Hn; lia|lia]|].
    intros [] s4 (Hfa4 & Hrc4 & Hav4). apply wp_ret. rewrite Hnew1 in *. simpl in *.
    split; [done|]. left. split_and!; [done|lia|done|lia| |].
    - intros x. rewrite Hrc4. destruct (Z.eqb_spec new x) as [<-|Hne]; [lia|].
      apply (built_rc _ _ _ B). simpl. rewrite list_elem_of_singleton. congruence.
    - intros x b Hx Hrcx Hb. by apply (built_foreign _ _ _ _ B Hx Hrcx). }
  rewrite (proj2 (Z.eqb_neq _ _)) by (by apply is_frame_not_failed).
  pose proof (built_fresh _ _ _ _ _ B Hl Hl0 Hfa3 Hrc3 Hav3) as B3. simpl in B3.
  unfold store. repeat wp_step. simpl. fold curlow.
  destruct (built_foreign _ _ _ _ B3 Hlf Hlrc) as (_ & Hcl & _). simpl in Hcl. rewrite Hcl by lia.
  split; [done|]. right. exists low.
  eapply (built_store _ _ _ 1 low _ 0 (pte (vm_mem v) curlow 0)) in B3;
    [|reflexivity|lia|apply pte_range].
  eapply (built_store _ _ _ 0 new _ 0 (to_user_table low)) in B3;
    [|reflexivity|lia|by apply user_table_range].
  simpl in B3. eapply built_same; [exact B3|].
  unfold space_pml4, space_pdpt, upd. fold curlow.
  repeat (constructor; [split; [done|]|]); [..|constructor]; simpl; intros i Hi;
    destruct (Z.eqb_spec i 0); try done. unfold in_block.
  destruct (Z.leb_spec 256 i), (Z.ltb_spec i (256 + (512 - 256))); simpl; (done || lia).
Qed.

End VmmSpace.
