(* ===== verification/VmmProps.v ===== *)
(** * Virtual memory manager: theorems

    Boot tables, mapping, unmapping and their effect on other address spaces. *)

From Stdlib Require Import ZArith Lia.
From S2P Require Import Prelude Memory Frames Pmm PmmInv PmmProps Vmm VmmInv VmmOps VmmBuild VmmInit VmmSpace VmmCow.
Import StringC.

(** ** The translation of the boot tables *)

(** Identity over the first GiB except page 0 and the stack guard page, the first
    2 MiB of physical memory at [KERNEL_VMA], nothing else.  Addresses are taken
    modulo the 48 bits the hardware walks. *)
Definition boot_translation (guard va : Z) : Z :=
  let p := vpage va in
  let hh := vpage KERNEL_VMA in
  if p <? 2^18 then
    if (p =? 0) || ((p <? 512) && (p * PAGE_SIZE =? guard)) then PMM_ALLOC_FAILED
    else p * PAGE_SIZE + va mod PAGE_SIZE
  else if in_block hh 512 p then (p - hh) * PAGE_SIZE + va mod PAGE_SIZE
  else PMM_ALLOC_FAILED.

Lemma page_offset va : va .& 0xFFF = va mod PAGE_SIZE.
Proof. by apply (land_low_mod va 12). Qed.

Lemma huge_offset va : va .& 0x1FFFFF = pt_idx va * PAGE_SIZE + va mod PAGE_SIZE.
Proof.
  change 0x1FFFFF with (2^21 - 1). rewrite land_low_mod, pt_idx_vpage by lia. unfold vpage, PAGE_SIZE.
  change (2^36) with (2^9 * 2^27). rewrite mod_mod_slice by lia.
  change (2^21) with (4096 * 2^9). rewrite Z.rem_mul_r by lia. change (2^12) with 4096. lia.
Qed.

Lemma small_page_physical i va :
  0 <= i < 512 → leaf_physical (Some (false, small_page i)) va = i * PAGE_SIZE + va mod PAGE_SIZE.
Proof.
  intros Hi. simpl. rewrite (proj2 (small_page_bits i Hi)), page_offset.
  apply (lor_add_low _ _ 12); [lia|apply Z.mod_pos_bound; unfold PAGE_SIZE; lia|].
  apply Z.mod_mul. lia.
Qed.

Lemma huge_page_physical i va :
  0 <= i < 512 →
  leaf_physical (Some (true, huge_page i)) va = i * 0x200000 + (pt_idx va * PAGE_SIZE + va mod PAGE_SIZE).
Proof.
  intros Hi. simpl. destruct (huge_page_bits i Hi) as (_ & _ & ->). rewrite huge_offset.
  pose proof (idx_range va) as (_ & _ & _ & ?).
  pose proof (Z.mod_pos_bound va PAGE_SIZE ltac:(done)). unfold PAGE_SIZE in *.
  apply (lor_add_low _ _ 21); [lia|lia|]. apply Z.mod_mul. lia.
Qed.

Lemma boot_leaf_translation guard va :
  leaf_physical
    (if (pml4_idx va =? 0) && (pdpt_idx va =? 0) then
      if pd_idx va =? 0 then
        if (pt_idx va =? 0) || (pt_idx va * PAGE_SIZE =? guard) then None
        else Some (false, small_page (pt_idx va))
      else Some (true, huge_page (pd_idx va))
    else if (pml4_idx va =? 511) && (pdpt_idx va =? 510) && (pd_idx va =? 0)
    then Some (true, huge_page 0) else None) va = boot_translation guard va.
Proof.
  pose proof (idx_range va) as (H4 & H3 & H2 & H1).
  pose proof (vpage_slices (vpage va)) as Hs.
  rewrite <- pml4_idx_vpage, <- pdpt_idx_vpage, <- pd_idx_vpage, <- pt_idx_vpage in Hs.
  unfold boot_translation. change (vpage KERNEL_VMA) with (511 * 2^27 + 510 * 2^18).
  assert ((vpage va <? 2^18) = (pml4_idx va =? 0) && (pdpt_idx va =? 0)) as ->.
  { apply eq_true_iff_eq. rewrite andb_true_iff, !Z.eqb_eq, Z.ltb_lt. lia. }
  destruct ((pml4_idx va =? 0) && (pdpt_idx va =? 0)) eqn:E; b2p.
  - replace (vpage va) with (pt_idx va + 512 * pd_idx va) by lia.
    destruct (Z.eqb_spec (pd_idx va) 0) as [E2|E2].
    + rewrite E2, Z.mul_0_r, Z.add_0_r. rewrite (proj2 (Z.ltb_lt (pt_idx va) 512)) by lia. simpl.
      destruct ((pt_idx va =? 0) || _); [done|]. by apply small_page_physical.
    + rewrite huge_page_physical by done.
      rewrite (proj2 (Z.eqb_neq _ 0)), (proj2 (Z.ltb_ge _ 512)) by lia. simpl.
      unfold PAGE_SIZE. lia.
  - change (511 * 2^27 + 510 * 2^18) with (511 * 134217728 + 510 * 262144).
    assert (vpage va = pt_idx va + 512 * pd_idx va + 262144 * pdpt_idx va
      + 134217728 * pml4_idx va) as Hp by lia. clear Hs.
    replace (in_block _ 512 (vpage va)) with
      ((pml4_idx va =? 511) && (pdpt_idx va =? 510) && (pd_idx va =? 0)).
    2: { apply eq_true_iff_eq. rewrite in_block_true, !andb_true_iff, !Z.eqb_eq.
         split; [intros [[? ?] ?]; lia|]. intros ?.
         assert (pml4_idx va = 511) by lia. assert (pdpt_idx va = 510) by lia. lia. }
    destruct ((pml4_idx va =? 511) && _ && _) eqn:E'; [|done]. b2p.
    rewrite huge_page_physical by lia. unfold PAGE_SIZE. lia.
Qed.

Lemma frame_page_aligned a : is_frame a → a .& ~64 0xFFF = a.
Proof.
  intros Ha. pose proof Ha as [_ Hr]. unfold PMM_MAX_PHYS in Hr.
  change 0xFFF with (2^12 - 1). rewrite land_lnot_low by lia.
  destruct Ha as [Ha _]. unfold PMM_FRAME_SIZE in Ha. change (2^12) with 4096.
  pose proof (Z.div_mod a 4096). lia.
Qed.

Section VmmProps.
Context {S : Type} `{FA : FrameAllocator S}.
Implicit Types v : vm S.

(** What [vmm_init] establishes, in one predicate. *)
Definition booted (guard : Z) (v : vm S) : Prop :=
  root_ok v (kernel_pml4 v) ∧ vmm_current_pml4 v = kernel_pml4 v ∧
  ∀ va, vmm_get_physical (vm_mem v) (kernel_pml4 v) va = boot_translation guard va.

Lemma vmm_init_booted v stack_bottom kernel_end :
  fa_wf (vm_pmm v) → 6 <= fa_avail (vm_pmm v) →
  wp (vmm_init stack_bottom kernel_end) (λ _ v',
    booted (u64 (stack_bottom - PAGE_SIZE)) v' ∧
    fa_avail (vm_pmm v') = fa_avail (vm_pmm v) - 6 ∧
    kheap_next v' = ALIGN_UP (u64 (KERNEL_VMA + kernel_end)) 0x200000) v.
Proof.
  intros Hfa Hav. eapply wp_mono; [by apply vmm_init_built|].
  intros _ v' (pml4 & pt0 & pd0 & pdpt_id & pdpt_hh & pd_hh & B & Hk & Hc & Hh).
  pose proof (boot_wf _ _ _ _ _ _ _ _ _ B) as Hwf.
  split_and!; [|by rewrite (built_avail _ _ _ B)|done]. unfold booted. rewrite Hk. split_and!.
  - split; [apply B|done].
  - unfold vmm_current_pml4. rewrite Hc. apply frame_page_aligned.
    by apply (pt_tables _ _ _ Hwf []); [constructor|simpl; lia|].
  - intros va. rewrite (get_physical_leaf _ _ _ Hwf). unfold vleaf.
    rewrite (boot_leaf _ _ _ _ _ _ _ _ _ B) by apply (vpath_valid va).
    apply boot_leaf_translation.
Qed.

(** ** Mapping and unmapping *)


(** C1: [vmm_map_page] either returns 0, and then exactly the addresses of the
    page of [va] translate to the given frame with the given flags (all upper
    entries admitting user code for a user mapping), or returns -1 because the
    allocator is empty or a 2 MiB page is in the way; every other translation of
    the root is unchanged in both cases and the root stays well formed. *)
Theorem vmm_map_page_correct v r va phys flags :
  root_ok v r →
  wp (vmm_map_page r va phys flags) (λ res v',
    root_ok v' r ∧
    (∀ vb, vmm_get_physical (vm_mem v') r vb =
       if (res =? 0) && (vpage vb =? vpage va)
       then (phys .& VMM_PHYS_MASK) .| (vb .& 0xFFF) else vmm_get_physical (vm_mem v) r vb) ∧
    (∀ vb, vmm_get_flags (vm_mem v') r vb =
       if (res =? 0) && (vpage vb =? vpage va)
       then (flags .& ~64 VMM_PHYS_MASK) .| VMM_PRESENT else vmm_get_flags (vm_mem v) r vb) ∧
    ((res = 0 ∧ (has flags VMM_USER = true → user_path (vm_mem v') r va)) ∨
     (res = -1 ∧ (fa_avail (vm_pmm v') = 0 ∨ pd_huge (vm_mem v') r va)))) v.
Proof.
  intros Hok. pose proof Hok as [_ Hwf]. eapply wp_mono; [by apply map_page_steps|].
  intros res v' [(-> & G & Hwhy)|(-> & v1 & pt & G & Hw & Hu & ->)].
  - pose proof (grows_ok _ _ _ _ G) as Hok'. pose proof Hok' as [_ Hwf']. split_and!; [done|..].
    + intros vb. rewrite !(get_physical_leaf _ _ _ Hwf'), !(get_physical_leaf _ _ _ Hwf).
      by rewrite (grows_vleaf _ _ _ _ _ G).
    + intros vb. rewrite !(get_flags_leaf _ _ _ Hwf'), !(get_flags_leaf _ _ _ Hwf).
      by rewrite (grows_vleaf _ _ _ _ _ G).
    + by right.
  - pose proof (grows_ok _ _ _ _ G) as Hok1. pose proof (leaf_entry_range phys flags) as He.
    pose proof (leaf_store_wf v1 r va pt _ Hok1 Hw He _ eq_refl) as Hwf'.
    pose proof (leaf_store_vleaf v1 r va pt _ Hok1 Hw He _ eq_refl) as Hleaf.
    rewrite leaf_entry_present in Hleaf. split_and!; [split; [apply Hok1|exact Hwf']|..].
    + intros vb. rewrite (get_physical_leaf _ _ _ Hwf'), (get_physical_leaf _ _ _ Hwf), Hleaf.
      rewrite (grows_vleaf _ _ _ _ _ G). simpl.
      destruct (vpage vb =? vpage va); [|done]. simpl. by rewrite leaf_entry_phys.
    + intros vb. rewrite (get_flags_leaf _ _ _ Hwf'), (get_flags_leaf _ _ _ Hwf), Hleaf.
      rewrite (grows_vleaf _ _ _ _ _ G). simpl.
      destruct (vpage vb =? vpage va); [|done]. simpl. by rewrite leaf_entry_flags.
    + left. split; [done|]. intros Hf.
      by apply (leaf_store_user_path v1 r va pt _ Hok1 Hw He _ eq_refl), Hu.
Qed.

(** The bytes [vmm_map_page] may change: tables on the path of [va] that existed,
    and pages that were free. *)
Lemma map_page_footprint v r va phys flags :
  root_ok v r →
  wp (vmm_map_page r va phys flags) (λ _ v',
    fa_wf (vm_pmm v') ∧
    (∀ a, 0 < fa_rc (vm_pmm v) a → fa_rc (vm_pmm v') a = fa_rc (vm_pmm v) a) ∧
    (∀ a b, is_frame a → 0 < fa_rc (vm_pmm v) a → page_range a b →
       (∀ q, q `prefix_of` tables_path va → walk (vm_mem v) r q ≠ Some a) →
       read8 (vm_mem v') b = read8 (vm_mem v) b)) v.
Proof.
  intros Hok. eapply wp_mono; [by apply map_page_steps|].
  assert (∀ q, q `prefix_of` tables_path va → valid_path q ∧ (length q <= 3)%nat) as Hpre.
  { intros q Hq. split; [by eapply valid_path_prefix; [|apply tables_path_valid]|].
    by apply prefix_length in Hq. }
  assert (∀ v1, grows (tables_path va) r v v1 →
    (∀ a, 0 < fa_rc (vm_pmm v) a → fa_rc (vm_pmm v1) a = fa_rc (vm_pmm v) a) ∧
    (∀ a b q t, is_frame a → 0 < fa_rc (vm_pmm v) a → page_range a b →
       (∀ q, q `prefix_of` tables_path va → walk (vm_mem v) r q ≠ Some a) →
       q `prefix_of` tables_path va → walk (vm_mem v1) r q = Some t → ¬ page_range t b) ∧
    (∀ a b, is_frame a → 0 < fa_rc (vm_pmm v) a → page_range a b →
       (∀ q, q `prefix_of` tables_path va → walk (vm_mem v) r q ≠ Some a) →
       read8 (vm_mem v1) b = read8 (vm_mem v) b)) as Hg.
  { intros v1 G. assert (∀ a b q t, is_frame a → 0 < fa_rc (vm_pmm v) a → page_range a b →
       (∀ q, q `prefix_of` tables_path va → walk (vm_mem v) r q ≠ Some a) →
       q `prefix_of` tables_path va → walk (vm_mem v1) r q = Some t → ¬ page_range t b) as Hout.
    { intros a b q t Ha Hrc Hb Hno Hq Hw Hb'. destruct (Hpre q Hq) as [Hv Hl].
      destruct (pt_tables _ _ _ (proj2 (grows_ok _ _ _ _ G)) q t) as [Ht _]; [done..|].
      assert (a = t) as <- by (by eapply frames_disjoint).
      destruct (grows_new _ _ _ _ G q a) as [Hw0|]; [done..| |lia]. by apply (Hno q). }
    split_and!; [|done|].
    - intros a Ha. destruct (grows_rc _ _ _ _ G a) as [?|(? & _)]; [done|lia].
    - intros a b Ha Hrc Hb Hno. destruct (grows_mem _ _ _ _ G b) as [?|(q & t & Hq & Hw & Hb')]; [done|].
      by destruct (Hout a b q t). }
  intros res v' [(-> & G & _)|(-> & v1 & pt & G & Hw & _ & ->)].
  - destruct (Hg _ G) as (Hrc & _ & Hmem). split_and!; [apply G|done..].
  - destruct (Hg _ G) as (Hrc & Hout & Hmem).
    pose proof (leaf_store_entries v1 r va pt _ (grows_ok _ _ _ _ G) Hw (leaf_entry_range phys flags)
      _ eq_refl) as (_ & _ & Hb1).
    split_and!; [apply G|done|]. intros a b Ha Hrca Hb Hno. simpl.
    rewrite Hb1; [by eapply Hmem|]. by eapply (Hout a b (tables_path va)).
Qed.

(** [vmm_map_page] leaves other address spaces alone: a well-formed root that
    shares no table with the path of [va] keeps all its translations. *)
Theorem vmm_map_page_isolated v r r' va phys flags :
  root_ok v r → root_ok v r' →
  (∀ q q' t, q `prefix_of` tables_path va → walk (vm_mem v) r q = Some t →
     valid_path q' → (length q' <= 3)%nat → walk (vm_mem v) r' q' ≠ Some t) →
  wp (vmm_map_page r va phys flags) (λ _ v',
    root_ok v' r' ∧
    ∀ vb, vmm_get_physical (vm_mem v') r' vb = vmm_get_physical (vm_mem v) r' vb ∧
          vmm_get_flags (vm_mem v') r' vb = vmm_get_flags (vm_mem v) r' vb) v.
Proof.
  intros Hok Hok' Hsep. pose proof Hok' as [_ Hwf].
  eapply wp_mono; [by apply map_page_footprint|].
  intros _ v' (Hfa & Hrc & Hmem).
  assert (∀ p t i, valid_path p → (length p <= 3)%nat → walk (vm_mem v) r' p = Some t →
    0 <= i < 512 → pte (vm_mem v') t i = pte (vm_mem v) t i) as Hsame.
  { intros p t i Hp Hl Hw Hi. destruct (pt_tables _ _ _ Hwf p t) as [Ht Hrt]; [done..|].
    apply pte_ext; [done|]. intros b Hb. apply (Hmem t b); [done..|].
    intros q Hq Hw'. by apply (Hsep q p t). }
  assert (pt_wf (vm_mem v') (fa_rc (vm_pmm v')) r') as Hwf'.
  { eapply same_entries_wf; [done..|]. intros t Ht. by rewrite Hrc. }
  split; [done|]. intros vb.
  rewrite !(get_physical_leaf _ _ _ Hwf'), !(get_physical_leaf _ _ _ Hwf).
  rewrite !(get_flags_leaf _ _ _ Hwf'), !(get_flags_leaf _ _ _ Hwf).
  unfold vleaf. rewrite !(same_entries_leaf _ _ _ _ _ _ _ Hsame) by apply (vpath_valid vb). done.
Qed.

(** [vmm_unmap_page] removes the translation of exactly one 4 KiB page; on an
    address that has none (absent tables or a 2 MiB page) it does nothing. *)
Theorem vmm_unmap_page_correct v r va :
  root_ok v r →
  wp (vmm_unmap_page r va) (λ _ v',
    root_ok v' r ∧ vm_pmm v' = vm_pmm v ∧
    if vmm_get_pte (vm_mem v) r va =? 0 then v' = v
    else ∀ vb, vmm_get_physical (vm_mem v') r vb =
      if vpage vb =? vpage va then PMM_ALLOC_FAILED else vmm_get_physical (vm_mem v) r vb) v.
Proof.
  intros Hok. pose proof Hok as [_ Hwf]. unfold wp. rewrite (unmap_page_walk r va v Hok).
  rewrite (get_pte_walk _ _ _ Hwf).
  destruct (walk (vm_mem v) r (tables_path va)) as [pt|] eqn:E; [|done].
  destruct (leaf_store_table v r va pt Hok E) as [Hpt _].
  pose proof (idx_range va) as (_ & _ & _ & ?).
  rewrite (proj2 (Z.eqb_neq _ 0)) by (unfold pte_addr; destruct Hpt; lia).
  assert (0 <= 0 < 2^64) as H0 by lia.
  pose proof (leaf_store_wf v r va pt _ Hok E H0 _ eq_refl) as Hwf'.
  split_and!; [by split; [apply Hok|]|done|]. intros vb.
  rewrite (get_physical_leaf _ _ _ Hwf'), (get_physical_leaf _ _ _ Hwf).
  rewrite (leaf_store_vleaf v r va pt _ Hok E H0 _ eq_refl). by destruct (vpage vb =? vpage va).
Qed.

(** [vmm_create_address_space] returns 0 only when fewer than two frames are
    free, and then gives back what it took; otherwise the new root is well
    formed, translates the kernel half and the first GiB as the current root does
    and nothing else, and the current root is unaffected. *)
Theorem vmm_create_address_space_correct v :
  let cur := vmm_current_pml4 v in
  root_ok v cur → has (pte (vm_mem v) cur 0) VMM_PRESENT = true →
  wp vmm_create_address_space (λ a v',
    if a =? 0 then
      fa_avail (vm_pmm v) < 2 ∧ fa_avail (vm_pmm v') = fa_avail (vm_pmm v) ∧
      (∀ x, fa_rc (vm_pmm v') x = fa_rc (vm_pmm v) x)
    else
      root_ok v' a ∧ root_ok v' cur ∧ vmm_current_pml4 v' = cur ∧
      fa_avail (vm_pmm v') = fa_avail (vm_pmm v) - 2 ∧
      (∀ vb, vmm_get_physical (vm_mem v') a vb =
         if (256 <=? pml4_idx vb) || ((pml4_idx vb =? 0) && (pdpt_idx vb =? 0))
         then vmm_get_physical (vm_mem v) cur vb else PMM_ALLOC_FAILED) ∧
      (∀ vb, vmm_get_physical (vm_mem v') cur vb = vmm_get_physical (vm_mem v) cur vb)) v.
Proof.
  intros cur Hok Hlow. eapply wp_mono; [by apply create_address_space_steps|]. fold cur.
  intros a v' (Hc & [(-> & Hav & _ & Hav' & Hrc & _)|(low & B)]); [done|].
  pose proof (space_wf v v' cur a low Hok Hlow B) as Hwf.
  pose proof (space_leaf v v' cur a low Hok Hlow B) as Hleaf.
  destruct (built_root _ _ _ _ B Hok) as (Hok' & Hkeep & _).
  destruct (pt_tables _ _ _ Hwf [] a) as [Ha _]; [constructor|simpl; lia|done|].
  rewrite (proj2 (Z.eqb_neq a 0)) by (destruct Ha; lia).
  split_and!; [by split; [apply B|]|done|by unfold vmm_current_pml4; rewrite Hc
              |by rewrite (built_avail _ _ _ B)|..]; intros vb.
  - rewrite (get_physical_leaf _ _ _ Hwf), Hleaf, (get_physical_leaf _ _ _ (proj2 Hok)).
    change (shared_path (tables_path vb)) with
      ((256 <=? pml4_idx vb) || ((pml4_idx vb =? 0) && (pdpt_idx vb =? 0))).
    by case_if.
  - by rewrite (get_physical_leaf _ _ _ (proj2 Hok')), (get_physical_leaf _ _ _ (proj2 Hok)), Hkeep.
Qed.

(** C2: a write fault on a copy-on-write page.  When the handler takes it the page
    becomes writable with its other flags kept, holds the bytes it held, and no
    other address moves: in place when the frame has one owner, otherwise in a
    frame that was free, the shared frame keeping its bytes and losing one
    reference.  It declines every other fault, and one it should take only when
    no frame is free; then nothing changed. *)
Theorem vmm_handle_page_fault_correct v addr code :
  let r := vmm_current_pml4 v in
  root_ok v r → 0 <= addr < 2^64 → (∀ e, cow_fault v addr code e → user_frame v addr e) →
  wp (vmm_handle_page_fault addr code) (λ ok v',
    if ok : bool then ∃ e f', let old := e .& VMM_PHYS_MASK in
      cow_fault v addr code e ∧ root_ok v' r ∧ vmm_current_pml4 v' = r ∧
      (∀ vb, vmm_get_physical (vm_mem v') r vb =
        if vpage vb =? vpage addr then f' .| (vb .& 0xFFF) else vmm_get_physical (vm_mem v) r vb) ∧
      (∀ vb, vmm_get_flags (vm_mem v') r vb =
        if vpage vb =? vpage addr then cow_resolved e else vmm_get_flags (vm_mem v) r vb) ∧
      (∀ k, 0 <= k < PAGE_SIZE →
        read8 (vm_mem v') (f' + k) = read8 (vm_mem v) (old + k) ∧
        read8 (vm_mem v') (old + k) = read8 (vm_mem v) (old + k)) ∧
      if fa_rc (vm_pmm v) old =? 1 then f' = old ∧ vm_pmm v' = vm_pmm v
      else fa_rc (vm_pmm v) f' = 0 ∧
        (∀ b, fa_rc (vm_pmm v') b = if b =? f' then 1 else
              if b =? old then fa_rc (vm_pmm v) old - 1 else fa_rc (vm_pmm v) b)
    else v' = v ∧ ∀ e, cow_fault v addr code e →
      fa_avail (vm_pmm v) = 0 ∧ 1 < fa_rc (vm_pmm v) (e .& VMM_PHYS_MASK)) v.
Proof.
  intros r Hok Haddr Huser. eapply wp_mono; [by apply page_fault_steps|].
  intros [] v' H; [|done]. destruct H as (e & f' & Hcow & Hm & Hrc).
  pose proof (moved_ok _ _ _ _ _ Hm) as Hok'. pose proof (moved_leaf _ _ _ _ _ Hm) as Hleaf.
  fold r in Hok', Hleaf. pose proof (moved_frame _ _ _ _ _ Hm) as Hf.
  exists e, f'. split_and!; [done|done| | | | |done].
  - unfold vmm_current_pml4. by rewrite (moved_cr3 _ _ _ _ _ Hm).
  - intros vb. rewrite (get_physical_leaf _ _ _ (proj2 Hok')), (get_physical_leaf _ _ _ (proj2 Hok)), Hleaf.
    destruct (vpage vb =? vpage addr); [|done]. simpl. by rewrite cow_entry_phys.
  - intros vb. rewrite (get_flags_leaf _ _ _ (proj2 Hok')), (get_flags_leaf _ _ _ (proj2 Hok)), Hleaf.
    destruct (vpage vb =? vpage addr); [|done]. simpl. by rewrite cow_entry_flags.
  - intros k Hk. split; [by apply Hm|by apply (moved_old _ _ _ _ _ Hm)].
Qed.

(** Switching to a root and mapping a frame with two owners copy-on-write. *)
Definition share_page (r va : Z) : M (vm S) () :=
  vmm_switch r;;
  f ← alloc_frame;
  ref_frame f;;
  _ ← vmm_map_page r va f (VMM_USER .| VMM_COW);
  mret ().

Lemma share_page_ok v r va :
  root_ok v r → fa_avail (vm_pmm v) ≠ 0 →
  wp (share_page r va) (λ _ v', root_ok v' r ∧ vm_cr3 v' = r) v.
Proof.
  intros [Hfa Hwf] Hav.
  unfold share_page, vmm_switch, alloc_frame, ref_frame, on_pmm. repeat wp_step.
  eapply wp_mono; [by apply fa_alloc_spec|].
  intros f s1 [(_ & _ & H0)|(Hf & Hf0 & Hfa1 & Hrc1 & _ & _)]; [done|]. repeat wp_step.
  assert (fa_rc s1 f = 1) as Hf1 by (by rewrite Hrc1, Z.eqb_refl).
  eapply wp_mono; [apply fa_ref_spec; [done|destruct Hf; lia|simpl; lia]|].
  intros [] s2 (Hfa2 & Hrc2 & _). repeat wp_step. eapply wp_mono.
  { apply map_page_steps. split; [done|]. eapply same_entries_wf; [exact Hwf|done|].
    intros t Ht. simpl. rewrite Hrc2. case_if; [simpl; lia|]. rewrite Hrc1. by case_if. }
  intros res v' [(-> & G & _)|(-> & v1 & pt & G & Hw & _ & ->)]; apply wp_ret.
  - split; [apply G|apply (grows_cr3 _ _ _ _ G)].
  - split; [|apply (grows_cr3 _ _ _ _ G)]. split; [apply (grows_ok _ _ _ _ G)|].
    exact (leaf_store_wf v1 _ _ pt _ (grows_ok _ _ _ _ G) Hw (leaf_entry_range _ _) _ eq_refl).
Qed.

End VmmProps.

(** ** Rebuilding an address from its indices *)

Lemma make_virt_sum i j k l :
  0 <= i < 512 → 0 <= j < 512 → 0 <= k < 512 → 0 <= l < 512 →
  make_virt i j k l = (((i * 512 + j) * 512 + k) * 512 + l) * 2^12.
Proof.
  intros Hi Hj Hk Hl. unfold make_virt. rewrite !Z.shiftl_mul_pow2 by lia.
  rewrite !u64_small by lia.
  assert (∀ x y p, 0 <= p → (x * (2^p * y)) mod 2^p = 0) as Hmod.
  { intros x y p Hp. rewrite Z.mul_assoc, (Z.mul_comm x), <- Z.mul_assoc, Z.mul_comm.
    apply Z.mod_mul. lia. }
  rewrite (lor_add_low (i * 2^39) (j * 2^30) 39); [|lia|lia|apply Z.mod_mul; lia].
  rewrite (lor_add_low _ (k * 2^21) 30); [|lia|lia|].
  2: { replace (i * 2^39 + j * 2^30) with ((i * 512 + j) * 2^30) by lia. apply Z.mod_mul. lia. }
  rewrite (lor_add_low _ (l * 2^12) 21); [lia|lia|lia|].
  replace (i * 2^39 + j * 2^30 + k * 2^21) with (((i * 512 + j) * 512 + k) * 2^21) by lia.
  apply Z.mod_mul. lia.
Qed.

(** [make_virt] inverts the four index functions, so the clone visits every
    page of the user half at its own address, and only those. *)
Theorem make_virt_roundtrip i j k l :
  0 <= i < 512 → 0 <= j < 512 → 0 <= k < 512 → 0 <= l < 512 →
  let va := make_virt i j k l in
  pml4_idx va = i ∧ pdpt_idx va = j ∧ pd_idx va = k ∧ pt_idx va = l ∧
  va mod PAGE_SIZE = 0 ∧ (i < 256 ↔ va < USER_SPACE_TOP).
Proof.
  intros Hi Hj Hk Hl va. unfold va. rewrite make_virt_sum by done.
  set (p := ((i * 512 + j) * 512 + k) * 512 + l).
  assert (vpage (p * 2^12) = p) as Hp.
  { unfold vpage. rewrite Z.div_mul by lia. apply Z.mod_small. unfold p. lia. }
  rewrite pml4_idx_vpage, pdpt_idx_vpage, pd_idx_vpage, pt_idx_vpage, Hp.
  assert (p / 2^27 = i ∧ p / 2^18 mod 2^9 = j ∧ p / 2^9 mod 2^9 = k ∧ p mod 2^9 = l)
    as (-> & -> & -> & ->).
  { pose proof (vpage_slices p) as Hs. unfold p in Hs at 1.
    pose proof (Z.mod_pos_bound p (2^9) ltac:(lia)).
    pose proof (Z.mod_pos_bound (p / 2^9) (2^9) ltac:(lia)).
    pose proof (Z.mod_pos_bound (p / 2^18) (2^9) ltac:(lia)).
    generalize dependent (p mod 2^9). generalize dependent (p / 2^9 mod 2^9).
    generalize dependent (p / 2^18 mod 2^9). generalize dependent (p / 2^27).
    change (2^9) with 512. clear -Hi Hj Hk Hl. intros a b Hb c Hc d Hs Hd.
    assert (d = l) by lia. assert (c = k) by lia. assert (b = j) by lia. lia. }
  split_and!; [done..| |].
  - apply Z.mod_mul. done.
  - unfold p, USER_SPACE_TOP. change (2^12) with 4096. lia.
Qed.

Lemma make_virt_roundtrip_witness :
  pml4_idx (make_virt 0 1 2 3) = 0 ∧ pt_idx (make_virt 0 1 2 3) = 3 ∧ make_virt 0 1 2 3 = 0x40403000.
Proof.
  destruct (make_virt_roundtrip 0 1 2 3) as (H4 & _ & _ & H1 & _); [lia..|].
  split_and!; [exact H4|exact H1|reflexivity].
Defined.

(** ** Concrete runs *)

Definition raw_vm : vm pmm_state := Vm booted_pmm (arr_fill 0) 0 0 0.

Definition run {S A} (m : M S A) (s : S) : S :=
  match m s with Ret (_, s') => s' | _ => s end.

Definition result {S A} (m : M S A) (s : S) (d : A) : A :=
  match m s with Ret (a, _) => a | _ => d end.

Lemma run_wp {S A} (m : M S A) (Q : A → S → Prop) s d :
  wp m Q s → Q (result m s d) (run m s).
Proof. unfold wp, run, result. by destruct (m s) as [[a s']| |]. Qed.

(** After [vmm_init] on the sample machine, stack bottom at 0x105000. *)
Definition boot_vm : vm pmm_state := run (vmm_init 0x105000 0x110000) raw_vm.

Lemma raw_vm_ready : fa_wf (vm_pmm raw_vm) ∧ 6 <= fa_avail (vm_pmm raw_vm).
Proof. split; [exact booted_pmm_wf|]. vm_compute. discriminate. Qed.

Lemma boot_vm_run (Q : () → vm pmm_state → Prop) :
  wp (vmm_init 0x105000 0x110000) Q raw_vm → Q tt boot_vm.
Proof.
  intros H. apply (run_wp (vmm_init 0x105000 0x110000) Q raw_vm tt) in H.
  by destruct (result (vmm_init 0x105000 0x110000) raw_vm tt).
Qed.
#[global] Opaque boot_vm.

Lemma boot_vm_booted : booted 0x104000 boot_vm.
Proof.
  destruct raw_vm_ready as [H1 H2].
  by destruct (boot_vm_run _ (vmm_init_booted raw_vm 0x105000 0x110000 H1 H2)).
Qed.


Example boot_vm_null_and_guard :
  vmm_get_physical (vm_mem boot_vm) (kernel_pml4 boot_vm) 0x10 = PMM_ALLOC_FAILED ∧
  vmm_get_physical (vm_mem boot_vm) (kernel_pml4 boot_vm) 0x104ff8 = PMM_ALLOC_FAILED ∧
  vmm_get_physical (vm_mem boot_vm) (kernel_pml4 boot_vm) 0x105ff8 = 0x105ff8 ∧
  vmm_get_physical (vm_mem boot_vm) (kernel_pml4 boot_vm) (KERNEL_VMA + 0x1234) = 0x1234 ∧
  vmm_get_physical (vm_mem boot_vm) (kernel_pml4 boot_vm) (2^30) = PMM_ALLOC_FAILED.
Proof. vm_compute. done. Qed.

(** A first address space on that machine. *)
Definition space_root : Z := result vmm_create_address_space boot_vm 0.
Definition space_vm : vm pmm_state := run vmm_create_address_space boot_vm.

Lemma space_vm_run (Q : Z → vm pmm_state → Prop) :
  wp vmm_create_address_space Q boot_vm → Q space_root space_vm.
Proof. unfold space_root, space_vm. exact (run_wp vmm_create_address_space Q boot_vm 0). Qed.
#[global] Opaque space_root space_vm.

Lemma boot_vm_current : vmm_current_pml4 boot_vm = kernel_pml4 boot_vm.
Proof. exact (proj1 (proj2 boot_vm_booted)). Qed.

Lemma boot_vm_space :
  root_ok boot_vm (vmm_current_pml4 boot_vm) ∧
  has (pte (vm_mem boot_vm) (vmm_current_pml4 boot_vm) 0) VMM_PRESENT = true.
Proof.
  split; [rewrite boot_vm_current; exact (proj1 boot_vm_booted)|]. vm_compute. reflexivity.
Qed.

Lemma vmm_create_address_space_correct_witness :
  root_ok space_vm space_root ∧ root_ok space_vm (kernel_pml4 boot_vm) ∧
  vmm_get_physical (vm_mem space_vm) space_root 0x200123 =
    vmm_get_physical (vm_mem boot_vm) (kernel_pml4 boot_vm) 0x200123 ∧
  vmm_get_physical (vm_mem space_vm) space_root 0x40000000 = PMM_ALLOC_FAILED.
Proof.
  destruct boot_vm_space as [H1 H2].
  pose proof (space_vm_run _ (vmm_create_address_space_correct boot_vm H1 H2)) as H. cbv beta in H.
  replace (space_root =? 0) with false in H by (vm_compute; reflexivity).
  destruct H as (Hn & Hc & _ & _ & Ht & _). rewrite boot_vm_current in Hc, Ht.
  split_and!; [exact Hn|exact Hc|rewrite Ht; reflexivity|rewrite Ht; reflexivity].
Defined.

Lemma space_vm_built :
  ∃ low, built boot_vm space_vm [(space_root, space_pml4 boot_vm (kernel_pml4 boot_vm) low);
                                 (low, space_pdpt boot_vm (kernel_pml4 boot_vm))].
Proof.
  destruct boot_vm_space as [H1 H2].
  pose proof (space_vm_run _ (create_address_space_steps boot_vm H1 H2)) as (_ & [[H _]|H]).
  - exfalso. revert H. vm_compute. discriminate.
  - rewrite boot_vm_current in H. exact H.
Qed.

Lemma space_vm_ok : root_ok space_vm space_root ∧ root_ok space_vm (kernel_pml4 boot_vm).
Proof.
  destruct space_vm_built as [low B]. destruct boot_vm_space as [H1 H2]. rewrite boot_vm_current in *.
  split; [split; [apply B|by apply (space_wf boot_vm space_vm (kernel_pml4 boot_vm) space_root low)]|].
  by apply (built_root _ _ _ _ B).
Qed.

Lemma vmm_map_page_correct_witness :
  let v' := run (vmm_map_page space_root 0x40000000 0x150000 (VMM_WRITE .| VMM_USER)) space_vm in
  root_ok v' space_root ∧ vmm_get_physical (vm_mem v') space_root 0x40000123 = 0x150123.
Proof.
  cbv zeta. destruct space_vm_ok as [H _].
  pose proof (run_wp _ _ _ 7 (vmm_map_page_correct space_vm space_root 0x40000000 0x150000
    (VMM_WRITE .| VMM_USER) H)) as (Hok & Ht & _). split; [exact Hok|].
  rewrite Ht. vm_compute. reflexivity.
Defined.

Lemma vmm_map_page_isolated_witness :
  let v' := run (vmm_map_page space_root 0x40000000 0x150000 (VMM_WRITE .| VMM_USER)) space_vm in
  root_ok v' (kernel_pml4 boot_vm) ∧
  vmm_get_physical (vm_mem v') (kernel_pml4 boot_vm) 0x40000123 = PMM_ALLOC_FAILED.
Proof.
  cbv zeta. destruct space_vm_ok as [H1 H2], space_vm_built as [low B], boot_vm_space as [K1 K2].
  rewrite boot_vm_current in *.
  pose proof (run_wp _ _ _ 7 (vmm_map_page_isolated space_vm space_root (kernel_pml4 boot_vm) 0x40000000
    0x150000 (VMM_WRITE .| VMM_USER) H1 H2 (λ q q' t,
      space_private boot_vm space_vm (kernel_pml4 boot_vm) space_root low K1 K2 B 0x40000000 q q' t
        ltac:(vm_compute; reflexivity)))) as (Hok & Ht). split; [exact Hok|].
  destruct (Ht 0x40000123) as [-> _]. vm_compute. reflexivity.
Defined.

Lemma vmm_unmap_page_correct_witness :
  let v' := run (vmm_unmap_page (kernel_pml4 boot_vm) 0x120000) boot_vm in
  vmm_get_physical (vm_mem v') (kernel_pml4 boot_vm) 0x120456 = PMM_ALLOC_FAILED ∧
  vmm_get_physical (vm_mem v') (kernel_pml4 boot_vm) 0x121456 = 0x121456.
Proof.
  cbv zeta. destruct boot_vm_booted as [H _].
  pose proof (run_wp _ _ _ tt (vmm_unmap_page_correct boot_vm (kernel_pml4 boot_vm) 0x120000 H))
    as (_ & _ & Ht).
  assert ((vmm_get_pte (vm_mem boot_vm) (kernel_pml4 boot_vm) 0x120000 =? 0) = false) as E
    by (vm_compute; reflexivity).
  rewrite E in Ht.
  split; (etransitivity; [exact (Ht _)|vm_compute; reflexivity]).
Defined.

(** A copy-on-write page at 0x40000000, shared by two owners. *)
Definition cow_vm : vm pmm_state := run (share_page space_root 0x40000000) space_vm.

Lemma cow_vm_run (Q : () → vm pmm_state → Prop) :
  wp (share_page space_root 0x40000000) Q space_vm → Q tt cow_vm.
Proof.
  unfold cow_vm. intros H. apply (run_wp (share_page space_root 0x40000000) Q space_vm tt) in H.
  by destruct (result (share_page space_root 0x40000000) space_vm tt).
Qed.
#[global] Opaque cow_vm.

Lemma cow_vm_ok : root_ok cow_vm space_root ∧ vm_cr3 cow_vm = space_root.
Proof.
  refine (cow_vm_run _ (share_page_ok space_vm space_root 0x40000000 (proj1 space_vm_ok) _)).
  vm_compute. discriminate.
Qed.

Lemma cow_vm_current : vmm_current_pml4 cow_vm = space_root.
Proof.
  unfold vmm_current_pml4. rewrite (proj2 cow_vm_ok). apply frame_page_aligned.
  apply (pt_tables _ _ _ (proj2 (proj1 cow_vm_ok)) []); [constructor|simpl; lia|reflexivity].
Qed.

Lemma cow_vm_user e : cow_fault cow_vm 0x40000abc 7 e → user_frame cow_vm 0x40000abc e.
Proof.
  intros (_ & _ & Hl & _). unfold user_frame. rewrite cow_vm_current in *.
  assert (e = 0x118000 .| VMM_PRESENT .| VMM_USER .| VMM_COW) as ->.
  { revert Hl. vm_compute. by intros [= <-]. }
  split_and!; vm_compute; congruence.
Qed.

Lemma vmm_handle_page_fault_correct_witness :
  fa_rc (vm_pmm cow_vm) 0x118000 = 2 ∧
  let v' := run (vmm_handle_page_fault 0x40000abc 7) cow_vm in
  root_ok v' space_root ∧ vmm_get_physical (vm_mem v') space_root 0x40000abc = 0x11babc.
Proof.
  split; [vm_compute; reflexivity|]. cbv zeta.
  pose proof (run_wp _ _ _ false (vmm_handle_page_fault_correct cow_vm 0x40000abc 7
    (eq_ind_r (root_ok cow_vm) (proj1 cow_vm_ok) cow_vm_current) ltac:(lia) cow_vm_user)) as H.
  cbv beta in H.
  assert (result (vmm_handle_page_fault 0x40000abc 7) cow_vm false = true) as E by (vm_compute; reflexivity).
  rewrite E in H. destruct H as (e & f' & _ & Hok & _ & Ht & _).
  rewrite cow_vm_current in Hok, Ht. split; [exact Hok|].
  vm_compute. reflexivity.
Defined.
