(* ===== verification/Heap.v ===== *)
(** * Kernel heap ([kernel/mm/heap.c]): the model

    Slab allocator for objects of up to 1024 bytes, whole pages above.  The heap
    works on kernel virtual addresses: [h_mem] holds the bytes at the addresses
    the heap has mapped (a new page starts with whatever it held), [h_vm] the
    page tables and the frame allocator it calls. *)

From Stdlib Require Import ZArith Lia.
From S2P Require Import Prelude Memory Frames Vmm.
Import StringC.

Definition SLAB_CLASSES : Z := 7.
Definition SLAB_MIN_SIZE : Z := 16.
Definition SLAB_MAX_SIZE : Z := 1024.
Definition slab_obj_sizes : list Z := [16; 32; 64; 128; 256; 512; 1024].
Definition obj_size_of (cls : Z) : Z := default 0 (slab_obj_sizes !! Z.to_nat cls).

Definition SLAB_HDR_SIZE : Z := 64.
Definition SLAB_MAGIC : Z := 0xA110C8ED.
Definition LARGE_CANARY : Z := 0xFEEDFACEDEADBEEF.

(** Addresses of the fields of a [slab_t]. *)
Definition s_magic (s : Z) : Z := s.
Definition s_obj_size (s : Z) : Z := s + 4.
Definition s_free_count (s : Z) : Z := s + 8.
Definition s_total_count (s : Z) : Z := s + 10.
Definition s_free_list (s : Z) : Z := s + 16.
Definition s_next (s : Z) : Z := s + 24.
Definition s_prev (s : Z) : Z := s + 32.

Definition write16 := write_le 2.

Record heap (S : Type) := Heap {
  h_vm : vm S;
  h_mem : mem;
  slab_heads : array;
  heap_alloc_count : Z;
  heap_free_count : Z;
  heap_slab_pages : Z;
  heap_large_pages : Z;
}.
Arguments Heap {S}.
Arguments h_vm {S}.
Arguments h_mem {S}.
Arguments slab_heads {S}.
Arguments heap_alloc_count {S}.
Arguments heap_free_count {S}.
Arguments heap_slab_pages {S}.
Arguments heap_large_pages {S}.

Fixpoint class_scan (sizes : list Z) (i sz : Z) : Z :=
  match sizes with
  | [] => -1
  | c :: sizes' => if sz <=? c then i else class_scan sizes' (i + 1) sz
  end.
Definition size_to_class (sz : Z) : Z := class_scan slab_obj_sizes 0 sz.

(** [ptr & ~(PAGE_SIZE - 1)] *)
Definition slab_of (ptr : Z) : Z := ptr .& ~64 (PAGE_SIZE - 1).

(** [while (s && s->free_count == 0) s = s->next;] *)
Fixpoint find_slab (fuel : nat) (m : mem) (s : Z) : option Z :=
  match fuel with
  | O => None
  | S f => if negb (s =? 0) && (read16 m (s_free_count s) =? 0)
           then find_slab f m (read64 m (s_next s)) else Some s
  end.

Section Heap.
Context {S : Type} `{FA : FrameAllocator S}.

Definition set_vm (v : vm S) (h : heap S) : heap S :=
  Heap v (h_mem h) (slab_heads h) (heap_alloc_count h) (heap_free_count h) (heap_slab_pages h)
    (heap_large_pages h).
Definition set_hmem (m : mem) (h : heap S) : heap S :=
  Heap (h_vm h) m (slab_heads h) (heap_alloc_count h) (heap_free_count h) (heap_slab_pages h)
    (heap_large_pages h).
Definition set_head (cls s : Z) (h : heap S) : heap S :=
  Heap (h_vm h) (h_mem h) (arr_set (slab_heads h) cls s) (heap_alloc_count h) (heap_free_count h)
    (heap_slab_pages h) (heap_large_pages h).
Definition count_alloc (h : heap S) : heap S :=
  Heap (h_vm h) (h_mem h) (slab_heads h) (u64 (heap_alloc_count h + 1)) (heap_free_count h)
    (heap_slab_pages h) (heap_large_pages h).
Definition count_free (h : heap S) : heap S :=
  Heap (h_vm h) (h_mem h) (slab_heads h) (heap_alloc_count h) (u64 (heap_free_count h + 1))
    (heap_slab_pages h) (heap_large_pages h).
Definition count_slab (h : heap S) : heap S :=
  Heap (h_vm h) (h_mem h) (slab_heads h) (heap_alloc_count h) (heap_free_count h)
    (u64 (heap_slab_pages h + 1)) (heap_large_pages h).
Definition add_large (n : Z) (h : heap S) : heap S :=
  Heap (h_vm h) (h_mem h) (slab_heads h) (heap_alloc_count h) (heap_free_count h)
    (heap_slab_pages h) (u64 (heap_large_pages h + n)).

Definition on_vm {A} (c : M (vm S) A) : M (heap S) A := zoom h_vm set_vm c.
Definition hmod (f : mem → mem) : M (heap S) () := modify (λ h, set_hmem (f (h_mem h)) h).
Definition hget {A} (f : mem → A) : M (heap S) A := gets (λ h, f (h_mem h)).

(** The header and the free list written into a new slab page; the [prev] store
    of kmalloc's prepend is there. *)
Definition format_slab (s obj_size total : Z) (m : mem) : mem :=
  let m := write32 m (s_magic s) SLAB_MAGIC in
  let m := write32 m (s_obj_size s) obj_size in
  let m := write16 m (s_free_count s) (u16 total) in
  let m := write16 m (s_total_count s) (u16 total) in
  let m := write64 m (s_next s) 0 in
  let m := write64 m (s_prev s) 0 in
  let base := s + SLAB_HDR_SIZE in
  let m := write64 m (s_free_list s) base in
  let m := for_range 0 (total - 1) (λ i m,
             write64 m (base + i * obj_size) (base + (i + 1) * obj_size)) m in
  write64 m (base + (total - 1) * obj_size) 0.

Definition slab_alloc_page (cls : Z) : M (heap S) Z :=
  phys ← on_vm alloc_frame;
  if phys =? PMM_ALLOC_FAILED then mret 0
  else
    virt ← on_vm (vmm_alloc_kernel PAGE_SIZE);
    cur ← gets (λ h, vmm_current_pml4 (h_vm h));
    rc ← on_vm (vmm_map_page cur virt phys VMM_WRITE);
    if negb (rc =? 0) then on_vm (free_frame phys);; mret 0
    else
      let obj_size := obj_size_of cls in
      let total := (PAGE_SIZE - SLAB_HDR_SIZE) / obj_size in
      hmod (format_slab virt obj_size total);;
      modify count_slab;;
      mret virt.

Definition heap_init : M (heap S) () :=
  modify (λ h, Heap (h_vm h) (h_mem h) (arr_fill 0) 0 0 0 0).

(** The pages of a large allocation; [true] is the early return. *)
Definition map_large_page (virt i : Z) : M (heap S) bool :=
  phys ← on_vm alloc_frame;
  if phys =? PMM_ALLOC_FAILED then mret true
  else
    cur ← gets (λ h, vmm_current_pml4 (h_vm h));
    rc ← on_vm (vmm_map_page cur (u64 (virt + i * PAGE_SIZE)) phys VMM_WRITE);
    if negb (rc =? 0) then on_vm (free_frame phys);; mret true
    else mret false.

Definition kmalloc_slab (fuel : nat) (cls : Z) : M (heap S) Z :=
  head ← gets (λ h, arr_get (slab_heads h) cls);
  found ← hget (λ m, find_slab fuel m head);
  match found with
  | None => no_fuel
  | Some s0 =>
      s ← (if s0 =? 0 then
             s ← slab_alloc_page cls;
             if s =? 0 then mret 0
             else
               old ← gets (λ h, arr_get (slab_heads h) cls);
               hmod (λ m, write64 m (s_next s) old);;
               (if negb (old =? 0) then hmod (λ m, write64 m (s_prev old) s) else mret ());;
               modify (set_head cls s);;
               mret s
           else mret s0);
      if s =? 0 then mret 0
      else
        obj ← hget (λ m, read64 m (s_free_list s));
        hmod (λ m, write64 m (s_free_list s) (read64 m obj));;
        hmod (λ m, write16 m (s_free_count s) (u16 (read16 m (s_free_count s) - 1)));;
        modify count_alloc;;
        mret obj
  end.

Definition kmalloc_large (size : Z) : M (heap S) Z :=
  let total := u64 (size + 16) in
  let pages := ALIGN_UP total PAGE_SIZE / PAGE_SIZE in
  virt ← on_vm (vmm_alloc_kernel (u64 (pages * PAGE_SIZE)));
  failed ← for_anyM (Z.to_nat pages) 0 (map_large_page virt);
  if failed : bool then mret 0
  else
    hmod (λ m, write64 m virt pages);;
    hmod (λ m, write64 m (virt + 8) LARGE_CANARY);;
    modify (add_large pages);;
    modify count_alloc;;
    mret (u64 (virt + 16)).

Definition kmalloc (fuel : nat) (size : Z) : M (heap S) Z :=
  if size =? 0 then mret 0
  else
    let size := if size <? SLAB_MIN_SIZE then SLAB_MIN_SIZE else size in
    let cls := size_to_class (u32 size) in
    if 0 <=? cls then kmalloc_slab fuel cls else kmalloc_large size.

Definition kzalloc (fuel : nat) (size : Z) : M (heap S) Z :=
  p ← kmalloc fuel size;
  (if negb (p =? 0) then hmod (λ m, memset m p 0 size) else mret ());;
  mret p.

Definition free_large_page (virt i : Z) : M (heap S) () :=
  cur ← gets (λ h, vmm_current_pml4 (h_vm h));
  phys ← gets (λ h, vmm_get_physical (vm_mem (h_vm h)) cur (u64 (virt + i * PAGE_SIZE)));
  (if negb (phys =? PMM_ALLOC_FAILED) then on_vm (free_frame phys) else mret ());;
  on_vm (vmm_unmap_page cur (u64 (virt + i * PAGE_SIZE))).

Definition kfree (ptr : Z) : M (heap S) () :=
  if ptr =? 0 then mret ()
  else
    let s := slab_of ptr in
    magic ← hget (λ m, read32 m (s_magic s));
    if magic =? SLAB_MAGIC then
      KASSERT (s + SLAB_HDR_SIZE <=? ptr) "ptr >= s + SLAB_HDR_SIZE";;
      hmod (λ m, write64 m ptr (read64 m (s_free_list s)));;
      hmod (λ m, write64 m (s_free_list s) ptr);;
      hmod (λ m, write16 m (s_free_count s) (u16 (read16 m (s_free_count s) + 1)));;
      modify count_free
    else
      let hdr := u64 (ptr - 16) in
      canary ← hget (λ m, read64 m (hdr + 8));
      KASSERT (canary =? LARGE_CANARY) "hdr[1] == canary";;
      pages ← hget (λ m, read64 m hdr);
      for_rangeM 0 pages (free_large_page hdr);;
      modify (add_large (- pages));;
      modify count_free.

Definition krealloc (fuel : nat) (ptr new_size : Z) : M (heap S) Z :=
  if ptr =? 0 then kmalloc fuel new_size
  else if new_size =? 0 then kfree ptr;; mret 0
  else
    let s := slab_of ptr in
    old_size ← hget (λ m, if read32 m (s_magic s) =? SLAB_MAGIC then read32 m (s_obj_size s)
                          else u64 (read64 m (u64 (ptr - 16)) * PAGE_SIZE - 16));
    if new_size <=? old_size then mret ptr
    else
      np ← kmalloc fuel new_size;
      if np =? 0 then mret 0
      else
        hmod (λ m, memcpy m np ptr old_size);;
        kfree ptr;;
        mret np.

End Heap.
