(* ===== verification/HeapInv.v ===== *)
(** * Kernel heap: the slab invariant

    A slab page as a list of free objects, the per-class lists of slabs, and what
    taking and returning an object does to them. *)

From Stdlib Require Import ZArith Lia.
From S2P Require Import Prelude Memory Frames Vmm VmmInv VmmOps Heap.
Import StringC.

#[local] Transparent read64 write64.
#[local] Arguments read_le : simpl never.
#[local] Arguments write_le : simpl never.

(** Words at addresses that do not overlap. *)
Ltac words :=
  unfold read16, read32, read64, write16, write32, write64,
    s_magic, s_obj_size, s_free_count, s_total_count, s_free_list, s_next, s_prev, SLAB_HDR_SIZE in *;
  repeat (rewrite read_write_le_ne by (simpl; lia)).

Definition total_of (cls : Z) : Z := (PAGE_SIZE - SLAB_HDR_SIZE) / obj_size_of cls.
Definition valid_class (cls : Z) : Prop := 0 <= cls < SLAB_CLASSES.

(** ** Sizes *)

Lemma class_cases cls : valid_class cls →
  (cls = 0 ∨ cls = 1 ∨ cls = 2 ∨ cls = 3 ∨ cls = 4 ∨ cls = 5 ∨ cls = 6).
Proof. unfold valid_class, SLAB_CLASSES. lia. Qed.

Ltac by_class H :=
  apply class_cases in H; repeat (destruct H as [->|H]); [..|subst].

(** An object size: a multiple of 16, at least one fits, all within the page. *)
Lemma class_facts cls : valid_class cls →
  16 <= obj_size_of cls <= 1024 ∧ obj_size_of cls mod 16 = 0 ∧
  1 <= total_of cls <= 252 ∧ 64 + total_of cls * obj_size_of cls <= PAGE_SIZE.
Proof. intros H. by_class H; vm_compute; repeat split; discriminate. Qed.

Lemma size_to_class_spec sz :
  (sz <= 1024 → valid_class (size_to_class sz) ∧ sz <= obj_size_of (size_to_class sz) ∧
     ∀ c, valid_class c → sz <= obj_size_of c → size_to_class sz <= c) ∧
  (1024 < sz → size_to_class sz = -1).
Proof.
  unfold size_to_class. simpl. split; intros Hs.
  - repeat case_if; (split; [unfold valid_class, SLAB_CLASSES; lia|]);
      (split; [unfold obj_size_of; simpl; lia|]);
      intros c Hc Hfit; by_class Hc; unfold obj_size_of in Hfit; simpl in Hfit; lia.
  - by rewrite !(proj2 (Z.leb_gt _ _)) by lia.
Qed.

(** ** Objects of a slab page *)

Definition is_obj (p cls a : Z) : Prop :=
  ∃ k, 0 <= k < total_of cls ∧ a = p + SLAB_HDR_SIZE + k * obj_size_of cls.

Definition all_objs (p cls : Z) : list Z :=
  (λ k : nat, p + SLAB_HDR_SIZE + Z.of_nat k * obj_size_of cls) <$> seq 0 (Z.to_nat (total_of cls)).

Lemma elem_of_all_objs p cls a : valid_class cls → a ∈ all_objs p cls ↔ is_obj p cls a.
Proof.
  intros H. pose proof (class_facts cls H). unfold all_objs, is_obj.
  rewrite list_elem_of_fmap. split.
  - intros (k & -> & Hk%elem_of_seq). exists (Z.of_nat k). split; [lia|done].
  - intros (k & Hk & ->). exists (Z.to_nat k). rewrite elem_of_seq. split; [f_equal; lia|lia].
Qed.

Lemma length_all_objs p cls : valid_class cls → len (all_objs p cls) = total_of cls.
Proof.
  intros H. pose proof (class_facts cls H). unfold all_objs. rewrite length_fmap, length_seq. lia.
Qed.

Lemma NoDup_all_objs p cls : valid_class cls → NoDup (all_objs p cls).
Proof.
  intros H. pose proof (class_facts cls H). apply NoDup_fmap_2; [|apply NoDup_seq].
  intros x y Hxy. nia.
Qed.

(** An object lies inside its page, after the header. *)
Lemma is_obj_range p cls a : valid_class cls → is_obj p cls a →
  p + 64 <= a ∧ a + obj_size_of cls <= p + PAGE_SIZE.
Proof.
  intros H (k & Hk & ->). pose proof (class_facts cls H). unfold SLAB_HDR_SIZE.
  split; [nia|]. assert ((k + 1) * obj_size_of cls <= total_of cls * obj_size_of cls) by nia. lia.
Qed.

Lemma is_obj_spaced p cls a b : valid_class cls → is_obj p cls a → is_obj p cls b → a ≠ b →
  a + obj_size_of cls <= b ∨ b + obj_size_of cls <= a.
Proof.
  intros H (k & Hk & ->) (j & Hj & ->) Hne. pose proof (class_facts cls H).
  assert (k ≠ j) by congruence. destruct (decide (k < j)); [left|right]; nia.
Qed.

(** ** One slab *)

Fixpoint chain (m : mem) (a : Z) (objs : list Z) : Prop :=
  match objs with
  | [] => a = 0
  | o :: objs' => a = o ∧ chain m (read64 m o) objs'
  end.

Record slab_ok (m : mem) (cls p : Z) (fl : list Z) : Prop := {
  sl_magic : read32 m (s_magic p) = SLAB_MAGIC;
  sl_size : read32 m (s_obj_size p) = obj_size_of cls;
  sl_count : read16 m (s_free_count p) = len fl;
  sl_chain : chain m (read64 m (s_free_list p)) fl;
  sl_nodup : NoDup fl;
  sl_objs : Forall (is_obj p cls) fl;
}.

Lemma slab_ok_bound m cls p fl : valid_class cls → slab_ok m cls p fl → len fl <= total_of cls.
Proof.
  intros H [_ _ _ _ Hnd Ho]. rewrite <- (length_all_objs p cls H).
  apply inj_le, submseteq_length, NoDup_submseteq; [done|].
  intros a Ha. apply elem_of_all_objs; [done|]. by eapply Forall_forall in Ho.
Qed.

Lemma chain_ext m m' a objs :
  (∀ o, o ∈ objs → read64 m' o = read64 m o) → chain m a objs → chain m' a objs.
Proof.
  revert a; induction objs as [|o objs IH]; simpl; intros a H Hc; [done|].
  destruct Hc as [-> Hc]. split; [done|]. rewrite H by (by left).
  apply IH; [|done]. intros o' Ho'. apply H. by right.
Qed.

(** A slab depends on its own page only, its list links apart. *)
Lemma slab_ok_ext m m' cls p fl :
  valid_class cls →
  (∀ b, page_range p b → ¬ (p + 24 <= b < p + 64) → read8 m' b = read8 m b) →
  slab_ok m cls p fl → slab_ok m' cls p fl.
Proof.
  intros Hc H [H1 H2 H3 H4 H5 H6]. pose proof (class_facts cls Hc) as (Hsz & _).
  unfold page_range, PAGE_SIZE in H.
  assert (∀ n a, p <= a → a + Z.of_nat n <= p + 24 ∨ (p + 64 <= a ∧ a + Z.of_nat n <= p + 4096) →
    read_le n m' a = read_le n m a) as Hr.
  { intros n a Ha Hn. apply read_le_ext. intros b Hb. apply H; lia. }
  constructor; [..|done|done]; unfold read16, read32, read64, s_magic, s_obj_size, s_free_count,
    s_free_list in *; try (by rewrite Hr by (simpl; lia)).
  rewrite Hr by (simpl; lia).
  apply (chain_ext m); [|done]. intros o Ho. eapply Forall_forall in H6; [|done].
  apply is_obj_range in H6; [|done]. unfold PAGE_SIZE in H6. apply (Hr 8%nat); simpl; lia.
Qed.

(** ** Taking and returning an object *)

Definition take_obj (m : mem) (p : Z) : mem :=
  let o := read64 m (s_free_list p) in
  let m := write64 m (s_free_list p) (read64 m o) in
  write16 m (s_free_count p) (u16 (read16 m (s_free_count p) - 1)).

Definition give_obj (m : mem) (p o : Z) : mem :=
  let m := write64 m o (read64 m (s_free_list p)) in
  let m := write64 m (s_free_list p) o in
  write16 m (s_free_count p) (u16 (read16 m (s_free_count p) + 1)).

Lemma take_obj_other m p b :
  ¬ (p + 8 <= b < p + 24) → read8 (take_obj m p) b = read8 m b.
Proof.
  intros Hb. unfold take_obj, write16, write64, s_free_list, s_free_count.
  rewrite !write_le_other by (simpl; lia). done.
Qed.

Lemma give_obj_other m p o b :
  ¬ (p + 8 <= b < p + 24) → ¬ (o <= b < o + 8) → read8 (give_obj m p o) b = read8 m b.
Proof.
  intros Hb Ho. unfold give_obj, write16, write64, s_free_list, s_free_count.
  rewrite !write_le_other by (simpl; lia). done.
Qed.

Lemma read16_write16_eq m a v : 0 <= v < 2^16 → read16 (write16 m a v) a = v.
Proof. apply (read_write_le_eq 2). Qed.
Lemma read32_write32_eq m a v : 0 <= v < 2^32 → read32 (write32 m a v) a = v.
Proof. apply (read_write_le_eq 4). Qed.

Lemma slab_take m cls p o fl :
  valid_class cls → slab_ok m cls p (o :: fl) →
  read64 m (s_free_list p) = o ∧ slab_ok (take_obj m p) cls p fl.
Proof.
  intros Hc S. pose proof (class_facts cls Hc) as (Hsz & _ & Htot & _).
  pose proof (slab_ok_bound _ _ _ _ Hc S) as Hb. simpl in Hb.
  destruct S as [H1 H2 H3 [H4 H4'] [H5 H5']%NoDup_cons [H6 H6']%Forall_cons].
  split; [done|]. pose proof (is_obj_range _ _ _ Hc H6) as Ho.
  assert (∀ q, q ∈ fl → p + 64 <= q) as Hq.
  { intros q Hq. eapply Forall_forall in H6'; [|done]. apply is_obj_range in H6'; [lia|done]. }
  unfold take_obj. rewrite H4. constructor; [..|done|done].
  - words. done.
  - words. done.
  - rewrite read16_write16_eq by apply u16_range. words. rewrite H3. simpl.
    rewrite u16_small by lia. lia.
  - assert (read64 (write16 (write64 m (s_free_list p) (read64 m o)) (s_free_count p)
      (u16 (read16 (write64 m (s_free_list p) (read64 m o)) (s_free_count p) - 1))) (s_free_list p)
      = read64 m o) as ->.
    { words. apply (read_write_le_eq 8), (read_le_range 8). }
    apply (chain_ext m); [|done]. intros q Hqf. specialize (Hq q Hqf). by words.
Qed.

Lemma slab_give m cls p o fl :
  valid_class cls → slab_ok m cls p fl → is_obj p cls o → o ∉ fl → 0 <= o < 2^64 →
  slab_ok (give_obj m p o) cls p (o :: fl).
Proof.
  intros Hc S Hobj Hnew Ho64. pose proof (class_facts cls Hc) as (Hsz & _ & Htot & _).
  pose proof (slab_ok_bound _ _ _ _ Hc S) as Hb.
  destruct S as [H1 H2 H3 H4 H5 H6]. pose proof (is_obj_range _ _ _ Hc Hobj) as Ho.
  assert (∀ q, q ∈ fl → p + 64 <= q ∧ (q + 8 <= o ∨ o + 8 <= q)) as Hq.
  { intros q Hq. eapply Forall_forall in H6; [|done]. split; [apply is_obj_range in H6; [lia|done]|].
    assert (q ≠ o) by congruence. destruct (is_obj_spaced p cls q o); try done; lia. }
  constructor; [..|by constructor|by constructor].
  - unfold give_obj. words. done.
  - unfold give_obj. words. done.
  - unfold give_obj. rewrite read16_write16_eq by apply u16_range. words. rewrite H3. simpl.
    rewrite u16_small by lia. lia.
  - assert (read64 (give_obj m p o) (s_free_list p) = o) as ->.
    { unfold give_obj. words. by apply (read_write_le_eq 8). }
    split; [done|].
    assert (read64 (give_obj m p o) o = read64 m (s_free_list p)) as ->.
    { unfold give_obj. words. apply (read_write_le_eq 8), (read_le_range 8). }
    apply (chain_ext m); [|done]. intros q Hqf. specialize (Hq q Hqf).
    unfold give_obj. by words.
Qed.

(** ** A new slab *)

Section Format.
Context (cls s : Z) (m : mem).
Context (Hc : valid_class cls) (Hs : 0 <= s) (Hmax : s + PAGE_SIZE <= 2^64).
Abbreviation size := (obj_size_of cls).
Abbreviation total := (total_of cls).

Abbreviation obj k := (s + SLAB_HDR_SIZE + k * size).

(** The free list as the links between consecutive slots. *)
Lemma chain_objs m' (n k : nat) :
  Z.of_nat k + Z.of_nat n = total →
  (∀ j, 0 <= j < total → read64 m' (obj j) = if j =? total - 1 then 0 else obj (j + 1)) →
  chain m' (if Z.of_nat n =? 0 then 0 else obj (Z.of_nat k))
    ((λ i : nat, obj (Z.of_nat i)) <$> seq k n).
Proof.
  revert k; induction n as [|n IH]; intros k Hk Hlink; [done|].
  cbn [seq fmap list_fmap chain]. rewrite (proj2 (Z.eqb_neq _ 0)) by lia. split; [done|].
  rewrite Hlink by lia. specialize (IH (S k) ltac:(lia) Hlink).
  destruct (Z.eqb_spec (Z.of_nat k) (total - 1)).
  - destruct n; [done|lia].
  - rewrite (proj2 (Z.eqb_neq (Z.of_nat n) 0)) in IH by lia.
    by replace (Z.of_nat (S k)) with (Z.of_nat k + 1) in IH by lia.
Qed.

Lemma obj_in_page k : 0 <= k < total → s + 64 <= obj k ∧ obj k + size <= s + PAGE_SIZE.
Proof. intros Hk. apply (is_obj_range s cls); [done|]. by exists k. Qed.

Lemma obj_spaced k j : 0 <= k < total → 0 <= j < total → k ≠ j →
  obj k + size <= obj j ∨ obj j + size <= obj k.
Proof.
  intros Hk Hj Hne. pose proof (class_facts cls Hc) as (Hsz & _).
  apply (is_obj_spaced s cls); [done|by exists k|by exists j|]. nia.
Qed.

(** The loop and the last store: every slot links to the next. *)
Lemma format_links m0 :
  let m' := write64 (for_range 0 (total - 1) (λ i m, write64 m (obj i) (obj (i + 1))) m0)
              (obj (total - 1)) 0 in
  (∀ b, ¬ (s + 64 <= b < s + PAGE_SIZE) → read8 m' b = read8 m0 b) ∧
  (∀ j, 0 <= j < total → read64 m' (obj j) = if j =? total - 1 then 0 else obj (j + 1)).
Proof.
  pose proof (class_facts cls Hc) as (Hsz & _ & Htot & _).
  set (m1 := for_range 0 (total - 1) (λ i m, write64 m (obj i) (obj (i + 1))) m0).
  assert ((∀ b, ¬ (s + 64 <= b < s + PAGE_SIZE) → read8 m1 b = read8 m0 b) ∧
    (∀ j, 0 <= j < total - 1 → read64 m1 (obj j) = obj (j + 1))) as [Hout Hlink].
  { unfold m1. apply (for_range_ind (λ i m,
      (∀ b, ¬ (s + 64 <= b < s + PAGE_SIZE) → read8 m b = read8 m0 b) ∧
      (∀ j, 0 <= j < i → read64 m (obj j) = obj (j + 1)))); [lia|by split; [|lia]|].
    intros i mi Hi [Ho Hl]. pose proof (obj_in_page i ltac:(lia)) as Hr. split.
    - intros b Hb. rewrite <- Ho by done. apply (write_le_other 8). simpl. lia.
    - intros j Hj. destruct (decide (j = i)) as [->|].
      + apply read64_write64_eq. pose proof (obj_in_page (i + 1) ltac:(lia)).
        unfold PAGE_SIZE in *. lia.
      + rewrite read64_write64_ne; [apply Hl; lia|].
        destruct (obj_spaced j i); lia. }
  cbv zeta. pose proof (obj_in_page (total - 1) ltac:(lia)) as Hr. split.
  - intros b Hb. rewrite <- Hout by done. apply (write_le_other 8). simpl. lia.
  - intros j Hj. destruct (Z.eqb_spec j (total - 1)) as [->|Hne].
    + by apply read64_write64_eq.
    + rewrite read64_write64_ne; [apply Hlink; lia|].
      destruct (obj_spaced j (total - 1)); lia.
Qed.

Lemma format_slab_ok : slab_ok (format_slab s size total m) cls s (all_objs s cls).
Proof.
  pose proof (class_facts cls Hc) as (Hsz & _ & Htot & Hfit).
  unfold format_slab.
  match goal with |- context [for_range 0 _ _ ?x] => set (m0 := x) end.
  pose proof (format_links m0) as [Hout Hlink].
  set (m' := write64 _ (obj (total - 1)) 0) in *.
  assert (∀ n a, s <= a → a + Z.of_nat n <= s + 64 → read_le n m' a = read_le n m0 a) as Hhdr.
  { intros n a Ha Hn. apply read_le_ext. intros b Hb. apply Hout. lia. }
  constructor.
  - unfold read32. rewrite Hhdr by (unfold s_magic; simpl; lia). subst m0. words.
    by apply (read_write_le_eq 4).
  - unfold read32. rewrite Hhdr by (unfold s_obj_size; simpl; lia). subst m0. words.
    apply (read_write_le_eq 4). simpl. lia.
  - unfold read16. rewrite Hhdr by (unfold s_free_count; simpl; lia). subst m0. words.
    rewrite (read_write_le_eq 2) by apply u16_range.
    rewrite length_all_objs by done. apply u16_small. lia.
  - assert (read64 m' (s_free_list s) = obj 0) as ->.
    { unfold read64. rewrite Hhdr by (unfold s_free_list; simpl; lia). subst m0. words.
      rewrite (read_write_le_eq 8); [lia|]. unfold PAGE_SIZE in *. simpl. lia. }
    pose proof (chain_objs m' (Z.to_nat total) 0 ltac:(lia) Hlink) as Hch.
    rewrite (proj2 (Z.eqb_neq _ 0)) in Hch by lia. exact Hch.
  - by apply NoDup_all_objs.
  - apply Forall_forall. intros a Ha. by apply elem_of_all_objs in Ha.
Qed.

Lemma format_slab_other b :
  ¬ page_range s b → read8 (format_slab s size total m) b = read8 m b.
Proof.
  intros Hb. unfold format_slab.
  match goal with |- context [for_range 0 _ _ ?x] => pose proof (format_links x) as [Hout _] end.
  unfold page_range, PAGE_SIZE in *. rewrite Hout by lia.
  unfold write16, write32, write64, s_magic, s_obj_size, s_free_count, s_total_count, s_free_list,
    s_next, s_prev. by rewrite !write_le_other by (simpl; lia).
Qed.

End Format.

(** ** The lists of slabs *)

Fixpoint seg (m : mem) (a : Z) (ps : list Z) : Prop :=
  match ps with
  | [] => a = 0
  | p :: ps' => a = p ∧ seg m (read64 m (s_next p)) ps'
  end.

Lemma seg_ext m m' a ps :
  (∀ p, p ∈ ps → read64 m' (s_next p) = read64 m (s_next p)) → seg m a ps → seg m' a ps.
Proof.
  revert a; induction ps as [|p ps IH]; simpl; intros a H Hs; [done|].
  destruct Hs as [-> Hs]. split; [done|]. rewrite H by (by left).
  apply IH; [|done]. intros q Hq. apply H. by right.
Qed.

Lemma find_slab_spec fuel m a (l : list (Z * list Z)) :
  (length l < fuel)%nat → seg m a l.*1 →
  (∀ p fl, (p, fl) ∈ l → 0 < p ∧ read16 m (s_free_count p) = len fl) →
  (find_slab fuel m a = Some 0 ∧ ∀ p fl, (p, fl) ∈ l → fl = []) ∨
  (∃ l1 p o fl l2, l = l1 ++ (p, o :: fl) :: l2 ∧ find_slab fuel m a = Some p).
Proof.
  revert a fuel; induction l as [|[p fl] l IH]; intros a [|fuel] Hf Hs Hl; simpl in Hf; try lia.
  - simpl in Hs. subst. left. split; [done|]. by intros p fl ?%elem_of_nil.
  - simpl in Hs. destruct Hs as [-> Hs]. destruct (Hl p fl) as [Hp Hcnt]; [by left|]. simpl.
    rewrite (proj2 (Z.eqb_neq p 0)), Hcnt by lia. destruct fl as [|o fl]; simpl.
    + destruct (IH (read64 m (s_next p)) fuel) as [[-> Hnil]|(l1 & p' & o & fl & l2 & -> & ->)].
      * lia.
      * done.
      * intros q fq Hq. apply Hl. by right.
      * left. split; [done|]. intros q fq [[= -> ->]|Hq]%elem_of_cons; [done|by eapply Hnil].
      * right. by exists ((p, []) :: l1), p', o, fl, l2.
    + right. by exists [], p, o, fl, l.
Qed.

(** ** The whole heap *)

Definition ghost := Z → list (Z * list Z).

Section HeapInv.
Context {S : Type} `{FA : FrameAllocator S}.
Implicit Types h : heap S.

Abbreviation next_of h := (kheap_next (h_vm h)).

Record heap_ok (h : heap S) (G : ghost) : Prop := {
  hk_root : root_ok (h_vm h) (vmm_current_pml4 (h_vm h));
  hk_next : next_of h mod PAGE_SIZE = 0 ∧ 0 < next_of h <= 2^64 - PAGE_SIZE;
  hk_seg cls : valid_class cls → seg (h_mem h) (arr_get (slab_heads h) cls) (G cls).*1;
  hk_slab cls p fl : valid_class cls → (p, fl) ∈ G cls → slab_ok (h_mem h) cls p fl;
  hk_page cls p fl : valid_class cls → (p, fl) ∈ G cls →
    p mod PAGE_SIZE = 0 ∧ 0 < p ∧ p + PAGE_SIZE <= next_of h;
  hk_nodup cls : valid_class cls → NoDup (G cls).*1;
  hk_class cls cls' p fl fl' : valid_class cls → valid_class cls' →
    (p, fl) ∈ G cls → (p, fl') ∈ G cls' → cls = cls';
}.

(** An object handed out and not returned yet. *)
Definition live (G : ghost) (cls a : Z) : Prop :=
  valid_class cls ∧ ∃ p fl, (p, fl) ∈ G cls ∧ is_obj p cls a ∧ a ∉ fl.

Definition free_slot (G : ghost) (cls a : Z) : Prop :=
  valid_class cls ∧ ∃ p fl, (p, fl) ∈ G cls ∧ a ∈ fl.

Lemma pages_disjoint p q b :
  p mod PAGE_SIZE = 0 → q mod PAGE_SIZE = 0 → page_range p b → page_range q b → p = q.
Proof.
  unfold page_range, PAGE_SIZE. intros Hp Hq ? ?.
  pose proof (Z.div_mod p 4096). pose proof (Z.div_mod q 4096). lia.
Qed.

(** The same page occurs once, with one free list. *)
Lemma ghost_unique h G cls cls' p fl fl' :
  heap_ok h G → valid_class cls → valid_class cls' → (p, fl) ∈ G cls → (p, fl') ∈ G cls' →
  cls = cls' ∧ fl = fl'.
Proof.
  intros K Hc Hc' H H'. assert (cls = cls') as -> by (by eapply hk_class). split; [done|].
  pose proof (hk_nodup _ _ K cls' Hc') as Hnd.
  apply list_elem_of_lookup_1 in H as [i Hi]. apply list_elem_of_lookup_1 in H' as [j Hj].
  assert (i = j) as ->; [|congruence].
  eapply NoDup_lookup; [exact Hnd|by rewrite list_lookup_fmap, Hi|by rewrite list_lookup_fmap, Hj].
Qed.

Definition gset_class (G : ghost) (cls : Z) (l : list (Z * list Z)) : ghost :=
  λ c, if c =? cls then l else G c.

Lemma gset_same G cls l : gset_class G cls l cls = l.
Proof. unfold gset_class. by rewrite Z.eqb_refl. Qed.

Lemma gset_other G cls l c : c ≠ cls → gset_class G cls l c = G c.
Proof. intros H. unfold gset_class. by rewrite (proj2 (Z.eqb_neq _ _)). Qed.

(** Replacing the free list of one slab. *)
Section OnePage.
Context (h : heap S) (G : ghost) (cls p : Z) (fl fl' : list Z) (l1 l2 : list (Z * list Z)).
Context (K : heap_ok h G) (Hc : valid_class cls) (HG : G cls = l1 ++ (p, fl) :: l2).
Abbreviation G' := (gset_class G cls (l1 ++ (p, fl') :: l2)).

Lemma one_page_in : (p, fl) ∈ G cls.
Proof. rewrite HG. apply elem_of_app. right. by left. Qed.

Lemma one_page_fst c : (G' c).*1 = (G c).*1.
Proof.
  destruct (decide (c = cls)) as [->|]; [|by rewrite gset_other].
  rewrite gset_same, HG, !fmap_app. done.
Qed.

Lemma one_page_elem c q fq : valid_class c →
  (q, fq) ∈ G' c ↔ (c = cls ∧ q = p ∧ fq = fl') ∨ (q ≠ p ∧ (q, fq) ∈ G c).
Proof.
  intros Hvc. pose proof one_page_in as Hin. split.
  - intros Hq. destruct (decide (c = cls)) as [->|Hne].
    + rewrite gset_same in Hq. apply elem_of_app in Hq.
      pose proof (hk_nodup _ _ K cls Hc) as Hnd. rewrite HG, fmap_app in Hnd. simpl in Hnd.
      apply NoDup_app in Hnd as (_ & Hd1 & [Hd2 _]%NoDup_cons).
      destruct Hq as [Hq|[[= -> ->]|Hq]%elem_of_cons].
      * right. split; [|rewrite HG; set_solver]. intros ->. apply (Hd1 p); [|by left].
        by apply (list_elem_of_fmap_2 fst l1 (p, fq)).
      * by left.
      * right. split; [|rewrite HG; set_solver]. intros ->. apply Hd2.
        by apply (list_elem_of_fmap_2 fst l2 (p, fq)).
    + rewrite gset_other in Hq by done. right. split; [|done]. intros ->.
      destruct Hne. by eapply hk_class.
  - intros [(-> & -> & ->)|[Hne Hq]].
    + rewrite gset_same. set_solver.
    + destruct (decide (c = cls)) as [->|]; [|by rewrite gset_other].
      rewrite gset_same. rewrite HG in Hq. set_solver.
Qed.

Lemma one_page_ok m' :
  slab_ok m' cls p fl' → read64 m' (s_next p) = read64 (h_mem h) (s_next p) →
  (∀ b, ¬ page_range p b → read8 m' b = read8 (h_mem h) b) → heap_ok (set_hmem m' h) G'.
Proof.
  intros Hs Hnext Hout. pose proof one_page_in as Hin.
  destruct (hk_page _ _ K cls p fl Hc Hin) as (Hpm & Hp0 & Hpn).
  assert (∀ q c fq, valid_class c → (q, fq) ∈ G c → q ≠ p → ∀ b, page_range q b →
    read8 m' b = read8 (h_mem h) b) as Hq.
  { intros q c fq Hvc Hq Hne b Hb. apply Hout. intros Hb'.
    destruct (hk_page _ _ K c q fq Hvc Hq) as (Hqm & _). by destruct Hne; eapply pages_disjoint. }
  constructor; simpl.
  - apply K.
  - apply K.
  - intros c Hvc. rewrite one_page_fst. eapply seg_ext; [|by apply K].
    intros q ([q' fq] & -> & Hqin)%list_elem_of_fmap. simpl.
    destruct (decide (q' = p)) as [->|Hne]; [done|].
    apply (read_le_ext 8). intros b Hb. apply (Hq q' c fq); try done.
    unfold page_range, s_next, PAGE_SIZE in *. simpl in Hb. lia.
  - intros c q fq Hvc Hel. apply one_page_elem in Hel as [(-> & -> & ->)|[Hne Hqin]]; [done| |done].
    eapply slab_ok_ext; [done| |by apply K]. intros b Hb _. by apply (Hq q c fq).
  - intros c q fq Hvc Hel. apply one_page_elem in Hel as [(-> & -> & ->)|[Hne Hqin]]; [done| |done].
    by apply (hk_page _ _ K c q fq).
  - intros c Hvc. rewrite one_page_fst. by apply K.
  - intros c c' q fq fq' Hvc Hvc' H1 H2.
    apply one_page_elem in H1; [|done]. apply one_page_elem in H2; [|done].
    destruct H1 as [(-> & -> & ->)|[Hne Hqin]], H2 as [(-> & Hx & ->)|[Hne' Hqin']]; try done.
    by eapply hk_class.
Qed.

Lemma one_page_live c a :
  live G' c a ↔
    (c = cls ∧ is_obj p cls a ∧ a ∉ fl') ∨ (live G c a ∧ ¬ (c = cls ∧ is_obj p cls a)).
Proof.
  pose proof one_page_in as Hin. unfold live. split.
  - intros (Hvc & q & fq & Hel & Hq & Hna).
    apply one_page_elem in Hel as [(-> & -> & ->)|[Hne Hqin]]; [by left| |done]. right. split.
    + split; [done|]. by exists q, fq.
    + intros [-> Hobj]. destruct Hne.
      destruct (hk_page _ _ K cls q fq Hc Hqin) as (Hqm & _), (hk_page _ _ K cls p fl Hc Hin) as (Hpm & _).
      apply is_obj_range in Hq, Hobj; [|done..]. pose proof (class_facts cls Hc) as (Hsz & _).
      apply (pages_disjoint q p a); [done|done|unfold page_range; lia..].
  - intros [(-> & Hobj & Hna)|[(Hvc & q & fq & Hel & Hq & Hna) Hno]].
    + split; [done|]. exists p, fl'. split_and!; [|done..].
      apply one_page_elem; [done|]. by left.
    + split; [done|]. exists q, fq. split_and!; [|done..]. apply one_page_elem; [done|]. right.
      split; [|done]. intros ->. apply Hno. assert (c = cls) as -> by (by eapply hk_class). done.
Qed.

End OnePage.

(** The page of an object. *)
Lemma slab_of_obj h G cls p fl a :
  heap_ok h G → valid_class cls → (p, fl) ∈ G cls → is_obj p cls a → slab_of a = p ∧ 0 < a < 2^64.
Proof.
  intros K Hc Hin Hobj. destruct (hk_page _ _ K cls p fl Hc Hin) as (Hpm & Hp0 & Hpn).
  destruct (hk_next _ _ K) as [_ Hn]. apply is_obj_range in Hobj; [|done].
  pose proof (class_facts cls Hc) as (Hsz & _). unfold slab_of, PAGE_SIZE in *.
  change (4096 - 1) with (2^12 - 1). rewrite land_lnot_low by lia. change (2^12) with 4096.
  pose proof (Z.div_mod p 4096). split; [|lia].
  assert (a / 4096 = p / 4096) as ->; [|lia].
  symmetry. apply (Z.div_unique _ _ _ (a - p)); lia.
Qed.

(** Live objects do not overlap, nor do they overlap slab headers or free slots. *)
Lemma live_disjoint h G c1 c2 a1 a2 :
  heap_ok h G → live G c1 a1 → live G c2 a2 →
  (c1, a1) = (c2, a2) ∨ a1 + obj_size_of c1 <= a2 ∨ a2 + obj_size_of c2 <= a1.
Proof.
  intros K (Hc1 & p1 & f1 & Hin1 & Ho1 & Hn1) (Hc2 & p2 & f2 & Hin2 & Ho2 & Hn2).
  destruct (hk_page _ _ K _ _ _ Hc1 Hin1) as (Hm1 & _), (hk_page _ _ K _ _ _ Hc2 Hin2) as (Hm2 & _).
  destruct (decide (p1 = p2)) as [->|Hne].
  - destruct (ghost_unique h G c1 c2 p2 f1 f2) as [-> ->]; try done.
    destruct (decide (a1 = a2)) as [->|]; [by left|right]. by apply (is_obj_spaced p2).
  - right. apply is_obj_range in Ho1, Ho2; [|done..].
    pose proof (class_facts c1 Hc1) as (Hs1 & _). pose proof (class_facts c2 Hc2) as (Hs2 & _).
    unfold PAGE_SIZE in *. pose proof (Z.div_mod p1 4096). pose proof (Z.div_mod p2 4096). lia.
Qed.

End HeapInv.
