(* ===== verification/HeapProps.v ===== *)
(** * Kernel heap: theorems *)

From Stdlib Require Import ZArith Lia.
From S2P Require Import Prelude Memory Frames Pmm PmmInv Vmm VmmInv VmmOps VmmProps Heap HeapInv.
Import StringC.

Section HeapProps.
Context {S : Type} `{FA : FrameAllocator S}.
Implicit Types h : heap S.

Abbreviation next_of h := (kheap_next (h_vm h)).

(** The bytes of every live object, but the one given, are what they were. *)
Definition live_kept (G : ghost) (skip : Z) (m m' : mem) : Prop :=
  ∀ c x b, live G c x → x ≠ skip → x <= b < x + obj_size_of c → read8 m' b = read8 m b.

(** A store inside the header of a slab, or inside a slot that is not live. *)
Lemma live_kept_header h G p fl cls (P : Z → Prop) m' skip :
  heap_ok h G → valid_class cls → (p, fl) ∈ G cls →
  (∀ b, ¬ (p <= b < p + 64) → ¬ P b → read8 m' b = read8 (h_mem h) b) →
  (∀ c x b, live G c x → x ≠ skip → x <= b < x + obj_size_of c → ¬ P b) →
  live_kept G skip (h_mem h) m'.
Proof.
  intros K Hc Hin Hout HP c x b Hl Hne Hb. apply Hout; [|by eapply HP].
  destruct Hl as (Hvc & q & fq & Hq & Ho & _). apply is_obj_range in Ho; [|done].
  destruct (hk_page _ _ K c q fq Hvc Hq) as (Hqm & _), (hk_page _ _ K cls p fl Hc Hin) as (Hpm & _).
  pose proof (class_facts c Hvc) as (Hsz & _). unfold PAGE_SIZE in *.
  pose proof (Z.div_mod p 4096). pose proof (Z.div_mod q 4096). lia.
Qed.

(** ** kfree *)

Lemma kfree_slab h G cls a :
  heap_ok h G → live G cls a →
  wp (kfree a) (λ _ h', ∃ G', heap_ok h' G' ∧ next_of h' = next_of h ∧
    (∀ c x, live G' c x ↔ live G c x ∧ (c, x) ≠ (cls, a)) ∧
    live_kept G a (h_mem h) (h_mem h') ∧ free_slot G' cls a) h.
Proof.
  intros K Hl. pose proof Hl as (Hc & p & fl & Hin & Hobj & Hna).
  destruct (slab_of_obj h G cls p fl a K Hc Hin Hobj) as [Hsl Ha64].
  pose proof (is_obj_range _ _ _ Hc Hobj) as Hr. pose proof (class_facts cls Hc) as (Hsz & _).
  pose proof (hk_slab _ _ K cls p fl Hc Hin) as Hs.
  pose proof (slab_give _ _ _ _ _ Hc Hs Hobj Hna ltac:(lia)) as Hs'.
  apply list_elem_of_split in Hin as Hsp. destruct Hsp as (l1 & l2 & HG).
  unfold kfree, hget, hmod. rewrite (proj2 (Z.eqb_neq a 0)), Hsl by lia.
  repeat wp_step. rewrite (sl_magic _ _ _ _ Hs), Z.eqb_refl.
  apply wp_bind, wp_KASSERT; [unfold SLAB_HDR_SIZE; apply Z.leb_le; lia|]. repeat wp_step.
  set (m' := give_obj (h_mem h) p a).
  exists (gset_class G cls (l1 ++ (p, a :: fl) :: l2)).
  assert (∀ b, ¬ (p + 8 <= b < p + 24) → ¬ (a <= b < a + 8) → read8 m' b = read8 (h_mem h) b) as Hout.
  { intros b. apply give_obj_other. }
  assert (heap_ok (set_hmem m' h) (gset_class G cls (l1 ++ (p, a :: fl) :: l2))) as K'.
  { eapply one_page_ok; try done.
    - apply (read_le_ext 8). intros b Hb. apply Hout; unfold s_next in Hb; simpl in Hb; lia.
    - intros b Hb. apply Hout; unfold page_range, PAGE_SIZE in *; lia. }
  split_and!.
  - destruct K'. by constructor.
  - done.
  - intros c x. rewrite (one_page_live h G cls p fl (a :: fl) l1 l2 K Hc HG c x). split.
    + intros [(-> & Hx & Hnx)|[Hx Hno]].
      * apply not_elem_of_cons in Hnx as [Hxa Hnx]. split; [|congruence].
        split; [done|]. by exists p, fl.
      * split; [done|]. intros [= -> ->]. by apply Hno.
    + intros [Hx Hne]. destruct Hx as (Hvc & q & fq & Hq & Hxo & Hnx).
      destruct (decide (q = p)) as [->|Hqp].
      * destruct (ghost_unique h G c cls p fq fl) as [-> ->]; try done.
        left. split_and!; [done..|]. apply not_elem_of_cons. split; [congruence|done].
      * right. split; [by split; [done|exists q, fq]|]. intros [-> Hxp].
        destruct (hk_page _ _ K _ _ _ Hc Hq) as (Hqm & _), (hk_page _ _ K _ _ _ Hc Hin) as (Hpm & _).
        apply is_obj_range in Hxo, Hxp; [|done..]. destruct Hqp.
        apply (pages_disjoint q p x); [done|done|unfold page_range; lia..].
  - eapply (live_kept_header h G p fl cls (λ b, a <= b < a + 8)); try done.
    + intros b Hb Hb'. apply Hout; lia.
    + intros c x b Hx Hne Hb Hb'. destruct (live_disjoint h G c cls x a K Hx Hl) as [[= -> ->]|?]; [done|].
      lia.
  - split; [done|]. exists p, (a :: fl). split; [|by left]. rewrite gset_same. set_solver.
Qed.

(** ** Taking an object *)

Lemma take_step h G cls l1 p o fl l2 :
  heap_ok h G → valid_class cls → G cls = l1 ++ (p, o :: fl) :: l2 →
  let m' := take_obj (h_mem h) p in
  let G' := gset_class G cls (l1 ++ (p, fl) :: l2) in
  read64 (h_mem h) (s_free_list p) = o ∧ heap_ok (set_hmem m' h) G' ∧
  is_obj p cls o ∧ 0 < o < 2^64 ∧ (∀ c, ¬ live G c o) ∧
  (∀ c x, live G' c x ↔ live G c x ∨ (c, x) = (cls, o)) ∧
  live_kept G 0 (h_mem h) m'.
Proof.
  intros K Hc HG. cbv zeta.
  assert ((p, o :: fl) ∈ G cls) as Hin by (rewrite HG; set_solver).
  pose proof (hk_slab _ _ K cls p _ Hc Hin) as Hs.
  destruct (slab_take _ _ _ _ _ Hc Hs) as [Hfl Hs'].
  pose proof (sl_objs _ _ _ _ Hs) as [Hobj _]%Forall_cons.
  pose proof (sl_nodup _ _ _ _ Hs) as [Hno _]%NoDup_cons.
  destruct (slab_of_obj h G cls p _ o K Hc Hin Hobj) as [_ Ho64].
  assert (∀ c x q fq, valid_class c → (q, fq) ∈ G c → is_obj q c x → is_obj p cls x → c = cls ∧ q = p)
    as Huniq.
  { intros c x q fq Hvc Hq Hx Hx'.
    destruct (hk_page _ _ K _ _ _ Hvc Hq) as (Hqm & _), (hk_page _ _ K _ _ _ Hc Hin) as (Hpm & _).
    apply is_obj_range in Hx, Hx'; [|done..]. pose proof (class_facts c Hvc) as (? & _).
    pose proof (class_facts cls Hc) as (? & _).
    assert (q = p) as -> by (apply (pages_disjoint q p x); [done|done|unfold page_range; lia..]).
    split; [by eapply hk_class|done]. }
  split_and!; [done| |done|lia|lia| | |].
  - eapply one_page_ok; try done.
    + apply (read_le_ext 8). intros b Hb. apply take_obj_other. unfold s_next in Hb. simpl in Hb. lia.
    + intros b Hb. apply take_obj_other. unfold page_range, PAGE_SIZE in *. lia.
  - intros c (Hvc & q & fq & Hq & Hx & Hnx).
    destruct (Huniq c o q fq) as [-> ->]; try done.
    destruct (ghost_unique h G cls cls p fq (o :: fl)) as [_ ->]; try done. apply Hnx. by left.
  - intros c x. rewrite (one_page_live h G cls p (o :: fl) fl l1 l2 K Hc HG c x). split.
    + intros [(-> & Hx & Hnx)|[Hx _]]; [|by left].
      destruct (decide (x = o)) as [->|Hne]; [by right|left].
      split; [done|]. exists p, (o :: fl). split_and!; [done..|]. by apply not_elem_of_cons.
    + intros [(Hvc & q & fq & Hq & Hx & Hnx)|[= -> ->]]; [|left; by split_and!].
      destruct (decide (q = p)) as [->|Hqp].
      * destruct (ghost_unique h G c cls p fq (o :: fl)) as [-> ->]; try done.
        left. split_and!; [done..|]. by apply not_elem_of_cons in Hnx as [_ ?].
      * right. split; [by split; [done|exists q, fq]|]. intros [-> Hxp].
        by destruct (Huniq cls x q fq).
  - eapply (live_kept_header h G p (o :: fl) cls (λ _, False)); try done.
    + intros b Hb _. apply take_obj_other. lia.
    + by intros c x b _ _ _ ?.
Qed.

(** ** A new slab page *)

Lemma alloc_kernel_page (v : vm S) :
  kheap_next v mod PAGE_SIZE = 0 → 0 <= kheap_next v → kheap_next v + PAGE_SIZE < 2^64 →
  vmm_alloc_kernel PAGE_SIZE v =
    Ret (kheap_next v, set_kheap_next (kheap_next v + PAGE_SIZE) v).
Proof.
  intros Hm H0 Hlt. unfold vmm_alloc_kernel, gets, modify, mbind, M_bind, mret, M_ret. simpl.
  change (ALIGN_UP PAGE_SIZE PAGE_SIZE) with PAGE_SIZE.
  by rewrite u64_small by (unfold PAGE_SIZE in *; lia).
Qed.

(** Either a page was mapped at the next heap address and formatted, or nothing
    but the page tables (and the address cursor) changed. *)
Lemma slab_alloc_page_spec h cls :
  valid_class cls → root_ok (h_vm h) (vmm_current_pml4 (h_vm h)) →
  next_of h mod PAGE_SIZE = 0 → 0 < next_of h → next_of h + PAGE_SIZE < 2^64 →
  wp (slab_alloc_page cls) (λ s h',
    root_ok (h_vm h') (vmm_current_pml4 (h_vm h')) ∧ slab_heads h' = slab_heads h ∧
    ((s = 0 ∧ h_mem h' = h_mem h ∧
      (next_of h' = next_of h ∨ next_of h' = next_of h + PAGE_SIZE)) ∨
     (s = next_of h ∧ next_of h' = next_of h + PAGE_SIZE ∧
      h_mem h' = format_slab s (obj_size_of cls) (total_of cls) (h_mem h)))) h.
Proof.
  intros Hc Hok Hm H0 Hlt. pose proof Hok as [Hfa Hwf].
  unfold slab_alloc_page, on_vm, alloc_frame, free_frame, on_pmm.
  repeat wp_step. eapply wp_mono; [by apply fa_alloc_spec|].
  intros n s1 [(-> & -> & _)|(Hn & Hn0 & Hfa1 & Hrc1 & _)].
  { rewrite Z.eqb_refl. apply wp_ret. split_and!; [done|done|]. left. simpl. auto. }
  rewrite (proj2 (Z.eqb_neq _ _)) by (by apply is_frame_not_failed).
  destruct (root_ok_alloc _ _ _ _ Hok Hn Hn0 Hfa1 Hrc1) as [Hok1 Hno].
  apply wp_bind, wp_zoom. eapply wp_eq; [apply alloc_kernel_page; [done|simpl; lia|done]|].
  repeat wp_step. simpl.
  set (r := vmm_current_pml4 (h_vm h)).
  set (v1 := set_kheap_next (kheap_next (h_vm h) + PAGE_SIZE) (set_pmm s1 (h_vm h))).
  change (vmm_current_pml4 v1) with r.
  eapply wp_mono; [apply map_page_steps; exact Hok1|].
  assert (0 < fa_rc (vm_pmm v1) n) as Hn1 by (simpl; rewrite Hrc1, Z.eqb_refl; lia).
  intros res v2 [(-> & G & _)|(-> & v1' & pt & G & Hw & _ & ->)]; simpl.
  - destruct (grows_held _ _ _ _ n G Hn1 Hno) as [Hrcn Hno2].
    pose proof (grows_ok _ _ _ _ G) as Hok2.
    repeat wp_step. simpl. eapply wp_mono.
    { apply fa_free_spec; [apply Hok2|destruct Hn; lia|]. simpl. rewrite Hrcn. exact Hn1. }
    intros [] s3 (Hfa3 & Hrc3 & _). apply wp_ret. simpl.
    assert (vmm_current_pml4 (set_pmm s3 v2) = r) as Hcur.
    { unfold r, vmm_current_pml4. simpl. by rewrite (grows_cr3 _ _ _ _ G). }
    split_and!; [rewrite Hcur; by eapply root_ok_free|done|].
    left. split_and!; [done|done|right]. apply (grows_kheap _ _ _ _ G).
  - repeat wp_step. simpl.
    assert (vmm_current_pml4 v1' = r) as Hcur.
    { unfold r, vmm_current_pml4. by rewrite (grows_cr3 _ _ _ _ G). }
    split_and!.
    + match goal with |- root_ok ?w _ => change (root_ok w (vmm_current_pml4 v1')) end.
      rewrite Hcur. split; [apply (grows_ok _ _ _ _ G)|].
      exact (leaf_store_wf v1' _ _ pt _ (grows_ok _ _ _ _ G) Hw (leaf_entry_range _ _) _ eq_refl).
    + done.
    + right. split_and!; [done|apply (grows_kheap _ _ _ _ G)|done].
Qed.

(** ** Linking a new slab in front of its class *)

Definition prepend (m : mem) (cls s old : Z) : mem :=
  let m := write64 (format_slab s (obj_size_of cls) (total_of cls) m) (s_next s) old in
  if negb (old =? 0) then write64 m (s_prev old) s else m.

Section Prepend.
Context (h h' : heap S) (G : ghost) (cls : Z).
Context (K : heap_ok h G) (Hc : valid_class cls) (Hroom : next_of h + 2 * PAGE_SIZE <= 2^64).
Abbreviation s := (next_of h).
Abbreviation old := (arr_get (slab_heads h) cls).
Abbreviation G1 := (gset_class G cls ((s, all_objs s cls) :: G cls)).
Context (Hroot : root_ok (h_vm h') (vmm_current_pml4 (h_vm h'))) (Hnext : next_of h' = s + PAGE_SIZE)
  (Hheads : slab_heads h' = arr_set (slab_heads h) cls s)
  (Hmem : h_mem h' = prepend (h_mem h) cls s old).

Lemma new_page_facts : s mod PAGE_SIZE = 0 ∧ 0 < s ∧ s + PAGE_SIZE <= 2^64.
Proof. destruct (hk_next _ _ K) as [? ?]. unfold PAGE_SIZE in *. lia. Qed.

(** The first slab of the class, if there is one. *)
Lemma old_head : old = 0 ∨ ∃ fl l, G cls = (old, fl) :: l.
Proof.
  pose proof (hk_seg _ _ K cls Hc) as Hs. destruct (G cls) as [|[p fl] l]; simpl in Hs; [by left|].
  destruct Hs as [-> _]. right. by exists fl, l.
Qed.

(** Outside the new page only the [prev] link of the old first slab changed. *)
Lemma prepend_other b :
  ¬ page_range s b → ¬ (old ≠ 0 ∧ old + 32 <= b < old + 40) →
  read8 (h_mem h') b = read8 (h_mem h) b.
Proof.
  intros Hb Hp. destruct new_page_facts as (? & ? & ?). rewrite Hmem. unfold prepend.
  assert (read8 (write64 (format_slab s (obj_size_of cls) (total_of cls) (h_mem h)) (s_next s) old) b
    = read8 (h_mem h) b) as Hw.
  { rewrite read8_write64_ne by (unfold s_next, page_range, PAGE_SIZE in *; lia).
    apply format_slab_other; [done|lia|done..]. }
  destruct (Z.eqb_spec old 0); simpl; [done|].
  rewrite read8_write64_ne by (unfold s_prev; lia). done.
Qed.

Lemma old_page : old = 0 ∨ (old mod PAGE_SIZE = 0 ∧ 0 < old ∧ old + PAGE_SIZE <= s).
Proof.
  destruct old_head as [?|(fl & l & HG)]; [by left|right].
  apply (hk_page _ _ K cls old fl Hc). rewrite HG. by left.
Qed.

Lemma prepend_page :
  slab_ok (h_mem h') cls s (all_objs s cls) ∧ read64 (h_mem h') (s_next s) = old.
Proof.
  destruct new_page_facts as (Hsm & Hs0 & Hs64).
  pose proof old_page as Hop.
  assert (0 <= old < 2^64) as Ho64 by (unfold PAGE_SIZE in *; lia).
  pose proof (format_slab_ok cls s (h_mem h) Hc ltac:(lia) Hs64) as Hf.
  rewrite Hmem. unfold prepend.
  set (m1 := format_slab s (obj_size_of cls) (total_of cls) (h_mem h)) in *.
  assert (slab_ok (write64 m1 (s_next s) old) cls s (all_objs s cls)) as Hm2.
  { eapply slab_ok_ext; [done| |exact Hf]. intros b Hb Hb'. apply read8_write64_ne.
    unfold s_next. lia. }
  assert (read64 (write64 m1 (s_next s) old) (s_next s) = old) as Hn2 by (by apply read64_write64_eq).
  destruct (Z.eqb_spec old 0) as [|Hne]; simpl; [done|].
  destruct Hop as [|(? & ? & ?)]; [done|]. split.
  - eapply slab_ok_ext; [done| |exact Hm2]. intros b Hb Hb'. apply read8_write64_ne.
    unfold s_prev, page_range, PAGE_SIZE in *. lia.
  - rewrite read64_write64_ne; [done|]. unfold s_prev, s_next, PAGE_SIZE in *. lia.
Qed.

Lemma old_slab c p fl : valid_class c → (p, fl) ∈ G c →
  slab_ok (h_mem h') c p fl ∧ read64 (h_mem h') (s_next p) = read64 (h_mem h) (s_next p).
Proof.
  intros Hvc Hin. destruct (hk_page _ _ K c p fl Hvc Hin) as (Hpm & Hp0 & Hpn).
  destruct new_page_facts as (Hsm & Hs0 & Hs64). pose proof old_page as Hop.
  assert (∀ b, page_range p b → ¬ (p + 32 <= b < p + 40) → read8 (h_mem h') b = read8 (h_mem h) b) as Hb.
  { intros b Hb Hb'. apply prepend_other.
    - unfold page_range, PAGE_SIZE in *. lia.
    - intros [Hne Hb'']. destruct Hop as [|(Hom & _)]; [done|].
      assert (p = old) as -> by
        (apply (pages_disjoint p old b); [done|done|done|unfold page_range, PAGE_SIZE; lia]). lia. }
  split.
  - eapply slab_ok_ext; [done| |by apply K]. intros b Hpb Hnb. apply Hb; [done|lia].
  - apply (read_le_ext 8). intros b Hbb. unfold s_next in Hbb. simpl in Hbb.
    apply Hb; unfold page_range, PAGE_SIZE; lia.
Qed.

Lemma prepend_ok : heap_ok h' G1.
Proof.
  destruct new_page_facts as (Hsm & Hs0 & Hs64). destruct (hk_next _ _ K) as [_ Hn].
  destruct prepend_page as [Hslab Hlink].
  assert (∀ c fl, valid_class c → (s, fl) ∉ G c) as Hfresh.
  { intros c fl Hvc Hin. destruct (hk_page _ _ K c s fl Hvc Hin). unfold PAGE_SIZE in *. lia. }
  assert (∀ c p fl, (p, fl) ∈ G1 c → (c = cls ∧ p = s ∧ fl = all_objs s cls) ∨ (p, fl) ∈ G c) as Hel.
  { intros c p fl. destruct (decide (c = cls)) as [->|]; [|rewrite gset_other by done; by right].
    rewrite gset_same. intros [[= -> ->]|?]%elem_of_cons; [by left|by right]. }
  constructor.
  - done.
  - rewrite Hnext. unfold PAGE_SIZE in *. pose proof (Z.div_mod s 4096). 
    rewrite Z.add_mod, Hsm by lia. split; [done|lia].
  - intros c Hvc. rewrite Hheads, arr_get_set.
    assert (seg (h_mem h') (arr_get (slab_heads h) c) (G c).*1) as Hseg.
    { eapply seg_ext; [|by apply K]. intros q ([q' fq] & -> & Hq)%list_elem_of_fmap. simpl.
      by apply (old_slab c q' fq). }
    destruct (Z.eqb_spec cls c) as [<-|]; [|by rewrite gset_other].
    rewrite gset_same. simpl. split; [done|]. by rewrite Hlink.
  - intros c p fl Hvc [(-> & -> & ->)|Hin]%Hel; [done|]. by apply old_slab.
  - intros c p fl Hvc [(-> & -> & ->)|Hin]%Hel; rewrite Hnext; [lia|].
    destruct (hk_page _ _ K c p fl Hvc Hin) as (? & ? & ?). unfold PAGE_SIZE in *. lia.
  - intros c Hvc. destruct (decide (c = cls)) as [->|]; [|rewrite gset_other by done; by apply K].
    rewrite gset_same. simpl. apply NoDup_cons. split; [|by apply K].
    intros ([q fq] & Hq & Hin)%list_elem_of_fmap. simpl in Hq. subst. by apply (Hfresh cls fq).
  - intros c c' p fl fl' Hvc Hvc' H1 H2. apply Hel in H1, H2.
    destruct H1 as [(-> & -> & ->)|H1], H2 as [(-> & Hx & ->)|H2]; subst; try done.
    + by destruct (Hfresh c' fl').
    + by destruct (Hfresh c fl).
    + by eapply hk_class.
Qed.

(** Nothing of the new slab is live, and live objects keep their bytes. *)
Lemma prepend_live : (∀ c x, live G1 c x ↔ live G c x) ∧ live_kept G 0 (h_mem h) (h_mem h').
Proof.
  destruct new_page_facts as (Hsm & Hs0 & Hs64). split.
  - intros c x. unfold live. split.
    + intros (Hvc & p & fl & Hin & Hx & Hnx). split; [done|].
      destruct (decide (c = cls)) as [->|]; [|rewrite gset_other in Hin by done; by exists p, fl].
      rewrite gset_same in Hin. apply elem_of_cons in Hin as [[= -> ->]|Hin]; [|by exists p, fl].
      exfalso. apply Hnx. by apply elem_of_all_objs.
    + intros (Hvc & p & fl & Hin & Hx & Hnx). split; [done|]. exists p, fl. split_and!; [|done..].
      destruct (decide (c = cls)) as [->|]; [rewrite gset_same; by right|by rewrite gset_other].
  - intros c x b (Hvc & p & fl & Hin & Hx & Hnx) _ Hb.
    destruct (hk_page _ _ K c p fl Hvc Hin) as (Hpm & Hp0 & Hpn).
    apply is_obj_range in Hx; [|done]. pose proof (class_facts c Hvc) as (Hsz & _).
    pose proof old_page as Hop. apply prepend_other.
    + unfold page_range, PAGE_SIZE in *. lia.
    + intros [Hne Hb'']. destruct Hop as [|(Hom & _)]; [done|].
      assert (p = old) as -> by
        (apply (pages_disjoint p old b); [done|done|unfold page_range, PAGE_SIZE in *; lia..]). lia.
Qed.

End Prepend.

(** ** kmalloc for sizes with a class *)

Lemma obj_aligned h G cls p fl a :
  heap_ok h G → valid_class cls → (p, fl) ∈ G cls → is_obj p cls a → a mod 16 = 0.
Proof.
  intros K Hc Hin (k & _ & ->). destruct (hk_page _ _ K cls p fl Hc Hin) as (Hpm & _).
  pose proof (class_facts cls Hc) as (_ & Hs & _). unfold PAGE_SIZE, SLAB_HDR_SIZE in *.
  pose proof (Z.div_mod p 4096). pose proof (Z.div_mod (obj_size_of cls) 16).
  replace (p + 64 + k * obj_size_of cls) with
    ((p / 4096 * 256 + 4 + k * (obj_size_of cls / 16)) * 16) by lia.
  apply Z.mod_mul. lia.
Qed.

(** What an allocation from class [cls] promises about its result. *)
Definition alloc_post (h : heap S) (G : ghost) (cls a : Z) (h' : heap S) : Prop :=
  ∃ G', heap_ok h' G' ∧ live_kept G 0 (h_mem h) (h_mem h') ∧
    if a =? 0 then (∀ c x, live G' c x ↔ live G c x) ∧ (∀ x, ¬ free_slot G cls x)
    else a mod 16 = 0 ∧ (∀ c, ¬ live G c a) ∧ (∀ c x, live G' c x ↔ live G c x ∨ (c, x) = (cls, a)).

Lemma live_nonzero h G c x : heap_ok h G → live G c x → x ≠ 0.
Proof.
  intros K (Hc & p & fl & Hin & Ho & _). destruct (slab_of_obj h G c p fl x K Hc Hin Ho). lia.
Qed.

(** The tail of kmalloc_slab once a slab with a free object is known. *)
Lemma take_from_slab h0 h G0 G cls l1 p o fl l2 :
  heap_ok h0 G0 → heap_ok h G → valid_class cls → G cls = l1 ++ (p, o :: fl) :: l2 →
  (∀ c x, live G c x ↔ live G0 c x) → live_kept G0 0 (h_mem h0) (h_mem h) →
  wp (obj ← hget (λ m, read64 m (s_free_list p));
      hmod (λ m, write64 m (s_free_list p) (read64 m obj));;
      hmod (λ m, write16 m (s_free_count p) (u16 (read16 m (s_free_count p) - 1)));;
      modify count_alloc;; mret obj) (alloc_post h0 G0 cls) h.
Proof.
  intros K0 K Hc HG Hlive Hkept.
  assert ((p, o :: fl) ∈ G cls) as Hin by (rewrite HG; set_solver).
  destruct (take_step h G cls l1 p o fl l2 K Hc HG) as (Hfl & K' & Hobj & Ho & Hnl & Hl & Hkept').
  unfold hget, hmod. repeat wp_step. simpl. rewrite Hfl.
  eexists. split_and!; [|..].
  - destruct K'. constructor; unfold take_obj in *; rewrite Hfl in *; done.
  - intros c x b Hx Hne Hb. etransitivity; [|by apply (Hkept c x b)].
    pose proof (Hkept' c x b (proj2 (Hlive c x) Hx) Hne Hb) as Heq.
    unfold take_obj in Heq. rewrite Hfl in Heq. exact Heq.
  - rewrite (proj2 (Z.eqb_neq o 0)) by lia. split_and!.
    + by apply (obj_aligned h G cls p (o :: fl)).
    + intros c Hx. by apply (Hnl c), Hlive.
    + intros c x. rewrite Hl, Hlive. done.
Qed.

Lemma kmalloc_slab_spec h G cls fuel :
  heap_ok h G → valid_class cls → (length (G cls) < fuel)%nat → next_of h + 2 * PAGE_SIZE <= 2^64 →
  wp (kmalloc_slab fuel cls) (alloc_post h G cls) h.
Proof.
  intros K Hc Hfuel Hroom. destruct (hk_next _ _ K) as [Hnm Hnr]. unfold kmalloc_slab.
  wp_steps. apply wp_gets. cbv beta.
  destruct (find_slab_spec fuel (h_mem h) (arr_get (slab_heads h) cls) (G cls) Hfuel)
    as [[-> Hnil]|(l1 & p & o & fl & l2 & HG & ->)].
  { by apply K. }
  { intros p fl Hin. split; [by apply (hk_page _ _ K cls p fl)|].
    apply (sl_count _ cls _ fl). by apply K. }
  - assert (∀ x, ¬ free_slot G cls x) as Hnone.
    { intros x (_ & p & fl & Hin & Hx). rewrite (Hnil p fl Hin) in Hx. by apply elem_of_nil in Hx. }
    rewrite Z.eqb_refl. repeat wp_step.
    eapply wp_mono; [apply slab_alloc_page_spec; [done|apply K|done|lia|unfold PAGE_SIZE in *; lia]|].
    intros s h1 (Hroot & Hheads & [(-> & Hm & Hnext)|(-> & Hnext & Hm)]).
    + rewrite Z.eqb_refl. apply wp_ret. rewrite Z.eqb_refl. apply wp_ret.
      exists G. split_and!; [|by rewrite Hm|done].
      constructor; rewrite ?Hm, ?Hheads; try apply K; [done|..].
      * unfold PAGE_SIZE in *. destruct Hnext as [->| ->]; [lia|].
        rewrite Z.add_mod, Hnm by lia. split; [done|lia].
      * intros c p fl Hvc Hin. destruct (hk_page _ _ K c p fl Hvc Hin) as (? & ? & ?).
        unfold PAGE_SIZE in *. lia.
    + rewrite (proj2 (Z.eqb_neq _ 0)) by lia. unfold hmod at 1 2. repeat wp_step. simpl.
      assert (∀ Q : () → heap S → Prop, Q tt (set_hmem (prepend (h_mem h) cls (next_of h)
          (arr_get (slab_heads h) cls)) h1) →
        wp (if negb (arr_get (slab_heads h1) cls =? 0)
            then modify (λ h, set_hmem (write64 (h_mem h) (s_prev (arr_get (slab_heads h1) cls)) (next_of h1 - PAGE_SIZE)) h)
            else mret ()) Q (set_hmem (write64 (h_mem h1) (s_next (next_of h)) (arr_get (slab_heads h1) cls)) h1))
        as Hlink.
      { intros Q HQ. rewrite Hheads, Hnext, Hm. unfold prepend in HQ.
        replace (next_of h + PAGE_SIZE - PAGE_SIZE) with (next_of h) by lia.
        destruct (negb (arr_get (slab_heads h) cls =? 0)); repeat wp_step; exact HQ. }
      replace (next_of h1 - PAGE_SIZE) with (next_of h) in Hlink by lia.
      apply Hlink. repeat wp_step. rewrite (proj2 (Z.eqb_neq _ 0)) by lia.
      set (h2 := set_head cls (next_of h) (set_hmem (prepend (h_mem h) cls (next_of h)
          (arr_get (slab_heads h) cls)) h1)).
      assert (heap_ok h2 (gset_class G cls ((next_of h, all_objs (next_of h) cls) :: G cls))) as K2.
      { apply (prepend_ok h h2 G cls K Hc Hroom); [done|done|simpl; by rewrite Hheads|done]. }
      destruct (prepend_live h h2 G cls K Hc Hroom) as [Hlive Hkept]; [done|].
      pose proof (class_facts cls Hc) as (_ & _ & Htot & _).
      destruct (all_objs (next_of h) cls) as [|o fl] eqn:Eobjs.
      { pose proof (length_all_objs (next_of h) cls Hc) as Hlen. rewrite Eobjs in Hlen. simpl in Hlen. lia. }
      apply (take_from_slab h h2 G (gset_class G cls ((next_of h, o :: fl) :: G cls)) cls []
        (next_of h) o fl (G cls)); try done. by rewrite gset_same.
  - assert ((p, o :: fl) ∈ G cls) as Hin by (rewrite HG; set_solver).
    destruct (hk_page _ _ K cls p _ Hc Hin) as (_ & Hp0 & _).
    rewrite (proj2 (Z.eqb_neq p 0)) by lia. repeat wp_step. rewrite (proj2 (Z.eqb_neq p 0)) by lia.
    apply (take_from_slab h h G G cls l1 p o fl l2); try done.
Qed.

(** ** Using a live object *)

(** Whatever is stored inside a live object, the heap stays in order. *)
Lemma live_write_ok h G cls a m' :
  heap_ok h G → live G cls a →
  (∀ b, ¬ (a <= b < a + obj_size_of cls) → read8 m' b = read8 (h_mem h) b) →
  heap_ok (set_hmem m' h) G.
Proof.
  intros K (Hc & p & fl & Hin & Hobj & Hna) Hout.
  pose proof (is_obj_range _ _ _ Hc Hobj) as Hr. pose proof (class_facts cls Hc) as (Hsz & _).
  destruct (hk_page _ _ K cls p fl Hc Hin) as (Hpm & Hp0 & Hpn).
  apply list_elem_of_split in Hin as Hsp. destruct Hsp as (l1 & l2 & HG).
  assert (heap_ok (set_hmem m' h) (gset_class G cls (l1 ++ (p, fl) :: l2))) as K'.
  { eapply (one_page_ok h G cls p fl fl l1 l2 K Hc HG).
    - pose proof (hk_slab _ _ K cls p fl Hc Hin) as [H1 H2 H3 H4 H5 H6].
      assert (∀ n x, x + Z.of_nat n <= a ∨ a + obj_size_of cls <= x →
        read_le n m' x = read_le n (h_mem h) x) as Hw.
      { intros n x Hx. apply read_le_ext. intros b Hb. apply Hout. lia. }
      constructor; [..|done|done]; unfold read16, read32, s_magic, s_obj_size, s_free_count in *;
        rewrite ?Hw by (simpl; lia); try done.
      change (read64 m' (s_free_list p)) with (read_le 8 m' (s_free_list p)).
      rewrite Hw by (unfold s_free_list; simpl; lia).
      apply (chain_ext (h_mem h)); [|done]. intros o Ho. eapply Forall_forall in H6; [|done].
      apply (Hw 8%nat). assert (o ≠ a) by congruence.
      destruct (is_obj_spaced p cls o a); try done; simpl; lia.
    - apply (read_le_ext 8). intros b Hb. unfold s_next in Hb. simpl in Hb. apply Hout. lia.
    - intros b Hb. apply Hout. unfold page_range in Hb. lia. }
  assert (∀ c, gset_class G cls (l1 ++ (p, fl) :: l2) c = G c) as HGG.
  { intros c. destruct (decide (c = cls)) as [->|]; [by rewrite gset_same|by rewrite gset_other]. }
  destruct K'. constructor; try done; intros *; rewrite <- ?HGG; eauto.
Qed.

Lemma kmalloc_small h G size fuel :
  let cls := size_to_class (if size <? SLAB_MIN_SIZE then SLAB_MIN_SIZE else size) in
  heap_ok h G → 0 < size <= SLAB_MAX_SIZE → (length (G cls) < fuel)%nat →
  kheap_next (h_vm h) + 2 * PAGE_SIZE <= 2^64 →
  wp (kmalloc fuel size) (λ a h', ∃ G', heap_ok h' G' ∧ live_kept G 0 (h_mem h) (h_mem h') ∧
    if a =? 0 then (∀ c x, live G' c x ↔ live G c x) ∧ (∀ x, ¬ free_slot G cls x)
    else a mod 16 = 0 ∧ size <= obj_size_of cls ∧
      (∀ c x, live G' c x ↔ live G c x ∨ (c, x) = (cls, a)) ∧
      (∀ c x, live G c x → a + obj_size_of cls <= x ∨ x + obj_size_of c <= a)) h.
Proof.
  intros cls K Hsize Hfuel Hroom. unfold kmalloc, SLAB_MAX_SIZE in *.
  rewrite (proj2 (Z.eqb_neq size 0)) by lia.
  set (sz := if size <? SLAB_MIN_SIZE then SLAB_MIN_SIZE else size) in *.
  assert (16 <= sz <= 1024 ∧ size <= sz) as [Hsz Hle].
  { unfold sz, SLAB_MIN_SIZE. case_if; lia. }
  rewrite u32_small by lia. fold cls.
  destruct (size_to_class_spec sz) as [Hcls _]. destruct (Hcls ltac:(lia)) as (Hvc & Hfit & _).
  fold cls in Hvc, Hfit. rewrite (proj2 (Z.leb_le 0 cls)) by (destruct Hvc; done).
  eapply wp_mono; [by apply kmalloc_slab_spec|].
  intros a h' (G' & K' & Hkept & Hpost). exists G'. split_and!; [done..|].
  destruct (Z.eqb_spec a 0) as [|Hne]; [done|]. destruct Hpost as (Hal & Hnl & Hl).
  split_and!; [done|lia|done|]. intros c x Hx.
  destruct (live_disjoint h' G' cls c a x K') as [[= -> ->]|?]; [apply Hl; by right|apply Hl; by left| |done].
  by destruct (Hnl c).
Qed.



(** the size is cut to 32 bits before a class is chosen: a request of
    [k * 2^32 + r] bytes, [0 < r <= 1024], is served like one of [r] bytes. *)
Theorem kmalloc_truncates_size (k r : Z) fuel :
  1 <= k → 0 < r <= SLAB_MAX_SIZE → valid_class (size_to_class r) ∧
  (kmalloc fuel (k * 2^32 + r) : M (heap S) Z) = kmalloc_slab fuel (size_to_class r).
Proof.
  intros Hk Hr. unfold SLAB_MAX_SIZE in Hr.
  destruct (size_to_class_spec r) as [Hcls _]. destruct (Hcls ltac:(lia)) as (Hvc & _ & _).
  split; [done|]. unfold kmalloc. rewrite (proj2 (Z.eqb_neq _ 0)) by lia.
  rewrite (proj2 (Z.ltb_ge _ SLAB_MIN_SIZE)) by (unfold SLAB_MIN_SIZE; lia).
  assert (u32 (k * 2^32 + r) = r) as ->.
  { unfold u32. rewrite Z.add_comm, Z.mod_add, Z.mod_small by lia. done. }
  by rewrite (proj2 (Z.leb_le 0 _)) by (destruct Hvc; done).
Qed.

(** [krealloc] of a live object to 1..1024 bytes returns the object itself when
    its class is large enough; otherwise a new object that starts with the bytes of
    the old one, which is freed; or NULL, and then the old object is untouched. *)
Theorem krealloc_correct h G cls a size fuel :
  let cls' := size_to_class (if size <? SLAB_MIN_SIZE then SLAB_MIN_SIZE else size) in
  heap_ok h G → live G cls a → 0 < size <= SLAB_MAX_SIZE → (length (G cls') < fuel)%nat →
  kheap_next (h_vm h) + 2 * PAGE_SIZE <= 2^64 →
  wp (krealloc fuel a size) (λ p h', ∃ G', heap_ok h' G' ∧ live_kept G a (h_mem h) (h_mem h') ∧
    if size <=? obj_size_of cls then p = a ∧ h' = h
    else if p =? 0 then (∀ c x, live G' c x ↔ live G c x) ∧
      (∀ b, a <= b < a + obj_size_of cls → read8 (h_mem h') b = read8 (h_mem h) b)
    else (∀ c x, live G' c x ↔ (live G c x ∧ (c, x) ≠ (cls, a)) ∨ (c, x) = (cls', p)) ∧
      (∀ i, 0 <= i < obj_size_of cls → read8 (h_mem h') (p + i) = read8 (h_mem h) (a + i))) h.
Proof.
  intros cls' K Hl Hsize Hfuel Hroom. pose proof Hl as (Hc & pg & fl & Hin & Hobj & Hna).
  destruct (slab_of_obj h G cls pg fl a K Hc Hin Hobj) as [Hsl Ha64].
  pose proof (hk_slab _ _ K cls pg fl Hc Hin) as Hs.
  unfold krealloc, hget, hmod. rewrite !(proj2 (Z.eqb_neq _ 0)), Hsl by lia.
  repeat wp_step. rewrite (sl_magic _ _ _ _ Hs), Z.eqb_refl, (sl_size _ _ _ _ Hs).
  destruct (Z.leb_spec size (obj_size_of cls)) as [Hfit|Hfit].
  { apply wp_ret. exists G. split; [done|]. split; [by intros c x b _ _ _|done]. }
  apply wp_bind. eapply wp_mono; [by apply (kmalloc_small h G size fuel)|].
  intros p h1 (G1 & K1 & Hkept1 & Hpost).
  assert (live_kept G a (h_mem h) (h_mem h1)) as Hkept1a.
  { intros c x b Hx _ Hb. apply (Hkept1 c x b); [done|by apply (live_nonzero h G c x)|done]. }
  assert (∀ b, a <= b < a + obj_size_of cls → read8 (h_mem h1) b = read8 (h_mem h) b) as Hold.
  { intros b Hb. apply (Hkept1 cls a b); [done|lia|done]. }
  destruct (Z.eqb_spec p 0) as [->|Hp].
  { apply wp_ret. exists G1. split_and!; [done..|]. simpl. split; [apply Hpost|done]. }
  fold cls' in Hpost. destruct Hpost as (_ & Hfit' & Hl1 & Hdis).
  assert (live G1 cls' p) as Hlp by (apply Hl1; by right).
  assert (live G1 cls a) as Hla by (apply Hl1; by left).
  pose proof (class_facts cls Hc) as (Hsz & _).
  repeat wp_step. set (m2 := memcpy (h_mem h1) p a (obj_size_of cls)).
  assert (∀ b, read8 m2 b = if in_block p (obj_size_of cls) b
    then read8 (h_mem h1) (a + (b - p)) else read8 (h_mem h1) b) as Hm2.
  { intros b. apply read8_memcpy; [lia|]. destruct (Hdis cls a Hl); lia. }
  assert (heap_ok (set_hmem m2 h1) G1) as K2.
  { apply (live_write_ok h1 G1 cls' p); [done|done|]. intros b Hb. rewrite Hm2. block; [lia|done]. }
  eapply wp_mono; [by apply (kfree_slab (set_hmem m2 h1) G1 cls a K2)|].
  intros [] h3 (G3 & K3 & _ & Hl3 & Hkept3 & _). apply wp_ret. exists G3.
  assert (∀ c x, live G c x → x ≠ p) as Hxp.
  { intros c x Hx ->. destruct (Hdis c p Hx) as [?|?]; pose proof (class_facts cls' (proj1 Hlp)) as (? & _);
      pose proof (class_facts c (proj1 Hx)) as (? & _); lia. }
  split_and!; [done| |].
  - intros c x b Hx Hne Hb. rewrite (Hkept3 c x b); [|apply Hl1; by left|done|done]. simpl.
    rewrite Hm2. block; [|by apply (Hkept1a c x b)]. destruct (Hdis c x Hx); lia.
  - rewrite (proj2 (Z.eqb_neq p 0)) by done. split.
    + intros c x. rewrite Hl3, Hl1. split; [naive_solver|].
      intros [[? ?]|[= -> ->]]; [tauto|]. split; [by right|]. intros [= _ ->]. by apply (Hxp cls a).
    + intros i Hi. rewrite (Hkept3 cls' p (p + i)); [|done|intros ->; by apply (Hxp cls a)|lia].
      simpl. rewrite Hm2. block; [|lia]. rewrite Hold by lia. f_equal. lia.
Qed.

End HeapProps.

(** ** Concrete runs *)

(** The heap right after boot: no slab in any class. *)
Definition empty_ghost : ghost := λ _, [].
Definition boot_heap : heap pmm_state := Heap boot_vm (arr_fill 0) (arr_fill 0) 0 0 0 0.

Lemma boot_heap_ok : heap_ok boot_heap empty_ghost.
Proof.
  assert (∀ x : Z * list Z, x ∉ []) as Hno by (intros x; apply not_elem_of_nil).
  constructor; simpl.
  - rewrite boot_vm_current. exact (proj1 boot_vm_booted).
  - split; [vm_compute; reflexivity|split; vm_compute; congruence].
  - intros cls _. reflexivity.
  - intros cls p fl _ H. by destruct (Hno (p, fl)).
  - intros cls p fl _ H. by destruct (Hno (p, fl)).
  - intros cls _. constructor.
  - intros cls cls' p fl fl' _ _ H. by destruct (Hno (p, fl)).
Qed.

Lemma boot_heap_room : kheap_next (h_vm boot_heap) + 2 * PAGE_SIZE <= 2^64.
Proof. vm_compute. congruence. Qed.

(** 24 bytes: the first object of the first 32-byte slab. *)
Definition heap1 : heap pmm_state := run (kmalloc 3 24) boot_heap.
Definition obj1 : Z := result (kmalloc 3 24) boot_heap 0.

Lemma heap1_run (Q : Z → heap pmm_state → Prop) : wp (kmalloc 3 24) Q boot_heap → Q obj1 heap1.
Proof. unfold obj1, heap1. exact (run_wp (kmalloc 3 24) Q boot_heap 0). Qed.
#[global] Opaque obj1 heap1.

Example obj1_address : obj1 = KERNEL_VMA + 0x200000 + 64.
Proof. vm_compute. reflexivity. Qed.

Lemma obj1_nonzero : (obj1 =? 0) = false.
Proof. by rewrite obj1_address. Qed.


Lemma heap1_live : ∃ G', heap_ok heap1 G' ∧ live G' 1 obj1 ∧ kheap_next (h_vm heap1) + 2 * PAGE_SIZE <= 2^64.
Proof.
  pose proof (heap1_run _ (kmalloc_small boot_heap empty_ghost 24 3 boot_heap_ok ltac:(done)
    ltac:(simpl; lia) boot_heap_room)) as (G' & K & _ & H).
  cbv beta in H. rewrite obj1_nonzero in H. destruct H as (Ha & _ & Hl & _).
  exists G'. split; [exact K|]. split; [apply Hl; by right|]. vm_compute. congruence.
Qed.


Lemma kmalloc_truncates_size_witness :
  valid_class (size_to_class 8) ∧
  (kmalloc 3 (1 * 2^32 + 8) : M (heap pmm_state) Z) = kmalloc_slab 3 (size_to_class 8) ∧
  obj_size_of (size_to_class 8) = 16.
Proof.
  destruct (kmalloc_truncates_size (S := pmm_state) 1 8 3) as [H1 H2]; [lia|done|].
  split; [exact H1|]. split; [exact H2|reflexivity].
Defined.

Lemma krealloc_correct_witness :
  ∃ fuel G', heap_ok (run (krealloc fuel obj1 30) heap1) G' ∧
    result (krealloc fuel obj1 30) heap1 0 = obj1.
Proof.
  assert (0 < 30 <= SLAB_MAX_SIZE) as Hs by (unfold SLAB_MAX_SIZE; lia).
  destruct heap1_live as (G & K & Hl & Hroom). exists (Datatypes.S (length (G 1))).
  pose proof (krealloc_correct heap1 G 1 obj1 30 (Datatypes.S (length (G 1))) K Hl) as W.
  change (size_to_class (if 30 <? SLAB_MIN_SIZE then SLAB_MIN_SIZE else 30)) with 1 in W.
  change (30 <=? obj_size_of 1) with true in W. cbv zeta beta iota in W.
  specialize (W Hs (Nat.lt_succ_diag_r (length (G 1))) Hroom).
  apply (run_wp (krealloc (Datatypes.S (length (G 1))) obj1 30) _ heap1 0) in W.
  destruct W as (G' & K' & _ & H & _). exists G'. split; [exact K'|exact H].
Defined.
