(* ===== verification/Kbd.v ===== *)
(** * PS/2 keyboard driver ([drivers/char/ps2kbd.c])

    The scancode decoder (both scancode sets, modifiers, prefixes, set
    inference), the ring buffer between the interrupt handler and the readers,
    and the polling loop.  The controller's ports are a parameter. *)

From Stdlib Require Import ZArith Lia Ascii String.
From S2P Require Import Prelude Memory.
Import StringC.

(** The bytes of a string literal. *)
Fixpoint chars (s : string) : list Z :=
  match s with
  | EmptyString => []
  | String a s' => Z.of_N (N_of_ascii a) :: chars s'
  end.

(** ** Tables *)

Definition sc1_normal_table : list Z :=
  [0; 0] ++ chars "1234567890-=" ++ [8; 9] ++ chars "qwertyuiop[]" ++ [10; 0] ++
  chars "asdfghjkl;'`" ++ [0] ++ chars "\zxcvbnm,./" ++ [0] ++ chars "*" ++ [0] ++ chars " ".
Definition sc1_shifted_table : list Z :=
  [0; 0] ++ chars "!@#$%^&*()_+" ++ [8; 9] ++ chars "QWERTYUIOP{}" ++ [10; 0] ++
  chars "ASDFGHJKL:" ++ [34] ++ chars "~" ++ [0] ++ chars "|ZXCVBNM<>?" ++ [0] ++ chars "*" ++
  [0] ++ chars " ".

(** The designated initialisers, by runs of consecutive keys. *)
Definition sc2_normal_table : list (Z * list Z) :=
  [(0x0D, [9]); (0x0E, chars "`"); (0x15, chars "q1"); (0x1A, chars "zsaw2"); (0x21, chars "cxde43");
   (0x29, chars " vftr5"); (0x31, chars "nbhgy6"); (0x3A, chars "mju78"); (0x41, chars ",kio09");
   (0x49, chars "./l;p-"); (0x52, chars "'"); (0x54, chars "[="); (0x5A, 10 :: chars "]");
   (0x5D, chars "\"); (0x66, [8])].
Definition sc2_shifted_table : list (Z * list Z) :=
  [(0x0D, [9]); (0x0E, chars "~"); (0x15, chars "Q!"); (0x1A, chars "ZSAW@"); (0x21, chars "CXDE$#");
   (0x29, chars " VFTR%"); (0x31, chars "NBHGY^"); (0x3A, chars "MJU&*"); (0x41, chars "<KIO)(");
   (0x49, chars ">?L:P_"); (0x52, [34]); (0x54, chars "{+"); (0x5A, 10 :: chars "}");
   (0x5D, chars "|"); (0x66, [8])].

Fixpoint run_lookup (t : list (Z * list Z)) (key : Z) : Z :=
  match t with
  | [] => 0
  | (base, cs) :: t' =>
      if in_block base (Z.of_nat (length cs)) key then default 0 (cs !! Z.to_nat (key - base))
      else run_lookup t' key
  end.

(** [table[key]] for a key below 128. *)
Definition sc1_normal (key : Z) : Z := default 0 (sc1_normal_table !! Z.to_nat key).
Definition sc1_shifted (key : Z) : Z := default 0 (sc1_shifted_table !! Z.to_nat key).
Definition sc2_normal (key : Z) : Z := run_lookup sc2_normal_table key.
Definition sc2_shifted (key : Z) : Z := run_lookup sc2_shifted_table key.

Definition is_alpha (c : Z) : bool :=
  ((97 <=? c) && (c <=? 122)) || ((65 <=? c) && (c <=? 90)).
Definition is_alnum (c : Z) : bool := is_alpha c || ((48 <=? c) && (c <=? 57)).

Definition is_modifier_set1 (key : Z) : bool :=
  (key =? 0x2A) || (key =? 0x36) || (key =? 0x3A) || (key =? 0x1D) || (key =? 0x38).
Definition is_modifier_set2 (key : Z) : bool :=
  (key =? 0x12) || (key =? 0x59) || (key =? 0x58) || (key =? 0x14) || (key =? 0x11).

(** ** State *)

Definition KBD_BUF_SIZE : Z := 256.

Record kbd := Kbd {
  kbd_buf : array;
  kbd_head : Z;
  kbd_tail : Z;
  kbd_ctrl_held : bool;
  kbd_alt_held : bool;
  kbd_shift : bool;
  kbd_caps : bool;
  kbd_set2_release : bool;
  kbd_extended : bool;
  kbd_scancode_set : Z;
}.

Definition with_ctrl (b : bool) (s : kbd) : kbd :=
  Kbd (kbd_buf s) (kbd_head s) (kbd_tail s) b (kbd_alt_held s) (kbd_shift s) (kbd_caps s)
    (kbd_set2_release s) (kbd_extended s) (kbd_scancode_set s).
Definition with_alt (b : bool) (s : kbd) : kbd :=
  Kbd (kbd_buf s) (kbd_head s) (kbd_tail s) (kbd_ctrl_held s) b (kbd_shift s) (kbd_caps s)
    (kbd_set2_release s) (kbd_extended s) (kbd_scancode_set s).
Definition with_shift (b : bool) (s : kbd) : kbd :=
  Kbd (kbd_buf s) (kbd_head s) (kbd_tail s) (kbd_ctrl_held s) (kbd_alt_held s) b (kbd_caps s)
    (kbd_set2_release s) (kbd_extended s) (kbd_scancode_set s).
Definition with_caps (b : bool) (s : kbd) : kbd :=
  Kbd (kbd_buf s) (kbd_head s) (kbd_tail s) (kbd_ctrl_held s) (kbd_alt_held s) (kbd_shift s) b
    (kbd_set2_release s) (kbd_extended s) (kbd_scancode_set s).
Definition with_release (b : bool) (s : kbd) : kbd :=
  Kbd (kbd_buf s) (kbd_head s) (kbd_tail s) (kbd_ctrl_held s) (kbd_alt_held s) (kbd_shift s)
    (kbd_caps s) b (kbd_extended s) (kbd_scancode_set s).
Definition with_extended (b : bool) (s : kbd) : kbd :=
  Kbd (kbd_buf s) (kbd_head s) (kbd_tail s) (kbd_ctrl_held s) (kbd_alt_held s) (kbd_shift s)
    (kbd_caps s) (kbd_set2_release s) b (kbd_scancode_set s).
Definition with_set (n : Z) (s : kbd) : kbd :=
  Kbd (kbd_buf s) (kbd_head s) (kbd_tail s) (kbd_ctrl_held s) (kbd_alt_held s) (kbd_shift s)
    (kbd_caps s) (kbd_set2_release s) (kbd_extended s) n.

(** ** The decoder *)

Definition update_modifier (set key : Z) (release : bool) (s : kbd) : kbd :=
  if set =? 1 then
    if (key =? 0x2A) || (key =? 0x36) then with_shift (negb release) s
    else if (key =? 0x3A) && negb release then with_caps (negb (kbd_caps s)) s
    else if key =? 0x1D then with_ctrl (negb release) s
    else if key =? 0x38 then with_alt (negb release) s
    else s
  else
    if (key =? 0x12) || (key =? 0x59) then with_shift (negb release) s
    else if (key =? 0x58) && negb release then with_caps (negb (kbd_caps s)) s
    else if key =? 0x14 then with_ctrl (negb release) s
    else if key =? 0x11 then with_alt (negb release) s
    else s.

Definition translate (set key : Z) (s : kbd) : Z :=
  if 128 <=? key then 0
  else
    let normal := if set =? 1 then sc1_normal key else sc2_normal key in
    let use_upper := if is_alpha normal then xorb (kbd_shift s) (kbd_caps s) else kbd_shift s in
    if use_upper then if set =? 1 then sc1_shifted key else sc2_shifted key else normal.

Definition infer_set (key : Z) : Z :=
  let c1 := sc1_normal key in
  let c2 := sc2_normal key in
  let nz1 := negb (c1 =? 0) in
  let nz2 := negb (c2 =? 0) in
  let control := (c1 =? 10) || (c1 =? 8) || (c1 =? 9) in
  if nz2 && negb nz1 then 2
  else if nz1 && negb nz2 then 1
  else if nz1 && nz2 then
    if control && is_alpha c2 then 2
    else if control && negb (is_alpha c2) then 1
    else if negb (is_alnum c1) && is_alnum c2 then 2
    else 1
  else if is_modifier_set2 key && negb (is_modifier_set1 key) then 2
  else 1.

Definition kbd_decode_reset (s : kbd) : kbd :=
  Kbd (kbd_buf s) (kbd_head s) (kbd_tail s) false false false false false false 0.

Definition kbd_decode_set_scancode_set (set : Z) (s : kbd) : kbd :=
  if set <=? 2 then with_set set s else s.

(** The set, the release flag and the key a byte stands for, and the state with
    the release prefix consumed. *)
Definition classify (scancode : Z) (s : kbd) : Z * bool * Z * kbd :=
  let set := kbd_scancode_set s in
  if (set =? 2) || kbd_set2_release s then (2, kbd_set2_release s, scancode, with_release false s)
  else if set =? 1 then (1, negb (scancode .& 0x80 =? 0), scancode .& 0x7F, s)
  else if negb (scancode .& 0x80 =? 0) then (1, true, scancode .& 0x7F, s)
  else (infer_set scancode, false, scancode, s).

(** The result is the returned flag and the value stored through [out]. *)
Definition kbd_decode_scancode (scancode : Z) (s : kbd) : bool * Z * kbd :=
  if scancode =? 0xE0 then (false, 0, with_extended true s)
  else if scancode =? 0xF0 then (false, 0, with_set 2 (with_release true s))
  else
    let '(set, release, key, s) := classify scancode s in
    if kbd_extended s then
      let s := with_extended false s in
      (false, 0, if (set =? 2) && (key =? 0x14) then with_ctrl (negb release) s else s)
    else
      let s := update_modifier set key release s in
      if ((set =? 1) && is_modifier_set1 key) || ((set =? 2) && is_modifier_set2 key) || release
      then (false, 0, s)
      else if kbd_ctrl_held s && (((set =? 1) && (key =? 0x2E)) || ((set =? 2) && (key =? 0x21)))
      then (true, 3, s)
      else
        let c := translate set key s in
        if negb (c =? 0) then (true, c, with_set set s) else (false, 0, s).

(** ** The ring buffer *)

Definition buf_push (c : Z) (s : kbd) : kbd :=
  let next := (kbd_tail s + 1) .& (KBD_BUF_SIZE - 1) in
  if negb (next =? kbd_head s) then
    Kbd (arr_set (kbd_buf s) (kbd_tail s) c) (kbd_head s) next (kbd_ctrl_held s) (kbd_alt_held s)
      (kbd_shift s) (kbd_caps s) (kbd_set2_release s) (kbd_extended s) (kbd_scancode_set s)
  else s.

Definition handle_scancode (scancode : Z) (s : kbd) : kbd :=
  let '(ok, c, s) := kbd_decode_scancode scancode s in
  if ok && negb (c =? 0) then buf_push c s else s.

Definition kbd_available (s : kbd) : bool := negb (kbd_head s =? kbd_tail s).

(** The part of kbd_trygetchar after the poll. *)
Definition buf_pop (s : kbd) : Z * kbd :=
  if negb (kbd_available s) then (0, s)
  else
    (arr_get (kbd_buf s) (kbd_head s),
     Kbd (kbd_buf s) ((kbd_head s + 1) .& (KBD_BUF_SIZE - 1)) (kbd_tail s) (kbd_ctrl_held s)
       (kbd_alt_held s) (kbd_shift s) (kbd_caps s) (kbd_set2_release s) (kbd_extended s)
       (kbd_scancode_set s)).

(** ** Polling and initialisation

    [inb] and [outb] act on the state of the controller. *)

Definition KBD_DATA : Z := 0x60.
Definition KBD_STATUS : Z := 0x64.
Definition KBD_CMD : Z := 0x64.
Definition KBD_STAT_OUT : Z := 0x01.
Definition KBD_STAT_IN : Z := 0x02.
Definition KBD_STAT_AUX : Z := 0x20.

Class Ports (Dev : Type) := {
  inb : Z → Dev → Z * Dev;
  outb : Z → Z → Dev → Dev;
}.

Section Poll.
Context {Dev : Type} `{P : Ports Dev}.

Fixpoint poll_loop (n : nat) (s : kbd) (d : Dev) : kbd * Dev :=
  match n with
  | O => (s, d)
  | S n' =>
      let '(status, d) := inb KBD_STATUS d in
      if status .& KBD_STAT_OUT =? 0 then (s, d)
      else
        let '(scancode, d) := inb KBD_DATA d in
        if negb (status .& KBD_STAT_AUX =? 0) then poll_loop n' s d
        else poll_loop n' (handle_scancode scancode s) d
  end.

Definition kbd_poll (s : kbd) (d : Dev) : kbd * Dev := poll_loop 16 s d.

Definition kbd_trygetchar (s : kbd) (d : Dev) : Z * kbd * Dev :=
  let '(s, d) := kbd_poll s d in
  let '(c, s) := buf_pop s in
  (c, s, d).

(** [wait] is what happens while the processor is halted: the loop goes on after
    an interrupt, whose handler polls. *)
Fixpoint kbd_getchar (fuel : nat) (wait : kbd * Dev → kbd * Dev) (s : kbd) (d : Dev)
  : option (Z * kbd * Dev) :=
  match fuel with
  | O => None
  | S f =>
      if kbd_available s then Some (kbd_trygetchar s d)
      else
        let '(s, d) := kbd_poll s d in
        if kbd_available s then kbd_getchar f wait s d
        else let '(s, d) := wait (s, d) in kbd_getchar f wait s d
  end.

(** [for (i = 0; i < 100000; i++) if (test(inb(KBD_STATUS))) return true;] *)
Fixpoint wait_status (n : nat) (test : Z → bool) (d : Dev) : bool * Dev :=
  match n with
  | O => (false, d)
  | S n' => let '(st, d) := inb KBD_STATUS d in
            if test st then (true, d) else wait_status n' test d
  end.
Definition kbd_wait_input_clear (d : Dev) : bool * Dev :=
  wait_status (Z.to_nat 100000) (λ st, st .& KBD_STAT_IN =? 0) d.
Definition kbd_wait_output_full (d : Dev) : bool * Dev :=
  wait_status (Z.to_nat 100000) (λ st, negb (st .& KBD_STAT_OUT =? 0)) d.

Definition kbd_send_cmd (cmd : Z) (d : Dev) : Dev :=
  let '(ok, d) := kbd_wait_input_clear d in if ok : bool then outb KBD_CMD cmd d else d.
Definition kbd_send_data (data : Z) (d : Dev) : Dev :=
  let '(ok, d) := kbd_wait_input_clear d in if ok : bool then outb KBD_DATA data d else d.

Fixpoint drain_loop (n : nat) (d : Dev) : Dev :=
  match n with
  | O => d
  | S n' => let '(st, d) := inb KBD_STATUS d in
            if st .& KBD_STAT_OUT =? 0 then d else drain_loop n' (inb KBD_DATA d).2
  end.
Definition kbd_drain (d : Dev) : Dev := drain_loop 32 d.

(** Without the registration of the handler for IRQ 1. *)
Definition kbd_init (s : kbd) (d : Dev) : kbd * Dev :=
  let s := kbd_decode_reset s in
  let d := kbd_drain d in
  let d := kbd_send_cmd 0xAE d in
  let d := kbd_send_cmd 0x20 d in
  let '(ok, d) := kbd_wait_output_full d in
  let '(config, d) := if ok : bool then inb KBD_DATA d else (0x01 .| 0x40, d) in
  let config := ((config .| 0x01) .| 0x40) .& u8 (Z.lnot 0x10) in
  let d := kbd_send_cmd 0x60 d in
  let d := kbd_send_data config d in
  let d := kbd_drain d in
  (kbd_decode_set_scancode_set 0 s, d).

End Poll.

(** ** The host-side tests of [tests/test_ps2kbd_decode.c] *)

Definition fresh_kbd : kbd := Kbd (arr_fill 0) 0 0 false false false false false false 0.

(** [feed]: the characters a sequence of bytes produces. *)
Fixpoint feed (scancodes : list Z) (s : kbd) : list Z * kbd :=
  match scancodes with
  | [] => ([], s)
  | b :: bs =>
      let '(ok, c, s1) := kbd_decode_scancode b s in
      let '(out, s2) := feed bs s1 in
      (if ok && negb (c =? 0) then c :: out else out, s2)
  end.

Definition typed (set : Z) (scancodes : list Z) : list Z :=
  (feed scancodes (kbd_decode_set_scancode_set set (kbd_decode_reset fresh_kbd))).1.

Example test_set1_help : typed 0 [0x23; 0x12; 0x26; 0x19; 0x1C] = chars "help" ++ [10].
Proof. reflexivity. Qed.

Example test_set1_help_with_releases :
  typed 1 [0x23; 0xA3; 0x12; 0x92; 0x26; 0xA6; 0x19; 0x99; 0x1C; 0x9C] = chars "help" ++ [10].
Proof. reflexivity. Qed.

Example test_set1_backspace : typed 1 [0x1E; 0x9E; 0x0E; 0x8E] = chars "a" ++ [8].
Proof. reflexivity. Qed.

Example test_set2_help : typed 0 [0x33; 0x24; 0x4B; 0x4D; 0x5A] = chars "help" ++ [10].
Proof. reflexivity. Qed.

Example test_set2_help_with_releases :
  typed 0 [0x33; 0xF0; 0x33; 0x24; 0xF0; 0x24; 0x4B; 0xF0; 0x4B; 0x4D; 0xF0; 0x4D; 0x5A; 0xF0; 0x5A]
  = chars "help" ++ [10].
Proof. reflexivity. Qed.

Example test_set2_a_backspace : typed 0 [0x1C; 0x66] = chars "a" ++ [8].
Proof. reflexivity. Qed.

Example test_translated_set1_release_under_set2 : typed 2 [0x23; 0xA3] = chars "d".
Proof. reflexivity. Qed.

Example test_set2_shift_a : typed 2 [0x12; 0x1C; 0xF0; 0x1C; 0xF0; 0x12] = chars "A".
Proof. reflexivity. Qed.
