(* ===== verification/KbdProps.v ===== *)
(** * PS/2 keyboard driver: theorems

    The ring buffer is a bounded queue, polling moves the controller's bytes
    through the decoder into it in order, and the two scancode sets agree. *)

From Stdlib Require Import ZArith Lia.
From S2P Require Import Prelude Memory Kbd.
Import StringC.

(** Let [lia] reason about division and remainder by constants. *)
Ltac Zify.zify_post_hook ::= Z.to_euclidean_division_equations.

(** ** The ring buffer as a queue of at most 255 characters *)

Record ring (s : kbd) (q : list Z) : Prop := {
  ring_head : 0 <= kbd_head s < 256;
  ring_tail : 0 <= kbd_tail s < 256;
  ring_len : len q = (kbd_tail s - kbd_head s) mod 256;
  ring_cell k c : q !! k = Some c → arr_get (kbd_buf s) ((kbd_head s + Z.of_nat k) mod 256) = c;
}.

(** What the driver does with a character when the queue is full: drop it. *)
Definition enqueue (q : list Z) (c : Z) : list Z := if len q <? 255 then q ++ [c] else q.

Definition same_ring (s s' : kbd) : Prop :=
  kbd_buf s' = kbd_buf s ∧ kbd_head s' = kbd_head s ∧ kbd_tail s' = kbd_tail s.

Lemma ring_same s s' q : same_ring s s' → ring s q → ring s' q.
Proof. intros (Hb & Hh & Ht) []. by constructor; rewrite ?Hb, ?Hh, ?Ht. Qed.

Lemma wrap_index x : x .& (KBD_BUF_SIZE - 1) = x mod 256.
Proof. by apply (land_low_mod x 8). Qed.

Lemma buf_push_enqueue s q c : ring s q → ring (buf_push c s) (enqueue q c).
Proof.
  intros R. pose proof R as [Hh Ht Hl Hc]. unfold buf_push, enqueue. rewrite wrap_index.
  assert (((kbd_tail s + 1) mod 256 =? kbd_head s) = negb (len q <? 255)) as Hfull.
  { apply eq_true_iff_eq. rewrite negb_true_iff, Z.eqb_eq, Z.ltb_ge, Hl. lia. }
  rewrite Hfull, negb_involutive. case_if; [|done].
  constructor; simpl; [lia|lia|rewrite length_app; simpl; lia|].
  intros k d Hk. rewrite arr_get_set. apply lookup_app_Some in Hk as [Hk|[Hge Hk]].
  - apply lookup_lt_Some in Hk as Hlt. case_if; [lia|by apply Hc].
  - apply list_lookup_singleton_Some in Hk as [Hk <-].
    rewrite (proj2 (Z.eqb_eq _ _)); [done|]. lia.
Qed.

Lemma buf_pop_dequeue s q :
  ring s q →
  match q with
  | [] => buf_pop s = (0, s)
  | c :: q' => (buf_pop s).1 = c ∧ ring (buf_pop s).2 q'
  end.
Proof.
  intros R. pose proof R as [Hh Ht Hl Hc]. unfold buf_pop, kbd_available.
  destruct q as [|c q]; simpl in Hl.
  - rewrite (proj2 (Z.eqb_eq _ _)); [done|lia].
  - rewrite (proj2 (Z.eqb_neq _ _)) by lia. simpl. rewrite wrap_index.
    split.
    + specialize (Hc O c eq_refl). by replace ((kbd_head s + Z.of_nat 0) mod 256) with (kbd_head s) in Hc by lia.
    + constructor; simpl; [lia|lia|lia|]. intros k d Hk.
      rewrite <- (Hc (S k) d Hk). f_equal. lia.
Qed.

(** ** The decoder does not look at the buffer *)

(** A state with another buffer. *)
Definition graft (b s : kbd) : kbd :=
  Kbd (kbd_buf b) (kbd_head b) (kbd_tail b) (kbd_ctrl_held s) (kbd_alt_held s) (kbd_shift s)
    (kbd_caps s) (kbd_set2_release s) (kbd_extended s) (kbd_scancode_set s).

Lemma graft_self s : graft s s = s.
Proof. by destruct s. Qed.

Lemma classify_graft b s c :
  classify c (graft b s) = (let '(set, rel, key, s') := classify c s in (set, rel, key, graft b s')).
Proof. unfold classify. simpl. by repeat case_if. Qed.

Lemma update_modifier_graft b s set key rel :
  update_modifier set key rel (graft b s) = graft b (update_modifier set key rel s).
Proof. unfold update_modifier. simpl. by repeat case_if. Qed.

Lemma decode_graft b s c :
  kbd_decode_scancode c (graft b s) =
    (let '(ok, ch, s') := kbd_decode_scancode c s in (ok, ch, graft b s')).
Proof.
  unfold kbd_decode_scancode. case_if; [done|]. case_if; [done|].
  rewrite classify_graft. destruct (classify c s) as [[[set rel] key] s1].
  change (kbd_extended (graft b s1)) with (kbd_extended s1). case_if.
  { by destruct ((set =? 2) && (key =? 0x14)). }
  rewrite update_modifier_graft. set (s2 := update_modifier set key rel s1).
  change (kbd_ctrl_held (graft b s2)) with (kbd_ctrl_held s2).
  change (translate set key (graft b s2)) with (translate set key s2).
  case_if; [done|]. case_if; [done|]. by destruct (negb (translate set key s2 =? 0)).
Qed.

(** The decoder does not touch the buffer. *)
Lemma decode_keeps_ring c s : graft s (kbd_decode_scancode c s).2 = (kbd_decode_scancode c s).2.
Proof.
  rewrite <- (graft_self s) at 3. rewrite decode_graft.
  by destruct (kbd_decode_scancode c s) as [[ok ch] s'].
Qed.

Lemma feed_graft b s cs :
  feed cs (graft b s) = (let '(out, s') := feed cs s in (out, graft b s')).
Proof.
  revert s; induction cs as [|c cs IH]; intros s; simpl; [done|].
  rewrite decode_graft. destruct (kbd_decode_scancode c s) as [[ok ch] s1].
  rewrite IH. by destruct (feed cs s1) as [out s2].
Qed.

Lemma buf_push_graft c s : buf_push c s = graft (buf_push c s) s.
Proof. unfold buf_push. case_if; [done|by destruct s]. Qed.

(** ** Handling a sequence of bytes *)

Fixpoint handle_all (cs : list Z) (s : kbd) : kbd :=
  match cs with [] => s | c :: cs' => handle_all cs' (handle_scancode c s) end.

Lemma handle_one c s q :
  ring s q →
  let '(ok, ch, s') := kbd_decode_scancode c s in
  ring (handle_scancode c s) (if ok && negb (ch =? 0) then enqueue q ch else q) ∧
  graft (handle_scancode c s) s' = handle_scancode c s.
Proof.
  intros R. pose proof (decode_keeps_ring c s) as Hk. unfold handle_scancode.
  destruct (kbd_decode_scancode c s) as [[ok ch] s']. simpl in Hk.
  assert (ring s' q) as R'.
  { rewrite <- Hk. apply (ring_same s); [done|done]. }
  case_if; split; [by apply buf_push_enqueue| |done|apply graft_self].
  by rewrite <- buf_push_graft.
Qed.

Lemma handle_all_queue cs s q :
  ring s q → ring (handle_all cs s) (foldl enqueue q (feed cs s).1).
Proof.
  revert s q; induction cs as [|c cs IH]; intros s q R; simpl; [done|].
  pose proof (handle_one c s q R) as H.
  destruct (kbd_decode_scancode c s) as [[ok ch] s'] eqn:E. destruct H as [R' Hg].
  specialize (IH _ _ R').
  assert ((feed cs (handle_scancode c s)).1 = (feed cs s').1) as Hf.
  { rewrite <- Hg, feed_graft. by destruct (feed cs s') as [out s2]. }
  rewrite Hf in IH. destruct (feed cs s') as [out s2]. simpl in *. by case_if.
Qed.

(** ** The controller *)

(** What the driver relies on in the 8042: bytes wait in a queue, each tagged as
    coming from the auxiliary device or not; the status register shows whether
    one waits and where it comes from; reading the data port takes it. *)
Class I8042 (Dev : Type) `{Ports Dev} := {
  pending : Dev → list (bool * Z);
  status_pure d : pending (inb KBD_STATUS d).2 = pending d;
  status_out d : ((inb KBD_STATUS d).1 .& KBD_STAT_OUT =? 0) = bool_decide (pending d = []);
  status_aux d aux b l : pending d = (aux, b) :: l →
    ((inb KBD_STATUS d).1 .& KBD_STAT_AUX =? 0) = negb aux;
  data_pop d aux b l : pending d = (aux, b) :: l →
    (inb KBD_DATA d).1 = b ∧ pending (inb KBD_DATA d).2 = l;
}.

(** The bytes of the keyboard among those waiting. *)
Definition keyboard_bytes (l : list (bool * Z)) : list Z :=
  omap (λ x : bool * Z, if x.1 then None else Some x.2) l.

Section Polling.
Context {Dev : Type} `{C : I8042 Dev}.

Lemma poll_loop_bytes n s d :
  (poll_loop n s d).1 = handle_all (keyboard_bytes (take n (pending d))) s ∧
  pending (poll_loop n s d).2 = drop n (pending d).
Proof.
  revert s d; induction n as [|n IH]; intros s d; simpl; [done|].
  pose proof (status_pure d) as Hp. pose proof (status_out d) as Ho.
  pose proof (status_aux d) as Ha.
  destruct (inb KBD_STATUS d) as [st d1]. simpl in *. rewrite Ho.
  destruct (pending d) as [|[aux b] l] eqn:E.
  - rewrite bool_decide_eq_true_2 by done. simpl. by rewrite Hp.
  - rewrite bool_decide_eq_false_2 by done.
    destruct (data_pop d1 aux b l Hp) as [Hb Hl].
    destruct (inb KBD_DATA d1) as [b' d2]. simpl in *. subst b'.
    rewrite (Ha aux b l eq_refl), negb_involutive.
    destruct aux; destruct (IH (if true then s else s) d2) as [IH1 IH2], (IH (handle_scancode b s) d2);
      simpl in *; rewrite Hl in *; done.
Qed.

(** one poll takes at most 16 waiting bytes from the controller and appends
    the characters they decode to, in order, to the queue the readers see;
    mouse bytes are skipped and characters beyond 255 unread ones are dropped. *)
Theorem kbd_poll_queue s d q :
  ring s q →
  ring (kbd_poll s d).1
    (foldl enqueue q (feed (keyboard_bytes (take 16 (pending d))) s).1) ∧
  pending (kbd_poll s d).2 = drop 16 (pending d).
Proof.
  intros R. unfold kbd_poll. destruct (poll_loop_bytes 16 s d) as [-> Hd].
  split; [by apply handle_all_queue|done].
Qed.

End Polling.

(** A controller that hands out a list of bytes. *)
#[export] Instance list_ports : Ports (list (bool * Z)) := {
  inb port l :=
    if port =? KBD_STATUS
    then match l with [] => (0, l) | (aux, _) :: _ => (if aux : bool then 0x21 else 0x01, l) end
    else match l with [] => (0, l) | (_, b) :: l' => (b, l') end;
  outb _ _ l := l;
}.

#[export] Instance list_i8042 : I8042 (list (bool * Z)).
Proof.
  refine {| pending l := l |}.
  - by intros [|[aux b] l].
  - by intros [|[[] b] l].
  - by intros ? [] b l ->.
  - by intros ? aux b l ->.
Defined.

Lemma fresh_ring : ring fresh_kbd [].
Proof. constructor; simpl; [lia|lia|done|done]. Qed.

Lemma kbd_poll_queue_witness :
  ring (kbd_poll fresh_kbd [(false, 0x23); (true, 0x12); (false, 0x17)]).1 (chars "hi") ∧
  pending (kbd_poll fresh_kbd [(false, 0x23); (true, 0x12); (false, 0x17)]).2 = [].
Proof. exact (kbd_poll_queue fresh_kbd [(false, 0x23); (true, 0x12); (false, 0x17)] [] fresh_ring). Defined.

(** ** The interrupt side and the reader side, interleaved *)

Inductive kbd_op := Push (c : Z) | Pop.

(** The results of the pops, on the ring buffer and on a queue. *)
Fixpoint ring_exec (ops : list kbd_op) (s : kbd) : list Z :=
  match ops with
  | [] => []
  | Push c :: ops' => ring_exec ops' (buf_push c s)
  | Pop :: ops' => (buf_pop s).1 :: ring_exec ops' (buf_pop s).2
  end.
Fixpoint queue_exec (ops : list kbd_op) (q : list Z) : list Z :=
  match ops with
  | [] => []
  | Push c :: ops' => queue_exec ops' (enqueue q c)
  | Pop :: ops' => match q with [] => 0 :: queue_exec ops' [] | c :: q' => c :: queue_exec ops' q' end
  end.

(** C17: whatever the order of pushes and pops, the ring buffer returns what a
    first-in first-out queue of 255 characters returns (0 when it is empty). *)
Theorem ring_refines_queue s q ops : ring s q → ring_exec ops s = queue_exec ops q.
Proof.
  revert s q; induction ops as [|[c|] ops IH]; intros s q R; simpl; [done| |].
  - by apply IH, buf_push_enqueue.
  - pose proof (buf_pop_dequeue s q R) as H. destruct q as [|c q].
    + rewrite H. simpl. f_equal. by apply IH.
    + destruct H as [-> R']. f_equal. by apply IH.
Qed.

Lemma ring_refines_queue_witness :
  ring_exec [Push 104; Pop; Push 105; Push 33; Pop; Pop; Pop] fresh_kbd = [104; 105; 33; 0].
Proof.
  exact (ring_refines_queue fresh_kbd [] [Push 104; Pop; Push 105; Push 33; Pop; Pop; Pop] fresh_ring).
Defined.

(** ** The two scancode sets *)

(** A statement about all keys below 128, by evaluation. *)
Definition all_keys (f : Z → bool) : bool := forallb f (Z.of_nat <$> seq 0 128).

Lemma all_keys_spec f k : all_keys f = true → 0 <= k < 128 → f k = true.
Proof.
  unfold all_keys. rewrite forallb_forall. intros H Hk. apply H.
  apply list_elem_of_In, list_elem_of_fmap. exists (Z.to_nat k). split; [lia|]. apply elem_of_seq. lia.
Qed.

Definition legends_agree (k1 k2 : Z) : bool :=
  implb (negb (sc1_normal k1 =? 0) && (sc1_normal k1 =? sc2_normal k2))
    ((sc1_shifted k1 =? sc2_shifted k2) && negb (sc1_shifted k1 =? 0) &&
     negb (is_modifier_set1 k1) && negb (is_modifier_set2 k2) &&
     Bool.eqb (k1 =? 0x2E) (k2 =? 0x21) && (k1 .& 0x80 =? 0) && (k1 .& 0x7F =? k1)).

Lemma legends_agree_all k1 k2 : 0 <= k1 < 128 → 0 <= k2 < 128 → legends_agree k1 k2 = true.
Proof.
  intros H1 H2. revert k2 H2. assert (all_keys (λ k1, all_keys (legends_agree k1)) = true) as H
    by (vm_compute; reflexivity).
  intros k2. by apply all_keys_spec, (all_keys_spec (λ k1, all_keys (legends_agree k1)) k1 H).
Qed.

(** The character of a key with legend [normal]/[shifted] under the modifiers. *)
Definition key_char (normal shifted : Z) (is_c : bool) (s : kbd) : Z :=
  if kbd_ctrl_held s && is_c then 3
  else if (if is_alpha normal then xorb (kbd_shift s) (kbd_caps s) else kbd_shift s)
  then shifted else normal.

Lemma key_char_nonzero normal shifted is_c s :
  normal ≠ 0 → shifted ≠ 0 → (key_char normal shifted is_c s =? 0) = false.
Proof. intros. unfold key_char. repeat case_if; by apply Z.eqb_neq. Qed.

Lemma update_modifier_other set key rel s :
  (if set =? 1 then is_modifier_set1 key else is_modifier_set2 key) = false →
  update_modifier set key rel s = s.
Proof.
  unfold update_modifier, is_modifier_set1, is_modifier_set2.
  destruct (set =? 1); intros H; b2p;
    repeat match goal with E : _ ≠ _ |- _ => apply Z.eqb_neq in E; rewrite E; clear E end; done.
Qed.

(** A press of a key with a legend, in a state that has settled on its set. *)
Lemma decode_press set key s normal shifted :
  (set = 1 ∧ normal = sc1_normal key ∧ shifted = sc1_shifted key ∧ is_modifier_set1 key = false ∧
   key .& 0x80 = 0 ∧ key .& 0x7F = key) ∨
  (set = 2 ∧ normal = sc2_normal key ∧ shifted = sc2_shifted key ∧ is_modifier_set2 key = false) →
  0 <= key < 128 → normal ≠ 0 → shifted ≠ 0 →
  kbd_extended s = false → kbd_set2_release s = false → kbd_scancode_set s = set →
  let is_c := if set =? 1 then key =? 0x2E else key =? 0x21 in
  kbd_decode_scancode key s = (true, key_char normal shifted is_c s, s).
Proof.
  intros Hset Hk Hn Hs Hext Hrel Hcur is_c. unfold kbd_decode_scancode.
  rewrite !(proj2 (Z.eqb_neq _ _)) by lia.
  assert (classify key s = (set, false, key, s)) as ->.
  { unfold classify. rewrite Hcur, Hrel. destruct Hset as [(-> & _ & _ & _ & H80 & H7F)|(-> & _)]; simpl.
    - by rewrite H80, H7F.
    - by destruct s; simpl in *; subst. }
  rewrite Hext. rewrite update_modifier_other.
  2: { by destruct Hset as [(-> & _ & _ & Hm & _)|(-> & _ & _ & Hm)]. }
  assert (((set =? 1) && is_modifier_set1 key) || ((set =? 2) && is_modifier_set2 key) || false = false)
    as ->.
  { by destruct Hset as [(-> & _ & _ & Hm & _)|(-> & _ & _ & Hm)]; simpl; rewrite Hm. }
  assert (((set =? 1) && (key =? 0x2E)) || ((set =? 2) && (key =? 0x21)) = is_c) as ->.
  { unfold is_c. destruct Hset as [(-> & _)|(-> & _)]; simpl; [by rewrite orb_false_r|done]. }
  assert (translate set key s =
    if (if is_alpha normal then xorb (kbd_shift s) (kbd_caps s) else kbd_shift s)
    then shifted else normal) as Ht.
  { unfold translate. rewrite (proj2 (Z.leb_gt _ _)) by lia.
    by destruct Hset as [(-> & -> & -> & _)|(-> & -> & -> & _)]. }
  pose proof (key_char_nonzero normal shifted is_c s Hn Hs) as Hz. unfold key_char in *.
  destruct (kbd_ctrl_held s && is_c); [done|]. rewrite Ht, Hz. simpl.
  destruct s; simpl in *. by subst.
Qed.

Definition settled (set : Z) (s : kbd) : Prop :=
  kbd_extended s = false ∧ kbd_set2_release s = false ∧ kbd_scancode_set s = set.

(** a key of scancode set 1 and a key of set 2 with the same unshifted legend
    produce the same character, once, under every state of the modifiers
    (Ctrl-C included), and leave the decoder as it was. *)
Theorem scancode_sets_agree s1 s2 k1 k2 :
  0 <= k1 < 128 → 0 <= k2 < 128 → sc1_normal k1 ≠ 0 → sc1_normal k1 = sc2_normal k2 →
  settled 1 s1 → settled 2 s2 → with_set 0 s1 = with_set 0 s2 →
  ∃ c, c ≠ 0 ∧ kbd_decode_scancode k1 s1 = (true, c, s1) ∧
       kbd_decode_scancode k2 s2 = (true, c, s2).
Proof.
  intros H1 H2 Hn Hl (He1 & Hr1 & Hs1) (He2 & Hr2 & Hs2) Hsame.
  pose proof (legends_agree_all k1 k2 H1 H2) as Ha. unfold legends_agree in Ha.
  rewrite (proj2 (Z.eqb_neq (sc1_normal k1) 0) Hn), (proj2 (Z.eqb_eq _ _) Hl) in Ha. simpl in Ha.
  b2p. match goal with H : Bool.eqb _ _ = true |- _ => apply eqb_prop in H end.
  exists (key_char (sc1_normal k1) (sc1_shifted k1) (k1 =? 0x2E) s1). split_and!.
  - apply Z.eqb_neq. by apply key_char_nonzero.
  - apply (decode_press 1 k1 s1 (sc1_normal k1) (sc1_shifted k1)); try done. left. by split_and!.
  - rewrite (decode_press 2 k2 s2 (sc2_normal k2) (sc2_shifted k2)); try done; [|by right|congruence..].
    destruct s1, s2; simpl in *. injection Hsame as ? ? ? ? ? ? ? ? ?. subst.
    unfold key_char. simpl. rewrite <- Hl.
    match goal with H : sc1_shifted k1 = _ |- _ => rewrite <- H end.
    match goal with H : (k1 =? _) = (k2 =? _) |- _ => by rewrite H end.
Qed.

Lemma scancode_sets_agree_witness :
  ∃ c, c ≠ 0 ∧ kbd_decode_scancode 0x1E (with_set 1 fresh_kbd) = (true, c, with_set 1 fresh_kbd) ∧
       kbd_decode_scancode 0x1C (with_set 2 fresh_kbd) = (true, c, with_set 2 fresh_kbd).
Proof.
  apply (scancode_sets_agree (with_set 1 fresh_kbd) (with_set 2 fresh_kbd) 0x1E 0x1C);
    [lia|lia|discriminate|reflexivity|done|done|reflexivity].
Defined.

(** ** Output and releases *)

Lemma table_chars_range k :
  0 <= k < 128 → (0 <= sc1_normal k < 128) ∧ (0 <= sc1_shifted k < 128) ∧
    (0 <= sc2_normal k < 128) ∧ (0 <= sc2_shifted k < 128).
Proof.
  intros Hk.
  pose proof (all_keys_spec (λ k, in_block 0 128 (sc1_normal k) && in_block 0 128 (sc1_shifted k) &&
    in_block 0 128 (sc2_normal k) && in_block 0 128 (sc2_shifted k)) k) as H.
  specialize (H ltac:(vm_compute; reflexivity) Hk). cbv beta in H. b2p.
  repeat match goal with H : in_block _ _ _ = true |- _ => apply in_block_true in H end. lia.
Qed.

Lemma classify_key b s : 0 <= b < 256 → 0 <= (classify b s).1.2 < 256.
Proof.
  intros Hb. unfold classify. repeat case_if; simpl; try lia;
    change 0x7F with (2^7 - 1); rewrite land_low_mod by lia; lia.
Qed.

Lemma translate_range set key s : 0 <= key < 256 → 0 <= translate set key s < 128.
Proof.
  intros Hk. unfold translate. case_if; [lia|]. pose proof (table_chars_range key ltac:(lia)).
  repeat case_if; lia.
Qed.



(** the release of a key that is no modifier is silent and restores the
    decoder: in set 1 the byte [key + 0x80] (a prefix byte apart), in set 2 the
    byte 0xF0 followed by the key. *)
Theorem kbd_release_silent key s1 s2 :
  0 <= key < 128 → key ≠ 0x60 → key ≠ 0x70 → settled 1 s1 → settled 2 s2 →
  is_modifier_set1 key = false → is_modifier_set2 key = false →
  feed [key + 0x80] s1 = ([], s1) ∧ feed [0xF0; key] s2 = ([], s2).
Proof.
  intros Hk H60 H70 (He1 & Hr1 & Hs1) (He2 & Hr2 & Hs2) Hm1 Hm2. split; simpl.
  - assert (((key + 0x80) .& 0x80 =? 0) = false ∧ (key + 0x80) .& 0x7F = key) as [H80 H7F].
    { pose proof (all_keys_spec (λ k, negb ((k + 0x80) .& 0x80 =? 0) && ((k + 0x80) .& 0x7F =? k)) key)
        as H. specialize (H ltac:(vm_compute; reflexivity) Hk). cbv beta in H. b2p. split; [by apply Z.eqb_neq|done]. }
    unfold kbd_decode_scancode. rewrite !(proj2 (Z.eqb_neq _ _)) by lia.
    unfold classify. rewrite Hs1, Hr1. simpl. rewrite H80, H7F, He1. simpl.
    by rewrite update_modifier_other, orb_true_r.
  - unfold kbd_decode_scancode. simpl. rewrite !(proj2 (Z.eqb_neq key _)) by lia.
    unfold classify. simpl. rewrite He2. simpl.
    rewrite update_modifier_other, orb_true_r by done. simpl.
    destruct s2; simpl in *. by subst.
Qed.

Lemma kbd_release_silent_witness :
  feed [0x23 + 0x80] (with_set 1 fresh_kbd) = ([], with_set 1 fresh_kbd) ∧
  feed [0xF0; 0x23] (with_set 2 fresh_kbd) = ([], with_set 2 fresh_kbd).
Proof. apply (kbd_release_silent 0x23 (with_set 1 fresh_kbd) (with_set 2 fresh_kbd)); (lia || done). Defined.
