(* ===== verification/Vfs.v ===== *)
(** * Virtual file system ([kernel/fs/vfs.c]): the model

    The vnode graph with its sibling lists, path lookup, file descriptor tables
    and the in-memory file system.  A vnode pointer is a key of [nodes]; C strings
    are lists of non-zero bytes.  The heap's answers ([can_alloc]), the bytes of
    memory it hands out ([fresh]) and the stack bytes that follow an unterminated
    path buffer ([stack_tail]) are parameters. *)

From Stdlib Require Import ZArith Lia.
From S2P Require Import Prelude Memory Kbd.
Import StringC.

Definition VFS_MAX_FDS : Z := 32.
Definition VFS_MAX_PATH : Z := 256.
Definition VFS_NAME_MAX : Z := 64.

Definition slash : Z := 47.

Inductive vnode_type := VFS_FILE | VFS_DIR | VFS_DEVICE | VFS_SYMLINK.
#[export] Instance vnode_type_eq_dec : EqDecision vnode_type.
Proof. solve_decision. Defined.

(** The four operation tables of the source. *)
Inductive vfs_ops := tmpfs_file_ops | tmpfs_dir_ops | dev_null_ops | dev_tty_ops.
#[export] Instance vfs_ops_eq_dec : EqDecision vfs_ops.
Proof. solve_decision. Defined.

(** [tmpfs_file_t]; cells of the buffer from [tf_cap] on are not the file's. *)
Record tmpfs_file := Tmpfs { tf_data : array; tf_size : Z; tf_cap : Z }.

Record vnode := Vnode {
  vn_name : list Z;
  vn_type : vnode_type;
  vn_size : Z;
  vn_data : option tmpfs_file;
  vn_ops : vfs_ops;
  vn_parent : option nat;
  vn_children : option nat;
  vn_next_sib : option nat;
}.

Record file := File { f_vnode : nat; f_offset : Z; f_valid : bool }.
Definition closed_file : file := File 0 0 false.

Record vfs := Vfs {
  nodes : gmap nat vnode;
  next_id : nat;
  vfs_root : nat;
  kernel_fd_table : list file;
}.

Definition set_nodes (ns : gmap nat vnode) (v : vfs) : vfs :=
  Vfs ns (next_id v) (vfs_root v) (kernel_fd_table v).
Definition update_node (f : vnode → vnode) (i : nat) (v : vfs) : vfs :=
  set_nodes (alter f i (nodes v)) v.

Definition with_children (c : option nat) (n : vnode) : vnode :=
  Vnode (vn_name n) (vn_type n) (vn_size n) (vn_data n) (vn_ops n) (vn_parent n) c (vn_next_sib n).
Definition with_data (d : option tmpfs_file) (n : vnode) : vnode :=
  Vnode (vn_name n) (vn_type n) (vn_size n) d (vn_ops n) (vn_parent n) (vn_children n) (vn_next_sib n).
Definition with_size (s : Z) (n : vnode) : vnode :=
  Vnode (vn_name n) (vn_type n) s (vn_data n) (vn_ops n) (vn_parent n) (vn_children n) (vn_next_sib n).

(** ** Bytes of a buffer *)

Fixpoint put_bytes (a : array) (off : Z) (bs : list Z) : array :=
  match bs with [] => a | b :: bs' => put_bytes (arr_set a off b) (off + 1) bs' end.

Fixpoint get_bytes (a : array) (off : Z) (n : nat) : list Z :=
  match n with O => [] | S n' => arr_get a off :: get_bytes a (off + 1) n' end.

(** ** Path resolution *)

(** The text up to the first slash and, if there is one, the text after it. *)
Fixpoint break_slash (s : list Z) : list Z * option (list Z) :=
  match s with
  | [] => ([], None)
  | c :: s' => if c =? slash then ([], Some s')
               else let '(tok, rest) := break_slash s' in (c :: tok, rest)
  end.

(** The walk over a sibling list; the bound is the number of vnodes. *)
Fixpoint find_sibling (fuel : nat) (ns : gmap nat vnode) (c : option nat) (name : list Z) : option nat :=
  match fuel, c with
  | S f, Some i =>
      match ns !! i with
      | Some n => if decide (vn_name n = name) then Some i else find_sibling f ns (vn_next_sib n) name
      | None => None
      end
  | _, _ => None
  end.
Definition find_child (v : vfs) (dir : nat) (name : list Z) : option nat :=
  match nodes v !! dir with
  | Some d => find_sibling (S (size (nodes v))) (nodes v) (vn_children d) name
  | None => None
  end.

(** The token loop; no operation table has a lookup function, so a name that is
    not among the children ends it. *)
Fixpoint lookup_loop (fuel : nat) (v : vfs) (cur : nat) (tok : list Z) : option nat :=
  match fuel, tok with
  | _, [] => Some cur
  | O, _ => None
  | S f, _ =>
      let '(name, rest) := break_slash tok in
      match find_child v cur name with
      | Some c => match rest with Some r => lookup_loop f v c r | None => Some c end
      | None => None
      end
  end.

Section Vfs.
Context (can_alloc : Z → vfs → bool) (fresh : vfs → array) (stack_tail : list Z).

(** The string in [buf] after [strncpy(buf, path + 1, 255)]: with 255 bytes or
    more there is no terminator and the text runs on into the stack. *)
Definition path_buffer (rest : list Z) : list Z :=
  if len rest <? VFS_MAX_PATH - 1 then rest
  else take (Z.to_nat (VFS_MAX_PATH - 1)) rest ++ stack_tail.

Definition vfs_lookup (v : vfs) (path : list Z) : option nat :=
  match path with
  | c :: rest =>
      if negb (c =? slash) then None
      else match rest with
           | [] => Some (vfs_root v)
           | _ => let buf := path_buffer rest in lookup_loop (length buf) v (vfs_root v) buf
           end
  | [] => None
  end.

(** ** Vnodes *)

(** [strncpy(vn->name, name, 63)] into a cleared field. *)
Definition stored_name (name : list Z) : list Z := take (Z.to_nat (VFS_NAME_MAX - 1)) name.

Definition sizeof_vnode : Z := 128.

(** A NULL [parent] makes a vnode outside the tree. *)
Definition vnode_create (parent : option nat) (name : list Z) (ty : vnode_type) (ops : vfs_ops) (v : vfs)
  : option nat * vfs :=
  if negb (can_alloc sizeof_vnode v) then (None, v)
  else
    let id := next_id v in
    let first := parent ≫= λ p, nodes v !! p ≫= vn_children in
    let vn := Vnode (stored_name name) ty 0 None ops parent None first in
    let linked := match parent with
                  | Some p => alter (with_children (Some id)) p (nodes v)
                  | None => nodes v
                  end in
    (Some id, Vfs (<[id := vn]> linked) (S id) (vfs_root v) (kernel_fd_table v)).

(** ** tmpfs *)

(** The value [(int)n] of a size. *)
Definition to_int (n : Z) : Z := s32 (u32 n).

(** The returned count and the bytes copied out. *)
Definition tmpfs_read (n : vnode) (count off : Z) : Z * list Z :=
  match vn_data n with
  | None => (0, [])
  | Some tf =>
      if tf_size tf <=? off then (0, [])
      else
        let avail := tf_size tf - off in
        let k := if count <? avail then count else avail in
        (to_int k, get_bytes (tf_data tf) off (Z.to_nat k))
  end.

Definition sizeof_tmpfs_file : Z := 24.

(** [krealloc]: the old block's bytes at the start of a new block. *)
Definition grow_data (tf : tmpfs_file) (v : vfs) : array :=
  put_bytes (fresh v) 0 (get_bytes (tf_data tf) 0 (Z.to_nat (tf_cap tf))).

Definition tmpfs_write (i : nat) (buf : list Z) (off : Z) (v : vfs) : Z * vfs :=
  match nodes v !! i with
  | None => (-1, v)
  | Some n =>
      let created := match vn_data n with Some tf => Some tf
                     | None => if can_alloc sizeof_tmpfs_file v then Some (Tmpfs (arr_fill 0) 0 0) else None end in
      match created with
      | None => (-1, v)
      | Some tf =>
          let v := update_node (with_data (Some tf)) i v in
          let count := len buf in
          let need := u64 (off + count) in
          let grown := if tf_cap tf <? need then
                         let new_cap := u64 (need * 2 + 64) in
                         if can_alloc new_cap v then Some (Tmpfs (grow_data tf v) (tf_size tf) new_cap) else None
                       else Some tf in
          match grown with
          | None => (-1, v)
          | Some tf =>
              let data := put_bytes (tf_data tf) off buf in
              let size := if tf_size tf <? u64 (off + count) then u64 (off + count) else tf_size tf in
              (to_int count,
               update_node (λ n, with_size size (with_data (Some (Tmpfs data size (tf_cap tf))) n)) i v)
          end
      end
  end.

(** [vn->ops->read] and [vn->ops->write]; [None] is a NULL pointer. *)
Definition ops_read (n : vnode) (count off : Z) : option (Z * list Z) :=
  match vn_ops n with
  | tmpfs_file_ops => Some (tmpfs_read n count off)
  | dev_null_ops => Some (0, [])
  | _ => None
  end.
Definition ops_write (i : nat) (n : vnode) (buf : list Z) (off : Z) (v : vfs) : option (Z * vfs) :=
  match vn_ops n with
  | tmpfs_file_ops => Some (tmpfs_write i buf off v)
  | dev_null_ops => Some (to_int (len buf), v)
  | _ => None
  end.

(** ** File descriptors *)

Fixpoint first_free (i : Z) (files : list file) : option Z :=
  match files with
  | [] => None
  | f :: files' => if negb (f_valid f) then Some i else first_free (i + 1) files'
  end.

(** [files[fd]] for a valid descriptor. *)
Definition get_file (files : list file) (fd : Z) : option file :=
  if (fd <? 0) || (VFS_MAX_FDS <=? fd) then None
  else match files !! Z.to_nat fd with
       | Some f => if f_valid f then Some f else None
       | None => None
       end.

Definition vfs_open_in (v : vfs) (files : list file) (path : list Z) : Z * list file :=
  match vfs_lookup v path with
  | None => (-1, files)
  | Some vn =>
      match first_free 3 (drop 3 files) with
      | Some i => (i, <[Z.to_nat i := File vn 0 true]> files)
      | None => (-1, files)
      end
  end.

Definition vfs_close_in (files : list file) (fd : Z) : list file :=
  if (0 <=? fd) && (fd <? VFS_MAX_FDS)
  then alter (λ f, File (f_vnode f) (f_offset f) false) (Z.to_nat fd) files
  else files.

(** [if (r > 0) f->offset += r] *)
Definition advance (r : Z) (fd : Z) (files : list file) : list file :=
  if 0 <? r then alter (λ f, File (f_vnode f) (u64 (f_offset f + r)) (f_valid f)) (Z.to_nat fd) files
  else files.

Definition vfs_read_in (v : vfs) (files : list file) (fd count : Z) : Z * list Z * list file :=
  match get_file files fd with
  | None => (-1, [], files)
  | Some f =>
      match nodes v !! f_vnode f with
      | None => (-1, [], files)
      | Some n =>
          match ops_read n count (f_offset f) with
          | None => (-1, [], files)
          | Some (r, bs) => (r, bs, advance r fd files)
          end
      end
  end.

Definition vfs_write_in (v : vfs) (files : list file) (fd : Z) (buf : list Z) : Z * list file * vfs :=
  match get_file files fd with
  | None => (-1, files, v)
  | Some f =>
      match nodes v !! f_vnode f with
      | None => (-1, files, v)
      | Some n =>
          match ops_write (f_vnode f) n buf (f_offset f) v with
          | None => (-1, files, v)
          | Some (r, v') => (r, advance r fd files, v')
          end
      end
  end.

(** ** Directories *)

Fixpoint nth_sibling (fuel : nat) (ns : gmap nat vnode) (c : option nat) (idx : Z) : option vnode :=
  match fuel, c with
  | S f, Some i =>
      match ns !! i with
      | Some n => if idx =? 0 then Some n else nth_sibling f ns (vn_next_sib n) (idx - 1)
      | None => None
      end
  | _, _ => None
  end.

(** The name and the type of entry [idx]; no operation table has a readdir. *)
Definition vfs_readdir (v : vfs) (path : list Z) (idx : Z) : option (list Z * vnode_type) :=
  match vfs_lookup v path with
  | None => None
  | Some i =>
      match nodes v !! i with
      | Some n => if decide (vn_type n = VFS_DIR)
                  then match nth_sibling (S (size (nodes v))) (nodes v) (vn_children n) idx with
                       | Some c => Some (vn_name c, vn_type c)
                       | None => None
                       end
                  else None
      | None => None
      end
  end.

(** Text before the last slash and after it ([strrchr]). *)
Fixpoint break_last (s : list Z) : option (list Z * list Z) :=
  match s with
  | [] => None
  | c :: s' => match break_last s' with
               | Some (p, n) => Some (c :: p, n)
               | None => if c =? slash then Some ([], s') else None
               end
  end.

Definition split_parent_path (path : list Z) (parent_size name_size : Z) : option (list Z * list Z) :=
  match path with
  | c :: _ :: _ =>
      if negb (c =? slash) || (parent_size =? 0) || (name_size =? 0) then None
      else match break_last path with
           | None => None
           | Some (parent, name) =>
               if (len name =? 0) || (name_size <=? len name) then None
               else match parent with
                    | [] => if parent_size <? 2 then None else Some ([slash], name)
                    | _ => if parent_size <=? len parent then None else Some (parent, name)
                    end
           end
  | _ => None
  end.

Definition node_type (v : vfs) (i : nat) : option vnode_type := vn_type <$> nodes v !! i.

Definition vfs_mkdir (path : list Z) (v : vfs) : Z * vfs :=
  match vfs_lookup v path with
  | Some i => (if decide (node_type v i = Some VFS_DIR) then 0 else -1, v)
  | None =>
      match split_parent_path path VFS_MAX_PATH VFS_NAME_MAX with
      | None => (-1, v)
      | Some (parent_path, name) =>
          match vfs_lookup v parent_path with
          | None => (-1, v)
          | Some parent =>
              if decide (node_type v parent = Some VFS_DIR) then
                let '(r, v) := vnode_create (Some parent) name VFS_DIR tmpfs_dir_ops v in
                (match r with Some _ => 0 | None => -1 end, v)
              else (-1, v)
          end
      end
  end.

(** [data] is the [size] bytes at the pointer, [None] for NULL. *)
Definition vfs_create_file (path : list Z) (data : option (list Z)) (size : Z) (v : vfs) : Z * vfs :=
  match split_parent_path path VFS_MAX_PATH VFS_NAME_MAX with
  | None => (-1, v)
  | Some (parent_path, name) =>
      match vfs_lookup v parent_path with
      | None => (-1, v)
      | Some parent =>
          if negb (bool_decide (node_type v parent = Some VFS_DIR)) then (-1, v)
          else
            let '(vn, v) := match vfs_lookup v path with
                            | Some i => (if decide (node_type v i = Some VFS_FILE) then Some i else None, v)
                            | None => vnode_create (Some parent) name VFS_FILE tmpfs_file_ops v
                            end in
            match vn with
            | None => (-1, v)
            | Some i =>
                let v := update_node (λ n, with_size 0
                           (with_data ((λ tf, Tmpfs (tf_data tf) 0 (tf_cap tf)) <$> vn_data n) n)) i v in
                if size =? 0 then (0, v)
                else match data with
                     | None => (-1, v)
                     | Some bs =>
                         let '(written, v) := tmpfs_write i bs 0 v in
                         (if written =? to_int size then 0 else -1, v)
                     end
            end
      end
  end.

(** The bytes of the returned buffer. *)
Definition vfs_read_all (path : list Z) (v : vfs) : option (list Z) :=
  match vfs_lookup v path with
  | None => None
  | Some i =>
      match nodes v !! i with
      | None => None
      | Some n =>
          if negb (bool_decide (vn_type n = VFS_FILE)) then None
          else match ops_read n (vn_size n) 0 with
               | None => None
               | Some (r, bs) =>
                   if negb (can_alloc (if vn_size n =? 0 then 1 else vn_size n) v) then None
                   else if (r <? 0) || negb (u64 r =? vn_size n) then None else Some bs
               end
      end
  end.

(** ** Initialisation *)

Definition create_root (v : vfs) : option vfs :=
  if can_alloc sizeof_vnode v then
    Some (Vfs {[ 0%nat := Vnode [slash] VFS_DIR 0 None tmpfs_dir_ops None None None ]} 1 0
            (kernel_fd_table v))
  else None.

(** A write through the result of an unchecked allocation. *)
Definition write_new (i : option nat) (text : list Z) (v : vfs) : option vfs :=
  match i with Some i => Some (tmpfs_write i text 0 v).2 | None => None end.

Definition motd_txt : list Z :=
  chars "Welcome to lithium OS, kernel ver- 1.0.0." ++ [10] ++
  chars "Type 'help' for a list of commands." ++ [10].

(** [None]: the code stores through a NULL pointer. *)
Definition vfs_init : option vfs :=
  let v := Vfs ∅ 0 0 (replicate (Z.to_nat VFS_MAX_FDS) closed_file) in
  v ← create_root v;
  let root := Some (vfs_root v) in
  let '(dev, v) := vnode_create root (chars "dev") VFS_DIR tmpfs_dir_ops v in
  let '(_, v) := vnode_create dev (chars "null") VFS_DEVICE dev_null_ops v in
  let '(_, v) := vnode_create dev (chars "zero") VFS_DEVICE dev_null_ops v in
  let '(_, v) := vnode_create dev (chars "tty") VFS_DEVICE dev_tty_ops v in
  let '(etc, v) := vnode_create root (chars "etc") VFS_DIR tmpfs_dir_ops v in
  let '(host, v) := vnode_create etc (chars "hostname") VFS_FILE tmpfs_file_ops v in
  v ← write_new host (chars "lithium" ++ [10]) v;
  let '(motd, v) := vnode_create etc (chars "motd") VFS_FILE tmpfs_file_ops v in
  v ← write_new motd motd_txt v;
  let '(_, v) := vnode_create root (chars "proc") VFS_DIR tmpfs_dir_ops v in
  let '(_, v) := vnode_create root (chars "tmp") VFS_DIR tmpfs_dir_ops v in
  Some v.

(** The same operations on the kernel's own table. *)
Definition set_kernel_files (fs : list file) (v : vfs) : vfs :=
  Vfs (nodes v) (next_id v) (vfs_root v) fs.
Definition vfs_open (path : list Z) (v : vfs) : Z * vfs :=
  let '(r, fs) := vfs_open_in v (kernel_fd_table v) path in (r, set_kernel_files fs v).
Definition vfs_close (fd : Z) (v : vfs) : vfs :=
  set_kernel_files (vfs_close_in (kernel_fd_table v) fd) v.
Definition vfs_read (fd count : Z) (v : vfs) : Z * list Z * vfs :=
  let '(r, bs, fs) := vfs_read_in v (kernel_fd_table v) fd count in (r, bs, set_kernel_files fs v).
Definition vfs_write (fd : Z) (buf : list Z) (v : vfs) : Z * vfs :=
  let '(r, fs, v') := vfs_write_in v (kernel_fd_table v) fd buf in (r, set_kernel_files fs v').

End Vfs.
