(* ===== verification/VfsInv.v ===== *)
(** * Virtual file system: the tree invariant and its lemmas

    A well-formed vnode graph: sibling lists are finite because each link leads
    to an older vnode, and a vnode's size is the size of its buffer.  Path
    lookup is related to [resolve], which walks a list of path components. *)

From Stdlib Require Import ZArith Lia.
From S2P Require Import Prelude Memory Kbd Vfs.
Import StringC.

(** ** Bytes *)

Lemma put_bytes_get bs : ∀ a off i,
  arr_get (put_bytes a off bs) i =
  if in_block off (len bs) i then nth (Z.to_nat (i - off)) bs 0 else arr_get a i.
Proof.
  induction bs as [|b bs IH]; intros a off i; simpl put_bytes.
  - simpl. block; [lia|done].
  - rewrite IH, arr_get_set. assert (len (b :: bs) = len bs + 1) as -> by (simpl length; lia).
    block; subst; try lia; try done.
    + by replace (Z.to_nat (i - off)) with (S (Z.to_nat (i - (off + 1)))) by lia.
    + by replace (Z.to_nat (i - i)) with O by lia.
Qed.

Lemma get_bytes_length a off n : length (get_bytes a off n) = n.
Proof. revert off; induction n as [|n IH]; intros off; simpl; [done|]. by rewrite IH. Qed.

Lemma get_bytes_lookup a n : ∀ off i, (i < n)%nat →
  get_bytes a off n !! i = Some (arr_get a (off + Z.of_nat i)).
Proof.
  induction n as [|n IH]; intros off i Hi; [lia|]. destruct i as [|i]; simpl.
  - by rewrite Z.add_0_r.
  - rewrite IH by lia. f_equal. f_equal. lia.
Qed.

Lemma get_bytes_ext a b off n :
  (∀ i, off <= i < off + Z.of_nat n → arr_get a i = arr_get b i) →
  get_bytes a off n = get_bytes b off n.
Proof.
  revert off; induction n as [|n IH]; intros off H; simpl; [done|]. f_equal.
  - apply H. lia.
  - apply IH. intros. apply H. lia.
Qed.

Lemma get_bytes_app a off n m :
  get_bytes a off (n + m) = get_bytes a off n ++ get_bytes a (off + Z.of_nat n) m.
Proof.
  revert off; induction n as [|n IH]; intros off; simpl; [by rewrite Z.add_0_r|].
  f_equal. rewrite IH. f_equal. f_equal. lia.
Qed.

Lemma get_bytes_drop a n k : (k <= n)%nat →
  drop k (get_bytes a 0 n) = get_bytes a (Z.of_nat k) (n - k).
Proof.
  intros. replace n with (k + (n - k))%nat at 1 by lia. rewrite get_bytes_app, Z.add_0_l.
  rewrite drop_app_length'; [done | by rewrite get_bytes_length].
Qed.

Lemma get_bytes_take a off n k : (k <= n)%nat → take k (get_bytes a off n) = get_bytes a off k.
Proof.
  intros. replace n with (k + (n - k))%nat at 1 by lia. rewrite get_bytes_app.
  by rewrite take_app_length' by (by rewrite get_bytes_length).
Qed.

Lemma get_put_bytes a off bs : get_bytes (put_bytes a off bs) off (length bs) = bs.
Proof.
  apply list_eq. intros i. destruct (decide (i < length bs)%nat).
  - rewrite get_bytes_lookup by done. rewrite put_bytes_get.
    rewrite (proj2 (in_block_true _ _ _)) by lia.
    replace (Z.to_nat (off + Z.of_nat i - off)) with i by lia.
    destruct (lookup_lt_is_Some_2 bs i) as [b Hb]; [done|]. rewrite Hb. f_equal.
    by apply nth_lookup_Some.
  - rewrite !lookup_ge_None_2; [done|lia|]. rewrite get_bytes_length. lia.
Qed.

Lemma get_put_bytes_out a off bs o n :
  o + Z.of_nat n <= off ∨ off + len bs <= o → get_bytes (put_bytes a off bs) o n = get_bytes a o n.
Proof.
  intros H. apply get_bytes_ext. intros i Hi. rewrite put_bytes_get.
  block; [lia|done].
Qed.

(** ** Files as byte sequences *)

(** The bytes a file holds; writing replaces the bytes at an offset. *)
Definition contents (n : vnode) : list Z :=
  match vn_data n with
  | Some tf => get_bytes (tf_data tf) 0 (Z.to_nat (tf_size tf))
  | None => []
  end.
Definition splice (off : Z) (buf c : list Z) : list Z :=
  take (Z.to_nat off) c ++ buf ++ drop (Z.to_nat (off + len buf)) c.

(** ** The tree *)

(** A vnode's size is that of its buffer, which [int] counts can measure. *)
Definition size_ok (n : vnode) : Prop :=
  match vn_data n with
  | Some tf => vn_size n = tf_size tf ∧ 0 <= tf_size tf <= tf_cap tf ∧ tf_cap tf < 2^31
  | None => vn_size n = 0
  end.

Record node_ok (ns : gmap nat vnode) (i : nat) (n : vnode) : Prop := {
  ok_sib : ∀ j, vn_next_sib n = Some j → (j < i)%nat ∧ is_Some (ns !! j);
  ok_children : ∀ j, vn_children n = Some j → is_Some (ns !! j);
  ok_file : vn_type n = VFS_FILE → vn_ops n = tmpfs_file_ops;
  ok_size : size_ok n;
}.
Record vfs_wf (v : vfs) : Prop := {
  wf_fresh : ∀ i, is_Some (nodes v !! i) → (i < next_id v)%nat;
  wf_root : is_Some (nodes v !! vfs_root v);
  wf_node : ∀ i n, nodes v !! i = Some n → node_ok (nodes v) i n;
}.

(** The vnodes of a sibling list, in order. *)
Inductive chain (ns : gmap nat vnode) : option nat → list nat → Prop :=
  | chain_nil : chain ns None []
  | chain_cons i n l : ns !! i = Some n → chain ns (vn_next_sib n) l → chain ns (Some i) (i :: l).

Definition named (ns : gmap nat vnode) (name : list Z) (i : nat) : Prop :=
  vn_name <$> ns !! i = Some name.
#[export] Instance named_dec ns name i : Decision (named ns name i).
Proof. unfold named. solve_decision. Defined.

Lemma chain_decreasing v c l :
  vfs_wf v → chain (nodes v) c l →
  NoDup l ∧ (∀ i, i ∈ l → is_Some (nodes v !! i)) ∧ (∀ i j, c = Some j → i ∈ l → (i <= j)%nat).
Proof.
  intros Hwf. induction 1 as [|i n l Hi Hc (IH1 & IH2 & IH3)].
  - split; [constructor|]. split; intros i; [|intros j]; set_solver.
  - assert (∀ k, k ∈ l → (k < i)%nat) as Hlt.
    { intros k Hk. destruct (vn_next_sib n) as [j|] eqn:E; [|inversion Hc; set_solver].
      destruct (ok_sib _ _ _ (wf_node v Hwf i n Hi) j E) as [Hj _].
      specialize (IH3 k j eq_refl Hk). lia. }
    split; [|split].
    + constructor; [|done]. intros Hin. specialize (Hlt i Hin). lia.
    + intros k [->|Hk]%elem_of_cons; [eauto|auto].
    + intros k j [= ->] [->|Hk]%elem_of_cons; [done|]. specialize (Hlt k Hk). lia.
Qed.

Lemma chain_length v c l : vfs_wf v → chain (nodes v) c l → (length l <= size (nodes v))%nat.
Proof.
  intros Hwf Hc. destruct (chain_decreasing v c l Hwf Hc) as (Hnd & Hin & _).
  rewrite <- (size_dom (nodes v)), <- (size_list_to_set (C := gset nat) l) by done.
  apply subseteq_size. intros i. rewrite elem_of_list_to_set, elem_of_dom. auto.
Qed.

Lemma chain_exists v : vfs_wf v →
  ∀ c, (∀ j, c = Some j → is_Some (nodes v !! j)) → ∃ l, chain (nodes v) c l.
Proof.
  intros Hwf [j|] Hc; [|exists []; constructor].
  assert (is_Some (nodes v !! j)) as Hj by auto. clear Hc.
  induction (lt_wf j) as [j _ IH]. destruct Hj as [n Hn].
  destruct (vn_next_sib n) as [k|] eqn:E.
  - destruct (ok_sib _ _ _ (wf_node v Hwf j n Hn) k E) as [Hk Hks].
    destruct (IH k Hk Hks) as [l Hl]. exists (j :: l). econstructor; [done|]. by rewrite E.
  - exists [j]. econstructor; [done|]. rewrite E. constructor.
Qed.

Lemma find_sibling_chain ns c l : chain ns c l → ∀ fuel name, (length l < fuel)%nat →
  find_sibling fuel ns c name = head (filter (named ns name) l).
Proof.
  induction 1 as [|i n l Hi Hc IH]; intros [|fuel] name Hf; simpl in *; [lia|done|lia|].
  rewrite Hi, filter_cons.
  assert (named ns name i ↔ vn_name n = name) as Hnm
    by (unfold named; rewrite Hi; simpl; split; congruence).
  destruct (decide (vn_name n = name)) as [Hn|Hn].
  - rewrite decide_True by tauto. done.
  - rewrite decide_False by tauto. apply IH. lia.
Qed.

Lemma find_child_chain v d n :
  vfs_wf v → nodes v !! d = Some n →
  ∃ l, chain (nodes v) (vn_children n) l ∧
       ∀ name, find_child v d name = head (filter (named (nodes v) name) l).
Proof.
  intros Hwf Hd.
  destruct (chain_exists v Hwf (vn_children n)) as [l Hl].
  { apply (ok_children _ _ _ (wf_node v Hwf d n Hd)). }
  exists l. split; [done|]. intros name. unfold find_child. rewrite Hd.
  apply find_sibling_chain; [done|]. pose proof (chain_length _ _ _ Hwf Hl). lia.
Qed.

Lemma find_child_in v d name i :
  vfs_wf v → find_child v d name = Some i → ∃ n, nodes v !! i = Some n ∧ vn_name n = name.
Proof.
  intros Hwf H. assert (∃ n, nodes v !! d = Some n) as [n Hn].
  { unfold find_child in H. destruct (nodes v !! d); [eauto|done]. }
  destruct (find_child_chain v d n Hwf Hn) as (l & Hl & Hf). rewrite Hf in H.
  assert (i ∈ filter (named (nodes v) name) l) as [Hi _]%list_elem_of_filter.
  { destruct (filter _ _); simplify_eq/=. left. }
  unfold named in Hi. destruct (nodes v !! i) as [m|]; simplify_eq/=. eauto.
Qed.

(** Lists of siblings that a change leaves as they were. *)
Definition same_links (ns ns' : gmap nat vnode) : Prop :=
  ∀ i n, ns !! i = Some n →
    ∃ n', ns' !! i = Some n' ∧ vn_name n' = vn_name n ∧ vn_next_sib n' = vn_next_sib n.

Lemma chain_same_links ns ns' c l : same_links ns ns' → chain ns c l →
  chain ns' c l ∧ ∀ name, filter (named ns' name) l = filter (named ns name) l.
Proof.
  intros Hs. induction 1 as [|i n l Hi Hc [IH1 IH2]]; [split; [constructor|done]|].
  destruct (Hs i n Hi) as (n' & Hn' & Hname & Hsib). split.
  - econstructor; [done|]. by rewrite Hsib.
  - intros name. rewrite !filter_cons, IH2.
    assert (named ns' name i ↔ named ns name i) by (unfold named; rewrite Hi, Hn'; simpl; by rewrite Hname).
    repeat case_decide; tauto.
Qed.

(** The child lists after a change that may put one new vnode in front. *)
Lemma find_child_same v v' d n n' name :
  vfs_wf v → vfs_wf v' → same_links (nodes v) (nodes v') →
  nodes v !! d = Some n → nodes v' !! d = Some n' → vn_children n' = vn_children n →
  find_child v' d name = find_child v d name.
Proof.
  intros Hwf Hwf' Hs Hn Hn' Hc.
  destruct (find_child_chain v d n Hwf Hn) as (l & Hl & ->).
  destruct (find_child_chain v' d n' Hwf' Hn') as (l' & Hl' & ->).
  destruct (chain_same_links _ _ _ _ Hs Hl) as [Hl2 Hf].
  assert (l' = l) as ->; [|by rewrite Hf].
  rewrite Hc in Hl'. clear -Hl' Hl2. revert l' Hl'.
  induction Hl2 as [|i m l Hi _ IH]; intros l' Hl'; inversion Hl'; simplify_eq; [done|].
  f_equal. by apply IH.
Qed.

(** ** Path components *)

Definition component (c : list Z) : Prop := c ≠ [] ∧ slash ∉ c.
Definition path_of (cs : list (list Z)) : list Z := concat (map (cons slash) cs).

Fixpoint resolve (v : vfs) (d : nat) (cs : list (list Z)) : option nat :=
  match cs with [] => Some d | c :: cs' => find_child v d c ≫= λ e, resolve v e cs' end.

Lemma resolve_app v d cs cs' : resolve v d (cs ++ cs') = resolve v d cs ≫= λ e, resolve v e cs'.
Proof.
  revert d; induction cs as [|c cs IH]; intros d; simpl; [done|].
  destruct (find_child v d c); simpl; [apply IH|done].
Qed.

Lemma path_of_snoc cs c : path_of (cs ++ [c]) = path_of cs ++ slash :: c.
Proof. unfold path_of. rewrite map_app, concat_app. simpl. by rewrite app_nil_r. Qed.

Lemma break_slash_app c cs : slash ∉ c →
  break_slash (c ++ path_of cs) = (c, match cs with [] => None | c' :: cs' => Some (c' ++ path_of cs') end).
Proof.
  induction c as [|x c IH]; intros Hc.
  - destruct cs; done.
  - simpl. apply not_elem_of_cons in Hc as [Hx Hc].
    rewrite (proj2 (Z.eqb_neq _ _)) by done. by rewrite IH.
Qed.

Lemma lookup_loop_resolve v cs : ∀ fuel d c, Forall component (c :: cs) →
  (length (c ++ path_of cs) <= fuel)%nat →
  lookup_loop fuel v d (c ++ path_of cs) = resolve v d (c :: cs).
Proof.
  induction cs as [|c' cs IH]; intros fuel d c [[Hne Hs] Hcs]%Forall_cons Hf.
  - destruct fuel as [|fuel]; [destruct c; simpl in *; [done|lia]|].
    pose proof (break_slash_app c [] Hs) as Hb.
    destruct (c ++ path_of []) as [|x s] eqn:E; [by destruct c|].
    cbn [lookup_loop]. rewrite Hb. cbn [resolve]. by destruct (find_child v d c).
  - destruct fuel as [|fuel]; [destruct c; simpl in *; [done|lia]|].
    pose proof (break_slash_app c (c' :: cs) Hs) as Hb.
    destruct (c ++ path_of (c' :: cs)) as [|x s] eqn:E; [by destruct c|].
    cbn [lookup_loop]. rewrite Hb. cbn [resolve].
    destruct (find_child v d c) as [e|]; [|done]. apply IH; [done|].
    assert (length (x :: s) = length (c ++ path_of (c' :: cs))) as Hl by (by rewrite E).
    rewrite length_app in Hl. unfold path_of in *. simpl in *. lia.
Qed.

Lemma vfs_lookup_resolve stack_tail v cs :
  Forall component cs → cs ≠ [] → len (path_of cs) <= VFS_MAX_PATH - 1 →
  vfs_lookup stack_tail v (path_of cs) = resolve v (vfs_root v) cs.
Proof.
  intros Hcs Hne Hlen. destruct cs as [|c cs]; [done|].
  unfold path_of in *; simpl in *. fold (path_of cs) in *.
  assert (c ++ path_of cs ≠ []) as Hnn.
  { apply Forall_cons in Hcs as [[? ?] _]. by destruct c. }
  unfold vfs_lookup.
  destruct (c ++ path_of cs) as [|x s] eqn:E; [done|]. rewrite <- E.
  unfold path_buffer. rewrite (proj2 (Z.ltb_lt _ _)) by (rewrite E; simpl in *; lia).
  by apply lookup_loop_resolve.
Qed.

(** ** Splitting off the last component *)

Lemma break_last_app p name : slash ∉ name → break_last (p ++ slash :: name) = Some (p, name).
Proof.
  intros Hs. induction p as [|c p IH]; simpl.
  - assert (break_last name = None) as ->; [|done].
    clear -Hs. induction name as [|c name IH]; simpl; [done|].
    apply not_elem_of_cons in Hs as [Hc Hs]. rewrite IH by done.
    by rewrite (proj2 (Z.eqb_neq _ _)).
  - by rewrite IH.
Qed.

Lemma break_last_sound s p name :
  break_last s = Some (p, name) → s = p ++ slash :: name ∧ slash ∉ name.
Proof.
  revert p name; induction s as [|c s IH]; intros p name; simpl; [done|].
  destruct (break_last s) as [[p' n']|] eqn:E.
  - intros [= <- <-]. destruct (IH p' n' eq_refl) as [-> ?]. done.
  - case_if; [|done]. intros [= <- <-]. subst c. split; [done|].
    intros Hin. apply list_elem_of_split in Hin as (l1 & l2 & ->).
    clear IH. induction l1 as [|x l1 IHl]; simpl in E.
    + by destruct (break_last l2) as [[]|].
    + destruct (break_last (l1 ++ slash :: l2)) as [[]|]; [done|]. by apply IHl.
Qed.

Lemma split_parent_path_snoc cs name ps ns :
  slash ∉ name → name ≠ [] → 2 <= ps → len (path_of cs) < ps → len name < ns →
  split_parent_path (path_of (cs ++ [name])) ps ns =
    Some (match cs with [] => [slash] | _ => path_of cs end, name).
Proof.
  intros Hs Hne Hps Hp Hn.
  assert (∃ y s, path_of (cs ++ [name]) = slash :: y :: s) as (y & s & E).
  { rewrite path_of_snoc. unfold path_of. destruct cs as [|c cs], name as [|z name]; try done; simpl; eauto.
    destruct c; simpl; eauto. destruct (concat (map (cons slash) cs)); simpl; eauto. }
  unfold split_parent_path. rewrite E. rewrite <- E, path_of_snoc, break_last_app by done.
  assert (0 < len name) by (destruct name; simpl; [done|lia]).
  rewrite Z.eqb_refl, !(proj2 (Z.eqb_neq _ 0)), (proj2 (Z.leb_gt ns (len name))) by lia. simpl.
  destruct cs as [|c cs]; unfold path_of in *; simpl.
  - by rewrite (proj2 (Z.ltb_ge _ _)).
  - simpl in Hp. by rewrite (proj2 (Z.leb_gt _ _)).
Qed.

(** ** Changes that keep the shape of the tree *)

Record same_shape (n n' : vnode) : Prop := {
  sh_name : vn_name n' = vn_name n;
  sh_type : vn_type n' = vn_type n;
  sh_ops : vn_ops n' = vn_ops n;
  sh_parent : vn_parent n' = vn_parent n;
  sh_children : vn_children n' = vn_children n;
  sh_sib : vn_next_sib n' = vn_next_sib n;
}.
#[export] Instance same_shape_refl : Reflexive same_shape.
Proof. by intros n. Qed.
#[export] Instance same_shape_trans : Transitive same_shape.
Proof. intros a b c H1 H2. split; (etrans; [apply H2 | apply H1]). Qed.

Lemma node_ok_mono ns ns' i n :
  (∀ j, is_Some (ns !! j) → is_Some (ns' !! j)) → node_ok ns i n → node_ok ns' i n.
Proof. intros H [H1 H2 H3 H4]. split; [|by eauto..]. intros j Hj. destruct (H1 j Hj). auto. Qed.

Lemma node_ok_shape ns i n n' : same_shape n n' → size_ok n' → node_ok ns i n → node_ok ns i n'.
Proof.
  intros Hsh Hs [H1 H2 H3 H4]. split; [| | |done].
  - intros j. rewrite (sh_sib _ _ Hsh). auto.
  - intros j. rewrite (sh_children _ _ Hsh). auto.
  - rewrite (sh_type _ _ Hsh), (sh_ops _ _ Hsh). done.
Qed.

(** Only vnode [i] changes, and it keeps its place. *)
Record only_node (i : nat) (v v' : vfs) : Prop := {
  on_next : next_id v' = next_id v;
  on_root : vfs_root v' = vfs_root v;
  on_files : kernel_fd_table v' = kernel_fd_table v;
  on_other : ∀ j, j ≠ i → nodes v' !! j = nodes v !! j;
  on_node : ∀ n, nodes v !! i = Some n →
              ∃ n', nodes v' !! i = Some n' ∧ same_shape n n' ∧ (size_ok n → size_ok n');
  on_none : nodes v !! i = None → nodes v' !! i = None;
}.

#[export] Instance only_node_refl i : Reflexive (only_node i).
Proof. intros v. split; try done. intros n Hn. by exists n. Qed.
#[export] Instance only_node_trans i : Transitive (only_node i).
Proof.
  intros u v w [A1 A2 A3 A4 A5 A6] [B1 B2 B3 B4 B5 B6]. split; try congruence.
  - intros j Hj. rewrite B4, A4; done.
  - intros n Hn. destruct (A5 n Hn) as (n' & Hn' & Hs & Hz).
    destruct (B5 n' Hn') as (n'' & Hn'' & Hs' & Hz'). exists n''.
    split; [done|]. split; [by etrans | auto].
  - auto.
Qed.

Lemma only_node_update f i v :
  (∀ n, nodes v !! i = Some n → same_shape n (f n) ∧ (size_ok n → size_ok (f n))) →
  only_node i v (update_node f i v).
Proof.
  intros H. split; try done; simpl.
  - intros j Hj. by rewrite lookup_alter_ne.
  - intros n Hn. exists (f n). rewrite lookup_alter_eq, Hn. split; [done|auto].
  - intros Hn. by rewrite lookup_alter_eq, Hn.
Qed.

Section OnlyNode.
Context (i : nat) (v v' : vfs) (Hwf : vfs_wf v) (Hon : only_node i v v').

Lemma only_node_shape j n : nodes v !! j = Some n → ∃ n', nodes v' !! j = Some n' ∧ same_shape n n'.
Proof.
  intros Hn. destruct (decide (j = i)) as [->|Hne].
  - destruct (on_node _ _ _ Hon n Hn) as (n' & ? & ? & _). eauto.
  - exists n. rewrite (on_other _ _ _ Hon j Hne). done.
Qed.

Lemma only_node_wf : vfs_wf v'.
Proof.
  destruct Hon as [H1 H2 H3 H4 H5 H6].
  assert (∀ j, is_Some (nodes v' !! j) → is_Some (nodes v !! j)) as Hback.
  { intros j Hj. destruct (decide (j = i)) as [->|Hne]; [|by rewrite <- H4].
    destruct (nodes v !! i) eqn:E; [eauto|]. rewrite H6 in Hj by done. by destruct Hj. }
  assert (∀ j, is_Some (nodes v !! j) → is_Some (nodes v' !! j)) as Hforth.
  { intros j [n Hn]. destruct (only_node_shape j n Hn) as (n' & ? & _). eauto. }
  split.
  - intros j Hj. rewrite H1. apply (wf_fresh v Hwf). auto.
  - rewrite H2. apply Hforth, (wf_root v Hwf).
  - intros j n' Hn'. apply node_ok_mono with (nodes v); [done|].
    destruct (decide (j = i)) as [->|Hne].
    + destruct (Hback i) as [n Hn]; [eauto|]. destruct (H5 n Hn) as (m & Hm & Hs & Hz). simplify_eq.
      pose proof (wf_node v Hwf i n Hn) as Hok.
      apply (node_ok_shape _ _ _ _ Hs (Hz (ok_size _ _ _ Hok)) Hok).
    + rewrite H4 in Hn' by done. by apply (wf_node v Hwf).
Qed.

Lemma only_node_find_child d name : find_child v' d name = find_child v d name.
Proof.
  destruct (nodes v !! d) as [n|] eqn:Hn.
  - destruct (only_node_shape d n Hn) as (n' & Hn' & Hs).
    apply (find_child_same v v' d n n'); [done|apply only_node_wf| |done|done|apply Hs].
    intros j m Hm. destruct (only_node_shape j m Hm) as (m' & Hm' & []). eauto.
  - unfold find_child. rewrite Hn.
    assert (nodes v' !! d = None) as ->; [|done].
    destruct (decide (d = i)) as [->|]; [by apply (on_none _ _ _ Hon) | by rewrite (on_other _ _ _ Hon)].
Qed.

Lemma only_node_resolve cs d : resolve v' d cs = resolve v d cs.
Proof.
  revert d; induction cs as [|c cs IH]; intros d; simpl; [done|].
  rewrite only_node_find_child. destruct (find_child v d c); simpl; auto.
Qed.

Lemma only_node_type j : node_type v' j = node_type v j.
Proof.
  unfold node_type. destruct (nodes v !! j) as [n|] eqn:Hn.
  - destruct (only_node_shape j n Hn) as (n' & -> & Hs). simpl. f_equal. apply Hs.
  - destruct (decide (j = i)) as [->|Hne].
    + by rewrite (on_none _ _ _ Hon Hn).
    + by rewrite (on_other _ _ _ Hon j Hne), Hn.
Qed.
End OnlyNode.
