(* ===== verification/VfsProps.v ===== *)
(** * Virtual file system: properties

    Files behave as byte sequences, descriptors stream them, and creating a file
    or a directory adds exactly one entry to the tree. *)

From Stdlib Require Import ZArith Lia.
From S2P Require Import Prelude Memory Kbd Vfs VfsInv.
Import StringC.

(** ** tmpfs *)

Lemma to_int_small n : 0 <= n < 2^31 → to_int n = n.
Proof. intros. unfold to_int. apply s32_small. lia. Qed.

Lemma contents_length n : size_ok n → len (contents n) = vn_size n.
Proof.
  unfold size_ok, contents. destruct (vn_data n) as [tf|]; [|done].
  intros (-> & ? & _). rewrite get_bytes_length. lia.
Qed.

Lemma size_ok_bound n : size_ok n → 0 <= vn_size n < 2^31.
Proof. unfold size_ok. destruct (vn_data n) as [tf|]; lia. Qed.

Lemma contents_drop tf off : 0 <= off <= tf_size tf →
  drop (Z.to_nat off) (get_bytes (tf_data tf) 0 (Z.to_nat (tf_size tf))) =
  get_bytes (tf_data tf) off (Z.to_nat (tf_size tf - off)).
Proof. intros. rewrite get_bytes_drop by lia. f_equal; lia. Qed.

Lemma tmpfs_read_spec n count off :
  size_ok n → 0 <= count → 0 <= off →
  let bs := take (Z.to_nat count) (drop (Z.to_nat off) (contents n)) in
  tmpfs_read n count off = (len bs, bs).
Proof.
  intros Hok Hc Ho bs. unfold tmpfs_read, size_ok, contents in *. subst bs.
  destruct (vn_data n) as [tf|]; [|by rewrite drop_nil, take_nil].
  destruct Hok as (Hsz & Hle & Hcap). case_if.
  - rewrite drop_ge, take_nil; [done|]. rewrite get_bytes_length. lia.
  - rewrite contents_drop by lia. case_if.
    + rewrite get_bytes_take by lia. rewrite get_bytes_length, to_int_small, Z2Nat.id by lia. done.
    + rewrite take_ge by (rewrite get_bytes_length; lia).
      rewrite get_bytes_length, to_int_small, Z2Nat.id by lia. done.
Qed.

(** The bytes of a buffer after a store at [off], read up to the new size. *)
Lemma put_bytes_splice a a' sz off buf :
  0 <= off <= sz → (∀ i, 0 <= i < sz → arr_get a' i = arr_get a i) →
  get_bytes (put_bytes a' off buf) 0 (Z.to_nat (sz `max` (off + len buf))) =
  splice off buf (get_bytes a 0 (Z.to_nat sz)).
Proof.
  intros Ho Ha. unfold splice. rewrite get_bytes_take by lia.
  destruct (decide (off + len buf <= sz)).
  - rewrite get_bytes_drop by lia. rewrite Z.max_l by lia.
    replace (Z.to_nat sz) with (Z.to_nat off + (length buf + (Z.to_nat sz - Z.to_nat (off + len buf))))%nat at 1 by lia.
    rewrite !get_bytes_app, Z.add_0_l, Z2Nat.id by lia. f_equal; [|f_equal].
    + rewrite get_put_bytes_out by lia. apply get_bytes_ext. intros. apply Ha. lia.
    + apply get_put_bytes.
    + rewrite get_put_bytes_out by lia. rewrite Z2Nat.id by lia.
      apply get_bytes_ext. intros. apply Ha. lia.
  - rewrite drop_ge by (rewrite get_bytes_length; lia). rewrite app_nil_r, Z.max_r by lia.
    replace (Z.to_nat (off + len buf)) with (Z.to_nat off + length buf)%nat by lia.
    rewrite get_bytes_app, Z.add_0_l, Z2Nat.id by lia. f_equal; [|apply get_put_bytes].
    rewrite get_put_bytes_out by lia. apply get_bytes_ext. intros. apply Ha. lia.
Qed.

Section Alloc.
Context (can_alloc : Z → vfs → bool) (fresh : vfs → array) (stack_tail : list Z).

Definition out_of_memory : Prop := ∃ k w, can_alloc k w = false.

Lemma grow_data_get tf v i : 0 <= i < tf_cap tf → arr_get (grow_data fresh tf v) i = arr_get (tf_data tf) i.
Proof.
  intros Hi. unfold grow_data. rewrite put_bytes_get, get_bytes_length.
  rewrite (proj2 (in_block_true _ _ _)) by lia.
  apply nth_lookup_Some. rewrite get_bytes_lookup by lia. f_equal. f_equal. lia.
Qed.

Lemma tmpfs_write_steps i n buf off v :
  nodes v !! i = Some n → size_ok n → 0 <= off <= vn_size n → 2 * (off + len buf) + 64 < 2^31 →
  let '(r, v') := tmpfs_write can_alloc fresh i buf off v in
  only_node i v v' ∧ ∃ n', nodes v' !! i = Some n' ∧
    (r = len buf ∧ contents n' = splice off buf (contents n) ∨
     r = -1 ∧ contents n' = contents n ∧ out_of_memory).
Proof.
  intros Hn Hok Hoff Hlen. unfold tmpfs_write. rewrite Hn.
  set (created := match vn_data n with Some tf => Some tf | None => _ end).
  assert (created = None ∧ out_of_memory ∨ ∃ tf, created = Some tf ∧
    let n1 := with_data (Some tf) n in size_ok n1 ∧ contents n1 = contents n ∧ vn_size n = tf_size tf) as Hcr.
  { unfold created, size_ok, contents, out_of_memory in *. simpl. destruct (vn_data n) as [tf|].
    - right. exists tf. split; [done|]. split; [done|]. split; [done|]. apply Hok.
    - destruct (can_alloc sizeof_tmpfs_file v) eqn:E; [right|left; eauto]. eexists. split; [done|]. simpl.
      split; [lia|]. split; [done|lia]. }
  destruct Hcr as [[-> Hoom]|(tf & -> & Hok1 & Hc1 & Hsz)].
  { split; [reflexivity|]. exists n. auto. }
  set (v1 := update_node (with_data (Some tf)) i v).
  assert (only_node i v v1) as Hon1.
  { apply only_node_update. intros n' Hn'. simplify_eq. split; [done|auto]. }
  assert (nodes v1 !! i = Some (with_data (Some tf) n)) as Hn1
    by (unfold v1; simpl; by rewrite lookup_alter_eq, Hn).
  destruct Hok1 as (Hsize & Hcap & Hbig). simpl in Hsize.
  rewrite !(u64_small (off + len buf)) by lia.
  set (grown := if tf_cap tf <? off + len buf then _ else Some tf).
  assert (grown = None ∧ out_of_memory ∨ ∃ tf', grown = Some tf' ∧ tf_size tf' = tf_size tf ∧
    off + len buf <= tf_cap tf' < 2^31 ∧ tf_cap tf <= tf_cap tf' ∧
    ∀ j, 0 <= j < tf_size tf → arr_get (tf_data tf') j = arr_get (tf_data tf) j) as Hgr.
  { unfold grown, out_of_memory. case_if; [|right; exists tf; repeat split; try done; lia].
    rewrite (u64_small (_ * 2 + 64)) by lia.
    destruct (can_alloc ((off + len buf) * 2 + 64) v1) eqn:Ea; [right|left; eauto].
    eexists. split; [done|]. simpl. split; [done|]. split; [lia|]. split; [lia|].
    intros j Hj. apply grow_data_get. lia. }
  destruct Hgr as [[-> Hoom]|(tf' & -> & Hts & Htc & Htc' & Hdata)].
  { split; [done|]. eexists. split; [done|]. auto. }
  rewrite to_int_small by lia.
  set (size := if tf_size tf' <? off + len buf then off + len buf else tf_size tf').
  assert (size = tf_size tf `max` (off + len buf)) as Hsz2 by (unfold size; case_if; lia).
  split.
  - etrans; [exact Hon1|]. apply only_node_update. intros m Hm. split; [done|]. intros _.
    unfold size_ok; simpl. lia.
  - eexists. split; [simpl; by rewrite !lookup_alter_eq, Hn|]. left. split; [done|].
    rewrite <- Hc1. unfold contents; simpl. rewrite Hsz2. apply put_bytes_splice; [lia|done].
Qed.

(** C27: tmpfs_write on a file, at an offset within it, replaces the bytes at that
    offset and extends the file when the data runs past its end; it returns the
    number of bytes, and a read of the same range returns the data.  The only
    failure is -1 when memory is exhausted, which leaves the contents alone.  No
    other file changes and the tree stays well formed. *)
Theorem tmpfs_write_correct (v : vfs) (i : nat) (n : vnode) (buf : list Z) (off : Z) :
  vfs_wf v → nodes v !! i = Some n → 0 <= off <= vn_size n → 2 * (off + len buf) + 64 < 2^31 →
  let '(r, v') := tmpfs_write can_alloc fresh i buf off v in
  vfs_wf v' ∧ (∀ j, j ≠ i → nodes v' !! j = nodes v !! j) ∧
  ∃ n', nodes v' !! i = Some n' ∧ same_shape n n' ∧
    (r = len buf ∧ contents n' = splice off buf (contents n) ∧
       tmpfs_read n' (len buf) off = (len buf, buf) ∨
     r = -1 ∧ contents n' = contents n ∧ out_of_memory).
Proof.
  intros Hwf Hn Hoff Hlen.
  pose proof (ok_size _ _ _ (wf_node v Hwf i n Hn)) as Hok.
  pose proof (tmpfs_write_steps i n buf off v Hn Hok Hoff Hlen) as H.
  destruct (tmpfs_write _ _ _ _ _ _) as [r v']. destruct H as (Hon & n' & Hn' & Hr).
  split; [by apply (only_node_wf i v)|]. split; [apply (on_other _ _ _ Hon)|].
  destruct (on_node _ _ _ Hon n Hn) as (m & Hm & Hs & Hz). simplify_eq.
  exists n'. split; [done|]. split; [done|]. destruct Hr as [[-> Hc]|?]; [left|by right].
  split; [done|]. split; [done|]. rewrite tmpfs_read_spec; [|auto|lia|lia].
  assert (take (Z.to_nat (len buf)) (drop (Z.to_nat off) (contents n')) = buf) as ->; [|done].
  rewrite Hc. unfold splice. pose proof (contents_length n Hok).
  rewrite drop_app_length' by (rewrite length_take; lia).
  rewrite Nat2Z.id. by apply take_app_length.
Qed.

(** ** Descriptors *)

(** A table of the right size in which [fd] is open on vnode [i]. *)
Definition opened (files : list file) (fd : Z) (f : file) : Prop :=
  0 <= fd < VFS_MAX_FDS ∧ files !! Z.to_nat fd = Some f ∧ f_valid f = true.

Lemma get_file_opened files fd f : opened files fd f → get_file files fd = Some f.
Proof.
  intros ([? ?] & Hf & Hv). unfold get_file.
  rewrite (proj2 (Z.ltb_ge _ _)), (proj2 (Z.leb_gt _ _)) by lia. simpl. by rewrite Hf, Hv.
Qed.

Lemma advance_opened r fd files f : opened files fd f → 0 <= r → 0 <= f_offset f → f_offset f + r < 2^64 →
  opened (advance r fd files) fd (File (f_vnode f) (f_offset f + r) true).
Proof.
  intros (Hfd & Hf & Hv) Hr Ho Hlt. unfold advance. case_if.
  - split; [done|].
    rewrite list_lookup_alter_eq, Hf. simpl. rewrite u64_small, Hv by lia. done.
  - split; [done|]. replace (f_offset f + r) with (f_offset f) by lia.
    split; [|done]. rewrite Hf, <- Hv. by destruct f.
Qed.

Lemma advance_other r fd files j : j ≠ Z.to_nat fd → advance r fd files !! j = files !! j.
Proof. intros. unfold advance. case_if; [by rewrite list_lookup_alter_ne|done]. Qed.

Lemma vfs_read_in_steps v files fd f n count :
  opened files fd f → nodes v !! f_vnode f = Some n → vn_ops n = tmpfs_file_ops → size_ok n →
  0 <= count → 0 <= f_offset f < 2^32 →
  let bs := take (Z.to_nat count) (drop (Z.to_nat (f_offset f)) (contents n)) in
  vfs_read_in v files fd count = (len bs, bs, advance (len bs) fd files) ∧
  opened (advance (len bs) fd files) fd (File (f_vnode f) (f_offset f + len bs) true).
Proof.
  intros Hop Hn Hops Hok Hc Ho bs. split.
  - unfold vfs_read_in. rewrite (get_file_opened _ _ _ Hop), Hn. unfold ops_read. rewrite Hops.
    by rewrite tmpfs_read_spec by (done || lia).
  - apply advance_opened; [done|lia|lia|].
    assert (len bs <= vn_size n).
    { rewrite <- contents_length by done. unfold bs. rewrite length_take, length_drop. lia. }
    pose proof (size_ok_bound n Hok). clearbody bs. lia.
Qed.

(** reading an open file returns the bytes at the descriptor's offset and moves
    it by as many: two consecutive reads return, in order, what one read of the
    total length returns, and leave the descriptor at the same place.  No other
    descriptor moves. *)
Theorem vfs_read_streams (v : vfs) (files : list file) (fd c1 c2 : Z) (f : file) (n : vnode) :
  vfs_wf v → opened files fd f → nodes v !! f_vnode f = Some n → vn_type n = VFS_FILE →
  0 <= c1 → 0 <= c2 → 0 <= f_offset f < 2^31 →
  let '(r1, b1, files1) := vfs_read_in v files fd c1 in
  let '(r2, b2, files2) := vfs_read_in v files1 fd c2 in
  let '(r, b, files') := vfs_read_in v files fd (c1 + c2) in
  b1 ++ b2 = b ∧ r1 + r2 = r ∧ get_file files2 fd = get_file files' fd ∧
  b = take (Z.to_nat (c1 + c2)) (drop (Z.to_nat (f_offset f)) (contents n)) ∧ r = len b ∧
  ∀ j, j ≠ Z.to_nat fd → files2 !! j = files !! j.
Proof.
  intros Hwf Hop Hn Hty Hc1 Hc2 Ho. pose proof (wf_node v Hwf _ _ Hn) as [_ _ Hops Hok].
  specialize (Hops Hty).
  pose proof (size_ok_bound n Hok) as Hlt.
  pose proof (contents_length n Hok) as Hcl.
  destruct (vfs_read_in_steps v files fd f n c1) as [-> Hop1]; [done..|lia|].
  set (b1 := take (Z.to_nat c1) _) in *.
  assert (len b1 = c1 `min` ((vn_size n - f_offset f) `max` 0)) as Hb1
    by (unfold b1; rewrite length_take, length_drop; lia).
  destruct (vfs_read_in_steps v (advance (len b1) fd files) fd _ n c2 Hop1) as [-> Hop2];
    [done..|simpl; lia|]. simpl in *.
  set (b2 := take (Z.to_nat c2) _) in *.
  destruct (vfs_read_in_steps v files fd f n (c1 + c2)) as [-> Hop3]; [done..|lia|lia|].
  set (b := take (Z.to_nat (c1 + c2)) _) in *.
  assert (b1 ++ b2 = b) as Hb.
  { unfold b. rewrite Z2Nat.inj_add, <- take_take_drop by lia. unfold b1, b2. f_equal. f_equal.
    destruct (decide (c1 <= vn_size n - f_offset f)).
    - rewrite drop_drop. f_equal. lia.
    - rewrite drop_drop, !drop_ge by lia. done. }
  rewrite <- Hb, length_app in *. split; [done|]. split; [lia|].
  rewrite (get_file_opened _ _ _ Hop2), (get_file_opened _ _ _ Hop3).
  split; [do 2 f_equal; lia|]. split; [done|]. split; [lia|].
  intros j Hj. by rewrite !advance_other.
Qed.

Lemma first_free_spec files : ∀ i,
  match first_free i files with
  | Some k => i <= k < i + len files ∧ (∃ f, files !! Z.to_nat (k - i) = Some f ∧ f_valid f = false) ∧
              ∀ j f, (j < Z.to_nat (k - i))%nat → files !! j = Some f → f_valid f = true
  | None => ∀ j f, files !! j = Some f → f_valid f = true
  end.
Proof.
  induction files as [|g files IH]; intros i; cbn [first_free]; [done|].
  destruct (f_valid g) eqn:Eg; cbn [negb].
  - specialize (IH (i + 1)). destruct (first_free (i + 1) files) as [k|].
    + destruct IH as (Hk & Hf & Hlow).
      split; [simpl length; lia|].
      replace (Z.to_nat (k - i)) with (S (Z.to_nat (k - (i + 1)))) by lia. split; [done|].
      intros [|j] f Hj Hf'; simplify_eq/=; [done|]. apply (Hlow j); [lia|done].
    + intros [|j] f Hf; simplify_eq/=; eauto.
  - split; [simpl length; lia|]. rewrite Z.sub_diag. split; [by exists g|]. intros j f Hj. simpl in Hj. lia.
Qed.

Lemma drop_lookup_valid (files : list file) (P : file → Prop) i :
  (∀ j f, (j < i)%nat → drop 3 files !! j = Some f → P f) →
  ∀ j f, (3 <= j < 3 + i)%nat → files !! j = Some f → P f.
Proof.
  intros H j f Hj Hf. apply (H (j - 3)%nat); [lia|]. rewrite lookup_drop. rewrite <- Hf. f_equal. lia.
Qed.

(** opening a path that resolves returns the lowest descriptor from 3 up that is
    not in use, now open at offset 0 on the vnode the path names, with every other
    descriptor as it was; it fails with -1, changing nothing, exactly when the path
    does not resolve or descriptors 3 to 31 are all in use.  Closing the descriptor
    makes it free again. *)
Theorem vfs_open_in_correct (v : vfs) (files : list file) (path : list Z) :
  len files = VFS_MAX_FDS →
  let '(fd, files') := vfs_open_in stack_tail v files path in
  match vfs_lookup stack_tail v path with
  | Some i =>
      (3 <= fd < VFS_MAX_FDS ∧ get_file files fd = None ∧
       (∀ d, 3 <= d < fd → is_Some (get_file files d)) ∧
       get_file files' fd = Some (File i 0 true) ∧
       (∀ d, d ≠ fd → get_file files' d = get_file files d) ∧
       ∀ d, get_file (vfs_close_in files' fd) d = get_file files d) ∨
      (fd = -1 ∧ files' = files ∧ ∀ d, 3 <= d < VFS_MAX_FDS → is_Some (get_file files d))
  | None => fd = -1 ∧ files' = files
  end.
Proof.
  intros Hlen. unfold vfs_open_in. destruct (vfs_lookup stack_tail v path) as [i|]; [|done].
  unfold VFS_MAX_FDS in *.
  assert (∀ k, 0 <= k < 32 → ∃ f, files !! Z.to_nat k = Some f) as Hall.
  { intros k Hk. apply lookup_lt_is_Some_2. lia. }
  assert (∀ d fs, 0 <= d < 32 → get_file fs d =
    match fs !! Z.to_nat d with Some f => if f_valid f then Some f else None | None => None end) as Hget.
  { intros d fs Hd. unfold get_file, VFS_MAX_FDS.
    by rewrite (proj2 (Z.ltb_ge _ _)), (proj2 (Z.leb_gt _ _)) by lia. }
  assert (∀ d fs, ¬ (0 <= d < 32) → get_file fs d = None) as Hout.
  { intros d fs Hd. unfold get_file, VFS_MAX_FDS. case_if; [done|]. lia. }
  pose proof (first_free_spec (drop 3 files) 3) as H. rewrite length_drop in H.
  destruct (first_free 3 (drop 3 files)) as [k|].
  - left. destruct H as (Hk & (f & Hf & Hfree) & Hlow). rewrite lookup_drop in Hf.
    replace (3 + Z.to_nat (k - 3))%nat with (Z.to_nat k) in Hf by lia.
    assert (∀ d, d ≠ k → get_file (<[Z.to_nat k:=File i 0 true]> files) d = get_file files d) as Hne.
    { intros d Hd. destruct (decide (0 <= d < 32)); [|by rewrite !Hout].
      rewrite !Hget by done. by rewrite list_lookup_insert_ne by lia. }
    split; [lia|]. split; [rewrite Hget by lia; by rewrite Hf, Hfree|]. split; [|split; [|split; [done|]]].
    + intros d Hd. rewrite Hget by lia. destruct (Hall d) as [g Hg]; [lia|]. rewrite Hg.
      rewrite (drop_lookup_valid _ (λ f, f_valid f = true) _ Hlow (Z.to_nat d) g); [eauto|lia|done].
    + rewrite Hget by lia. by rewrite list_lookup_insert_eq by lia.
    + intros d. unfold vfs_close_in, VFS_MAX_FDS.
      rewrite (proj2 (Z.leb_le _ _)), (proj2 (Z.ltb_lt _ _)) by lia. simpl.
      destruct (decide (0 <= d < 32)); [|by rewrite !Hout]. rewrite !Hget by done.
      destruct (decide (d = k)) as [->|Hdk].
      * rewrite list_lookup_alter_eq, list_lookup_insert_eq by lia. simpl. by rewrite Hf, Hfree.
      * rewrite list_lookup_alter_ne, list_lookup_insert_ne by lia. done.
  - right. split; [done|]. split; [done|]. intros d Hd. rewrite Hget by lia.
    destruct (Hall d) as [g Hg]; [lia|]. rewrite Hg.
    rewrite (drop_lookup_valid _ (λ f, f_valid f = true) 32 (λ j f _, H j f) (Z.to_nat d) g); [eauto|lia|done].
Qed.

(** ** New vnodes *)

(** What [vnode_create] does to a well-formed tree. *)
Record linked (d : nat) (name : list Z) (id : nat) (v v' : vfs) : Prop := {
  ln_fresh : nodes v !! id = None;
  ln_root : vfs_root v' = vfs_root v;
  ln_wf : vfs_wf v';
  ln_parent : find_child v' d name = Some id;
  ln_sibling : ∀ x, x ≠ name → find_child v' d x = find_child v d x;
  ln_other : ∀ e x, is_Some (nodes v !! e) → e ≠ d → find_child v' e x = find_child v e x;
  ln_keep : ∀ e n, nodes v !! e = Some n →
              ∃ n', nodes v' !! e = Some n' ∧ vn_type n' = vn_type n ∧ contents n' = contents n;
}.

Section Create.
Context (d : nat) (dn : vnode) (name : list Z) (ty : vnode_type) (ops : vfs_ops) (v : vfs).
Context (Hwf : vfs_wf v) (Hd : nodes v !! d = Some dn) (Hname : len name < VFS_NAME_MAX)
        (Hty : ty = VFS_FILE → ops = tmpfs_file_ops).

Let id := next_id v.
Let child := Vnode name ty 0 None ops (Some d) None (vn_children dn).
Let ns' := <[id := child]> (<[d := with_children (Some id) dn]> (nodes v)).
Let v' := Vfs ns' (S id) (vfs_root v) (kernel_fd_table v).

Lemma id_fresh : nodes v !! id = None.
Proof.
  destruct (nodes v !! id) as [n|] eqn:E; [|done].
  pose proof (wf_fresh v Hwf id ltac:(eauto)). unfold id in *. lia.
Qed.

Lemma id_ne : d ≠ id.
Proof. intros ->. by rewrite id_fresh in Hd. Qed.

Lemma created_lookup e : nodes v' !! e =
  if decide (e = id) then Some child else if decide (e = d) then Some (with_children (Some id) dn)
  else nodes v !! e.
Proof.
  pose proof id_ne. unfold v', ns'; simpl. destruct (decide (e = id)) as [->|]; [by rewrite lookup_insert_eq|].
  rewrite lookup_insert_ne by done. destruct (decide (e = d)) as [->|]; [by rewrite lookup_insert_eq|].
  by rewrite lookup_insert_ne.
Qed.

Lemma created_some e : is_Some (nodes v' !! e) ↔ e = id ∨ is_Some (nodes v !! e).
Proof.
  rewrite created_lookup. destruct (decide (e = id)) as [->|]; [naive_solver|].
  destruct (decide (e = d)) as [->|]; naive_solver.
Qed.

Lemma created_links : same_links (nodes v) (nodes v').
Proof.
  intros e n Hn. rewrite created_lookup.
  destruct (decide (e = id)) as [->|]; [by rewrite id_fresh in Hn|].
  destruct (decide (e = d)) as [->|]; [simplify_eq|]; eauto.
Qed.

Lemma created_wf : vfs_wf v'.
Proof.
  split.
  - intros e [->|He]%created_some; simpl; [lia|]. pose proof (wf_fresh v Hwf e He). unfold id. lia.
  - apply created_some. right. apply (wf_root v Hwf).
  - assert (∀ j, is_Some (nodes v !! j) → is_Some (nodes v' !! j)) as Hmono by (intros; apply created_some; auto).
    intros e n. rewrite created_lookup. destruct (decide (e = id)) as [->|].
    + intros [= <-]. split; simpl; [|done|done|done].
      intros j Hj. pose proof (ok_children _ _ _ (wf_node v Hwf d dn Hd) j Hj) as Hs.
      split; [apply (wf_fresh v Hwf j Hs)|auto].
    + destruct (decide (e = d)) as [->|].
      * intros [= <-]. pose proof (node_ok_mono _ _ _ _ Hmono (wf_node v Hwf d dn Hd)) as [H1 H2 H3 H4].
        split; [done| |done|done]. intros j [= <-]. apply created_some. auto.
      * intros Hn. apply (node_ok_mono (nodes v)); [done|]. by apply (wf_node v Hwf).
Qed.

Lemma created_children x : find_child v' d x = if decide (x = name) then Some id else find_child v d x.
Proof.
  destruct (find_child_chain v d dn Hwf Hd) as (l & Hl & ->).
  destruct (chain_same_links _ _ _ _ created_links Hl) as [Hl' Hf].
  assert (nodes v' !! id = Some child) as Hid by (rewrite created_lookup; by rewrite decide_True).
  assert (chain (nodes v') (Some id) (id :: l)) as Hc by (by econstructor).
  assert (named (nodes v') x id ↔ x = name) as Hnm
    by (unfold named; rewrite Hid; simpl; split; congruence).
  unfold find_child. rewrite created_lookup. pose proof id_ne.
  rewrite decide_False, decide_True by done. cbn [vn_children with_children].
  rewrite (find_sibling_chain _ _ _ Hc) by (pose proof (chain_length _ _ _ created_wf Hc); lia).
  rewrite filter_cons, Hf. repeat case_decide; tauto.
Qed.

Lemma created_linked : linked d name id v v'.
Proof.
  split; [apply id_fresh|done|apply created_wf|..].
  - rewrite created_children. by rewrite decide_True.
  - intros x Hx. rewrite created_children. by rewrite decide_False.
  - intros e x [n Hn] Hne. apply (find_child_same v v' e n n); [done|apply created_wf|apply created_links|done| |done].
    rewrite created_lookup, !decide_False; [done|done|]. intros ->. by rewrite id_fresh in Hn.
  - intros e n Hn. rewrite created_lookup.
    destruct (decide (e = id)) as [->|]; [by rewrite id_fresh in Hn|].
    destruct (decide (e = d)) as [->|]; [simplify_eq|]; eauto.
Qed.

Lemma vnode_create_linked :
  match vnode_create can_alloc (Some d) name ty ops v with
  | (Some i, w) => linked d name i v w ∧
      nodes w !! i = Some (Vnode name ty 0 None ops (Some d) None (vn_children dn))
  | (None, w) => w = v ∧ out_of_memory
  end.
Proof.
  unfold vnode_create. destruct (can_alloc sizeof_vnode v) eqn:E; cbn [negb]; [|split; [done|unfold out_of_memory; eauto]].
  assert (alter (with_children (Some (next_id v))) d (nodes v) = <[d := with_children (Some id) dn]> (nodes v)) as ->.
  { apply map_eq. intros e. destruct (decide (e = d)) as [->|].
    - by rewrite lookup_alter_eq, lookup_insert_eq, Hd.
    - by rewrite lookup_alter_ne, lookup_insert_ne. }
  assert (stored_name name = name) as ->.
  { unfold stored_name. apply take_ge. unfold VFS_NAME_MAX in *. lia. }
  simpl. rewrite Hd. simpl. split; [apply created_linked|]. by rewrite lookup_insert_eq.
Qed.
End Create.

Lemma resolve_in v d cs i : vfs_wf v → is_Some (nodes v !! d) → resolve v d cs = Some i → is_Some (nodes v !! i).
Proof.
  intros Hwf. revert d; induction cs as [|c cs IH]; intros d Hd; simpl; [by intros [= <-]|].
  destruct (find_child v d c) as [e|] eqn:E; [simpl|done]. apply IH.
  destruct (find_child_in v d c e Hwf E) as (n & ? & _). eauto.
Qed.

(** Every path that resolved keeps resolving to the same vnode. *)
Lemma linked_resolve d name id v v' cs e i :
  vfs_wf v → linked d name id v v' → find_child v d name = None → is_Some (nodes v !! e) →
  resolve v e cs = Some i → resolve v' e cs = Some i.
Proof.
  intros Hwf Hl Hno. revert e; induction cs as [|c cs IH]; intros e He; simpl; [done|].
  destruct (find_child v e c) as [f|] eqn:E; [simpl|done]. intros Hr.
  assert (find_child v' e c = Some f) as ->.
  { destruct (decide (e = d)) as [->|Hne].
    - rewrite (ln_sibling _ _ _ _ _ Hl); [done|]. congruence.
    - by rewrite (ln_other _ _ _ _ _ Hl). }
  simpl. apply IH; [|done]. destruct (find_child_in v e c f Hwf E) as (n & ? & _). eauto.
Qed.

(** From [v] to [v'] every path still leads where it led, and the vnodes other
    than those of [touched] keep their type and their contents. *)
Record keeps (touched : nat → Prop) (v v' : vfs) : Prop := {
  kp_wf : vfs_wf v';
  kp_root : vfs_root v' = vfs_root v;
  kp_resolve : ∀ cs i, resolve v (vfs_root v) cs = Some i → resolve v' (vfs_root v) cs = Some i;
  kp_node : ∀ j n, nodes v !! j = Some n → ¬ touched j →
    ∃ n', nodes v' !! j = Some n' ∧ vn_type n' = vn_type n ∧ contents n' = contents n;
}.

Lemma keeps_trans P Q v v' v'' : keeps P v v' → keeps Q v' v'' →
  keeps (λ j, P j ∨ Q j) v v''.
Proof.
  intros [A1 A2 A3 A4] [B1 B2 B3 B4]. split; [done|congruence| |].
  - intros cs i Hr. rewrite <- A2. apply B3. rewrite A2. auto.
  - intros j n Hn Ht. destruct (A4 j n Hn) as (n' & Hn' & Ht' & Hc'); [tauto|].
    destruct (B4 j n' Hn') as (n'' & Hn'' & Ht'' & Hc''); [tauto|]. exists n''. split; [done|]. split; congruence.
Qed.

Lemma keeps_mono (P Q : nat → Prop) v v' :
  (∀ j, is_Some (nodes v !! j) → P j → Q j) → keeps P v v' → keeps Q v v'.
Proof. intros H [A1 A2 A3 A4]. split; [done..|]. intros j n Hn HQ. apply A4; [done|]. eauto. Qed.

Lemma keeps_only i v v' : vfs_wf v → only_node i v v' → keeps (λ j, j = i) v v'.
Proof.
  intros Hwf Hon. split; [by apply (only_node_wf i v)|apply Hon| |].
  - intros cs j. by rewrite (only_node_resolve i v v').
  - intros j n Hn Hne. rewrite (on_other _ _ _ Hon j Hne). eauto.
Qed.

Lemma keeps_linked d name id v v' : vfs_wf v → linked d name id v v' → find_child v d name = None →
  keeps (λ _, False) v v'.
Proof.
  intros Hwf Hl Hno. split; [apply Hl|apply Hl| |].
  - intros cs i Hr. eapply linked_resolve; [done..| |done]. apply (wf_root v Hwf).
  - intros j n Hn _. apply (ln_keep _ _ _ _ _ Hl j n Hn).
Qed.

(** The hypotheses of the operations that add an entry [name] to directory [d]. *)
Record entry_path (v : vfs) (cs : list (list Z)) (name : list Z) (d : nat) : Prop := {
  ep_components : Forall component (cs ++ [name]);
  ep_length : len (path_of (cs ++ [name])) < VFS_MAX_PATH;
  ep_name : len name < VFS_NAME_MAX;
  ep_dir : resolve v (vfs_root v) cs = Some d;
  ep_type : node_type v d = Some VFS_DIR;
}.

Section Entry.
Context (v : vfs) (cs : list (list Z)) (name : list Z) (d : nat).
Context (Hwf : vfs_wf v) (Hep : entry_path v cs name d).
Let path := path_of (cs ++ [name]).

Lemma path_length : len path = len (path_of cs) + 1 + len name.
Proof. unfold path. rewrite path_of_snoc, length_app. simpl. lia. Qed.

Lemma entry_name : component name.
Proof.
  pose proof (ep_components _ _ _ _ Hep) as [_ H]%Forall_app.
  by inversion H.
Qed.

Lemma entry_split :
  ∃ pp, split_parent_path path VFS_MAX_PATH VFS_NAME_MAX = Some (pp, name) ∧
        vfs_lookup stack_tail v pp = Some d.
Proof.
  pose proof (ep_length _ _ _ _ Hep) as Hlen. fold path in Hlen. rewrite path_length in Hlen.
  destruct entry_name as [Hne Hs]. unfold VFS_MAX_PATH in *.
  eexists. split; [apply split_parent_path_snoc; try done; [lia|apply Hep]|].
  pose proof (ep_dir _ _ _ _ Hep) as Hdir.
  pose proof (ep_components _ _ _ _ Hep) as [Hcs _]%Forall_app.
  destruct cs as [|c cs'] eqn:Ecs; [exact Hdir|]. rewrite <- Ecs in *.
  rewrite vfs_lookup_resolve; [done|done| |unfold VFS_MAX_PATH; lia]. by rewrite Ecs.
Qed.

Lemma entry_lookup w : vfs_root w = vfs_root v → vfs_lookup stack_tail w path = resolve w (vfs_root v) (cs ++ [name]).
Proof.
  intros <-. apply vfs_lookup_resolve; [apply Hep|by destruct cs|].
  pose proof (ep_length _ _ _ _ Hep). unfold VFS_MAX_PATH in *. lia.
Qed.

Lemma entry_find : vfs_lookup stack_tail v path = find_child v d name.
Proof.
  rewrite entry_lookup by done. rewrite resolve_app, (ep_dir _ _ _ _ Hep). simpl. by destruct (find_child v d name).
Qed.

Lemma entry_node : ∃ dn, nodes v !! d = Some dn.
Proof. pose proof (ep_type _ _ _ _ Hep) as H. unfold node_type in H. destruct (nodes v !! d); [eauto|done]. Qed.

(** The result of creating the entry when the directory does not have it. *)
Lemma entry_create ty ops : (ty = VFS_FILE → ops = tmpfs_file_ops) → find_child v d name = None →
  let '(r, w) := vnode_create can_alloc (Some d) name ty ops v in
  match r with
  | Some i => keeps (λ _, False) v w ∧ nodes v !! i = None ∧ resolve w (vfs_root v) (cs ++ [name]) = Some i ∧
              (∃ n, nodes w !! i = Some n ∧ vn_type n = ty ∧ vn_ops n = ops ∧ vn_data n = None ∧
                    vn_name n = name ∧ vn_children n = None)
  | None => w = v ∧ out_of_memory
  end.
Proof.
  intros Hto Hno. destruct entry_node as [dn Hdn].
  pose proof (vnode_create_linked d dn name ty ops v Hwf Hdn (ep_name _ _ _ _ Hep) Hto) as H.
  destruct (vnode_create _ _ _ _ _ _) as [[i|] w]; [|done]. destruct H as [Hl Hi].
  assert (keeps (λ _, False) v w) as Hk by (by eapply keeps_linked).
  split; [done|]. split; [apply Hl|]. split; [|by eauto 10].
  rewrite resolve_app, (kp_resolve _ _ _ Hk _ _ (ep_dir _ _ _ _ Hep)). simpl.
  by rewrite (ln_parent _ _ _ _ _ Hl).
Qed.
End Entry.

Lemma truncate_only i v :
  let w := update_node (λ n, with_size 0
             (with_data ((λ tf, Tmpfs (tf_data tf) 0 (tf_cap tf)) <$> vn_data n) n)) i v in
  only_node i v w ∧ ∀ n, nodes v !! i = Some n → ∃ n', nodes w !! i = Some n' ∧ contents n' = [] ∧ vn_size n' = 0.
Proof.
  intros w. split.
  - apply only_node_update. intros n Hn. split; [done|]. unfold size_ok. simpl.
    destruct (vn_data n) as [tf|]; simpl; [lia|done].
  - intros n Hn. unfold w; simpl. rewrite lookup_alter_eq, Hn. eexists. split; [done|]. unfold contents; simpl.
    by destruct (vn_data n).
Qed.

Lemma fill_file i n data v :
  vfs_wf v → nodes v !! i = Some n → vn_type n = VFS_FILE → contents n = [] → vn_size n = 0 →
  2 * len data + 64 < 2^31 →
  let '(r, w) := if len data =? 0 then (0, v)
                 else let '(written, v) := tmpfs_write can_alloc fresh i data 0 v in
                      (if written =? to_int (len data) then 0 else -1, v) in
  only_node i v w ∧
  (r = 0 ∧ (∃ n', nodes w !! i = Some n' ∧ contents n' = data) ∨ r = -1 ∧ out_of_memory).
Proof.
  intros Hwf Hn Hty Hc Hs Hlen. case_if.
  { split; [reflexivity|]. left. split; [done|]. exists n. split; [done|].
    rewrite Hc. by destruct data. }
  pose proof (tmpfs_write_steps i n data 0 v Hn (ok_size _ _ _ (wf_node v Hwf i n Hn)) ltac:(lia) ltac:(lia)) as H.
  destruct (tmpfs_write _ _ _ _ _ _) as [r w]. destruct H as (Hon & n' & Hn' & Hr). split; [done|].
  rewrite to_int_small by lia. destruct Hr as [[-> Hcn]|(-> & Hcn & Hoom)].
  - left. rewrite Z.eqb_refl. split; [done|]. exists n'. split; [done|]. rewrite Hcn, Hc.
    unfold splice. by rewrite drop_nil, app_nil_r.
  - right. rewrite (proj2 (Z.eqb_neq _ _)) by lia. done.
Qed.

Lemma read_all_contents path v i n :
  vfs_wf v → vfs_lookup stack_tail v path = Some i → nodes v !! i = Some n → vn_type n = VFS_FILE →
  vfs_read_all can_alloc stack_tail path v = Some (contents n) ∨ out_of_memory.
Proof.
  intros Hwf Hlk Hn Hty. unfold vfs_read_all. rewrite Hlk, Hn, bool_decide_true by done. cbn [negb].
  pose proof (wf_node v Hwf i n Hn) as [_ _ Hops Hok]. unfold ops_read. rewrite (Hops Hty).
  pose proof (size_ok_bound n Hok). rewrite tmpfs_read_spec by (done || lia).
  assert (take (Z.to_nat (vn_size n)) (drop (Z.to_nat 0) (contents n)) = contents n) as ->.
  { apply take_ge. pose proof (contents_length n Hok). simpl. lia. }
  rewrite contents_length, u64_small by (done || lia).
  destruct (can_alloc _ v) eqn:E; [left|right; unfold out_of_memory; eauto].
  rewrite (proj2 (Z.ltb_ge _ _)), Z.eqb_refl by lia. done.
Qed.

(** The vnode [vfs_create_file] writes to: the one the path names, or a new one. *)
Lemma create_target v cs name d :
  vfs_wf v → entry_path v cs name d →
  (∀ i, find_child v d name = Some i → node_type v i = Some VFS_FILE) →
  let '(vn, w) := match find_child v d name with
    | Some i => (if decide (node_type v i = Some VFS_FILE) then Some i else None, v)
    | None => vnode_create can_alloc (Some d) name VFS_FILE tmpfs_file_ops v end in
  keeps (λ j, find_child v d name = Some j) v w ∧
  match vn with
  | Some i => (∀ j, is_Some (nodes v !! j) → j = i → find_child v d name = Some j) ∧
              resolve w (vfs_root v) (cs ++ [name]) = Some i ∧ node_type w i = Some VFS_FILE
  | None => out_of_memory
  end.
Proof.
  intros Hwf Hep Hfile. destruct (find_child v d name) as [i|] eqn:E.
  - rewrite decide_True by auto. split; [by split; eauto|].
    split; [by intros j _ ->|]. split; [|by auto].
    rewrite resolve_app, (ep_dir _ _ _ _ Hep). simpl. by rewrite E.
  - pose proof (entry_create v cs name d Hwf Hep VFS_FILE tmpfs_file_ops (λ _, eq_refl) E) as H.
    destruct (vnode_create _ _ _ _ _ _) as [[i|] w].
    + destruct H as (Hk & Hnew & Hr & (n & Hn & Ht & _)). split; [by apply (keeps_mono (λ _, False))|].
      split; [intros j [? ?] ->; congruence|]. split; [done|]. unfold node_type. by rewrite Hn, <- Ht.
    + destruct H as [-> Hoom]. split; [by split; eauto|done].
Qed.

(** The entries of the directory under other names. *)
Lemma create_target_siblings v cs name d :
  vfs_wf v → entry_path v cs name d →
  let '(vn, w) := match find_child v d name with
    | Some i => (if decide (node_type v i = Some VFS_FILE) then Some i else None, v)
    | None => vnode_create can_alloc (Some d) name VFS_FILE tmpfs_file_ops v end in
  ∀ x, x ≠ name → find_child w d x = find_child v d x.
Proof.
  intros Hwf Hep. destruct (find_child v d name); [done|]. destruct (entry_node v cs name d Hep) as [dn Hdn].
  pose proof (vnode_create_linked d dn name VFS_FILE tmpfs_file_ops v Hwf Hdn (ep_name _ _ _ _ Hep) (λ _, eq_refl)) as H.
  destruct (vnode_create _ _ _ _ _ _) as [[i|] w]; [apply H|]. by destruct H as [-> _].
Qed.

Lemma create_file_steps (v : vfs) (cs : list (list Z)) (name data : list Z) (d : nat) :
  vfs_wf v → entry_path v cs name d →
  (∀ i, find_child v d name = Some i → node_type v i = Some VFS_FILE) → 2 * len data + 64 < 2^31 →
  let path := path_of (cs ++ [name]) in
  let '(r, v') := vfs_create_file can_alloc fresh stack_tail path (Some data) (len data) v in
  (∀ x, x ≠ name → find_child v' d x = find_child v d x) ∧
  keeps (λ j, find_child v d name = Some j) v v' ∧
  (r = 0 ∧ (∃ i n, vfs_lookup stack_tail v' path = Some i ∧ nodes v' !! i = Some n ∧
             vn_type n = VFS_FILE ∧ contents n = data) ∧
     (vfs_read_all can_alloc stack_tail path v' = Some data ∨ out_of_memory) ∨
   r = -1 ∧ out_of_memory).
Proof.
  intros Hwf Hep Hfile Hlen. cbv zeta. unfold vfs_create_file.
  destruct (entry_split v cs name d Hep) as (pp & -> & ->).
  rewrite bool_decide_true by apply Hep. cbn [negb].
  rewrite (entry_find v cs name d Hep) by done.
  pose proof (create_target v cs name d Hwf Hep Hfile) as Htarget. pose proof (create_target_siblings v cs name d Hwf Hep) as Hsib.
  destruct (match find_child v d name with Some i => _ | None => _ end) as [[i|] w];
    destruct Htarget as [Hk Htg]; [|by auto]. destruct Htg as (Hin & Hr & Hty).
  destruct (truncate_only i w) as [Hon1 Htr]. set (w1 := update_node _ i w) in *.
  assert (∃ n, nodes w !! i = Some n) as [n Hn]
    by (unfold node_type in Hty; destruct (nodes w !! i); [eauto|done]).
  destruct (Htr n Hn) as (n1 & Hn1 & Hc1 & Hs1).
  pose proof (kp_wf _ _ _ Hk) as Hwfw. pose proof (only_node_wf i w w1 Hwfw Hon1) as Hwf1.
  assert (node_type w1 i = Some VFS_FILE) as Hty1 by (rewrite (only_node_type i w w1); done).
  assert (vn_type n1 = VFS_FILE) as Ht1 by (unfold node_type in Hty1; rewrite Hn1 in Hty1; by simplify_eq/=).
  pose proof (fill_file i n1 data w1 Hwf1 Hn1 Ht1 Hc1 Hs1 Hlen) as Hfill.
  destruct (if len data =? 0 then _ else _) as [r v'].
  destruct Hfill as [Hon2 Hres].
  assert (only_node i w v') as Hon by (by etrans).
  assert (keeps (λ j, find_child v d name = Some j) v v') as Hkeep.
  { eapply keeps_mono; [|apply (keeps_trans _ _ _ _ _ Hk (keeps_only i w v' Hwfw Hon))].
    intros j Hj [?|?]; [done|]. by apply Hin. }
  split; [intros x Hx; rewrite (only_node_find_child i w v' Hwfw Hon); by apply Hsib|].
  split; [done|]. destruct Hres as [[-> (n2 & Hn2 & Hc2)]|[-> Hoom]]; [left|by right].
  pose proof (kp_root _ _ _ Hkeep) as Hroot.
  assert (vfs_lookup stack_tail v' (path_of (cs ++ [name])) = Some i) as Hlk.
  { rewrite (entry_lookup v cs name d Hep v' Hroot). by rewrite (only_node_resolve i w v'). }
  assert (vn_type n2 = VFS_FILE) as Ht2.
  { pose proof (only_node_type i w v' Hon i) as Ht. unfold node_type in *. rewrite Hn2, Hty in Ht. by simplify_eq/=. }
  split; [done|]. split; [by eauto 10|].
  destruct (read_all_contents _ v' i n2 (kp_wf _ _ _ Hkeep) Hlk Hn2 Ht2) as [->|?]; [|by right].
  left. by rewrite Hc2.
Qed.

(** C12: vfs_create_file on an absolute path whose parent is an existing directory,
    and which does not name a directory or device itself, returns 0 and makes the
    path name a regular file holding exactly the given bytes, replacing what a file
    of that name held; vfs_read_all then returns them.  The only failure is -1 for
    lack of memory.  Every other path keeps its vnode and every other file its
    contents. *)
Theorem vfs_create_file_correct (v : vfs) (cs : list (list Z)) (name data : list Z) (d : nat) :
  vfs_wf v → entry_path v cs name d →
  (∀ i, find_child v d name = Some i → node_type v i = Some VFS_FILE) → 2 * len data + 64 < 2^31 →
  let path := path_of (cs ++ [name]) in
  let '(r, v') := vfs_create_file can_alloc fresh stack_tail path (Some data) (len data) v in
  keeps (λ j, find_child v d name = Some j) v v' ∧
  (r = 0 ∧ (∃ i n, vfs_lookup stack_tail v' path = Some i ∧ nodes v' !! i = Some n ∧
             vn_type n = VFS_FILE ∧ contents n = data) ∧
     (vfs_read_all can_alloc stack_tail path v' = Some data ∨ out_of_memory) ∨
   r = -1 ∧ out_of_memory).
Proof.
  intros Hwf Hep Hfile Hlen. pose proof (create_file_steps v cs name data d Hwf Hep Hfile Hlen) as H. cbv zeta in *.
  destruct (vfs_create_file _ _ _ _ _ _ _) as [r v']. apply H.
Qed.

(** vfs_mkdir on a path whose parent is an existing directory: if the name is
    taken it changes nothing and returns 0 for a directory, -1 for anything else; if
    not, it returns 0 and the path names a new empty directory, every other path and
    file being as before, or -1 with nothing changed for lack of memory. *)
Theorem vfs_mkdir_correct (v : vfs) (cs : list (list Z)) (name : list Z) (d : nat) :
  vfs_wf v → entry_path v cs name d →
  let path := path_of (cs ++ [name]) in
  let '(r, v') := vfs_mkdir can_alloc stack_tail path v in
  match find_child v d name with
  | Some i => v' = v ∧ r = (if decide (node_type v i = Some VFS_DIR) then 0 else -1)
  | None => r = -1 ∧ v' = v ∧ out_of_memory ∨
            r = 0 ∧ keeps (λ _, False) v v' ∧
            ∃ i, vfs_lookup stack_tail v' path = Some i ∧ nodes v !! i = None ∧
                 node_type v' i = Some VFS_DIR ∧ ∀ x, find_child v' i x = None
  end.
Proof.
  intros Hwf Hep. cbv zeta. unfold vfs_mkdir. rewrite (entry_find v cs name d Hep).
  destruct (find_child v d name) as [i|] eqn:E; [done|].
  destruct (entry_split v cs name d Hep) as (pp & -> & ->).
  rewrite decide_True by apply Hep.
  pose proof (entry_create v cs name d Hwf Hep VFS_DIR tmpfs_dir_ops ltac:(done) E) as H.
  destruct (vnode_create _ _ _ _ _ _) as [[i|] w]; [right|left; by destruct H].
  destruct H as (Hk & Hnew & Hr & (n & Hn & Ht & _ & _ & _ & Hch)). split; [done|]. split; [done|].
  exists i. rewrite (entry_lookup v cs name d Hep w) by apply Hk.
  split; [done|]. split; [done|]. split; [unfold node_type; by rewrite Hn, <- Ht|].
  intros x. unfold find_child. by rewrite Hn, Hch.
Qed.

(** split_parent_path succeeds exactly on an absolute path that ends in a
    non-empty last component shorter than the name buffer, with a parent shorter
    than its buffer; the parent is the text before the last slash ("/" when that is
    empty) and the name is the text after it. *)
Theorem split_parent_path_correct (path parent name : list Z) (ps ns : Z) :
  split_parent_path path ps ns = Some (parent, name) ↔
  ∃ dir, path = dir ++ slash :: name ∧ (slash ∉ name) ∧ name ≠ [] ∧ len name < ns ∧
    (dir = [] ∧ parent = [slash] ∨ dir ≠ [] ∧ head dir = Some slash ∧ parent = dir) ∧ len parent < ps.
Proof.
  assert (∀ l : list Z, l ≠ [] → 0 < len l) as Hpos by (intros [|]; simpl; [done|lia]).
  split.
  - unfold split_parent_path. destruct path as [|c [|c' path]]; [done..|].
    destruct (negb _ || _ || _) eqn:Eg; [done|]. b2p. subst c.
    destruct (break_last (slash :: c' :: path)) as [[p n]|] eqn:E; [|done].
    destruct (break_last_sound _ _ _ E) as [Hpath Hs]. case_if; [done|]. b2p. intros Heq. exists p.
    assert (name = n ∧ len parent < ps ∧ (p = [] ∧ parent = [slash] ∨ p ≠ [] ∧ head p = Some slash ∧ parent = p))
      as (-> & Hps & Hp).
    { destruct p as [|x p].
      - destruct (ps <? 2) eqn:E2; b2p; [done|]. injection Heq as <- <-. simpl. auto with lia.
      - destruct (ps <=? len (x :: p)) eqn:E2; b2p; [done|]. injection Heq as <- <-.
        split; [done|]. split; [done|]. right. split; [done|]. split; [simpl in *; congruence|done]. }
    split; [done|]. split; [done|]. split; [intros ->; done|]. auto.
  - intros (dir & -> & Hs & Hne & Hn & Hp & Hps). unfold split_parent_path.
    assert (∃ c s, dir ++ slash :: name = slash :: c :: s) as (c & s' & E).
    { destruct Hp as [[-> ->]|(Hd & Hh & ->)]; simpl.
      - destruct name; [done|eauto].
      - destruct dir as [|x dir]; [done|]. simplify_eq/=. destruct dir; simpl; eauto. }
    rewrite E. rewrite <- E, break_last_app by done. specialize (Hpos name Hne).
    rewrite (proj2 (Z.eqb_neq ps 0)), (proj2 (Z.eqb_neq ns 0)), (proj2 (Z.eqb_neq (len name) 0)),
      (proj2 (Z.leb_gt ns _)) by lia. simpl.
    destruct Hp as [[-> ->]|(Hd & Hh & ->)].
    + rewrite (proj2 (Z.ltb_ge ps 2)) by (simpl in Hps; lia). done.
    + destruct dir; [done|]. by rewrite (proj2 (Z.leb_gt ps _)) by lia.
Qed.

Lemma nth_sibling_chain ns c l : chain ns c l → ∀ fuel idx, (length l < fuel)%nat → 0 <= idx →
  nth_sibling fuel ns c idx = l !! Z.to_nat idx ≫= λ i, ns !! i.
Proof.
  induction 1 as [|i n l Hi Hc IH]; intros [|fuel] idx Hf Hidx; simpl in *; [lia|done|lia|].
  rewrite Hi. case_if; [by subst|]. replace (Z.to_nat idx) with (S (Z.to_nat (idx - 1))) by lia.
  apply IH; lia.
Qed.

(** vfs_readdir lists a directory: the entries for index 0, 1, 2, ... are the
    names and types of distinct vnodes, every name that a lookup finds in the
    directory is among them, and past the last entry the answer is -1. *)
Theorem vfs_readdir_lists (v : vfs) (path : list Z) (d : nat) :
  vfs_wf v → vfs_lookup stack_tail v path = Some d → node_type v d = Some VFS_DIR →
  ∃ l : list nat, NoDup l ∧
    (∀ name i, find_child v d name = Some i → i ∈ l ∧ vn_name <$> nodes v !! i = Some name) ∧
    ∀ idx, 0 <= idx → vfs_readdir stack_tail v path idx =
      l !! Z.to_nat idx ≫= λ i, (λ n, (vn_name n, vn_type n)) <$> nodes v !! i.
Proof.
  intros Hwf Hlk Hty. unfold node_type in Hty. destruct (nodes v !! d) as [n|] eqn:Hn; [|done].
  destruct (find_child_chain v d n Hwf Hn) as (l & Hl & Hf).
  destruct (chain_decreasing v _ l Hwf Hl) as (Hnd & _ & _).
  exists l. split; [done|]. split.
  - intros name i Hi. rewrite Hf in Hi.
    assert (i ∈ filter (named (nodes v) name) l) as [? ?]%list_elem_of_filter; [|done].
    destruct (filter _ _); simplify_eq/=. left.
  - intros idx Hidx. unfold vfs_readdir. rewrite Hlk, Hn, decide_True by (simpl in Hty; congruence).
    rewrite (nth_sibling_chain _ _ _ Hl) by (done || pose proof (chain_length _ _ _ Hwf Hl); lia).
    destruct (l !! Z.to_nat idx) as [i|]; simpl; [|done]. by destruct (nodes v !! i).
Qed.
End Alloc.

(** ** The tree built at boot *)

(** A decision procedure for [vfs_wf]. *)
Definition node_okb (ns : gmap nat vnode) (i : nat) (n : vnode) : bool :=
  match vn_next_sib n with Some j => (j <? i)%nat && bool_decide (is_Some (ns !! j)) | None => true end &&
  match vn_children n with Some j => bool_decide (is_Some (ns !! j)) | None => true end &&
  (negb (bool_decide (vn_type n = VFS_FILE)) || bool_decide (vn_ops n = tmpfs_file_ops)) &&
  match vn_data n with
  | Some tf => (vn_size n =? tf_size tf) && (0 <=? tf_size tf) && (tf_size tf <=? tf_cap tf) && (tf_cap tf <? 2^31)
  | None => vn_size n =? 0
  end.
Definition vfs_wfb (v : vfs) : bool :=
  bool_decide (is_Some (nodes v !! vfs_root v)) &&
  forallb (λ p, (p.1 <? next_id v)%nat && node_okb (nodes v) p.1 p.2) (map_to_list (nodes v)).

Lemma node_okb_sound ns i n : node_okb ns i n = true → node_ok ns i n.
Proof.
  unfold node_okb. rewrite !andb_true_iff. intros [[[H1 H2] H3] H4]. split.
  - intros j Hj. rewrite Hj in H1. apply andb_true_iff in H1 as [?%Nat.ltb_lt ?%bool_decide_eq_true]. done.
  - intros j Hj. rewrite Hj in H2. by apply bool_decide_eq_true in H2.
  - intros Ht. rewrite (bool_decide_true (vn_type n = VFS_FILE)) in H3 by done. by apply bool_decide_eq_true in H3.
  - unfold size_ok. destruct (vn_data n); b2p; auto.
Qed.

Lemma vfs_wfb_sound v : vfs_wfb v = true → vfs_wf v.
Proof.
  unfold vfs_wfb. rewrite andb_true_iff. intros [Hr Hall]. apply bool_decide_eq_true in Hr.
  rewrite forallb_forall in Hall.
  assert (∀ i n, nodes v !! i = Some n → (i < next_id v)%nat ∧ node_ok (nodes v) i n) as H.
  { intros i n Hn. specialize (Hall (i, n)). rewrite <- list_elem_of_In, elem_of_map_to_list in Hall.
    specialize (Hall Hn). apply andb_true_iff in Hall as [?%Nat.ltb_lt ?%node_okb_sound]. done. }
  split; [|done|].
  - intros i [n Hn]. apply (H i n Hn).
  - intros i n Hn. apply (H i n Hn).
Qed.

(** Lookup and directory listing as predicates on a boot tree. *)
Definition names_in (v : vfs) (path : string) : list (option (list Z * vnode_type)) :=
  map (λ k, vfs_readdir [] v (chars path) k) [0; 1; 2; 3; 4].
Definition text_of (v : vfs) (path : string) : option (list Z) :=
  vfs_read_all (λ _ _, true) [] (chars path) v.

(** vfs_init, when no allocation fails and whatever byte [b] fresh heap memory
    is filled with, builds a well-formed tree: the root lists tmp, proc, etc and dev,
    /dev lists the devices tty, zero and null, /etc the files motd and hostname with
    their texts, and no kernel descriptor is open. *)
Theorem vfs_init_tree (b : Z) :
  match vfs_init (λ _ _, true) (λ _, arr_fill b) with
  | Some v =>
      vfs_wf v ∧
      names_in v "/" = [Some (chars "tmp", VFS_DIR); Some (chars "proc", VFS_DIR); Some (chars "etc", VFS_DIR);
                        Some (chars "dev", VFS_DIR); None] ∧
      names_in v "/dev" = [Some (chars "tty", VFS_DEVICE); Some (chars "zero", VFS_DEVICE);
                           Some (chars "null", VFS_DEVICE); None; None] ∧
      names_in v "/etc" = [Some (chars "motd", VFS_FILE); Some (chars "hostname", VFS_FILE); None; None; None] ∧
      text_of v "/etc/hostname" = Some (chars "lithium" ++ [10]) ∧
      text_of v "/etc/motd" = Some motd_txt ∧
      ∀ fd, get_file (kernel_fd_table v) fd = None
  | None => False
  end.
Proof.
  set (o := vfs_init _ _).
  assert (vfs_wfb <$> o = Some true) as Hwf by (vm_compute; reflexivity).
  assert ((λ v, map (names_in v) ["/"%string; "/dev"%string; "/etc"%string]) <$> o =
    Some [[Some (chars "tmp", VFS_DIR); Some (chars "proc", VFS_DIR); Some (chars "etc", VFS_DIR);
           Some (chars "dev", VFS_DIR); None];
          [Some (chars "tty", VFS_DEVICE); Some (chars "zero", VFS_DEVICE); Some (chars "null", VFS_DEVICE); None; None];
          [Some (chars "motd", VFS_FILE); Some (chars "hostname", VFS_FILE); None; None; None]]) as Hn
    by (vm_compute; reflexivity).
  assert ((λ v, (text_of v "/etc/hostname", text_of v "/etc/motd", kernel_fd_table v)) <$> o =
    Some (Some (chars "lithium" ++ [10]), Some motd_txt, replicate 32 closed_file)) as Ht
    by (vm_compute; reflexivity).
  destruct o as [v|]; [|done]. simpl in Hwf, Hn, Ht.
  apply (inj Some) in Hwf, Hn, Ht. 
  split; [by apply vfs_wfb_sound|].
  split; [exact (f_equal (λ l, nth 0 l []) Hn)|]. split; [exact (f_equal (λ l, nth 1 l []) Hn)|].
  split; [exact (f_equal (λ l, nth 2 l []) Hn)|]. split; [exact (f_equal (λ t, t.1.1) Ht)|].
  split; [exact (f_equal (λ t, t.1.2) Ht)|].
  intros fd. unfold get_file. case_if; [done|]. rewrite (f_equal snd Ht : kernel_fd_table v = _). cbn [snd].
  assert (∀ k (l : list file), Forall (λ f, f_valid f = false) l →
    match l !! k with Some f => if f_valid f then Some f else None | None => None end = None) as Hinv.
  { intros k l Hl. destruct (l !! k) as [f|] eqn:E'; [|done].
    by rewrite (Forall_lookup_1 _ _ _ _ Hl E'). }
  apply Hinv. repeat constructor.
Qed.

(** ** Applications to the boot tree *)

Definition always (_ : Z) (_ : vfs) : bool := true.
Definition zeroed (_ : vfs) : array := arr_fill 0.
Definition no_vfs : vfs := Vfs ∅ 0 0 [].
Definition boot_vfs : vfs := default no_vfs (vfs_init always zeroed).
Definition node_at (v : vfs) (i : nat) : vnode :=
  default (Vnode [] VFS_FILE 0 None dev_tty_ops None None None) (nodes v !! i).

Lemma boot_vfs_wf : vfs_wf boot_vfs.
Proof. apply vfs_wfb_sound. vm_compute. reflexivity. Qed.

Lemma always_memory : ¬ out_of_memory always.
Proof. intros (k & w & H). discriminate H. Qed.

(** One descriptor, 3, open on /etc/hostname (vnode 6). *)
Definition one_open : list file := <[3%nat := File 6 0 true]> (replicate 32 closed_file).

Lemma tmpfs_write_correct_witness :
  let '(r, v') := tmpfs_write always zeroed 6 (chars "XY") 3 boot_vfs in
  r = 2 ∧ contents (node_at v' 6) = chars "litXYum" ++ [10].
Proof.
  pose proof (tmpfs_write_correct always zeroed boot_vfs 6 (node_at boot_vfs 6) (chars "XY") 3 boot_vfs_wf
    ltac:(vm_compute; reflexivity) ltac:(vm_compute; split; congruence) ltac:(vm_compute; reflexivity)) as H.
  destruct (tmpfs_write _ _ _ _ _ _) as [r v']. destruct H as (_ & _ & n' & Hn' & _ & Hr).
  destruct Hr as [(-> & Hc & _)|(_ & _ & Hoom)]; [|destruct (always_memory Hoom)].
  split; [reflexivity|]. unfold node_at. rewrite Hn'. simpl. rewrite Hc. vm_compute. reflexivity.
Defined.

Lemma vfs_read_streams_witness :
  let '(_, b1, files1) := vfs_read_in boot_vfs one_open 3 5 in
  let '(_, b2, _) := vfs_read_in boot_vfs files1 3 100 in
  b1 ++ b2 = chars "lithium" ++ [10].
Proof.
  pose proof (vfs_read_streams boot_vfs one_open 3 5 100 (File 6 0 true) (node_at boot_vfs 6) boot_vfs_wf
    ltac:(repeat split; vm_compute; congruence) ltac:(vm_compute; reflexivity) ltac:(vm_compute; reflexivity)
    ltac:(lia) ltac:(lia) ltac:(simpl; lia)) as H.
  destruct (vfs_read_in boot_vfs one_open 3 5) as [[r1 b1] files1].
  destruct (vfs_read_in boot_vfs files1 3 100) as [[r2 b2] files2].
  destruct (vfs_read_in boot_vfs one_open 3 (5 + 100)) as [[r b] files'].
  destruct H as (-> & _ & _ & -> & _). vm_compute. reflexivity.
Defined.

Lemma vfs_open_in_correct_witness :
  let '(fd, files) := vfs_open_in [] boot_vfs one_open (chars "/etc/motd") in
  fd = 4 ∧ get_file files 3 = Some (File 6 0 true).
Proof.
  pose proof (vfs_open_in_correct [] boot_vfs one_open (chars "/etc/motd") ltac:(vm_compute; reflexivity)) as H.
  assert ((vfs_open_in [] boot_vfs one_open (chars "/etc/motd")).1 = 4) as Hfd by (vm_compute; reflexivity).
  assert (vfs_lookup [] boot_vfs (chars "/etc/motd") = Some 7%nat) as Hlk by (vm_compute; reflexivity).
  rewrite Hlk in H. destruct (vfs_open_in _ _ _ _) as [fd files]. simpl in Hfd. subst fd. split; [reflexivity|].
  destruct H as [(_ & _ & _ & _ & Hne & _)|[Hm _]]; [|discriminate Hm].
  rewrite Hne by discriminate. vm_compute. reflexivity.
Defined.

Lemma tmp_entry name : component name → len name < VFS_NAME_MAX → entry_path boot_vfs [chars "tmp"] name 9.
Proof.
  intros Hc Hn. split; [|  |done|vm_compute; reflexivity|vm_compute; reflexivity].
  - repeat constructor; [done|vm_compute; set_solver|apply Hc|apply Hc].
  - rewrite path_of_snoc, length_app. simpl length. unfold VFS_MAX_PATH, VFS_NAME_MAX in *. lia.
Qed.

Lemma note_component : component (chars "note").
Proof. split; [discriminate|]. vm_compute. set_solver. Qed.

Lemma vfs_create_file_correct_witness :
  let '(r, v') := vfs_create_file always zeroed [] (path_of [chars "tmp"; chars "note"]) (Some (chars "hello")) 5 boot_vfs in
  r = 0 ∧ vfs_read_all always [] (path_of [chars "tmp"; chars "note"]) v' = Some (chars "hello").
Proof.
  pose proof (vfs_create_file_correct always zeroed [] boot_vfs [chars "tmp"] (chars "note") (chars "hello") 9 boot_vfs_wf
    (tmp_entry _ note_component ltac:(vm_compute; reflexivity)) ltac:(vm_compute; congruence)
    ltac:(vm_compute; reflexivity)) as H.
  cbv zeta in H. change ([chars "tmp"] ++ [chars "note"]) with [chars "tmp"; chars "note"] in H.
  change (len (chars "hello")) with 5 in H.
  destruct (vfs_create_file _ _ _ _ _ _ _) as [r v'].
  destruct H as [_ [(-> & _ & Hr)|[_ Hoom]]]; [|destruct (always_memory Hoom)].
  split; [reflexivity|]. destruct Hr as [Hr|Hoom]; [exact Hr|destruct (always_memory Hoom)].
Defined.

Lemma vfs_mkdir_correct_witness :
  let '(r, v') := vfs_mkdir always [] (path_of [chars "tmp"; chars "note"]) boot_vfs in
  r = 0 ∧ ∃ i, vfs_lookup [] v' (path_of [chars "tmp"; chars "note"]) = Some i ∧ node_type v' i = Some VFS_DIR.
Proof.
  pose proof (vfs_mkdir_correct always zeroed [] boot_vfs [chars "tmp"] (chars "note") 9 boot_vfs_wf
    (tmp_entry _ note_component ltac:(vm_compute; reflexivity))) as H.
  cbv zeta in H. change ([chars "tmp"] ++ [chars "note"]) with [chars "tmp"; chars "note"] in H.
  replace (find_child boot_vfs 9 (chars "note")) with (@None nat) in H by (vm_compute; reflexivity).
  destruct (vfs_mkdir _ _ _ _) as [r v'].
  destruct H as [(_ & _ & Hoom)|(-> & _ & i & Hl & _ & Ht & _)]; [destruct (always_memory Hoom)|].
  split; [reflexivity|]. exists i. split; assumption.
Defined.

Lemma vfs_readdir_lists_witness :
  ∃ l : list nat, NoDup l ∧ vfs_readdir [] boot_vfs (chars "/etc") 1 =
    l !! 1%nat ≫= λ i, (λ n, (vn_name n, vn_type n)) <$> nodes boot_vfs !! i.
Proof.
  destruct (vfs_readdir_lists [] boot_vfs (chars "/etc") 5 boot_vfs_wf ltac:(vm_compute; reflexivity)
    ltac:(vm_compute; reflexivity)) as (l & Hnd & _ & Hl).
  exists l. split; [exact Hnd|]. apply (Hl 1). lia.
Defined.
