(* ===== verification/Path.v ===== *)
(** * Path arguments of system calls ([kernel/syscall/syscall.c]): the model

    Normalisation of absolute paths and resolution against the working
    directory.  The output buffer is the text before its terminator; its size is
    the argument the C code checks against. *)

From Stdlib Require Import ZArith Lia.
From S2P Require Import Prelude Memory Kbd Vfs.
Import StringC.

Definition EINVAL : Z := 22.
Definition dot : Z := 46.

(** [while (len > 1 && out[len - 1] != '/') len--] *)
Fixpoint pop_scan (out : list Z) (n : nat) : nat :=
  match n with
  | S n' => if (1 <? n)%nat && negb (nth n' out 0 =? slash) then pop_scan out n' else n
  | O => O
  end.

Definition path_pop (out : list Z) : list Z :=
  if (length out <=? 1)%nat then out
  else let n := pop_scan out (length out) in
       take (if (1 <? n)%nat then n - 1 else n)%nat out.

(** [inr] is the new text, [inl] an error code. *)
Definition path_push (out : list Z) (cap : Z) (name : list Z) : Z + list Z :=
  if len name =? 0 then inl (- EINVAL)
  else
    let need := len out + (if 1 <? len out then 1 else 0) + len name + 1 in
    if cap <? need then inl (- EINVAL)
    else inr ((if 1 <? len out then out ++ [slash] else out) ++ name).

Fixpoint skip_slashes (p : list Z) : list Z :=
  match p with c :: p' => if c =? slash then skip_slashes p' else p | [] => [] end.

(** The part up to the next slash or the end, and what follows it. *)
Fixpoint span_part (p : list Z) : list Z * list Z :=
  match p with
  | [] => ([], [])
  | c :: p' => if c =? slash then ([], p)
               else let '(part, rest) := span_part p' in (c :: part, rest)
  end.

(** The outer loop; each round consumes at least one character. *)
Fixpoint normalize_loop (fuel : nat) (p out : list Z) (cap : Z) : Z + list Z :=
  match fuel, p with
  | _, [] => inr out
  | O, _ => inl 0
  | S f, _ =>
      let '(part, rest) := span_part (skip_slashes p) in
      if len part =? 0 then inr out
      else if bool_decide (part = [dot]) then normalize_loop f rest out cap
      else if bool_decide (part = [dot; dot]) then normalize_loop f rest (path_pop out) cap
      else match path_push out cap part with
           | inl e => inl e
           | inr out' => normalize_loop f rest out' cap
           end
  end.

Definition normalize_absolute_path (input : list Z) (cap : Z) : Z + list Z :=
  if (cap <? 2) || negb (bool_decide (head input = Some slash)) then inl (- EINVAL)
  else normalize_loop (length input) input [slash] cap.

(** [cwd] is the current task's directory, [None] when there is no task. *)
Definition resolve_path (cwd : option (list Z)) (path : list Z) (cap : Z) : Z + list Z :=
  match path with
  | [] => inl (- EINVAL)
  | c :: _ =>
      if c =? slash then normalize_absolute_path path cap
      else match cwd with
           | None => inl (- EINVAL)
           | Some cwd =>
               let need := len cwd + (if 1 <? len cwd then 1 else 0) + len path + 1 in
               if VFS_MAX_PATH <? need then inl (- EINVAL)
               else normalize_absolute_path ((if 1 <? len cwd then cwd ++ [slash] else cwd) ++ path) cap
           end
  end.

Example normalize_vector :
  normalize_absolute_path (chars "//usr/./lib/../bin///sh/") 256 = inr (chars "/usr/bin/sh").
Proof. reflexivity. Qed.
Example resolve_vector : resolve_path (Some (chars "/tmp/a")) (chars "../../../etc") 256 = inr (chars "/etc").
Proof. reflexivity. Qed.
