(* ===== verification/PathProps.v ===== *)
(** * Path arguments: properties

    Normalisation is a walk over the components of the path with a stack, and its
    result is in the canonical form that [vfs_lookup] resolves. *)

From Stdlib Require Import ZArith Lia.
From S2P Require Import Prelude Memory Kbd Vfs VfsInv Path.
Import StringC.

(** ** The specification *)

(** The non-empty stretches between slashes. *)
Fixpoint parts_from (acc p : list Z) : list (list Z) :=
  let flush := match acc with [] => [] | _ => [acc] end in
  match p with
  | [] => flush
  | c :: p' => if c =? slash then flush ++ parts_from [] p' else parts_from (acc ++ [c]) p'
  end.
Definition parts (p : list Z) : list (list Z) := parts_from [] p.

Definition render (cs : list (list Z)) : list Z := match cs with [] => [slash] | _ => path_of cs end.

(** "." stays, ".." goes up (and stays at the root), a name goes down unless the
    text would not fit a buffer of [cap] bytes. *)
Fixpoint walk_path (cap : Z) (cs ps : list (list Z)) : option (list (list Z)) :=
  match ps with
  | [] => Some cs
  | p :: ps' =>
      if decide (p = [dot]) then walk_path cap cs ps'
      else if decide (p = [dot; dot]) then walk_path cap (removelast cs) ps'
      else if cap <? len (render (cs ++ [p])) + 1 then None
      else walk_path cap (cs ++ [p]) ps'
  end.

Definition name_component (c : list Z) : Prop := component c ∧ c ≠ [dot] ∧ c ≠ [dot; dot].

(** ** Components *)

Lemma span_part_spec p part rest : span_part p = (part, rest) →
  p = part ++ rest ∧ (slash ∉ part) ∧ (rest = [] ∨ ∃ r, rest = slash :: r).
Proof.
  revert part rest; induction p as [|c p IH]; intros part rest; simpl.
  - intros [= <- <-]. split; [done|]. split; [apply not_elem_of_nil|auto].
  - case_if; [intros [= <- <-]; subst; split; [done|]; split; [apply not_elem_of_nil|eauto]|].
    destruct (span_part p) as [part' rest']. intros [= <- <-].
    destruct (IH part' rest' eq_refl) as (-> & Hs & Hr). split; [done|]. split; [|done].
    apply not_elem_of_cons. auto.
Qed.

Lemma parts_skip p : parts (skip_slashes p) = parts p.
Proof.
  induction p as [|c p IH]; cbn [skip_slashes]; [done|].
  destruct (c =? slash) eqn:E; [|done]. unfold parts in *. cbn [parts_from]. rewrite E. exact IH.
Qed.

Lemma parts_from_part part : ∀ acc rest, slash ∉ part → acc ++ part ≠ [] →
  (rest = [] ∨ ∃ r, rest = slash :: r) →
  parts_from acc (part ++ rest) = (acc ++ part) :: parts rest.
Proof.
  induction part as [|c part IH]; intros acc rest Hs Hne Hr; simpl.
  - rewrite app_nil_r in *. destruct acc as [|a acc]; [done|].
    destruct Hr as [->|[r ->]]; simpl; [done|]. unfold parts. simpl. done.
  - apply not_elem_of_cons in Hs as [Hc Hs]. rewrite (proj2 (Z.eqb_neq _ _)) by done.
    rewrite IH; [|done| |done]; rewrite <- (assoc_L (++)); [done|]. by destruct acc.
Qed.

Lemma parts_part part rest : slash ∉ part → part ≠ [] → (rest = [] ∨ ∃ r, rest = slash :: r) →
  parts (part ++ rest) = part :: parts rest.
Proof. intros. by apply (parts_from_part part []). Qed.

Lemma parts_path_of cs rest : Forall component cs → (rest = [] ∨ ∃ r, rest = slash :: r) →
  parts (path_of cs ++ rest) = cs ++ parts rest.
Proof.
  intros Hcs Hr. induction Hcs as [|c cs [Hne Hs] _ IH]; [done|].
  unfold path_of in *; simpl. unfold parts; simpl. fold (parts ((c ++ concat (map (cons slash) cs)) ++ rest)).
  rewrite <- (assoc_L (++)), parts_part; [by rewrite IH|done..|].
  destruct cs; simpl; eauto.
Qed.

Lemma skip_slashes_length p : (length (skip_slashes p) <= length p)%nat.
Proof. induction p as [|c p IH]; simpl; [done|]. case_if; simpl; lia. Qed.

(** ** Push and pop on rendered paths *)

Lemma path_of_cons_length c cs : component c → 2 <= len (path_of (c :: cs)).
Proof.
  intros [Hne _]. unfold path_of; simpl. rewrite length_app. destruct c; [done|]. simpl. lia.
Qed.

Lemma render_snoc cs c : cs ≠ [] → render (cs ++ [c]) = render cs ++ slash :: c.
Proof. intros. destruct cs as [|x cs]; [done|]. exact (path_of_snoc (x :: cs) c). Qed.

Lemma path_push_render cs cap name : Forall component cs → name ≠ [] →
  path_push (render cs) cap name =
    if cap <? len (render (cs ++ [name])) + 1 then inl (- EINVAL) else inr (render (cs ++ [name])).
Proof.
  intros Hcs Hne. unfold path_push.
  rewrite (proj2 (Z.eqb_neq (len name) 0)) by (destruct name; simpl; [done|lia]).
  destruct cs as [|c cs].
  - change (1 <? len (render [])) with false. cbn [app render path_of map concat]. rewrite app_nil_r.
    replace (len [slash] + 0 + len name + 1) with (len (slash :: name) + 1) by (simpl length; lia). done.
  - apply Forall_cons in Hcs as [Hc _]. pose proof (path_of_cons_length c cs Hc) as Hl.
    rewrite render_snoc by done. cbn [render].
    rewrite (proj2 (Z.ltb_lt 1 _)) by lia. rewrite length_app. change (length (slash :: name)) with (S (length name)).
    rewrite <- (assoc_L (++)).
    replace (len (path_of (c :: cs)) + 1 + len name + 1)
      with (Z.of_nat (length (path_of (c :: cs)) + S (length name)) + 1) by lia. done.
Qed.

Lemma pop_scan_stop out c : slash ∉ c → ∀ k, (k <= length c)%nat →
  pop_scan (out ++ slash :: c) (length out + 1 + k) = (length out + 1)%nat.
Proof.
  intros Hs k. induction k as [|k IH]; intros Hk.
  - replace (length out + 1 + 0)%nat with (S (length out)) by lia. simpl.
    rewrite app_nth2, Nat.sub_diag by lia. simpl.
    replace (length out + 1)%nat with (S (length out)) by lia. by destruct (length out).
  - replace (length out + 1 + S k)%nat with (S (length out + 1 + k)) by lia. cbn [pop_scan].
    rewrite (proj2 (Nat.ltb_lt _ _)) by lia.
    replace (length out + 1 + k)%nat with (length (out ++ [slash]) + k)%nat at 1 by (rewrite length_app; simpl; lia).
    replace (out ++ slash :: c) with ((out ++ [slash]) ++ c) at 1 by (by rewrite <- (assoc_L (++))).
    rewrite app_nth2_plus. destruct (lookup_lt_is_Some_2 c k) as [x Hx]; [lia|].
    rewrite (nth_lookup_Some c k 0 x Hx), (proj2 (Z.eqb_neq _ _)).
    + apply IH. lia.
    + intros ->. apply Hs. by apply list_elem_of_lookup_2 in Hx.
Qed.

Lemma path_pop_render cs : Forall component cs → path_pop (render cs) = render (removelast cs).
Proof.
  destruct cs as [|c cs _] using rev_ind; [done|]. intros [Hcs Hc]%Forall_app.
  apply Forall_inv in Hc as [Hne Hs]. rewrite removelast_last. unfold path_pop.
  assert (render (cs ++ [c]) = path_of (cs ++ [c])) as -> by (by destruct cs).
  rewrite path_of_snoc. rewrite length_app. cbn [length].
  assert (0 < length c)%nat by (destruct c; simpl; [done|lia]).
  rewrite (proj2 (Nat.leb_gt _ 1)) by lia.
  replace (length (path_of cs) + S (length c))%nat with (length (path_of cs) + 1 + length c)%nat by lia.
  rewrite pop_scan_stop by done.
  destruct cs as [|c' cs]; [done|].
  apply Forall_cons in Hcs as [Hc' _]. pose proof (path_of_cons_length c' cs Hc').
  rewrite (proj2 (Nat.ltb_lt 1 _)) by lia. rewrite Nat.add_sub.
  by rewrite take_app_length.
Qed.

Lemma Forall_removelast {A} (P : A → Prop) l : Forall P l → Forall P (removelast l).
Proof.
  destruct l as [|x l _] using rev_ind; [done|]. rewrite removelast_last. by intros [? _]%Forall_app.
Qed.

(** The loop computes the walk. *)
Lemma normalize_loop_walk cap fuel : ∀ p cs, Forall component cs → (length p <= fuel)%nat →
  normalize_loop fuel p (render cs) cap =
    match walk_path cap cs (parts p) with Some cs' => inr (render cs') | None => inl (- EINVAL) end.
Proof.
  induction fuel as [|fuel IH]; intros p cs Hcs Hf; [by destruct p; [|simpl in Hf; lia]|].
  destruct p as [|x p']; [done|]. set (p := x :: p') in *. cbn [normalize_loop].
  change (match p with [] => inr (render cs) | _ :: _ => ?e end) with e.
  rewrite <- parts_skip. pose proof (skip_slashes_length p) as Hsk.
  assert (length p = S (length p')) as Hlp by done.
  destruct (span_part (skip_slashes p)) as [part rest] eqn:E.
  apply span_part_spec in E as (Hp & Hs & Hr).
  destruct part as [|y part].
  - assert (parts (skip_slashes p) = []) as ->; [|done].
    destruct Hr as [Hr|[r Hr]]; rewrite Hp, Hr; [done|].
    exfalso. clear -Hp Hr. rewrite Hr in Hp. cbn [app] in Hp. clear Hr. revert Hp.
    generalize p as q. induction q as [|z q IHq]; cbn [skip_slashes]; [done|].
    case_if; [done|]. intros [= ->]. done.
  - rewrite Hp, length_app in Hsk. simpl in Hsk.
    rewrite Hp, parts_part by done. cbn [walk_path].
    rewrite (proj2 (Z.eqb_neq _ 0)) by (simpl; lia).
    destruct (decide (y :: part = [dot])) as [Ed|Ed].
    { rewrite bool_decide_true by done. apply IH; [done|lia]. }
    rewrite bool_decide_false by done.
    destruct (decide (y :: part = [dot; dot])) as [Edd|Edd].
    { rewrite bool_decide_true by done. rewrite path_pop_render by done.
      apply IH; [by apply Forall_removelast|lia]. }
    rewrite bool_decide_false by done. rewrite path_push_render by done.
    case_if; [done|]. apply IH; [|lia]. apply Forall_app. split; [done|]. by apply Forall_singleton.
Qed.

Lemma normalize_walk input cap : head input = Some slash → 2 <= cap →
  normalize_absolute_path input cap =
    match walk_path cap [] (parts input) with Some cs => inr (render cs) | None => inl (- EINVAL) end.
Proof.
  intros Hh Hcap. unfold normalize_absolute_path.
  rewrite (proj2 (Z.ltb_ge _ _)), bool_decide_true by done. simpl.
  change [slash] with (render []). by apply normalize_loop_walk.
Qed.

Lemma parts_from_components p : ∀ acc, slash ∉ acc → Forall component (parts_from acc p).
Proof.
  induction p as [|c p IH]; intros acc Ha; cbn [parts_from].
  - destruct acc; [done|]. constructor; [done|constructor].
  - destruct (Z.eqb_spec c slash).
    + apply Forall_app. split; [|apply IH, not_elem_of_nil].
      destruct acc; [done|]. constructor; [done|constructor].
    + apply IH. rewrite not_elem_of_app, list_elem_of_singleton. auto.
Qed.

(** Every stack of the walk is a canonical path that fits the buffer. *)
Definition canonical (cap : Z) (cs : list (list Z)) : Prop :=
  Forall name_component cs ∧ len (render cs) < cap.

Lemma render_removelast_length cs : Forall component cs → len (render (removelast cs)) <= len (render cs).
Proof.
  destruct cs as [|c cs _] using rev_ind; [done|]. intros _. rewrite removelast_last.
  destruct cs as [|c' cs]; [simpl; lia|]. rewrite render_snoc, length_app by done. lia.
Qed.

Lemma name_components cs : Forall name_component cs → Forall component cs.
Proof. intros H. eapply Forall_impl; [exact H|]. by intros ? [? _]. Qed.

Lemma walk_canonical cap ps : ∀ cs cs', Forall component ps → canonical cap cs →
  walk_path cap cs ps = Some cs' → canonical cap cs'.
Proof.
  induction ps as [|p ps IH]; intros cs cs' Hps Hcs; cbn [walk_path]; [by intros [= <-]|].
  apply Forall_cons in Hps as [Hp Hps]. destruct Hcs as [Hcs Hlen].
  case_decide; [apply IH; done|]. case_decide.
  - apply IH; [done|]. split; [by apply Forall_removelast|].
    pose proof (render_removelast_length cs (name_components cs Hcs)). lia.
  - case_if; [done|]. apply IH; [done|]. split; [|lia].
    apply Forall_app. split; [done|]. constructor; [done|constructor].
Qed.

(** A walk along names only pushes them, as long as the whole fits. *)
Lemma walk_names cap ps : ∀ cs, Forall name_component ps → Forall component cs →
  len (render (cs ++ ps)) < cap → walk_path cap cs ps = Some (cs ++ ps).
Proof.
  induction ps as [|p ps IH]; intros cs Hps Hcs Hlen; cbn [walk_path]; [by rewrite app_nil_r|].
  apply Forall_cons in Hps as [(Hp & Hd & Hdd) Hps]. rewrite !decide_False by done.
  replace (cs ++ p :: ps) with ((cs ++ [p]) ++ ps) in * by (by rewrite <- (assoc_L (++))).
  assert (len (render (cs ++ [p])) <= len (render ((cs ++ [p]) ++ ps))) as Hle.
  { assert (∀ xs, xs ≠ [] → len (render xs) <= len (render (xs ++ ps))) as H; [|apply H; by destruct cs].
    intros xs Hxs. destruct xs as [|x xs]; [done|]. cbn [render app]. unfold path_of.
    change (x :: xs ++ ps) with ((x :: xs) ++ ps). rewrite map_app, concat_app, length_app. lia. }
  rewrite (proj2 (Z.ltb_ge _ _)) by lia. apply IH; [done| |done].
  apply Forall_app. split; [done|]. by constructor.
Qed.

Lemma walk_path_app cap ps ps' : ∀ cs,
  walk_path cap cs (ps ++ ps') = walk_path cap cs ps ≫= λ cs', walk_path cap cs' ps'.
Proof.
  induction ps as [|p ps IH]; intros cs; cbn [walk_path app]; [done|].
  case_decide; [apply IH|]. case_decide; [apply IH|]. case_if; [done|apply IH].
Qed.

Lemma parts_render cs : Forall component cs → parts (render cs) = cs.
Proof.
  intros Hcs. destruct cs as [|c cs]; [done|].
  pose proof (parts_path_of (c :: cs) [] Hcs (or_introl eq_refl)) as H. by rewrite !app_nil_r in H.
Qed.

Lemma normalize_canonical cap cs : canonical cap cs → 2 <= cap →
  normalize_absolute_path (render cs) cap = inr (render cs).
Proof.
  intros [Hcs Hlen] Hcap. rewrite normalize_walk; [|by destruct cs|done].
  rewrite parts_render by (by apply name_components). by rewrite (walk_names cap cs []).
Qed.

(** normalize_absolute_path walks the components of an absolute path: empty ones
    and "." are dropped, ".." removes the last component kept (and nothing at the
    root), any other is appended; the only error is -EINVAL, exactly when some
    intermediate path with its terminator would not fit the buffer. *)
Theorem normalize_absolute_path_correct (input : list Z) (cap : Z) :
  head input = Some slash → 2 <= cap →
  normalize_absolute_path input cap =
    match walk_path cap [] (parts input) with Some cs => inr (render cs) | None => inl (- EINVAL) end.
Proof. apply normalize_walk. Qed.


(** resolve_path on a relative path continues from the working directory: with a
    canonical working directory it is the walk of the path's components from the
    directory's, or -EINVAL when the joined text does not fit 256 bytes.  On an
    absolute path the working directory does not matter. *)
Theorem resolve_path_correct (cwd : list (list Z)) (path : list Z) (cap : Z) :
  canonical cap cwd → 2 <= cap → path ≠ [] →
  resolve_path (Some (render cwd)) path cap =
    if bool_decide (head path = Some slash)
    then match walk_path cap [] (parts path) with Some cs => inr (render cs) | None => inl (- EINVAL) end
    else if VFS_MAX_PATH <? len (render cwd) + (if decide (cwd = []) then 0 else 1) + len path + 1
    then inl (- EINVAL)
    else match walk_path cap cwd (parts path) with Some cs => inr (render cs) | None => inl (- EINVAL) end.
Proof.
  intros [Hcs Hlen] Hcap Hne. pose proof (name_components _ Hcs) as Hcomp.
  destruct path as [|c path]; [done|]. unfold resolve_path.
  destruct (Z.eqb_spec c slash) as [->|Hc].
  { rewrite bool_decide_true by done. by rewrite normalize_walk. }
  rewrite bool_decide_false by (simpl; congruence).
  assert ((1 <? len (render cwd)) = negb (bool_decide (cwd = []))) as ->.
  { destruct cwd as [|d cwd]; [done|]. apply Forall_cons in Hcomp as [Hd _].
    pose proof (path_of_cons_length d cwd Hd). cbn [render]. apply Z.ltb_lt. lia. }
  destruct cwd as [|d cwd].
  - rewrite bool_decide_true, decide_True by done. cbn [negb]. case_if; [done|]. rewrite normalize_walk by done. done.
  - rewrite bool_decide_false, decide_False by done. cbn [negb]. case_if; [done|].
    rewrite normalize_walk by done. cbn [render]. rewrite <- (assoc_L (++)).
    rewrite parts_path_of by (simpl; eauto). rewrite walk_path_app.
    rewrite (walk_names cap (d :: cwd) []) by done. done.
Qed.

Definition cwd_ab : list (list Z) := [chars "a"; chars "b"].

Lemma cwd_ab_canonical : canonical 256 cwd_ab.
Proof. split; [|vm_compute; reflexivity]. repeat constructor; vm_compute; set_solver. Qed.

Lemma normalize_absolute_path_correct_witness :
  normalize_absolute_path (chars "/a/./b/../c") 256 = inr (chars "/a/c").
Proof.
  rewrite (normalize_absolute_path_correct (chars "/a/./b/../c") 256 ltac:(reflexivity) ltac:(lia)).
  vm_compute. reflexivity.
Defined.


Lemma resolve_path_correct_witness :
  resolve_path (Some (render cwd_ab)) (chars "../c/.") 256 = inr (chars "/a/c").
Proof.
  rewrite (resolve_path_correct cwd_ab (chars "../c/.") 256 cwd_ab_canonical ltac:(lia) ltac:(discriminate)).
  vm_compute. reflexivity.
Defined.
