(* ===== verification/Exec.v ===== *)
(** * The initial stack of a program ([kernel/syscall/syscall.c])

    [build_exec_stack] lays out the argument strings and the pointer table in the
    page that becomes the top of the new program's stack.  The page is a memory
    indexed by offset; [argv] and [envp] are the strings collected before. *)

From Stdlib Require Import ZArith Lia.
From S2P Require Import Prelude Memory.
Import StringC.

Definition E2BIG : Z := 7.
Definition EXEC_EINVAL : Z := 22.
Definition EXEC_MAX_ARGS : Z := 16.
Definition EXEC_STR_MAX : Z := 128.
Definition EXEC_PAGE : Z := 4096.
Definition USER_STACK_TOP : Z := 0x40100000.
Definition stack_base : Z := USER_STACK_TOP - EXEC_PAGE.

(** The page and [sp]; [None] is -E2BIG. *)
Definition push_exec_qword (st : mem * Z) (value : Z) : option (mem * Z) :=
  let '(stack, sp) := st in
  if sp <? 8 then None else Some (write64 stack (sp - 8) value, sp - 8).

Definition place_exec_string (st : mem * Z) (s : list Z) : option (mem * Z * Z) :=
  let '(stack, sp) := st in
  let n := len s + 1 in
  if sp <? n then None
  else Some (store_bytes stack (sp - n) (s ++ [0]), sp - n, stack_base + (sp - n)).

(** The loop over one vector; the pointers in order. *)
Fixpoint place_strings (st : mem * Z) (ss : list (list Z)) : option (mem * Z * list Z) :=
  match ss with
  | [] => Some (st, [])
  | s :: ss' =>
      '(st1, p) ← place_exec_string st s;
      '(st2, ps) ← place_strings st1 ss';
      Some (st2, p :: ps)
  end.

(** [for (i = n; i > 0; i--) push(ptrs[i - 1])] *)
Fixpoint push_pointers (st : mem * Z) (ps : list Z) : option (mem * Z) :=
  match ps with
  | [] => Some st
  | p :: ps' => st' ← push_pointers st ps'; push_exec_qword st' p
  end.

(** The page and the initial stack pointer, or an error code. *)
Definition build_exec_stack (page : mem) (argv envp : list (list Z)) : Z + mem * Z :=
  let argc := len argv in
  let envc := len envp in
  if (EXEC_MAX_ARGS <? argc) || (EXEC_MAX_ARGS <? envc) then inl (- EXEC_EINVAL)
  else
    let stack := memset page 0 0 EXEC_PAGE in
    let result :=
      '(st, argv_ptrs) ← place_strings (stack, EXEC_PAGE) argv;
      '((stack, sp), envp_ptrs) ← place_strings st envp;
      let sp := sp .& ~64 15 in
      let pointer_bytes := (1 + argc + 1 + envc + 1) * 8 in
      if sp <? pointer_bytes then None
      else
        sp ← (if negb ((sp - pointer_bytes) .& 15 =? 0)
              then (if sp <? 8 then None else Some (sp - 8)) else Some sp);
        st ← push_exec_qword (stack, sp) 0;
        st ← push_pointers st envp_ptrs;
        st ← push_exec_qword st 0;
        st ← push_pointers st argv_ptrs;
        push_exec_qword st argc in
    match result with
    | Some (stack, sp) => inr (stack, stack_base + sp)
    | None => inl (- E2BIG)
    end.

(** ** Lemmas *)

(** Bytes that fit before the terminator of a string. *)
Definition text (s : list Z) : Prop := Forall (λ c, 0 < c < 2^8) s.

Definition strings_size (ss : list (list Z)) : Z := foldr (λ s n, len s + 1 + n) 0 ss.

Lemma strings_size_nonneg ss : 0 <= strings_size ss.
Proof. induction ss; simpl; lia. Qed.

Lemma store_bytes_other l : ∀ m a b, b < a ∨ a + len l <= b → read8 (store_bytes m a l) b = read8 m b.
Proof.
  induction l as [|c l IH]; intros m a b Hb; simpl in *; [done|].
  rewrite IH by lia. apply read8_write8_ne. lia.
Qed.

Lemma store_bytes_cstr s : ∀ m a, text s → cstr (store_bytes m a (s ++ [0])) a s.
Proof.
  induction s as [|c s IH]; intros m a Hs; simpl.
  - apply read8_write8_eq.
  - apply Forall_cons in Hs as [Hc Hs]. split; [|split; [lia|by apply IH]].
    rewrite store_bytes_other by lia. rewrite read8_write8_eq. apply u8_small. lia.
Qed.

(** The strings [ss] lie in [lo, hi) and [ps] points at them in order. *)
Definition strings_at (m : mem) (lo hi : Z) (ss : list (list Z)) (ps : list Z) : Prop :=
  length ps = length ss ∧
  ∀ i s, ss !! i = Some s →
    ∃ p, ps !! i = Some (stack_base + p) ∧ lo <= p ∧ p + len s < hi ∧ cstr m p s.

Lemma strings_at_ext m m' lo hi ss ps :
  (∀ b, lo <= b < hi → read8 m' b = read8 m b) → strings_at m lo hi ss ps → strings_at m' lo hi ss ps.
Proof.
  intros He [Hl H]. split; [done|]. intros i s Hs. destruct (H i s Hs) as (p & ? & ? & ? & Hc).
  exists p. split_and!; [done..|]. eapply cstr_ext; [|exact Hc]. intros b Hb. symmetry. apply He. lia.
Qed.

Lemma place_strings_spec ss : ∀ m sp, Forall text ss → 0 <= sp →
  match place_strings (m, sp) ss with
  | Some (m', sp', ps) =>
      sp' = sp - strings_size ss ∧ 0 <= sp' ∧ strings_at m' sp' sp ss ps ∧
      ∀ b, b < sp' ∨ sp <= b → read8 m' b = read8 m b
  | None => sp < strings_size ss
  end.
Proof.
  induction ss as [|s ss IH]; intros m sp Hss Hsp; cbn [place_strings].
  { simpl. split_and!; [lia|lia| |done]. split; [done|]. intros i s Hs. by rewrite lookup_nil in Hs. }
  apply Forall_cons in Hss as [Hs Hss]. simpl. pose proof (strings_size_nonneg ss).
  case_if; [simpl; lia|]. simpl.
  set (m1 := store_bytes m (sp - (len s + 1)) (s ++ [0])).
  assert (∀ b, b < sp - (len s + 1) ∨ sp <= b → read8 m1 b = read8 m b) as Hm1.
  { intros b Hb. apply store_bytes_other. rewrite length_app. simpl. lia. }
  specialize (IH m1 (sp - (len s + 1)) Hss ltac:(lia)).
  destruct (place_strings (m1, sp - (len s + 1)) ss) as [[[m2 sp2] ps]|]; simpl; [|lia].
  destruct IH as (-> & Hnn & [Hlen Hat] & Hkeep). split_and!; [lia|lia| |].
  - split; [simpl; lia|]. intros [|i] t Ht; simplify_eq/=.
    + exists (sp - (len t + 1)). split_and!; [done|lia|lia|].
      eapply cstr_ext; [|apply store_bytes_cstr; exact Hs]. intros b Hb. symmetry. apply Hkeep. lia.
    + destruct (Hat i t Ht) as (p & ? & ? & ? & ?). exists p. split_and!; [done|lia|lia|done].
  - intros b Hb. rewrite Hkeep by lia. apply Hm1. lia.
Qed.

(** The qwords [vs] lie at [a] in order. *)
Definition qwords_at (m : mem) (a : Z) (vs : list Z) : Prop :=
  ∀ i v, vs !! i = Some v → read64 m (a + 8 * Z.of_nat i) = v.

Lemma push_pointers_spec vs : ∀ m sp, Forall (λ v, 0 <= v < 2^64) vs → 8 * len vs <= sp →
  ∃ m', push_pointers (m, sp) vs = Some (m', sp - 8 * len vs) ∧ qwords_at m' (sp - 8 * len vs) vs ∧
        ∀ b, b < sp - 8 * len vs ∨ sp <= b → read8 m' b = read8 m b.
Proof.
  induction vs as [|v vs IH]; intros m sp Hvs Hsp.
  { exists m. simpl. split_and!; [by rewrite Z.sub_0_r| |done]. intros i v Hv. by rewrite lookup_nil in Hv. }
  apply Forall_cons in Hvs as [Hv Hvs]. cbn [length] in *.
  destruct (IH m sp Hvs ltac:(lia)) as (m' & Hpush & Hq & Hkeep). simpl. rewrite Hpush. simpl.
  rewrite (proj2 (Z.ltb_ge _ _)) by lia.
  replace (sp - 8 * Z.of_nat (S (length vs))) with (sp - 8 * len vs - 8) by lia.
  eexists. split; [done|]. split.
  - intros [|i] w Hw; simplify_eq/=.
    + rewrite Z.add_0_r. by apply read64_write64_eq.
    + rewrite read64_write64_ne by lia. rewrite <- (Hq i w Hw). f_equal. lia.
  - intros b Hb. rewrite read8_write64_ne by lia. apply Hkeep. lia.
Qed.

Lemma push_pointers_app st vs ws :
  push_pointers st (vs ++ ws) = push_pointers st ws ≫= λ st', push_pointers st' vs.
Proof.
  induction vs as [|v vs IH]; simpl.
  - by destruct (push_pointers st ws).
  - rewrite IH. by destruct (push_pointers st ws).
Qed.

(** The five pushes of the code as one. *)
Lemma push_table st argv_ptrs envp_ptrs argc :
  (st ← push_exec_qword st 0;
   st ← push_pointers st envp_ptrs;
   st ← push_exec_qword st 0;
   st ← push_pointers st argv_ptrs;
   push_exec_qword st argc) = push_pointers st (argc :: argv_ptrs ++ 0 :: envp_ptrs ++ [0]).
Proof.
  cbn [push_pointers]. rewrite push_pointers_app. cbn [push_pointers]. rewrite push_pointers_app.
  cbn [push_pointers]. change (Some st ≫= λ st', push_exec_qword st' 0) with (push_exec_qword st 0).
  destruct (push_exec_qword st 0) as [st1|]; [simpl|done].
  destruct (push_pointers st1 envp_ptrs) as [st2|]; [simpl|done].
  by destruct (push_exec_qword st2 0) as [st3|].
Qed.

Lemma strings_at_pointers m lo hi ss ps :
  0 <= lo → hi <= EXEC_PAGE → strings_at m lo hi ss ps → Forall (λ v, 0 <= v < 2^64) ps.
Proof.
  intros Hlo Hhi [Hl H]. apply Forall_lookup_2. intros i v Hv.
  destruct (lookup_lt_is_Some_2 ss i) as [s Hs]; [rewrite <- Hl; by eapply lookup_lt_Some|].
  destruct (H i s Hs) as (p & Hp & ? & ? & _). rewrite Hv in Hp. simplify_eq.
  unfold EXEC_PAGE, stack_base, USER_STACK_TOP, EXEC_PAGE in *. lia.
Qed.

(** Room for the strings and, below them at a 16-byte boundary, the table. *)
Definition exec_fits (argv envp : list (list Z)) : Prop :=
  let room := EXEC_PAGE - strings_size argv - strings_size envp in
  0 <= room ∧ 8 * (len argv + len envp + 3) <= room / 16 * 16.

Lemma align_sp sp argc envc (e := sp .& ~64 15) (pb := (1 + argc + 1 + envc + 1) * 8) :
  0 <= sp <= EXEC_PAGE → 0 <= argc → 0 <= envc → pb <= e →
  let sp' := if negb ((e - pb) .& 15 =? 0) then (if e <? 8 then None else Some (e - 8)) else Some e in
  ∃ k, sp' = Some k ∧ pb <= k <= sp ∧ (k - pb) mod 16 = 0.
Proof.
  intros Hsp Ha He Hpb. cbv zeta. unfold EXEC_PAGE in *.
  assert (e = sp / 16 * 16) as Ee by (apply (land_lnot_low sp 4); lia).
  change 15 with (2^4 - 1). rewrite land_low_mod by lia. change (2^4) with 16.
  assert ((e - pb) mod 16 = 0 ∨ (e - pb) mod 16 = 8) as Hmod.
  { rewrite Ee. unfold pb. replace (sp / 16 * 16 - (1 + argc + 1 + envc + 1) * 8)
      with (8 * (sp / 16 * 2 - (argc + envc + 3))) by lia.
    rewrite (Z.mul_mod_distr_l _ 2 8) by lia.
    pose proof (Z.mod_pos_bound (sp / 16 * 2 - (argc + envc + 3)) 2 ltac:(lia)). lia. }
  pose proof (Z.mul_div_le sp 16 ltac:(lia)).
  destruct Hmod as [Hm|Hm]; rewrite Hm; simpl.
  - exists e. split; [done|]. split; [lia|done].
  - pose proof (Z.mod_le (e - pb) 16 ltac:(lia) ltac:(lia)).
    rewrite (proj2 (Z.ltb_ge _ _)) by (unfold pb in *; lia). exists (e - 8). split; [done|]. split; [lia|].
    replace (e - 8 - pb) with (e - pb - 8) by lia.
    rewrite Zminus_mod, Hm. done.
Qed.

(** One bind of the option monad whose first half is known. *)
Ltac bind_step :=
  match goal with
  | |- context [Some ?x ≫= ?f] => change (Some x ≫= f) with (f x); cbv beta iota
  | |- context [@None ?A ≫= ?f] => change (@None A ≫= f) with (@None (mem * Z)); cbv beta iota
  end.

(** C21: build_exec_stack succeeds exactly when the strings and the pointer table fit
    the page, and returns -E2BIG otherwise.  On success the initial stack pointer is
    16-byte aligned and points at the table the System V ABI prescribes: argc, the
    argv pointers, NULL, the envp pointers, NULL; every pointer leads to the
    NUL-terminated copy of its string, inside the page and above the table. *)
Theorem build_exec_stack_correct (page : mem) (argv envp : list (list Z)) :
  Forall text argv → Forall text envp → len argv <= EXEC_MAX_ARGS → len envp <= EXEC_MAX_ARGS →
  match build_exec_stack page argv envp with
  | inr (stack, rsp) =>
      exec_fits argv envp ∧ rsp mod 16 = 0 ∧ stack_base <= rsp ∧
      let sp := rsp - stack_base in
      let top := sp + 8 * (len argv + len envp + 3) in
      ∃ argv_ptrs envp_ptrs,
        qwords_at stack sp (len argv :: argv_ptrs ++ 0 :: envp_ptrs ++ [0]) ∧
        strings_at stack top EXEC_PAGE argv argv_ptrs ∧ strings_at stack top EXEC_PAGE envp envp_ptrs
  | inl e => e = - E2BIG ∧ ¬ exec_fits argv envp
  end.
Proof.
  intros Ha He Hac Hec. unfold build_exec_stack, exec_fits. rewrite !(proj2 (Z.ltb_ge EXEC_MAX_ARGS _)) by done.
  cbn [orb]. generalize (memset page 0 0 EXEC_PAGE). intros m0.
  pose proof (strings_size_nonneg argv). pose proof (strings_size_nonneg envp).
  pose proof (place_strings_spec argv m0 EXEC_PAGE Ha ltac:(unfold EXEC_PAGE; lia)) as H1.
  destruct (place_strings (m0, EXEC_PAGE) argv) as [[[m1 sp1] ap]|]; bind_step; [|lia].
  destruct H1 as (Esp1 & Hsp1 & Hat1 & _).
  pose proof (place_strings_spec envp m1 sp1 He Hsp1) as H2.
  destruct (place_strings (m1, sp1) envp) as [[[m2 sp2] ep]|]; bind_step; [|lia].
  destruct H2 as (Esp2 & Hsp2 & Hat2 & Hk2).
  replace (EXEC_PAGE - strings_size argv - strings_size envp) with sp2 by lia.
  assert (sp2 .& ~64 15 = sp2 / 16 * 16) as Ealign
    by (apply (land_lnot_low sp2 4); unfold EXEC_PAGE in *; lia).
  destruct (sp2 .& ~64 15 <? _) eqn:Eroom; b2p; [lia|].
  destruct (align_sp sp2 (len argv) (len envp)) as (k & -> & Hk & Hmod); [lia..|]. bind_step.
  pose proof (push_table (m2, k) ap ep (len argv)) as ->.
  set (table := len argv :: ap ++ 0 :: ep ++ [0]).
  assert (len table = len argv + len envp + 3) as Htl.
  { unfold table. cbn [length]. rewrite length_app. cbn [length]. rewrite length_app, (proj1 Hat1), (proj1 Hat2). simpl. lia. }
  destruct (push_pointers_spec table m2 k) as (m3 & -> & Hq & Hk3); [|lia|].
  { unfold table. pose proof (strings_at_pointers m1 sp1 EXEC_PAGE argv ap Hsp1 ltac:(lia) Hat1).
    pose proof (strings_at_pointers m2 sp2 sp1 envp ep Hsp2 ltac:(lia) Hat2).
    unfold EXEC_MAX_ARGS in *.
    constructor; [lia|]. apply Forall_app. split; [done|]. constructor; [lia|]. apply Forall_app. split; [done|].
    by repeat constructor. }
  rewrite Htl in *. split; [lia|].
  replace (stack_base + (k - 8 * (len argv + len envp + 3)) - stack_base)
    with (k - 8 * (len argv + len envp + 3)) by lia.
  split; [|split; [lia|]].
  { rewrite Z.add_mod by lia. change (stack_base mod 16) with 0.
    rewrite Z.add_0_l, Z.mod_mod by lia. rewrite <- Hmod. f_equal. lia. }
  replace (k - 8 * (len argv + len envp + 3) + 8 * (len argv + len envp + 3)) with k by lia.
  exists ap, ep. split; [done|].
  assert (strings_at m3 sp1 EXEC_PAGE argv ap) as [Hl1 Hs1].
  { eapply strings_at_ext; [|exact Hat1]. intros b Hb. rewrite Hk3 by lia. apply Hk2. lia. }
  assert (strings_at m3 sp2 sp1 envp ep) as [Hl2 Hs2].
  { eapply strings_at_ext; [|exact Hat2]. intros b Hb. apply Hk3. lia. }
  split; (split; [done|]); intros i s Hs.
  - destruct (Hs1 i s Hs) as (p & ? & ? & ? & ?). exists p. split_and!; [done|lia|lia|done].
  - destruct (Hs2 i s Hs) as (p & ? & ? & ? & ?). exists p. split_and!; [done|lia|lia|done].
Qed.

Definition sample_argv : list (list Z) := [[115; 104]; [45; 99]].

Lemma build_exec_stack_correct_witness :
  match build_exec_stack (arr_fill 7) sample_argv [] with
  | inr (stack, rsp) => rsp mod 16 = 0 ∧ read64 stack (rsp - stack_base) = 2
  | inl _ => False
  end.
Proof.
  pose proof (build_exec_stack_correct (arr_fill 7) sample_argv []
    ltac:(repeat constructor) ltac:(constructor) ltac:(vm_compute; congruence) ltac:(vm_compute; congruence)) as H.
  assert (match build_exec_stack (arr_fill 7) sample_argv [] with inl _ => false | inr _ => true end = true) as Hok
    by (vm_compute; reflexivity).
  destruct (build_exec_stack (arr_fill 7) sample_argv []) as [e|[stack rsp]]; [discriminate Hok|].
  destruct H as (_ & Hm & _ & ap & ep & Hq & _). split; [exact Hm|].
  pose proof (Hq 0%nat _ eq_refl) as H0. rewrite Z.add_0_r in H0. exact H0.
Defined.
