(* ===== verification/Sched.v ===== *)
(** * Tasks and the scheduler ([kernel/sched/task.c], [kernel/sched/sched.c]): the model

    A [task_t *] is a key of [tasks]; the run queue is the ring of [t_next]
    pointers.  The list that [all_tasks] (or [zombie_tasks]) heads is the sequence
    of its members: a task's [all_next] or [zombie_next] is the member after it and
    NULL outside the list.  The interrupt flag, the saved stack pointers that
    context_switch exchanges and the messages on the console are left out.

    The heap and the page tables enter by their answers: [stack] is the address of a
    new kernel stack and [cr3] the root of a new address space. *)

From Stdlib Require Import ZArith Lia.
From S2P Require Import Prelude Memory Kbd Vfs.
Import StringC.

Definition TASK_NAME_MAX : Z := 32.
Definition TASK_STACK_SIZE : Z := 8 * 1024.
Definition TASK_USER_STACK_TOP : Z := 0x40100000.
Definition USER_MMAP_BASE : Z := 0x50000000.
Definition WNOHANG : Z := 1.
Definition ECHILD : Z := 10.
Definition T_EINVAL : Z := 22.
Definition ENOMEM : Z := 12.

Inductive task_state := TASK_READY | TASK_RUNNING | TASK_BLOCKED | TASK_DEAD.
#[export] Instance task_state_eq_dec : EqDecision task_state.
Proof. solve_decision. Defined.

Definition task_state_number (s : task_state) : Z :=
  match s with TASK_READY => 0 | TASK_RUNNING => 1 | TASK_BLOCKED => 2 | TASK_DEAD => 3 end.

Record syscall_frame := Frame {
  fr_r15 : Z; fr_r14 : Z; fr_r13 : Z; fr_r12 : Z; fr_r11 : Z; fr_r10 : Z; fr_r9 : Z; fr_r8 : Z;
  fr_rbp : Z; fr_rdi : Z; fr_rsi : Z; fr_rdx : Z; fr_rcx : Z; fr_rbx : Z; fr_rax : Z;
  user_rip : Z; user_rflags : Z; user_rsp : Z;
}.
Definition with_rax (v : Z) (f : syscall_frame) : syscall_frame :=
  Frame (fr_r15 f) (fr_r14 f) (fr_r13 f) (fr_r12 f) (fr_r11 f) (fr_r10 f) (fr_r9 f) (fr_r8 f)
    (fr_rbp f) (fr_rdi f) (fr_rsi f) (fr_rdx f) (fr_rcx f) (fr_rbx f) v
    (user_rip f) (user_rflags f) (user_rsp f).

(** Where a new task starts. *)
Inductive start := task_trampoline | user_mode_enter | fork_return_to_user.

(** The words [build_initial_stack] leaves at the saved stack pointer, lowest
    address first, and the frame [fork] copies below the stack top. *)
Record kstack := Kstack { ks_rsp : Z; ks_words : list Z; ks_ret : start; ks_frame : option syscall_frame }.

(** The memory map of a user program. *)
Record layout := Layout {
  user_entry : Z; user_stack_top : Z; brk_base : Z; brk_current : Z; mmap_next : Z;
}.

Record task := Task {
  t_kstack : kstack;
  t_cr3 : Z;
  t_pid : Z;
  t_state : task_state;
  t_name : list Z;
  t_stack_base : Z;
  t_user_mode : bool;
  t_layout : layout;
  t_cwd : list Z;
  t_files : list file;
  t_parent : option nat;
  t_exit_code : Z;
  t_ticks : Z;
  t_next : option nat;
}.

Record sched := Sched {
  tasks : gmap nat task;
  current_task : option nat;
  next_pid : Z;
  all_tasks : list nat;
  zombie_tasks : list nat;
  init_task : option nat;
  run_queue_head : option nat;
  task_count : Z;
  idle_task : option nat;
  reg_cr3 : Z;
  tss_rsp0 : Z;
  syscall_kernel_stack_top : Z;
}.

(** ** Updates *)

Definition set_state (st : task_state) (t : task) : task :=
  Task (t_kstack t) (t_cr3 t) (t_pid t) st (t_name t) (t_stack_base t) (t_user_mode t) (t_layout t)
    (t_cwd t) (t_files t) (t_parent t) (t_exit_code t) (t_ticks t) (t_next t).
Definition set_parent (p : option nat) (t : task) : task :=
  Task (t_kstack t) (t_cr3 t) (t_pid t) (t_state t) (t_name t) (t_stack_base t) (t_user_mode t) (t_layout t)
    (t_cwd t) (t_files t) p (t_exit_code t) (t_ticks t) (t_next t).
Definition set_next (n : option nat) (t : task) : task :=
  Task (t_kstack t) (t_cr3 t) (t_pid t) (t_state t) (t_name t) (t_stack_base t) (t_user_mode t) (t_layout t)
    (t_cwd t) (t_files t) (t_parent t) (t_exit_code t) (t_ticks t) n.
Definition set_exit_code (c : Z) (t : task) : task :=
  Task (t_kstack t) (t_cr3 t) (t_pid t) (t_state t) (t_name t) (t_stack_base t) (t_user_mode t) (t_layout t)
    (t_cwd t) (t_files t) (t_parent t) c (t_ticks t) (t_next t).
Definition add_tick (t : task) : task :=
  Task (t_kstack t) (t_cr3 t) (t_pid t) (t_state t) (t_name t) (t_stack_base t) (t_user_mode t) (t_layout t)
    (t_cwd t) (t_files t) (t_parent t) (t_exit_code t) (u64 (t_ticks t + 1)) (t_next t).

Definition set_tasks (ts : gmap nat task) (s : sched) : sched :=
  Sched ts (current_task s) (next_pid s) (all_tasks s) (zombie_tasks s) (init_task s) (run_queue_head s)
    (task_count s) (idle_task s) (reg_cr3 s) (tss_rsp0 s) (syscall_kernel_stack_top s).
Definition update_task (f : task → task) (i : nat) (s : sched) : sched := set_tasks (alter f i (tasks s)) s.
Definition set_lists (all zombies : list nat) (s : sched) : sched :=
  Sched (tasks s) (current_task s) (next_pid s) all zombies (init_task s) (run_queue_head s)
    (task_count s) (idle_task s) (reg_cr3 s) (tss_rsp0 s) (syscall_kernel_stack_top s).
Definition set_queue (h : option nat) (n : Z) (s : sched) : sched :=
  Sched (tasks s) (current_task s) (next_pid s) (all_tasks s) (zombie_tasks s) (init_task s) h
    n (idle_task s) (reg_cr3 s) (tss_rsp0 s) (syscall_kernel_stack_top s).
Definition set_init (i : option nat) (s : sched) : sched :=
  Sched (tasks s) (current_task s) (next_pid s) (all_tasks s) (zombie_tasks s) i (run_queue_head s)
    (task_count s) (idle_task s) (reg_cr3 s) (tss_rsp0 s) (syscall_kernel_stack_top s).
Definition set_current (c : option nat) (s : sched) : sched :=
  Sched (tasks s) c (next_pid s) (all_tasks s) (zombie_tasks s) (init_task s) (run_queue_head s)
    (task_count s) (idle_task s) (reg_cr3 s) (tss_rsp0 s) (syscall_kernel_stack_top s).
Definition set_next_pid (p : Z) (s : sched) : sched :=
  Sched (tasks s) (current_task s) p (all_tasks s) (zombie_tasks s) (init_task s) (run_queue_head s)
    (task_count s) (idle_task s) (reg_cr3 s) (tss_rsp0 s) (syscall_kernel_stack_top s).
Definition set_kernel_stack (stack_top : Z) (s : sched) : sched :=
  Sched (tasks s) (current_task s) (next_pid s) (all_tasks s) (zombie_tasks s) (init_task s) (run_queue_head s)
    (task_count s) (idle_task s) (reg_cr3 s) stack_top stack_top.
Definition set_reg_cr3 (cr3 : Z) (s : sched) : sched :=
  Sched (tasks s) (current_task s) (next_pid s) (all_tasks s) (zombie_tasks s) (init_task s) (run_queue_head s)
    (task_count s) (idle_task s) cr3 (tss_rsp0 s) (syscall_kernel_stack_top s).
Definition set_idle (i : option nat) (s : sched) : sched :=
  Sched (tasks s) (current_task s) (next_pid s) (all_tasks s) (zombie_tasks s) (init_task s) (run_queue_head s)
    (task_count s) i (reg_cr3 s) (tss_rsp0 s) (syscall_kernel_stack_top s).

(** Fields through a pointer; a pointer to no task has no field. *)
Definition state_of (s : sched) (i : nat) : option task_state := t_state <$> tasks s !! i.
Definition next_of (s : sched) (i : nat) : option nat := tasks s !! i ≫= t_next.
Definition parent_of (s : sched) (i : nat) : option nat := tasks s !! i ≫= t_parent.

Definition runnable (st : option task_state) : bool :=
  bool_decide (st = Some TASK_READY) || bool_decide (st = Some TASK_RUNNING).

(** [if (t->state == TASK_BLOCKED) t->state = TASK_READY] *)
Definition wake (i : nat) (s : sched) : sched :=
  if bool_decide (state_of s i = Some TASK_BLOCKED) then update_task (set_state TASK_READY) i s else s.

(** ** Run queue *)

Definition sched_init (s : sched) : sched := set_queue None 0 s.

Definition sched_add (t : nat) (s : sched) : sched :=
  match run_queue_head s with
  | None => set_queue (Some t) (u32 (task_count s + 1)) (update_task (set_next (Some t)) t s)
  | Some head =>
      let insert_after := default head (current_task s) in
      let s := update_task (set_next (next_of s insert_after)) t s in
      let s := update_task (set_next (Some t)) insert_after s in
      set_queue (run_queue_head s) (u32 (task_count s + 1)) s
  end.

(** [while (prev->next != t && prev->next != run_queue_head) prev = prev->next] *)
Fixpoint find_prev (fuel : nat) (s : sched) (head t prev : nat) : nat :=
  match fuel with
  | O => prev
  | S f =>
      if bool_decide (next_of s prev = Some t) || bool_decide (next_of s prev = Some head) then prev
      else match next_of s prev with Some n => find_prev f s head t n | None => prev end
  end.

Definition sched_remove (t : nat) (s : sched) : sched :=
  match run_queue_head s with
  | None => s
  | Some head =>
      if task_count s =? 0 then s
      else
        let prev := find_prev (Z.to_nat (task_count s)) s head t head in
        if bool_decide (next_of s prev = Some t) then
          let s' := if bool_decide (next_of s t = Some t) then set_queue None (task_count s) s
                    else
                      let s' := update_task (set_next (next_of s t)) prev s in
                      if bool_decide (head = t) then set_queue (next_of s t) (task_count s) s' else s' in
          set_queue (run_queue_head s') (u32 (task_count s' - 1)) s'
        else s
  end.

(** ** Task lists *)

Definition task_register (t : nat) (s : sched) : sched :=
  let s := update_task (set_parent (current_task s)) t s in
  let s := if bool_decide (t_pid <$> tasks s !! t = Some 1) then set_init (Some t) s else s in
  set_lists (t :: all_tasks s) (zombie_tasks s) s.

Definition task_unregister (t : nat) (s : sched) : sched :=
  set_lists (filter (λ i, i ≠ t) (all_tasks s)) (zombie_tasks s) s.

(** The parent that orphans get. *)
Definition foster (parent : nat) (s : sched) : option nat :=
  match init_task s with
  | Some i => if negb (i =? parent)%nat && negb (bool_decide (state_of s i = Some TASK_DEAD))
              then Some i else None
  | None => None
  end.

Definition adopt (parent : nat) (new_parent : option nat) (t : nat) (s : sched) : sched :=
  if bool_decide (parent_of s t = Some parent) then update_task (set_parent new_parent) t s else s.

Definition reparent_children (parent : nat) (s : sched) : sched :=
  let new_parent := foster parent s in
  let s := foldl (λ s t, adopt parent new_parent t s) s (all_tasks s) in
  match new_parent with Some p => wake p s | None => s end.

(** The member after [t] in a list without duplicates. *)
Fixpoint after (t : nat) (l : list nat) : option nat :=
  match l with
  | [] => None
  | x :: l' => if (x =? t)%nat then head l' else after t l'
  end.

Definition task_zombify (t : nat) (s : sched) : sched :=
  match after t (zombie_tasks s) with
  | Some _ => s
  | None =>
      let s := reparent_children t s in
      let s := set_lists (all_tasks s) (t :: zombie_tasks s) s in
      match parent_of s t with Some p => wake p s | None => s end
  end.

(** [(int)t->pid == pid] with [pid] an [int]. *)
Definition pid_matches (pid : Z) (t : task) : bool := (pid =? -1) || (s32 (t_pid t) =? pid).

Definition child_of (s : sched) (parent : option nat) (pid : Z) (i : nat) : bool :=
  match tasks s !! i with
  | Some t => bool_decide (t_parent t = parent) && pid_matches pid t
  | None => false
  end.

Definition task_has_child (s : sched) (parent : option nat) (pid : Z) : bool :=
  existsb (child_of s parent pid) (all_tasks s).

Definition take_zombie (parent : option nat) (pid : Z) (s : sched) : option nat * sched :=
  match find (child_of s parent pid) (zombie_tasks s) with
  | Some z =>
      let s := set_lists (all_tasks s) (filter (λ i, i ≠ z) (zombie_tasks s)) s in
      (Some z, task_unregister z s)
  | None => (None, s)
  end.

(** The task's memory goes back to the heap. *)
Definition task_free (t : nat) (s : sched) : sched := set_tasks (delete t (tasks s)) s.

(** ** Scheduling *)

Fixpoint scan (n : nat) (s : sched) (next : option nat) : option nat :=
  match n with
  | O => next
  | S n' =>
      match next with
      | Some i => if runnable (state_of s i) then next else scan n' s (next_of s i)
      | None => None
      end
  end.

Definition stack_top_of (s : sched) (i : nat) : Z :=
  match tasks s !! i with Some t => u64 (t_stack_base t + TASK_STACK_SIZE) | None => 0 end.
Definition cr3_of (s : sched) (i : nat) : Z := match tasks s !! i with Some t => t_cr3 t | None => 0 end.

Definition switch_to (old next : nat) (s : sched) : sched :=
  let s := set_kernel_stack (stack_top_of s next) s in
  let s := set_current (Some next) s in
  let s := update_task (set_state TASK_RUNNING) next s in
  if cr3_of s old =? cr3_of s next then s
  else set_reg_cr3 (cr3_of s next) s.

Definition schedule (s : sched) : sched :=
  match current_task s with
  | None => s
  | Some cur =>
      let next := scan (Z.to_nat (task_count s)) s (next_of s cur) in
      let '(next, s) :=
        if bool_decide (state_of s cur = Some TASK_DEAD) then
          let parent := parent_of s cur in
          let s := task_zombify cur (sched_remove cur s) in
          (match parent with Some p => if runnable (state_of s p) then Some p else next | None => next end, s)
        else if bool_decide (state_of s cur = Some TASK_RUNNING)
        then (next, update_task (set_state TASK_READY) cur s) else (next, s) in
      let next := match next with
                  | Some n => if runnable (state_of s n) then Some n else idle_task s
                  | None => idle_task s
                  end in
      match next with
      | None => update_task (set_state TASK_RUNNING) cur s
      | Some n => if (n =? cur)%nat then update_task (set_state TASK_RUNNING) cur s
                  else switch_to cur n s
      end
  end.

Definition sched_yield : sched → sched := schedule.
Definition sched_tick (s : sched) : sched :=
  schedule (match current_task s with Some c => update_task add_tick c s | None => s end).

(** ** Lifecycle *)

Definition task_exit (code : Z) (s : sched) : sched :=
  match current_task s with
  | Some c => schedule (update_task (λ t, set_state TASK_DEAD (set_exit_code code t)) c s)
  | None => s
  end.

Inductive wait_result := WaitDone (ret : Z) (status : option Z) | WaitBlocked.

(** One round of the loop of [task_waitpid]: it returns, or blocks and yields; the
    caller starts the next round when it runs again.  The status is what the code
    stores through a non-NULL pointer. *)
Definition task_waitpid (pid options : Z) (s : sched) : wait_result * sched :=
  if (pid =? 0) || (pid <? -1) || negb (options .& u32 (Z.lnot WNOHANG) =? 0)
  then (WaitDone (- T_EINVAL) None, s)
  else
    match take_zombie (current_task s) pid s with
    | (Some z, s) =>
        match tasks s !! z with
        | Some t => (WaitDone (t_pid t) (Some (Z.shiftl (t_exit_code t .& 255) 8)), task_free z s)
        | None => (WaitDone 0 None, s)
        end
    | (None, s) =>
        if negb (task_has_child s (current_task s) pid) then (WaitDone (- ECHILD) None, s)
        else if negb (options .& WNOHANG =? 0) then (WaitDone 0 None, s)
        else match current_task s with
             | Some c => (WaitBlocked, sched_yield (update_task (set_state TASK_BLOCKED) c s))
             | None => (WaitBlocked, sched_yield s)
             end
    end.

(** The loop over the zombie list. *)
Definition reap_one (s : sched) (z : nat) : sched :=
  if bool_decide (current_task s = Some z) || bool_decide (is_Some (parent_of s z)) then s
  else
    let s := set_lists (all_tasks s) (filter (λ i, i ≠ z) (zombie_tasks s)) s in
    task_free z (task_unregister z s).
Definition task_reap_detached_zombies (s : sched) : sched := foldl reap_one s (zombie_tasks s).

Record task_info := Info {
  ti_pid : Z; ti_ppid : Z; ti_state : Z; ti_user_mode : Z; ti_ticks : Z; ti_name : list Z;
}.
(** [None] is -EINVAL. *)
Definition task_get_info (index : Z) (s : sched) : option task_info :=
  i ← all_tasks s !! Z.to_nat index;
  t ← tasks s !! i;
  Some (Info (t_pid t) (match t_parent t ≫= λ p, tasks s !! p with Some p => t_pid p | None => 0 end)
          (task_state_number (t_state t)) (if t_user_mode t then 1 else 0) (t_ticks t)
          (take 31 (t_name t))).

(** ** Creation *)

(** The seven words below the top of the stack: rbx, rbp, r12, r13, r14, r15 and
    the return address, which [ks_ret] names. *)
Definition build_initial_stack (stack_base : Z) (ret : start) (r12 r13 : Z) (fr : option syscall_frame) : kstack :=
  Kstack (u64 (stack_base + TASK_STACK_SIZE - 7 * 8)) [0; 0; r12; r13; 0; 0] ret fr.

Definition stored_task_name (name : list Z) : list Z := take (Z.to_nat (TASK_NAME_MAX - 1)) name.
Definition no_files : list file := replicate (Z.to_nat VFS_MAX_FDS) closed_file.

Definition add_task (i : nat) (t : task) (s : sched) : sched :=
  sched_add i (task_register i (set_next_pid (u32 (next_pid s + 1)) (set_tasks (<[i := t]> (tasks s)) s))).

(** [new]: the address and kernel stack of the new task, [None] when the heap has
    no room. *)
Definition task_create (new : option (nat * Z)) (name : list Z) (fn arg : Z) (s : sched) : option nat * sched :=
  match new with
  | None => (None, s)
  | Some (i, stack) =>
      let t := Task (build_initial_stack stack task_trampoline fn arg None) (reg_cr3 s) (next_pid s) TASK_READY
                 (stored_task_name name) stack false (Layout 0 0 0 0 0) [slash] no_files None 0 0 None in
      (Some i, add_task i t s)
  end.

(** What [load_user_image] returns on success. *)
Record loaded := Loaded { ld_cr3 : Z; ld_entry : Z; ld_brk_base : Z }.
Definition layout_of (l : loaded) : layout :=
  Layout (ld_entry l) TASK_USER_STACK_TOP (ld_brk_base l) (ld_brk_base l) USER_MMAP_BASE.

Definition task_create_user_elf (new : option (nat * Z)) (image : option loaded) (name : list Z) (s : sched)
  : option nat * sched :=
  match new, image with
  | Some (i, stack), Some l =>
      let t := Task (build_initial_stack stack user_mode_enter (ld_entry l) TASK_USER_STACK_TOP None)
                 (ld_cr3 l) (next_pid s) TASK_READY (stored_task_name name) stack true (layout_of l)
                 [slash] no_files None 0 0 None in
      (Some i, add_task i t s)
  | _, _ => (None, s)
  end.

Definition task_fork_from_frame (new : option (nat * Z)) (child_pml4 : option Z) (frame : syscall_frame) (s : sched)
  : Z * sched :=
  match current_task s ≫= λ c, tasks s !! c with
  | Some cur =>
      if negb (t_user_mode cur) then (- T_EINVAL, s)
      else
        match new, child_pml4 with
        | Some (i, stack), Some cr3 =>
            let child_frame := u64 (stack + TASK_STACK_SIZE - 512) in
            let t := Task (build_initial_stack stack fork_return_to_user child_frame 0 (Some (with_rax 0 frame)))
                       cr3 (next_pid s) TASK_READY (stored_task_name (t_name cur)) stack true (t_layout cur)
                       (t_cwd cur) (t_files cur) None 0 0 None in
            (next_pid s, add_task i t s)
        | _, _ => (- ENOMEM, s)
        end
  | None => (- T_EINVAL, s)
  end.

Definition replace_image (l : loaded) (name : list Z) (t : task) : task :=
  Task (t_kstack t) (ld_cr3 l) (t_pid t) (t_state t) (stored_task_name name) (t_stack_base t) (t_user_mode t)
    (layout_of l) (t_cwd t) (t_files t) (t_parent t) (t_exit_code t) (t_ticks t) (t_next t).

(** The entry point and the initial stack pointer; [None] is -1. *)
Definition task_replace_user_elf (i : nat) (name : list Z) (image : option loaded)
    (stack_image_size initial_rsp : Z) (s : sched) : option (Z * Z) * sched :=
  match tasks s !! i, image with
  | Some t, Some l =>
      if negb (t_user_mode t) then (None, s)
      else if (4096 <? stack_image_size) || (initial_rsp <? TASK_USER_STACK_TOP - 4096)
              || (TASK_USER_STACK_TOP <? initial_rsp) then (None, s)
      else
        let s := update_task (replace_image l name) i s in
        let s := if bool_decide (current_task s = Some i) then set_reg_cr3 (ld_cr3 l) s else s in
        (Some (ld_entry l, initial_rsp), s)
  | _, _ => (None, s)
  end.

Definition sched_start (new : option (nat * Z)) (idle_fn : Z) (first : nat) (s : sched) : sched :=
  let '(idle, s) := task_create new (chars "idle") idle_fn 0 s in
  let s := set_idle idle s in
  let s := set_current (Some first) s in
  let s := update_task (set_state TASK_RUNNING) first s in
  set_reg_cr3 (cr3_of s first) (set_kernel_stack (stack_top_of s first) s).
