(* ===== verification/SchedInv.v ===== *)
(** * Tasks and the scheduler: the invariant

    The run queue is a ring without repetitions; exactly the current task is
    running; every task is in the ring or a zombie; parents are in the ring. *)

From Stdlib Require Import ZArith Lia.
From S2P Require Import Prelude Memory Kbd Vfs Sched.
Import StringC.

(** ** Chains of next pointers *)

(** From [i] through [l] to [e]. *)
Fixpoint path (nx : nat → option nat) (i : nat) (l : list nat) (e : nat) : Prop :=
  match l with
  | [] => nx i = Some e
  | j :: l' => nx i = Some j ∧ path nx j l' e
  end.

Lemma path_app nx l j l' e : ∀ i, path nx i (l ++ j :: l') e ↔ path nx i l j ∧ path nx j l' e.
Proof. induction l as [|k l IH]; intros i; simpl; [done|]. rewrite IH. tauto. Qed.

Lemma path_ext nx nx' l e : ∀ i, (∀ k, k ∈ i :: l → nx' k = nx k) → path nx i l e → path nx' i l e.
Proof.
  induction l as [|j l IH]; intros i H; simpl.
  - rewrite H by left. done.
  - intros [H1 H2]. rewrite H by left. split; [done|]. apply IH; [|done]. intros k Hk. apply H. by right.
Qed.

Lemma path_insert nx nx' i t l e :
  nx' i = Some t → nx' t = nx i → (∀ k, k ∈ l → nx' k = nx k) → path nx i l e → path nx' i (t :: l) e.
Proof.
  intros Hi Ht H Hp. split; [done|]. destruct l as [|j l]; simpl in *; [congruence|].
  destruct Hp as [H1 H2]. split; [congruence|]. by apply (path_ext nx).
Qed.

Fixpoint last_of (i : nat) (l : list nat) : nat :=
  match l with [] => i | j :: l' => last_of j l' end.

Lemma last_in l : ∀ i, last_of i l ∈ i :: l.
Proof. induction l as [|j l IH]; intros i; simpl; [left|]. right. apply IH. Qed.

(** The last member of a chain leads elsewhere. *)
Lemma path_retarget nx nx' l e e' : ∀ i,
  NoDup (i :: l) → nx' (last_of i l) = Some e' →
  (∀ k, k ∈ i :: l → k ≠ last_of i l → nx' k = nx k) → path nx i l e → path nx' i l e'.
Proof.
  induction l as [|j l IH]; intros i Hnd Hlast H Hp; [done|].
  apply NoDup_cons in Hnd as [Hi Hnd]. simpl in Hlast, H. destruct Hp as [H1 H2]. split.
  - rewrite H; [done|left|]. intros Heq. apply Hi. rewrite Heq. apply last_in.
  - apply IH; [done|done| |done]. intros k Hk. apply H. by right.
Qed.

(** ** Rings *)

Record ring (s : sched) (L : list nat) : Prop := {
  rg_nodup : NoDup L;
  rg_count : task_count s = len L;
  rg_small : len L < 2^32;
  rg_tasks : ∀ i, i ∈ L → is_Some (tasks s !! i);
  rg_path : match L with
            | [] => run_queue_head s = None
            | x :: l => run_queue_head s = Some x ∧ path (next_of s) x l x
            end;
}.

(** The ring read from the task after [c]. *)
Lemma ring_rotate s l1 c l2 : ring s (l1 ++ c :: l2) → path (next_of s) c (l2 ++ l1) c.
Proof.
  intros [_ _ _ _ H]. destruct l1 as [|x l1]; simpl in H; destruct H as [_ H].
  - by rewrite app_nil_r.
  - apply path_app in H as [H1 H2]. apply path_app. done.
Qed.

Lemma next_of_update s f i k :
  next_of (update_task f i s) k =
    if decide (k = i) then tasks s !! i ≫= λ t, t_next (f t) else next_of s k.
Proof.
  unfold next_of. simpl. destruct (decide (k = i)) as [->|].
  - rewrite lookup_alter_eq. by destruct (tasks s !! i).
  - by rewrite lookup_alter_ne.
Qed.

Lemma next_of_set s n i k : is_Some (tasks s !! i) →
  next_of (update_task (set_next n) i s) k = if decide (k = i) then n else next_of s k.
Proof. intros [t Ht]. rewrite next_of_update, Ht. done. Qed.

Lemma update_some s f i k : is_Some (tasks (update_task f i s) !! k) ↔ is_Some (tasks s !! k).
Proof.
  simpl. destruct (decide (k = i)) as [->|]; [|by rewrite lookup_alter_ne].
  rewrite lookup_alter_eq. by rewrite fmap_is_Some.
Qed.

(** [sched_add] links [t] after the current task, or after the head. *)
Lemma sched_add_ring s l1 a l2 t :
  ring s (l1 ++ a :: l2) → match current_task s with Some c => c = a | None => run_queue_head s = Some a end →
  t ∉ l1 ++ a :: l2 → is_Some (tasks s !! t) → len (l1 ++ a :: l2) + 1 < 2^32 →
  ring (sched_add t s) (l1 ++ a :: t :: l2).
Proof.
  intros [Hnd Hc Hs Htasks Hp] Ha Hnot Ht Hlen.
  assert (∃ h, run_queue_head s = Some h) as [h Hh] by (destruct l1; destruct Hp; eauto).
  unfold sched_add. rewrite Hh in *.
  assert (default h (current_task s) = a) as -> by (destruct (current_task s); simpl; congruence).
  assert (is_Some (tasks s !! a)) as Has by (apply Htasks; set_solver).
  assert (t ≠ a) by set_solver.
  set (s1 := update_task (set_next (next_of s a)) t s).
  set (s2 := update_task (set_next (Some t)) a s1).
  assert (∀ k, next_of s2 k = if decide (k = a) then Some t else if decide (k = t) then next_of s a else next_of s k) as Hnx.
  { intros k. unfold s2. rewrite next_of_set by (apply update_some; done). destruct (decide (k = a)); [done|].
    unfold s1. by rewrite next_of_set. }
  split; simpl.
  - apply NoDup_app in Hnd as (? & ? & [? ?]%NoDup_cons). apply NoDup_app. split; [done|].
    split; [set_solver|]. rewrite !NoDup_cons. set_solver.
  - rewrite Hc. rewrite !length_app in *. simpl in *. rewrite u32_small; lia.
  - rewrite !length_app in *. simpl in *. lia.
  - intros i Hi. apply (update_some s1 (set_next (Some t)) a), update_some.
    destruct (decide (i = t)) as [->|]; [done|]. apply Htasks. set_solver.
  - change (next_of (set_queue _ _ s2)) with (next_of s2).
    assert (∀ l e, (∀ k, k ∈ l → k ≠ a ∧ k ≠ t) → path (next_of s) a l e → path (next_of s2) a (t :: l) e) as Hins.
    { intros l e Hl Hpath. apply (path_insert (next_of s)); [|  |  |done].
      - rewrite Hnx. by rewrite decide_True.
      - rewrite Hnx. by rewrite decide_False, decide_True.
      - intros k Hk. destruct (Hl k Hk). rewrite Hnx. by rewrite !decide_False. }
    apply NoDup_app in Hnd as (? & ? & [? ?]%NoDup_cons).
    destruct l1 as [|x l1]; simpl in *; destruct Hp as [Hhd Hp]; (split; [simpl; congruence|]).
    + apply Hins; [|done]. set_solver.
    + apply path_app in Hp as [Hp1 Hp2]. apply path_app. split; [|apply Hins; [set_solver|done]].
      apply (path_ext (next_of s)); [|done]. intros k Hk. rewrite Hnx. rewrite !decide_False by set_solver. done.
Qed.

Lemma find_prev_path s head t l e : ∀ fuel i,
  path (next_of s) i l e → (e = t ∨ e = head) → (∀ k, k ∈ l → k ≠ t ∧ k ≠ head) → (length l <= fuel)%nat →
  find_prev fuel s head t i = last_of i l.
Proof.
  induction l as [|j l IH]; intros [|fuel] i Hp He Hl Hf; simpl in *; [done| |lia|].
  - rewrite Hp. destruct He as [->| ->].
    + by rewrite (bool_decide_true (Some t = Some t)).
    + by rewrite (bool_decide_true (Some head = Some head)), orb_true_r.
  - destruct Hp as [Hj Hp]. rewrite Hj. destruct (Hl j) as [H1 H2]; [left|].
    rewrite !bool_decide_false by congruence. simpl. apply IH; [done|done| |lia].
    intros k Hk. apply Hl. by right.
Qed.

Lemma NoDup_remove (l1 l2 : list nat) t : NoDup (l1 ++ t :: l2) → NoDup (l1 ++ l2) ∧ t ∉ l1 ++ l2.
Proof.
  intros (H1 & H2 & [H3 H4]%NoDup_cons)%NoDup_app. split.
  - apply NoDup_app. split; [done|]. split; [|done]. intros x Hx Hx2. apply (H2 x Hx). by right.
  - rewrite elem_of_app. intros [Hx|Hx]; [|done]. apply (H2 t Hx). left.
Qed.

(** What [sched_remove] changes: one next pointer, the head and the count. *)
Definition same_but_next (s s' : sched) : Prop :=
  ∃ p n h c, s' = set_queue h c (update_task (set_next n) p s).

Lemma set_next_same i s n : next_of s i = n → update_task (set_next n) i s = s.
Proof.
  intros <-. unfold update_task, set_tasks. destruct s; simpl. f_equal. apply map_eq. intros k.
  destruct (decide (k = i)) as [->|]; [|by rewrite lookup_alter_ne].
  rewrite lookup_alter_eq. unfold next_of; simpl. destruct (_ !! i) as [t|] eqn:E; [|done]. simpl. by destruct t.
Qed.

(** The chain after [t] is unlinked from its predecessor [p]. *)
Lemma unlink_ring s l1 t l2 p :
  ring s (l1 ++ t :: l2) → l1 ++ l2 ≠ [] → p ∈ l1 ++ l2 →
  (∀ x l, l1 = x :: l → p = last_of x l) → (∀ y l, l1 = [] → l2 = y :: l → p = last_of y l) →
  ring (set_queue (head (l1 ++ l2)) (task_count s - 1) (update_task (set_next (next_of s t)) p s)) (l1 ++ l2).
Proof.
  intros [Hnd Hc Hs Htasks Hp] Hne Hpin Hl1 Hl2.
  destruct (NoDup_remove l1 l2 t Hnd) as [Hnd' Ht].
  rewrite !length_app in *. simpl in *.
  set (s' := update_task (set_next (next_of s t)) p s).
  assert (is_Some (tasks s !! p)) as Hps by (apply Htasks; clear -Hpin; set_solver).
  assert (∀ k, next_of s' k = if decide (k = p) then next_of s t else next_of s k) as Hnx
    by (intros k; unfold s'; by rewrite next_of_set).
  assert (∀ k, k ≠ p → next_of s' k = next_of s k) as Hne' by (intros k Hk; rewrite Hnx; by rewrite decide_False).
  assert (next_of s' p = next_of s t) as Hat by (rewrite Hnx; by rewrite decide_True).
  split; [done|simpl; rewrite length_app; lia|rewrite length_app; lia| |].
  - intros i Hi. apply (update_some s (set_next (next_of s t)) p). apply Htasks. clear -Hi. set_solver.
  - change (next_of (set_queue _ _ s')) with (next_of s'). destruct l1 as [|x l1]; simpl in *.
    + destruct l2 as [|y l2]; [done|]. simpl in *. destruct Hp as [_ [Hty Hp]]. split; [done|].
      specialize (Hl2 y l2 eq_refl eq_refl). subst p.
      apply (path_retarget (next_of s) _ _ t); [done|congruence|auto|done].
    + destruct Hp as [_ Hp]. specialize (Hl1 x l1 eq_refl). subst p.
      apply path_app in Hp as [Hp1 Hp2]. split; [done|].
      apply NoDup_cons in Hnd' as [Hx Hnd']. apply NoDup_app in Hnd' as (Hnd1 & Hdis & Hnd2).
      assert (NoDup (x :: l1)) as Hndx
        by (apply NoDup_cons; split; [intros Hx1; apply Hx, elem_of_app; by left|done]).
      destruct l2 as [|z l2]; simpl in *.
      * rewrite app_nil_r. apply (path_retarget (next_of s) _ _ t); [done|congruence|auto|done].
      * destruct Hp2 as [Htz Hp2]. apply path_app. split.
        -- apply (path_retarget (next_of s) _ _ t); [done|congruence|auto|done].
        -- apply (path_ext (next_of s)); [|done]. intros k Hk. apply Hne'.
           pose proof (last_in l1 x) as Hlast. intros ->.
           apply elem_of_cons in Hlast as [Hlast|Hlast]; [|by apply (Hdis _ Hlast)].
           apply Hx, elem_of_app. right. by rewrite <- Hlast.
Qed.

Lemma sched_remove_ring s l1 t l2 :
  ring s (l1 ++ t :: l2) →
  ring (sched_remove t s) (l1 ++ l2) ∧ same_but_next s (sched_remove t s).
Proof.
  intros Hr. pose proof Hr as [Hnd Hc Hs Htasks Hp].
  destruct (NoDup_remove l1 l2 t Hnd) as [Hnd' Ht].
  assert (0 < task_count s < 2^32) as Hpos by (rewrite Hc, length_app in *; simpl in *; lia).
  pose proof (ring_rotate _ _ _ _ Hr) as Hrot.
  assert (∃ h, run_queue_head s = Some h ∧ h ∈ l1 ++ t :: l2 ∧ (l1 = [] → h = t) ∧
            (∀ x l, l1 = x :: l → h = x)) as (h & Hh & Hhin & Hh1 & Hh2).
  { destruct l1 as [|x l1]; destruct Hp as [Hp _]; eexists; (split; [done|]).
    - split; [left|]. split; [done|]. intros; simplify_eq.
    - split; [left|]. split; [done|]. intros; by simplify_eq. }
  unfold sched_remove. rewrite Hh, (proj2 (Z.eqb_neq _ 0)) by lia.
  set (p := find_prev _ _ _ _ _).
  assert (p = match l1 with [] => last_of t l2 | x :: l => last_of x l end) as Ep.
  { unfold p. destruct l1 as [|x l1]; simpl in *.
    - rewrite (Hh1 eq_refl). destruct Hp as [_ Hp].
      apply (find_prev_path _ _ _ _ t); [done|by left| |lia].
      intros k Hk. apply NoDup_cons in Hnd as [? ?]. split; intros ->; done.
    - rewrite (Hh2 x l1 eq_refl). destruct Hp as [_ Hp]. apply path_app in Hp as [Hp1 _].
      apply (find_prev_path _ _ _ _ t); [done|by left| |rewrite Hc; rewrite length_app; lia].
      apply NoDup_cons in Hnd as [Hx Hnd]. apply NoDup_app in Hnd as (_ & Hd & _).
      intros k Hk. split; intros ->; [apply (Hd t Hk); left|]. apply Hx, elem_of_app. by left. }
  assert (next_of s p = Some t) as Hpt.
  { rewrite Ep. destruct l1 as [|x l1]; simpl in Hp; destruct Hp as [_ Hp].
    - clear -Hp. revert Hp. generalize t at 1 3. induction l2 as [|y l2 IH]; intros i Hp; simpl in *; [done|].
      apply IH. apply Hp.
    - apply path_app in Hp as [Hp _]. clear -Hp. revert x Hp.
      induction l1 as [|y l1 IH]; intros i Hp; simpl in *; [done|]. apply IH, Hp. }
  rewrite bool_decide_true by done.
  destruct (decide (l1 ++ l2 = [])) as [Hnil|Hne].
  - apply app_eq_nil in Hnil as [-> ->]. simpl in *. destruct Hp as [Hp1 Hp2].
    rewrite bool_decide_true by done. split.
    + split; simpl; [constructor|rewrite Hc, u32_small; simpl; lia|lia| |done].
      intros i Hi. by apply not_elem_of_nil in Hi.
    + exists t, (next_of s t), None, (u32 (task_count s - 1)). by rewrite set_next_same.
  - assert (next_of s t ≠ Some t) as Hnt.
    { destruct (l2 ++ l1) as [|y l] eqn:El; [apply app_eq_nil in El as [-> ->]; done|].
      destruct Hrot as [-> _]. intros [= ->]. apply Ht. assert (t ∈ l2 ++ l1) as Hin by (rewrite El; left).
      apply elem_of_app in Hin. apply elem_of_app. tauto. }
    rewrite bool_decide_false by done.
    assert (p ∈ l1 ++ l2) as Hpin.
    { rewrite Ep. destruct l1 as [|x l1]; simpl in *.
      - destruct l2 as [|y l2]; [done|]. exact (last_in l2 y).
      - pose proof (last_in l1 x) as Hl. change (x :: l1 ++ l2) with ((x :: l1) ++ l2). apply elem_of_app. by left. }
    pose proof (unlink_ring s l1 t l2 p Hr Hne Hpin) as Hu.
    assert (run_queue_head (if bool_decide (h = t) then set_queue (next_of s t) (task_count s)
      (update_task (set_next (next_of s t)) p s) else update_task (set_next (next_of s t)) p s) = head (l1 ++ l2)) as Hhead.
    { destruct l1 as [|x l1]; simpl in *.
      - rewrite bool_decide_true by auto. simpl. destruct l2 as [|y l2]; [done|]. simpl. apply Hp.
      - rewrite (Hh2 x l1 eq_refl) in *. rewrite bool_decide_false by (intros ->; apply Ht; left). done. }
    cbv zeta. rewrite Hhead.
    assert (∀ q : bool, set_queue (head (l1 ++ l2)) (u32 (task_count (if q
       then set_queue (next_of s t) (task_count s) (update_task (set_next (next_of s t)) p s)
       else update_task (set_next (next_of s t)) p s) - 1))
      (if q then set_queue (next_of s t) (task_count s) (update_task (set_next (next_of s t)) p s)
       else update_task (set_next (next_of s t)) p s) =
      set_queue (head (l1 ++ l2)) (task_count s - 1) (update_task (set_next (next_of s t)) p s)) as ->.
    { intros []; unfold set_queue; simpl; f_equal; rewrite u32_small; lia. }
    split; [apply Hu|].
    + intros x l ->. done.
    + intros y l -> ->. done.
    + exists p, (next_of s t), (head (l1 ++ l2)), (task_count s - 1). done.
Qed.

(** The first runnable task of a chain, or what follows it. *)
Lemma scan_path s l e : ∀ i, path (next_of s) i l e →
  scan (S (length l)) s (Some i) =
    match find (λ k, runnable (state_of s k)) (i :: l) with Some k => Some k | None => Some e end.
Proof.
  induction l as [|j l IH]; intros i Hp.
  - simpl in *. rewrite Hp. by destruct (runnable (state_of s i)).
  - destruct Hp as [Hj Hp]. specialize (IH j Hp). cbn [length].
    change (scan (S (S (length l))) s (Some i)) with
      (if runnable (state_of s i) then Some i else scan (S (length l)) s (next_of s i)).
    rewrite Hj, IH. cbn [find]. by destruct (runnable (state_of s i)).
Qed.

Lemma scan_ring s l1 c l2 : ring s (l1 ++ c :: l2) →
  ∃ e, scan (Z.to_nat (task_count s)) s (next_of s c) =
    match find (λ k, runnable (state_of s k)) (l2 ++ l1 ++ [c]) with Some k => Some k | None => Some e end.
Proof.
  intros Hr. pose proof (ring_rotate _ _ _ _ Hr) as Hrot. rewrite (rg_count _ _ Hr), Nat2Z.id.
  rewrite (app_assoc l2 l1 [c]).
  replace (length (l1 ++ c :: l2)) with (S (length (l2 ++ l1))) by (rewrite !length_app; simpl; lia).
  destruct (l2 ++ l1) as [|i l] eqn:E.
  - simpl in *. rewrite Hrot. exists c. destruct (runnable (state_of s c)); done.
  - destruct Hrot as [Hi Hp]. exists i. rewrite Hi.
    replace (length (i :: l)) with (length (l ++ [c])) by (rewrite length_app; simpl; lia).
    apply scan_path. apply path_app. done.
Qed.

(** ** The invariant *)

(** What holds of the tasks while [c] is the current one; the state of [c] itself
    is left open. *)
Record sched_pre (s : sched) (L : list nat) (c : nat) : Prop := {
  sp_ring : ring s L;
  sp_all : NoDup (all_tasks s) ∧ ∀ i, i ∈ all_tasks s ↔ is_Some (tasks s !! i);
  sp_zombies : NoDup (zombie_tasks s) ∧
    ∀ z, z ∈ zombie_tasks s → state_of s z = Some TASK_DEAD ∧ z ∉ L;
  sp_cover : ∀ i, is_Some (tasks s !! i) → i ∈ L ∨ i ∈ zombie_tasks s;
  sp_current : current_task s = Some c;
  sp_in : c ∈ L;
  sp_alive : ∀ i, i ∈ L → i ≠ c → state_of s i = Some TASK_READY ∨ state_of s i = Some TASK_BLOCKED;
  sp_idle : ∃ d, idle_task s = Some d ∧ d ∈ L ∧ (d = c ∨ state_of s d = Some TASK_READY);
  sp_parent : ∀ i p, parent_of s i = Some p → p ∈ L ∧ p ≠ i;
  sp_init : ∀ i, init_task s = Some i → is_Some (tasks s !! i) ∧ parent_of s i = None;
  sp_cpu : reg_cr3 s = cr3_of s c ∧ tss_rsp0 s = stack_top_of s c ∧
           syscall_kernel_stack_top s = stack_top_of s c;
}.

(** Between two kernel entries: the current task is the one that runs. *)
Definition sched_ok (s : sched) (L : list nat) (c : nat) : Prop :=
  sched_pre s L c ∧ state_of s c = Some TASK_RUNNING.

(** [s'] differs from [s] in task states, the current task and the processor. *)
Record states_only (st : nat → task → task_state) (s s' : sched) : Prop := {
  sx_tasks : ∀ i, tasks s' !! i = (λ t, set_state (st i t) t) <$> tasks s !! i;
  sx_pid : next_pid s' = next_pid s;
  sx_all : all_tasks s' = all_tasks s;
  sx_zombies : zombie_tasks s' = zombie_tasks s;
  sx_init : init_task s' = init_task s;
  sx_head : run_queue_head s' = run_queue_head s;
  sx_count : task_count s' = task_count s;
  sx_idle : idle_task s' = idle_task s;
}.

Lemma states_only_update s i st : states_only (λ k t, if decide (k = i) then st else t_state t) s
  (update_task (set_state st) i s).
Proof.
  split; try done. intros k. simpl. destruct (decide (k = i)) as [->|].
  - by rewrite lookup_alter_eq.
  - rewrite lookup_alter_ne by done. destruct (tasks s !! k) as [t|]; [|done]. simpl. by destruct t.
Qed.

Section StatesOnly.
Context (st : nat → task → task_state) (s s' : sched) (H : states_only st s s').

Lemma sx_field {A} (f : task → option A) i : (∀ t x, f (set_state x t) = f t) →
  tasks s' !! i ≫= f = tasks s !! i ≫= f.
Proof. intros Hf. rewrite (sx_tasks _ _ _ H). destruct (tasks s !! i); [apply Hf|done]. Qed.

Lemma sx_next i : next_of s' i = next_of s i.
Proof. by apply sx_field. Qed.
Lemma sx_parent i : parent_of s' i = parent_of s i.
Proof. by apply sx_field. Qed.
Lemma sx_some i : is_Some (tasks s' !! i) ↔ is_Some (tasks s !! i).
Proof. rewrite (sx_tasks _ _ _ H). apply fmap_is_Some. Qed.
Lemma sx_cr3 i : cr3_of s' i = cr3_of s i.
Proof. unfold cr3_of. rewrite (sx_tasks _ _ _ H). by destruct (tasks s !! i). Qed.
Lemma sx_stack i : stack_top_of s' i = stack_top_of s i.
Proof. unfold stack_top_of. rewrite (sx_tasks _ _ _ H). by destruct (tasks s !! i). Qed.
Lemma sx_state i : state_of s' i = (st i) <$> tasks s !! i.
Proof. unfold state_of. rewrite (sx_tasks _ _ _ H). by destruct (tasks s !! i). Qed.

Lemma sx_ring L : ring s L → ring s' L.
Proof.
  intros [H1 H2 H3 H4 H5]. split; [done|by rewrite (sx_count _ _ _ H)|done| |].
  - intros i Hi. apply sx_some. auto.
  - rewrite (sx_head _ _ _ H). destruct L as [|x l]; [done|]. destruct H5 as [? Hp]. split; [done|].
    apply (path_ext (next_of s)); [|done]. intros k _. apply sx_next.
Qed.

(** Everything but the conditions on states carries over. *)
Lemma sx_pre L c c' : sched_pre s L c → current_task s' = Some c' → c' ∈ L →
  (∀ i t, tasks s !! i = Some t → i ∉ L → st i t = t_state t) →
  (∀ i t, i ∈ L → i ≠ c' → tasks s !! i = Some t → st i t = TASK_READY ∨ st i t = TASK_BLOCKED) →
  (∀ d t, idle_task s = Some d → d ≠ c' → tasks s !! d = Some t → st d t = TASK_READY) →
  reg_cr3 s' = cr3_of s c' → tss_rsp0 s' = stack_top_of s c' → syscall_kernel_stack_top s' = stack_top_of s c' →
  sched_pre s' L c'.
Proof.
  intros [R A Z C Hc Hin Al Id Pa In Cpu] Hcur Hin' Hout Hst Hidle H1 H2 H3. split.
  - by apply sx_ring.
  - rewrite (sx_all _ _ _ H). split; [apply A|]. intros i. rewrite sx_some. apply A.
  - rewrite (sx_zombies _ _ _ H). destruct Z as [Hnd Hz]. split; [done|]. intros z Hzin.
    destruct (Hz z Hzin) as [Hd Hn]. split; [|done]. rewrite sx_state. unfold state_of in Hd.
    destruct (tasks s !! z) as [t|] eqn:E; [|done]. simpl in *. rewrite (Hout z t E Hn). done.
  - intros i. rewrite sx_some, (sx_zombies _ _ _ H). apply C.
  - done.
  - done.
  - intros i Hi Hne. destruct (rg_tasks _ _ R i Hi) as [t Ht]. rewrite !sx_state, Ht. simpl.
    destruct (Hst i t Hi Hne Ht) as [-> | ->]; auto.
  - destruct Id as (d & Hd & Hdin & _). exists d. rewrite (sx_idle _ _ _ H). split; [done|]. split; [done|].
    destruct (decide (d = c')); [by left|right]. destruct (rg_tasks _ _ R d Hdin) as [t Ht].
    rewrite sx_state, Ht. simpl. by rewrite (Hidle d t).
  - intros i p. rewrite sx_parent. apply Pa.
  - intros i. rewrite (sx_init _ _ _ H), sx_some, sx_parent. apply In.
  - rewrite sx_cr3, !sx_stack. done.
Qed.
End StatesOnly.

Lemma states_only_trans st st' s s' s'' : states_only st s s' → states_only st' s' s'' →
  states_only (λ i t, st' i (set_state (st i t) t)) s s''.
Proof.
  intros [A1 A2 A3 A4 A5 A6 A7 A8] [B1 B2 B3 B4 B5 B6 B7 B8]. split; try congruence.
  intros i. rewrite B1, A1. by destruct (tasks s !! i).
Qed.

Lemma switch_to_spec old n s : is_Some (tasks s !! n) → reg_cr3 s = cr3_of s old →
  let s' := switch_to old n s in
  states_only (λ k t, if decide (k = n) then TASK_RUNNING else t_state t) s s' ∧
  current_task s' = Some n ∧ reg_cr3 s' = cr3_of s n ∧ tss_rsp0 s' = stack_top_of s n ∧
  syscall_kernel_stack_top s' = stack_top_of s n.
Proof.
  intros Hn Hcr. cbv zeta. unfold switch_to.
  set (s1 := set_current (Some n) (set_kernel_stack (stack_top_of s n) s)).
  pose proof (states_only_update s1 n TASK_RUNNING) as Hx.
  set (s2 := update_task (set_state TASK_RUNNING) n s1) in *.
  assert (states_only (λ k t, if decide (k = n) then TASK_RUNNING else t_state t) s s2) as Hx2 by (by destruct Hx; split).
  rewrite !(sx_cr3 _ _ _ Hx2). destruct (Z.eqb_spec (cr3_of s old) (cr3_of s n)) as [E|E].
  - split; [done|]. split; [done|]. split; [simpl; congruence|done].
  - split; [by destruct Hx2; split|]. done.
Qed.
