(* ===== verification/SchedOps.v ===== *)
(** * Tasks and the scheduler: steps

    What a switch, the death of a task and the creation of a task do to the
    invariant of [SchedInv]. *)

From Stdlib Require Import ZArith Lia.
From S2P Require Import Prelude Memory Kbd Vfs Sched SchedInv.
Import StringC.

(** The first runnable task of a list. *)
Definition pick (s : sched) (l : list nat) : option nat := find (λ k, runnable (state_of s k)) l.

Lemma runnable_ready : runnable (Some TASK_READY) = true.
Proof. reflexivity. Qed.

Lemma pick_some s l i : pick s l = Some i → i ∈ l ∧ runnable (state_of s i) = true.
Proof. intros [H1 H2]%find_some. split; [by apply list_elem_of_In|done]. Qed.

Lemma pick_exists s l d : d ∈ l → runnable (state_of s d) = true → ∃ i, pick s l = Some i.
Proof.
  intros Hd Hr. unfold pick. destruct (find _ l) as [i|] eqn:E; [eauto|].
  exfalso. apply list_elem_of_In in Hd. by rewrite (find_none _ _ E d Hd) in Hr.
Qed.

Lemma runnable_mono s s' i :
  (state_of s i = Some TASK_READY ∨ state_of s i = Some TASK_RUNNING → state_of s' i = state_of s i) →
  runnable (state_of s i) = true → runnable (state_of s' i) = true.
Proof.
  unfold runnable. intros H Hr. rewrite H; [done|].
  apply orb_true_iff in Hr as [Hr|Hr]; apply bool_decide_eq_true in Hr; auto.
Qed.

(** ** A switch between live tasks *)

(** The states after the current task [c] gave way to [n]. *)
Definition yield_state (c n : nat) (i : nat) (t : task) : task_state :=
  if decide (i = n) then TASK_RUNNING
  else if decide (i = c) then (if decide (t_state t = TASK_RUNNING) then TASK_READY else t_state t)
  else t_state t.

Lemma states_only_ext st st' s s' :
  (∀ i t, tasks s !! i = Some t → st i t = st' i t) → states_only st s s' → states_only st' s s'.
Proof.
  intros He [H1 H2 H3 H4 H5 H6 H7 H8]. split; try done. intros i. rewrite H1.
  destruct (tasks s !! i) as [t|] eqn:E; [|done]. simpl. by rewrite (He i t E).
Qed.

Lemma states_only_refl s : states_only (λ _ t, t_state t) s s.
Proof. split; try done. intros i. destruct (tasks s !! i) as [t|]; [|done]. simpl. by destruct t. Qed.

Section Yield.
Context (s : sched) (l1 : list nat) (c : nat) (l2 : list nat).
Let L := l1 ++ c :: l2.
Context (Hpre : sched_pre s L c).

Lemma others_in i : i ∈ L → i ≠ c → i ∈ l2 ++ l1.
Proof. unfold L. rewrite !elem_of_app, elem_of_cons. tauto. Qed.

Lemma order_in i : i ∈ l2 ++ l1 ++ [c] → i ∈ L.
Proof. unfold L. clear. set_solver. Qed.

(** The current task is running, or blocked with the idle task to take over. *)
Context (Hst : state_of s c = Some TASK_RUNNING ∨
               state_of s c = Some TASK_BLOCKED ∧ idle_task s ≠ Some c).

Lemma pick_next : ∃ n, pick s (l2 ++ l1 ++ [c]) = Some n.
Proof.
  destruct Hst as [Hrun|[_ Hidle]].
  - apply (pick_exists s _ c); [clear; set_solver|]. by rewrite Hrun.
  - destruct (sp_idle _ _ _ Hpre) as (d & Hd & Hin & [->|Hr]); [done|].
    assert (d ≠ c) by congruence.
    apply (pick_exists s _ d); [rewrite app_assoc, elem_of_app; left; by apply others_in|]. by rewrite Hr.
Qed.

(** [schedule] hands the processor to the next runnable task of the ring. *)
Lemma schedule_live n : pick s (l2 ++ l1 ++ [c]) = Some n →
  sched_ok (schedule s) L n ∧ states_only (yield_state c n) s (schedule s).
Proof.
  intros Hpick. destruct (pick_some _ _ _ Hpick) as [Hin Hrun]. apply order_in in Hin.
  destruct (rg_tasks _ _ (sp_ring _ _ _ Hpre) c (sp_in _ _ _ Hpre)) as [tc Htc].
  destruct (rg_tasks _ _ (sp_ring _ _ _ Hpre) n Hin) as [tn Htn].
  destruct (scan_ring s l1 c l2 (sp_ring _ _ _ Hpre)) as [e Hscan]. fold (pick s (l2 ++ l1 ++ [c])) in Hscan.
  rewrite Hpick in Hscan.
  assert (t_state tc = TASK_RUNNING ∨ t_state tc = TASK_BLOCKED) as Hsc.
  { unfold state_of in Hst. rewrite Htc in Hst. simpl in Hst. destruct Hst as [[= ?]|[[= ?] _]]; auto. }
  unfold schedule. rewrite (sp_current _ _ _ Hpre), Hscan.
  assert (state_of s c = Some (t_state tc)) as Esc by (unfold state_of; by rewrite Htc).
  rewrite bool_decide_false by (rewrite Esc; destruct Hsc as [-> | ->]; congruence).
  set (s1 := if bool_decide (state_of s c = Some TASK_RUNNING) then update_task (set_state TASK_READY) c s else s).
  assert (states_only (λ i t, if decide (i = c) then if decide (t_state t = TASK_RUNNING) then TASK_READY else t_state t
            else t_state t) s s1) as Hx1.
  { unfold s1. destruct (decide (t_state tc = TASK_RUNNING)) as [Er|Er].
    - rewrite bool_decide_true by congruence. eapply states_only_ext; [|apply states_only_update].
      intros i t Ht. simpl. destruct (decide (i = c)) as [->|]; [|done]. simplify_eq. by rewrite decide_True.
    - rewrite bool_decide_false by congruence. eapply states_only_ext; [|apply states_only_refl].
      intros i t Ht. simpl. destruct (decide (i = c)) as [->|]; [|done]. simplify_eq. by rewrite decide_False. }
  assert ((if bool_decide (state_of s c = Some TASK_RUNNING)
           then (Some n, update_task (set_state TASK_READY) c s) else (Some n, s)) = (Some n, s1)) as ->
    by (unfold s1; by case_bool_decide).
  assert (runnable (state_of s1 n) = true) as ->.
  { rewrite (sx_state _ _ _ Hx1), Htn. simpl. destruct (decide (n = c)) as [->|]; [|by rewrite <- Hrun; unfold state_of; rewrite Htn].
    rewrite Htn in Htc. simplify_eq. unfold state_of in Hrun. rewrite Htn in Hrun. simpl in Hrun.
    destruct Hsc as [E|E]; rewrite E in *; [by rewrite decide_True|done]. }
  assert (current_task s1 = Some c ∧ reg_cr3 s1 = cr3_of s c ∧ tss_rsp0 s1 = stack_top_of s c ∧
          syscall_kernel_stack_top s1 = stack_top_of s c) as (Hc1 & Hr1 & Ht1 & Hk1).
  { pose proof (sp_current _ _ _ Hpre). pose proof (sp_cpu _ _ _ Hpre) as (? & ? & ?).
    unfold s1. by case_bool_decide. }
  set (s2 := if (n =? c)%nat then update_task (set_state TASK_RUNNING) c s1 else switch_to c n s1).
  assert (states_only (yield_state c n) s s2 ∧ current_task s2 = Some n ∧ reg_cr3 s2 = cr3_of s n ∧
          tss_rsp0 s2 = stack_top_of s n ∧ syscall_kernel_stack_top s2 = stack_top_of s n) as (Hx2 & Hc2 & Hr2 & Ht2 & Hk2).
  { unfold s2. destruct (Nat.eqb_spec n c) as [->|Hne].
    - split; [|done]. eapply states_only_ext; [|exact (states_only_trans _ _ _ _ _ Hx1 (states_only_update s1 c TASK_RUNNING))].
      intros i t Ht. unfold yield_state. simpl. by destruct (decide (i = c)).
    - assert (reg_cr3 s1 = cr3_of s1 c) as Hreg by (by rewrite (sx_cr3 _ _ _ Hx1)).
      destruct (switch_to_spec c n s1 (proj2 (sx_some _ _ _ Hx1 n) ltac:(eauto)) Hreg) as (Hx & ? & Hr & Ht & Hk).
      rewrite (sx_cr3 _ _ _ Hx1) in Hr. rewrite (sx_stack _ _ _ Hx1) in Ht, Hk. split; [|done].
      eapply states_only_ext; [|exact (states_only_trans _ _ _ _ _ Hx1 Hx)].
      intros i t Ht'. unfold yield_state. simpl. by destruct (decide (i = n)). }
  split; [|exact Hx2]. split.
  - apply (sx_pre _ s s2 Hx2 L c n Hpre); [done|done| | | |done|done|done].
    + intros i t Ht Hni. unfold yield_state. rewrite !decide_False; [done| |]; intros ->; [apply Hni, (sp_in _ _ _ Hpre)|done].
    + intros i t Hi Hne Ht. unfold yield_state. rewrite decide_False by done.
      destruct (decide (i = c)) as [->|Hic].
      * simplify_eq. destruct Hsc as [E|E]; rewrite E; [rewrite decide_True by done; by left|rewrite decide_False by done; by right].
      * destruct (sp_alive _ _ _ Hpre i Hi Hic) as [H|H]; unfold state_of in H; rewrite Ht in H; simplify_eq/=; rewrite H; auto.
    + intros d t Hd Hne Ht. unfold yield_state. rewrite decide_False by done.
      destruct (sp_idle _ _ _ Hpre) as (d' & Hd' & _ & Hor). rewrite Hd in Hd'. simplify_eq.
      destruct (decide (d' = c)) as [->|Hdc].
      * simplify_eq. destruct Hst as [Hs|[_ ?]]; [|done]. rewrite Esc in Hs. simplify_eq. by rewrite decide_True.
      * destruct Hor as [?|H]; [done|]. unfold state_of in H. rewrite Ht in H. by simplify_eq/=.
  - rewrite (sx_state _ _ _ Hx2), Htn. simpl. unfold yield_state. by rewrite decide_True.
Qed.
End Yield.

(** ** The death of the current task *)

Definition adopted (c : nat) (fp : option nat) (t : task) : task :=
  if decide (t_parent t = Some c) then set_parent fp t else t.

Definition woken (i k : nat) (t : task) : task :=
  if decide (k = i ∧ t_state t = TASK_BLOCKED) then set_state TASK_READY t else t.

Lemma wake_tasks i s : wake i s = set_tasks (tasks (wake i s)) s ∧
  ∀ k, tasks (wake i s) !! k = woken i k <$> tasks s !! k.
Proof.
  unfold wake, woken. case_bool_decide as E; (split; [by destruct s|]); intros k; simpl.
  - destruct (decide (k = i)) as [->|].
    + rewrite lookup_alter_eq. unfold state_of in E. destruct (tasks s !! i) as [t|]; [|done].
      injection E as E. cbn. rewrite decide_True by done. done.
    + rewrite lookup_alter_ne by done. destruct (tasks s !! k); [|done]. simpl. by rewrite decide_False by tauto.
  - destruct (tasks s !! k) as [t|] eqn:Et; [|done]. simpl. rewrite decide_False; [done|].
    intros [-> Hb]. apply E. unfold state_of. rewrite Et. simpl. by rewrite Hb.
Qed.

Lemma adopt_fold c fp l : ∀ s, NoDup l →
  let s' := foldl (λ s t, adopt c fp t s) s l in
  s' = set_tasks (tasks s') s ∧
  ∀ k, tasks s' !! k = if decide (k ∈ l) then adopted c fp <$> tasks s !! k else tasks s !! k.
Proof.
  induction l as [|x l IH]; intros s Hnd; cbv zeta; cbn [foldl].
  { split; [by destruct s|]. intros k. rewrite decide_False; [done|apply not_elem_of_nil]. }
  apply NoDup_cons in Hnd as [Hx Hnd]. destruct (IH (adopt c fp x s) Hnd) as [H1 H2]. cbv zeta in H1, H2.
  assert (adopt c fp x s = set_tasks (tasks (adopt c fp x s)) s ∧
          ∀ k, tasks (adopt c fp x s) !! k = if decide (k = x) then adopted c fp <$> tasks s !! k else tasks s !! k)
    as [Ha1 Ha2].
  { unfold adopt, adopted. case_bool_decide as E; (split; [by destruct s|]); intros k; simpl.
    - destruct (decide (k = x)) as [->|]; [|by rewrite lookup_alter_ne].
      rewrite lookup_alter_eq. unfold parent_of in E. destruct (tasks s !! x) as [t|]; [|done]. simpl in *.
      by rewrite decide_True.
    - destruct (decide (k = x)) as [->|]; [|done]. unfold parent_of in E.
      destruct (tasks s !! x) as [t|]; [|done]. simpl in *. by rewrite decide_False. }
  split.
  - rewrite H1 at 1. rewrite Ha1 at 2. by destruct s.
  - intros k. rewrite H2, Ha2. destruct (decide (k = x)) as [->|Hne].
    + rewrite decide_False by done. rewrite decide_True by left. done.
    + destruct (decide (k ∈ l)); [rewrite decide_True by (by right)|rewrite decide_False by (rewrite elem_of_cons; tauto)]; done.
Qed.

Definition woken_opt (p : option nat) (k : nat) (t : task) : task :=
  match p with Some i => woken i k t | None => t end.

Lemma wake_opt_tasks p s :
  let s' := match p with Some i => wake i s | None => s end in
  s' = set_tasks (tasks s') s ∧ ∀ k, tasks s' !! k = woken_opt p k <$> tasks s !! k.
Proof.
  destruct p as [i|]; simpl; [apply wake_tasks|]. split; [by destruct s|]. intros k. by destruct (tasks s !! k).
Qed.

Lemma after_none t l : t ∉ l → after t l = None.
Proof.
  induction l as [|x l IH]; intros H; simpl; [done|]. apply not_elem_of_cons in H as [H1 H2].
  rewrite (proj2 (Nat.eqb_neq _ _)) by done. auto.
Qed.

(** What [task_zombify] does to every task. *)
Definition bereaved (c : nat) (fp par : option nat) (k : nat) (t : task) : task :=
  woken_opt par k (woken_opt fp k (adopted c fp t)).

Lemma zombify_tasks s c : c ∉ zombie_tasks s → NoDup (all_tasks s) →
  (∀ i, i ∈ all_tasks s ↔ is_Some (tasks s !! i)) → parent_of s c ≠ Some c →
  let s' := task_zombify c s in
  let fp := foster c s in
  s' = set_tasks (tasks s') (set_lists (all_tasks s) (c :: zombie_tasks s) s) ∧
  ∀ k, tasks s' !! k = bereaved c fp (parent_of s c) k <$> tasks s !! k.
Proof.
  intros Hz Hnd Hall Hself. cbv zeta. unfold task_zombify. rewrite after_none by done.
  unfold reparent_children. set (fp := foster c s).
  destruct (adopt_fold c fp (all_tasks s) s Hnd) as [E1 H1]. cbv zeta in E1, H1.
  set (s1 := foldl _ s (all_tasks s)) in *.
  destruct (wake_opt_tasks fp s1) as [E2 H2]. cbv zeta in E2, H2.
  set (s2 := match fp with Some p => wake p s1 | None => s1 end) in *.
  set (s3 := set_lists (all_tasks s2) (c :: zombie_tasks s2) s2).
  assert (∀ k, tasks s3 !! k = (λ t, woken_opt fp k (adopted c fp t)) <$> tasks s !! k) as H3.
  { intros k. change (tasks s3) with (tasks s2). rewrite H2, H1.
    destruct (decide (k ∈ all_tasks s)) as [Hin|Hin].
    - by destruct (tasks s !! k).
    - rewrite Hall in Hin. destruct (tasks s !! k); [by destruct Hin; eauto|done]. }
  assert (parent_of s3 c = parent_of s c) as Hpar.
  { unfold parent_of. rewrite H3. unfold parent_of in Hself. destruct (tasks s !! c) as [t|]; [|done]. simpl in *.
    unfold adopted. rewrite decide_False by done. unfold woken_opt, woken. destruct fp; [|done]. by case_decide. }
  rewrite Hpar. destruct (wake_opt_tasks (parent_of s c) s3) as [E4 H4]. cbv zeta in E4, H4.
  split.
  - rewrite E4 at 1. simpl. unfold s3. rewrite E2, E1. by destruct s.
  - intros k. rewrite H4, H3. by destruct (tasks s !! k).
Qed.

Section Bereaved.
Context (c : nat) (fp par : option nat).

Lemma woken_opt_fields p k t :
  t_parent (woken_opt p k t) = t_parent t ∧ t_next (woken_opt p k t) = t_next t ∧
  t_cr3 (woken_opt p k t) = t_cr3 t ∧ t_stack_base (woken_opt p k t) = t_stack_base t ∧
  t_pid (woken_opt p k t) = t_pid t ∧ t_exit_code (woken_opt p k t) = t_exit_code t ∧
  (t_state (woken_opt p k t) = t_state t ∧ (p = Some k → t_state t ≠ TASK_BLOCKED) ∨
   p = Some k ∧ t_state t = TASK_BLOCKED ∧ t_state (woken_opt p k t) = TASK_READY).
Proof.
  unfold woken_opt, woken. destruct p as [i|]; [case_decide as E|]; simpl; repeat split.
  - right. naive_solver.
  - left. split; [done|]. intros [= ->] Hb. by apply E.
  - left. done.
Qed.

Lemma bereaved_fields k t (t' := bereaved c fp par k t) :
  t_parent t' = (if decide (t_parent t = Some c) then fp else t_parent t) ∧ t_next t' = t_next t ∧
  t_cr3 t' = t_cr3 t ∧ t_stack_base t' = t_stack_base t ∧ t_pid t' = t_pid t ∧ t_exit_code t' = t_exit_code t ∧
  (t_state t' = t_state t ∧ (par = Some k → t_state t ≠ TASK_BLOCKED) ∨
   (fp = Some k ∨ par = Some k) ∧ t_state t = TASK_BLOCKED ∧ t_state t' = TASK_READY).
Proof.
  unfold t', bereaved. set (t0 := adopted c fp t). set (t1 := woken_opt fp k t0).
  destruct (woken_opt_fields par k t1) as (A1 & A2 & A3 & A4 & A5 & A6 & A7).
  destruct (woken_opt_fields fp k t0) as (B1 & B2 & B3 & B4 & B5 & B6 & B7). fold t1 in B1, B2, B3, B4, B5, B6, B7.
  assert (t_parent t0 = (if decide (t_parent t = Some c) then fp else t_parent t) ∧ t_next t0 = t_next t ∧
    t_cr3 t0 = t_cr3 t ∧ t_stack_base t0 = t_stack_base t ∧ t_pid t0 = t_pid t ∧ t_exit_code t0 = t_exit_code t ∧
    t_state t0 = t_state t) as (C1 & C2 & C3 & C4 & C5 & C6 & C7) by (unfold t0, adopted; by case_decide).
  split_and!; try congruence. rewrite C7 in B7.
  destruct A7 as [[-> Ha]|(-> & Ha & Hb)], B7 as [[Hc Hd]|(-> & Hc & Hd)]; try rewrite Hc in *; try rewrite Hd in *.
  - left. done.
  - right. auto.
  - right. auto.
  - done.
Qed.
End Bereaved.

(** The state once the dead current task left the ring and became a zombie. *)
Definition buried (c : nat) (s : sched) : sched := task_zombify c (sched_remove c s).

Section Death.
Context (s : sched) (l1 : list nat) (c : nat) (l2 : list nat).
Let L := l1 ++ c :: l2.
Let L' := l1 ++ l2.
Context (Hpre : sched_pre s L c) (Hdead : state_of s c = Some TASK_DEAD) (Hidle : idle_task s ≠ Some c).

Lemma dead_ring : NoDup L ∧ c ∉ L' ∧ ∀ i, i ∈ L ↔ i = c ∨ i ∈ L'.
Proof.
  pose proof (rg_nodup _ _ (sp_ring _ _ _ Hpre)) as Hnd. destruct (NoDup_remove l1 l2 c Hnd) as [_ Hc].
  split; [done|]. split; [done|]. intros i. unfold L, L'. rewrite !elem_of_app, elem_of_cons. tauto.
Qed.

(** Facts about [buried c s], task by task. *)
Lemma buried_spec :
  (∀ k, ∃ n, tasks (buried c s) !! k = (λ t, bereaved c (foster c s) (parent_of s c) k (set_next (n t) t)) <$> tasks s !! k) ∧
  ring (buried c s) L' ∧ all_tasks (buried c s) = all_tasks s ∧ zombie_tasks (buried c s) = c :: zombie_tasks s ∧
  idle_task (buried c s) = idle_task s ∧ init_task (buried c s) = init_task s ∧
  current_task (buried c s) = Some c ∧ reg_cr3 (buried c s) = reg_cr3 s ∧ next_pid (buried c s) = next_pid s.
Proof.
  destruct (sched_remove_ring s l1 c l2 (sp_ring _ _ _ Hpre)) as [Hring (p & nx & h & n & Es)].
  destruct Hpre as [R A [Hnd Z] C Hc Hin Al Id Pa In Cpu].
  set (s1 := sched_remove c s) in *.
  assert (∀ k, ∃ n, tasks s1 !! k = (λ t, set_next (n t) t) <$> tasks s !! k) as Hs1.
  { intros k. rewrite Es. simpl. destruct (decide (k = p)) as [->|].
    - exists (λ _, nx). by rewrite lookup_alter_eq.
    - exists t_next. rewrite lookup_alter_ne by done. destruct (tasks s !! k) as [t|]; [|done]. simpl. by destruct t. }
  assert (∀ k, parent_of s1 k = parent_of s k) as Hpar1.
  { intros k. unfold parent_of. destruct (Hs1 k) as [m ->]. by destruct (tasks s !! k). }
  assert (∀ k, state_of s1 k = state_of s k) as Hst1.
  { intros k. unfold state_of. destruct (Hs1 k) as [m ->]. by destruct (tasks s !! k). }
  assert (foster c s1 = foster c s) as Hf.
  { unfold foster. rewrite Es. cbn [init_task set_queue update_task set_tasks]. destruct (init_task s) as [i|]; [|done].
    fold s1. rewrite <- Es. by rewrite Hst1. }
  destruct (zombify_tasks s1 c) as [Ez Hz].
  - rewrite Es. simpl. intros Hcz. by destruct (Z c Hcz) as [_ ?].
  - rewrite Es. apply A.
  - intros i. rewrite Es. simpl. rewrite (proj2 A). destruct (Hs1 i) as [m Hm]. rewrite Es in Hm. simpl in Hm.
    rewrite Hm. by rewrite fmap_is_Some.
  - rewrite Hpar1. intros Hp. by destruct (Pa c c Hp).
  - cbv zeta in Ez, Hz. unfold buried. fold s1. rewrite Hf, Hpar1 in Hz.
    assert (∀ k, next_of (task_zombify c s1) k = next_of s1 k) as Hnx.
    { intros k. unfold next_of. rewrite Hz. destruct (tasks s1 !! k) as [t|]; [|done]. simpl.
      apply bereaved_fields. }
    split; [|split].
    + intros k. destruct (Hs1 k) as [m Hm]. exists m. rewrite Hz, Hm. by destruct (tasks s !! k).
    + destruct Hring as [H1 H2 H3 H4 H5]. split; [done|by rewrite Ez|done| |].
      * intros i Hi. rewrite Hz, fmap_is_Some. auto.
      * assert (run_queue_head (task_zombify c s1) = run_queue_head s1) as -> by (by rewrite Ez).
        fold L' in H5. destruct L' as [|x l]; [done|].
        destruct H5 as [? Hp]. split; [done|]. apply (path_ext (next_of s1)); [|done]. auto.
    + rewrite Ez, Es. simpl. done.
Qed.

Lemma buried_some k : is_Some (tasks (buried c s) !! k) ↔ is_Some (tasks s !! k).
Proof. destruct (proj1 buried_spec k) as [m ->]. apply fmap_is_Some. Qed.

Lemma buried_task k t : tasks s !! k = Some t →
  ∃ t', tasks (buried c s) !! k = Some t' ∧
    t_parent t' = (if decide (t_parent t = Some c) then foster c s else t_parent t) ∧
    t_cr3 t' = t_cr3 t ∧ t_stack_base t' = t_stack_base t ∧ t_pid t' = t_pid t ∧ t_exit_code t' = t_exit_code t ∧
    (t_state t' = t_state t ∧ (parent_of s c = Some k → t_state t ≠ TASK_BLOCKED) ∨
     t_state t = TASK_BLOCKED ∧ t_state t' = TASK_READY).
Proof.
  intros Ht. destruct (proj1 buried_spec k) as [m Hm]. rewrite Ht in Hm. eexists. split; [exact Hm|].
  destruct (bereaved_fields c (foster c s) (parent_of s c) k (set_next (m t) t)) as (F1 & _ & F3 & F4 & F5 & F6 & F7).
  split_and!; [done..|]. destruct F7 as [F7|(_ & F7)]; auto.
Qed.

Lemma foster_in i : foster c s = Some i → i ∈ L' ∧ parent_of s i = None.
Proof.
  unfold foster. destruct (init_task s) as [j|] eqn:Ei; [|done].
  destruct (negb (j =? c)%nat && _) eqn:E; [|done]. intros [= <-].
  apply andb_true_iff in E as [E1%negb_true_iff%Nat.eqb_neq E2%negb_true_iff%bool_decide_eq_false].
  destruct (sp_init _ _ _ Hpre j Ei) as [Hs Hp]. split; [|done].
  destruct (sp_cover _ _ _ Hpre j Hs) as [Hin|Hz].
  - apply dead_ring in Hin as [?|?]; done.
  - by destruct (proj2 (sp_zombies _ _ _ Hpre) j Hz).
Qed.

Lemma alive_member i : i ∈ L' → ∃ t, tasks s !! i = Some t ∧ (t_state t = TASK_READY ∨ t_state t = TASK_BLOCKED).
Proof.
  intros Hi. destruct dead_ring as (_ & Hc & Hmem).
  assert (i ∈ L) as HiL by (apply Hmem; by right).
  destruct (rg_tasks _ _ (sp_ring _ _ _ Hpre) i HiL) as [t Ht]. exists t. split; [done|].
  destruct (sp_alive _ _ _ Hpre i HiL) as [H|H]; [intros ->; done|..];
    unfold state_of in H; rewrite Ht in H; simplify_eq/=; auto.
Qed.

Lemma buried_alive i : i ∈ L' →
  state_of (buried c s) i = Some TASK_READY ∨ state_of (buried c s) i = Some TASK_BLOCKED.
Proof.
  intros (t & Ht & Hst)%alive_member. destruct (buried_task i t Ht) as (t' & Ht' & _ & _ & _ & _ & _ & Hs).
  unfold state_of. rewrite Ht'. simpl. destruct Hs as [[-> _]|[_ ->]]; [destruct Hst as [-> | ->]|]; auto.
Qed.

Lemma buried_ready i : state_of s i = Some TASK_READY → state_of (buried c s) i = Some TASK_READY.
Proof.
  unfold state_of. destruct (tasks s !! i) as [t|] eqn:Ht; [|done]. intros Hr.
  destruct (buried_task i t Ht) as (t' & -> & _ & _ & _ & _ & _ & Hs). simplify_eq/=.
  destruct Hs as [[-> _]|[? _]]; congruence.
Qed.

Lemma buried_pre n : n ∈ L' →
  sched_pre (set_current (Some n) (set_reg_cr3 (cr3_of (buried c s) n)
    (set_kernel_stack (stack_top_of (buried c s) n) (buried c s)))) L' n.
Proof.
  intros Hn. destruct buried_spec as (Ht & Hring & Hall & Hz & Hid & Hini & _).
  destruct dead_ring as (Hnd & Hc & Hmem).
  destruct (sp_zombies _ _ _ Hpre) as [Hndz Hzst]. split; simpl.
  - by destruct Hring; split.
  - rewrite Hall. split; [apply (sp_all _ _ _ Hpre)|]. intros i. rewrite (proj2 (sp_all _ _ _ Hpre)). symmetry. apply buried_some.
  - rewrite Hz. split.
    + apply NoDup_cons. split; [|done]. intros Hcz. destruct (Hzst c Hcz) as [_ H]. apply H, (sp_in _ _ _ Hpre).
    + assert (∀ z, state_of s z = Some TASK_DEAD → state_of (buried c s) z = Some TASK_DEAD) as Hdd.
      { intros z. unfold state_of. destruct (tasks s !! z) as [t|] eqn:Et; [|done]. intros Hd.
        destruct (buried_task z t Et) as (t' & -> & _ & _ & _ & _ & _ & Hs). simplify_eq/=.
        destruct Hs as [[-> _]|[? _]]; congruence. }
      intros z [->|Hzin]%elem_of_cons; [split; [by apply Hdd|done]|].
      destruct (Hzst z Hzin) as [Hd HnL]. split; [by apply Hdd|]. intros Hin. apply HnL, Hmem. by right.
  - intros i Hi%buried_some. rewrite Hz, elem_of_cons. destruct (sp_cover _ _ _ Hpre i Hi) as [HL|HZ]; [|tauto].
    apply Hmem in HL. tauto.
  - done.
  - done.
  - intros i Hi _. by apply buried_alive.
  - destruct (sp_idle _ _ _ Hpre) as (d & Hd & HdL & [->|Hr]); [done|]. exists d. rewrite Hid. split; [done|].
    apply Hmem in HdL as [->|HdL]; [done|]. split; [done|]. right. by apply buried_ready.
  - intros i p. unfold parent_of. cbn [tasks set_current set_reg_cr3 set_kernel_stack].
    destruct (tasks s !! i) as [t|] eqn:Et.
    + destruct (buried_task i t Et) as (t' & -> & Hp & _). simpl. rewrite Hp. case_decide as Ec.
      * intros [Hf Hnone]%foster_in. split; [done|]. intros ->. unfold parent_of in Hnone. rewrite Et in Hnone. simplify_eq/=.
      * intros Hpp. destruct (sp_parent _ _ _ Hpre i p) as [HpL Hne]; [unfold parent_of; by rewrite Et|].
        split; [|done]. apply Hmem in HpL as [->|?]; [|done]. congruence.
    + destruct (Ht i) as [m Hm]. rewrite Et in Hm. by rewrite Hm.
  - intros i Hi. rewrite Hini in Hi. destruct (sp_init _ _ _ Hpre i Hi) as [[t Et] Hp].
    destruct (buried_task i t Et) as (t' & Ht' & Hpar & _). unfold parent_of in *. cbn [tasks set_current set_reg_cr3 set_kernel_stack].
    rewrite Et in Hp. rewrite Ht'. split; [eauto|]. simpl in *. rewrite Hpar, Hp. by case_decide.
  - done.
Qed.

(** The task that runs after the death of [c]: its parent if it has one. *)
Definition heir : option nat :=
  match parent_of s c with Some p => Some p | None => pick s (l2 ++ l1 ++ [c]) end.

Lemma heir_in : ∃ n, heir = Some n ∧ n ∈ L' ∧ runnable (state_of (buried c s) n) = true.
Proof.
  destruct dead_ring as (Hnd & Hc & Hmem). unfold heir. destruct (parent_of s c) as [p|] eqn:Ep.
  - exists p. split; [done|]. destruct (sp_parent _ _ _ Hpre c p Ep) as [HpL Hne].
    assert (p ∈ L') as HpL' by (apply Hmem in HpL as [->|?]; done). split; [done|].
    destruct (alive_member p HpL') as (t & Ht & Hst).
    destruct (buried_task p t Ht) as (t' & Ht' & _ & _ & _ & _ & _ & Hs). unfold state_of. rewrite Ht'. simpl.
    rewrite Ep in Hs. destruct Hs as [[-> Hs]|[_ ->]]; [|done].
    destruct Hst as [-> |Hb]; [done|]. by specialize (Hs eq_refl).
  - destruct (sp_idle _ _ _ Hpre) as (d & Hd & HdL & [->|Hr]); [done|].
    destruct (pick_exists s (l2 ++ l1 ++ [c]) d) as [n Hn]; [|by rewrite Hr|].
    { rewrite app_assoc, elem_of_app. left. apply (others_in l1 c l2); [done|]. congruence. }
    exists n. split; [done|]. destruct (pick_some _ _ _ Hn) as [Hin Hrun].
    apply (order_in l1 c l2) in Hin. apply Hmem in Hin as [->|Hin].
    { rewrite Hdead in Hrun. done. }
    split; [done|]. apply (runnable_mono s); [|done].
    destruct (alive_member n Hin) as (t & Ht & Hst). intros [H|H]; [by rewrite (buried_ready n H), H|].
    unfold state_of in H. rewrite Ht in H. simpl in H. destruct Hst; congruence.
Qed.

Lemma schedule_dead n : heir = Some n →
  sched_ok (schedule s) L' n ∧
  states_only (λ k t, if decide (k = n) then TASK_RUNNING else t_state t) (buried c s) (schedule s).
Proof.
  intros Hn. destruct heir_in as (n' & Hn' & HnL & Hrun). rewrite Hn in Hn'. injection Hn' as <-.
  destruct dead_ring as (Hnd & Hc & Hmem).
  destruct (scan_ring s l1 c l2 (sp_ring _ _ _ Hpre)) as [e Hscan]. fold (pick s (l2 ++ l1 ++ [c])) in Hscan.
  unfold schedule. rewrite (sp_current _ _ _ Hpre), Hscan, bool_decide_true by done. fold (buried c s).
  assert (match parent_of s c with
          | Some p => if runnable (state_of (buried c s) p) then Some p
                      else match pick s (l2 ++ l1 ++ [c]) with Some k => Some k | None => Some e end
          | None => match pick s (l2 ++ l1 ++ [c]) with Some k => Some k | None => Some e end end = Some n) as ->.
  { revert Hn. unfold heir. destruct (parent_of s c) as [p|]; [intros [= ->]; by rewrite Hrun|]. by intros ->. }
  cbv beta iota zeta. rewrite Hrun.
  assert (n ≠ c) as Hne by (intros ->; done). rewrite (proj2 (Nat.eqb_neq n c)) by done.
  destruct buried_spec as (_ & _ & _ & _ & _ & _ & Hcur & Hreg & _).
  destruct (alive_member n HnL) as (tn & Htn & _).
  destruct (rg_tasks _ _ (sp_ring _ _ _ Hpre) c (sp_in _ _ _ Hpre)) as [tc Htc].
  destruct (switch_to_spec c n (buried c s)) as (Hx & Hc' & Hr' & Ht' & Hk').
  { apply buried_some. eauto. }
  { rewrite Hreg. destruct (sp_cpu _ _ _ Hpre) as (-> & _). unfold cr3_of.
    destruct (buried_task c tc Htc) as (tc' & -> & _ & Hcr & _). by rewrite Htc, Hcr. }
  split; [|done]. split.
  - pose proof (buried_pre n HnL) as Hb.
    set (b' := set_current (Some n) (set_reg_cr3 (cr3_of (buried c s) n)
       (set_kernel_stack (stack_top_of (buried c s) n) (buried c s)))) in Hb.
    assert (states_only (λ k t, if decide (k = n) then TASK_RUNNING else t_state t) b' (switch_to c n (buried c s))) as Hx'
      by (by destruct Hx; split).
    apply (sx_pre _ _ _ Hx' L' n n Hb); [done|done| | | |done|done|done].
    + intros i t Hi Hni. rewrite decide_False; [done|]. intros ->. done.
    + intros i t Hi Hine Ht0. rewrite decide_False by done.
      destruct (sp_alive _ _ _ Hb i Hi Hine) as [H|H]; unfold state_of in H; rewrite Ht0 in H; simplify_eq/=; auto.
    + intros d t Hd Hdn Ht0. rewrite decide_False by done.
      destruct (sp_idle _ _ _ Hb) as (d' & Hd' & _ & Hor). rewrite Hd in Hd'. injection Hd' as <-.
      destruct Hor as [?|H]; [done|].
      unfold state_of in H. rewrite Ht0 in H. by simplify_eq/=.
  - rewrite (sx_state _ _ _ Hx). destruct (buried_task n tn Htn) as (t' & -> & _). simpl. by rewrite decide_True.
Qed.
End Death.

(** ** Other changes *)

(** Changes to the current task that keep its place. *)
Lemma pre_update s L c f :
  sched_pre s L c →
  (∀ t, t_parent (f t) = t_parent t ∧ t_next (f t) = t_next t ∧ t_cr3 (f t) = t_cr3 t ∧
        t_stack_base (f t) = t_stack_base t) →
  sched_pre (update_task f c s) L c.
Proof.
  intros [R A Z C Hc Hin Al Id Pa In Cpu] Hf. set (s' := update_task f c s).
  assert (∀ {B} (g : task → B) k, (∀ t, g (f t) = g t) → g <$> tasks s' !! k = g <$> tasks s !! k) as Hg.
  { intros B g k Hgf. unfold s'; simpl. destruct (decide (k = c)) as [->|]; [|by rewrite lookup_alter_ne].
    rewrite lookup_alter_eq. destruct (tasks s !! c); [|done]. simpl. by rewrite Hgf. }
  assert (∀ k, next_of s' k = next_of s k) as Hn.
  { intros k. unfold s'. rewrite next_of_update. destruct (decide (k = c)) as [->|]; [|done].
    unfold next_of. destruct (tasks s !! c) as [t|]; [|done]. simpl. apply (Hf t). }
  assert (∀ k, parent_of s' k = parent_of s k) as Hp.
  { intros k. unfold parent_of. pose proof (Hg _ t_parent k (λ t, proj1 (Hf t))) as H.
    destruct (tasks s' !! k), (tasks s !! k); simplify_eq/=; auto. }
  assert (∀ k, k ≠ c → tasks s' !! k = tasks s !! k) as Hne by (intros; unfold s'; simpl; by rewrite lookup_alter_ne).
  assert (∀ k, is_Some (tasks s' !! k) ↔ is_Some (tasks s !! k)) as Hs by (intros; apply update_some).
  split.
  - destruct R as [R1 R2 R3 R4 R5]. split; [done..| |].
    + intros i Hi. apply Hs. auto.
    + destruct L as [|x l]; [done|]. destruct R5. split; [done|]. apply (path_ext (next_of s)); auto.
  - split; [apply A|]. intros i. rewrite Hs. apply A.
  - split; [apply Z|]. intros z Hz. destruct Z as [_ Z]. destruct (Z z Hz) as [H1 H2]. split; [|done].
    unfold state_of. rewrite Hne; [done|]. intros ->. done.
  - intros i. rewrite Hs. apply C.
  - done.
  - done.
  - intros i Hi Hic. unfold state_of. rewrite Hne by done. by apply Al.
  - destruct Id as (d & ? & ? & Hor). exists d. split; [done|]. split; [done|].
    destruct (decide (d = c)); [by left|right]. destruct Hor as [?|Hor]; [done|]. unfold state_of. by rewrite Hne.
  - intros i p. rewrite Hp. apply Pa.
  - intros i Hi. rewrite Hs, Hp. by apply In.
  - destruct Cpu as (C1 & C2 & C3).
    assert (cr3_of s' c = cr3_of s c ∧ stack_top_of s' c = stack_top_of s c) as [-> ->]; [|done].
    unfold cr3_of, stack_top_of.
    pose proof (Hg _ t_cr3 c (λ t, proj1 (proj2 (proj2 (Hf t))))) as H1.
    pose proof (Hg _ t_stack_base c (λ t, proj2 (proj2 (proj2 (Hf t))))) as H2.
    destruct (tasks s' !! c), (tasks s !! c); simplify_eq/=; split; congruence.
Qed.

(** A new task enters the ring right after the current one. *)
Lemma add_task_ok s l1 c l2 i t :
  sched_ok s (l1 ++ c :: l2) c → tasks s !! i = None → t_state t = TASK_READY → t_pid t = next_pid s →
  1 < next_pid s → len (l1 ++ c :: l2) + 1 < 2^32 →
  let s' := add_task i t s in
  sched_ok s' (l1 ++ c :: i :: l2) c ∧
  tasks s' !! i = Some (set_next (next_of s c) (set_parent (Some c) t)) ∧
  (∀ k, k ≠ i → k ≠ c → tasks s' !! k = tasks s !! k) ∧
  tasks s' !! c = set_next (Some i) <$> tasks s !! c ∧
  zombie_tasks s' = zombie_tasks s ∧ next_pid s' = u32 (next_pid s + 1).
Proof.
  intros [Hpre Hrun] Hi Hst Hpid Hnp Hlen. cbv zeta. unfold add_task.
  set (s0 := set_next_pid _ _).
  assert (task_register i s0 = set_lists (i :: all_tasks s0) (zombie_tasks s0) (update_task (set_parent (Some c)) i s0)) as Ereg.
  { unfold task_register. assert (current_task s0 = Some c) as -> by exact (sp_current _ _ _ Hpre).
    rewrite bool_decide_false; [done|]. cbn. rewrite lookup_alter_eq, lookup_insert_eq. cbn. rewrite Hpid. intros [=]. lia. }
  rewrite Ereg. set (s1 := set_lists _ _ _).
  assert (∀ k, tasks s1 !! k = if decide (k = i) then Some (set_parent (Some c) t) else tasks s !! k) as Ht1.
  { intros k. unfold s1, s0; simpl. destruct (decide (k = i)) as [->|].
    - by rewrite lookup_alter_eq, lookup_insert_eq.
    - by rewrite lookup_alter_ne, lookup_insert_ne. }
  assert (∀ k, k ≠ i → tasks s1 !! k = tasks s !! k) as Hk1 by (intros; rewrite Ht1; by rewrite decide_False).
  destruct Hpre as [R A Z C Hc Hin Al Id Pa In Cpu].
  assert (i ∉ l1 ++ c :: l2) as HiL.
  { intros H. destruct (rg_tasks _ _ R i H). congruence. }
  assert (c ≠ i) as Hci by (intros ->; done).
  assert (ring s1 (l1 ++ c :: l2)) as R1.
  { destruct R as [R1 R2 R3 R4 R5]. split; [done..| |].
    - intros k Hk. rewrite Hk1; [auto|]. intros ->. done.
    - destruct (l1 ++ c :: l2) as [|x l]; [done|]. destruct R5. split; [done|].
      apply (path_ext (next_of s)); [|done]. intros k Hk. unfold next_of. rewrite Hk1; [done|]. intros ->. done. }
  assert (ring (sched_add i s1) (l1 ++ c :: i :: l2)) as R2.
  { apply sched_add_ring; [done| |done| |done].
    - change (current_task s1) with (current_task s). by rewrite Hc.
    - rewrite Ht1. rewrite decide_True by done. eauto. }
  assert (∃ h, run_queue_head s1 = Some h) as [h Hh].
  { pose proof (rg_path _ _ R1) as Hp. destruct (l1 ++ c :: l2) as [|x l] eqn:E; [by destruct l1|]. destruct Hp; eauto. }
  assert (sched_add i s1 = set_queue (Some h) (u32 (task_count s1 + 1))
            (update_task (set_next (Some i)) c (update_task (set_next (next_of s1 c)) i s1))) as Eadd.
  { unfold sched_add. rewrite Hh. change (current_task s1) with (current_task s). rewrite Hc. cbv zeta. cbn [default from_option id].
    change (run_queue_head (update_task _ _ (update_task _ _ s1))) with (run_queue_head s1). by rewrite Hh. }
  set (s' := sched_add i s1) in *.
  assert (∀ k, tasks s' !! k = if decide (k = i) then Some (set_next (next_of s c) (set_parent (Some c) t))
     else if decide (k = c) then set_next (Some i) <$> tasks s !! k else tasks s !! k) as Ht'.
  { intros k. rewrite Eadd. cbn [tasks set_queue update_task set_tasks].
    assert (next_of s1 c = next_of s c) as -> by (unfold next_of; by rewrite Hk1).
    destruct (decide (k = i)) as [->|Hki].
    - rewrite lookup_alter_ne by done. rewrite lookup_alter_eq, Ht1. rewrite decide_True by done. done.
    - destruct (decide (k = c)) as [->|Hkc].
      + rewrite lookup_alter_eq, lookup_alter_ne by done. by rewrite Hk1.
      + rewrite !lookup_alter_ne by done. by rewrite Hk1. }
  assert (all_tasks s' = i :: all_tasks s ∧ zombie_tasks s' = zombie_tasks s ∧ current_task s' = Some c ∧
          idle_task s' = idle_task s ∧ init_task s' = init_task s ∧ reg_cr3 s' = reg_cr3 s ∧ tss_rsp0 s' = tss_rsp0 s ∧
          syscall_kernel_stack_top s' = syscall_kernel_stack_top s ∧ next_pid s' = u32 (next_pid s + 1))
    as (Fa & Fz & Fc & Fi & Fn & Fr & Ft & Fk & Fp) by (by rewrite Eadd).
  assert (∀ k, k ≠ i → state_of s' k = state_of s k ∧ parent_of s' k = parent_of s k ∧
            (is_Some (tasks s' !! k) ↔ is_Some (tasks s !! k)) ∧ cr3_of s' k = cr3_of s k ∧
            stack_top_of s' k = stack_top_of s k) as Hold.
  { intros k Hk. unfold state_of, parent_of, cr3_of, stack_top_of. rewrite Ht'. rewrite decide_False by done.
    case_decide; [|done]. destruct (tasks s !! k); [|done]. simpl. split_and!; try done. }
  assert (state_of s' i = Some TASK_READY ∧ parent_of s' i = Some c ∧ is_Some (tasks s' !! i)) as (Hni1 & Hni2 & Hni3).
  { unfold state_of, parent_of. rewrite Ht'. rewrite decide_True by done. simpl. rewrite Hst. split_and!; eauto. }
  assert (∀ k, k ∈ l1 ++ c :: i :: l2 ↔ k = i ∨ k ∈ l1 ++ c :: l2) as Hmem
    by (intros k; rewrite !elem_of_app, !elem_of_cons; tauto).
  split; [|split_and!].
  - split; [split|].
    + done.
    + rewrite Fa. destruct A as [A1 A2]. split.
      * apply NoDup_cons. split; [|done]. rewrite A2. intros [? ?]. congruence.
      * intros k. rewrite elem_of_cons, A2.
        destruct (decide (k = i)) as [->|Hk]; [tauto|]. destruct (Hold k Hk) as (_ & _ & -> & _). tauto.
    + rewrite Fz. split; [apply Z|]. intros z Hz. destruct Z as [_ Z]. destruct (Z z Hz) as [Hd HnL].
      assert (z ≠ i) as Hzi by (intros ->; unfold state_of in Hd; by rewrite Hi in Hd).
      destruct (Hold z Hzi) as (-> & _). split; [done|]. rewrite Hmem. tauto.
    + intros k Hk. rewrite Fz, Hmem.
      destruct (decide (k = i)) as [->|Hki]; [auto|]. apply (Hold k Hki) in Hk. destruct (C k Hk); auto.
    + done.
    + rewrite Hmem. auto.
    + intros k Hk Hkc. apply Hmem in Hk as [->|Hk]; [auto|]. assert (k ≠ i) as Hki by (intros ->; done).
      destruct (Hold k Hki) as (-> & _). auto.
    + destruct Id as (d & Hd & HdL & Hor). exists d. split; [by rewrite Fi|]. rewrite Hmem. split; [auto|].
      assert (d ≠ i) as Hdi by (intros ->; done). destruct (Hold d Hdi) as (-> & _). done.
    + intros k p. destruct (decide (k = i)) as [->|Hki].
      * rewrite Hni2. intros [= <-]. rewrite Hmem. auto.
      * destruct (Hold k Hki) as (_ & -> & _). intros Hp. rewrite Hmem. destruct (Pa k p Hp). auto.
    + intros k Hk. rewrite Fn in Hk. destruct (In k Hk) as [Hs1 Hs2].
      assert (k ≠ i) as Hki by (intros ->; destruct Hs1; congruence).
      destruct (Hold k Hki) as (_ & -> & -> & _). done.
    + destruct (Hold c Hci) as (_ & _ & _ & -> & ->). by rewrite Fr, Ft, Fk.
    + destruct (Hold c Hci) as (-> & _). done.
  - rewrite Ht'. by rewrite decide_True.
  - intros k Hk Hkc. rewrite Ht'. by rewrite !decide_False.
  - rewrite Ht'. by rewrite decide_False, decide_True.
  - done.
  - done.
Qed.

(** A zombie that is not init leaves the lists and its memory is released. *)
Definition forget (z : nat) (s : sched) : sched :=
  task_free z (task_unregister z (set_lists (all_tasks s) (filter (λ i, i ≠ z) (zombie_tasks s)) s)).

Lemma forget_ok s L c z : sched_ok s L c → z ∈ zombie_tasks s → init_task s ≠ Some z → sched_ok (forget z s) L c.
Proof.
  intros [[R A Z C Hc Hin Al Id Pa In Cpu] Hrun] Hz Hni.
  destruct Z as [Hnd Hzs]. destruct (Hzs z Hz) as [Hd HzL].
  assert (∀ k, k ≠ z → tasks (forget z s) !! k = tasks s !! k) as Hk
    by (intros k Hk; unfold forget; simpl; by rewrite lookup_delete_ne).
  assert (tasks (forget z s) !! z = None) as Hzn by (unfold forget; simpl; apply lookup_delete_eq).
  assert (∀ k, k ∈ L → k ≠ z) as HL by (intros k Hk0 ->; done).
  assert (∀ k, k ≠ z → state_of (forget z s) k = state_of s k ∧ parent_of (forget z s) k = parent_of s k ∧
    next_of (forget z s) k = next_of s k ∧ cr3_of (forget z s) k = cr3_of s k ∧
    stack_top_of (forget z s) k = stack_top_of s k) as Hold.
  { intros k Hkz. unfold state_of, parent_of, next_of, cr3_of, stack_top_of. by rewrite Hk. }
  split; [split|].
  - destruct R as [R1 R2 R3 R4 R5]. split; [done..| |].
    + intros i Hi. rewrite Hk; auto.
    + destruct L as [|x l]; [done|]. destruct R5. split; [done|]. apply (path_ext (next_of s)); [|done].
      intros k Hk0. apply Hold. auto.
  - destruct A as [A1 A2].
    assert (all_tasks (forget z s) = filter (λ i, i ≠ z) (all_tasks s)) as -> by done.
    split; [by apply NoDup_filter|]. intros i. rewrite list_elem_of_filter, A2.
    destruct (decide (i = z)) as [->|Hiz].
    + rewrite Hzn. split; [tauto|]. intros [? ?]; done.
    + rewrite Hk by done. tauto.
  - cbn. split; [by apply NoDup_filter|]. intros y [Hyz Hy]%list_elem_of_filter. destruct (Hzs y Hy).
    destruct (Hold y Hyz) as (-> & _). done.
  - intros i Hi. assert (i ≠ z) as Hiz by (intros ->; rewrite Hzn in Hi; by destruct Hi).
    rewrite Hk in Hi by done. cbn. rewrite list_elem_of_filter. destruct (C i Hi); auto.
  - done.
  - done.
  - intros i Hi Hic. destruct (Hold i (HL i Hi)) as (-> & _). auto.
  - destruct Id as (d & Hd' & HdL & Hor). exists d. split; [done|]. split; [done|].
    destruct (Hold d (HL d HdL)) as (-> & _). done.
  - intros i p Hp. assert (i ≠ z) as Hiz by (intros ->; unfold parent_of in Hp; by rewrite Hzn in Hp).
    destruct (Hold i Hiz) as (_ & Hpp & _). rewrite Hpp in Hp. auto.
  - intros i Hi. cbn in Hi. assert (i ≠ z) as Hiz by congruence. destruct (Hold i Hiz) as (_ & -> & _). rewrite Hk by done. auto.
  - destruct (Hold c (HL c Hin)) as (_ & _ & _ & -> & ->). done.
  - destruct (Hold c (HL c Hin)) as (-> & _). done.
Qed.
