(* ===== verification/SchedProps.v ===== *)
(** * Tasks and the scheduler: properties *)

From Stdlib Require Import ZArith Lia.
From S2P Require Import Prelude Memory Kbd Vfs Sched SchedInv SchedOps.
Import StringC.

(** ** Yield *)

Lemma yield_step s l1 c l2 : sched_ok s (l1 ++ c :: l2) c →
  ∃ n, pick s (l2 ++ l1 ++ [c]) = Some n ∧ sched_ok (sched_yield s) (l1 ++ c :: l2) n ∧
       states_only (yield_state c n) s (sched_yield s).
Proof.
  intros [Hpre Hrun]. destruct (pick_next s l1 c l2 Hpre) as [n Hn]; [by left|].
  exists n. split; [done|]. apply schedule_live; [done|by left|done].
Qed.

(** sched_yield hands the processor to the first runnable task after the current
    one in ring order (to itself if there is no other): that task becomes the only
    running one, its page tables and kernel stack are installed, the old task is
    ready again, and nothing else changes. *)
Theorem sched_yield_round_robin (s : sched) (l1 : list nat) (c : nat) (l2 : list nat) :
  sched_ok s (l1 ++ c :: l2) c →
  ∃ n, pick s (l2 ++ l1 ++ [c]) = Some n ∧ sched_ok (sched_yield s) (l1 ++ c :: l2) n ∧
       states_only (yield_state c n) s (sched_yield s).
Proof. apply yield_step. Qed.

Fixpoint yields (k : nat) (s : sched) : sched :=
  match k with O => s | S k' => yields k' (sched_yield s) end.

(** The tasks before the first match of [find] do not match. *)
Lemma find_split {A} (P : A → bool) l x : find P l = Some x →
  ∃ l1 l2, l = l1 ++ x :: l2 ∧ P x = true ∧ ∀ y, y ∈ l1 → P y = false.
Proof.
  induction l as [|a l IH]; simpl; [done|]. destruct (P a) eqn:E.
  - intros [= ->]. exists [], l. split; [done|]. split; [done|]. intros y Hy. by apply not_elem_of_nil in Hy.
  - intros H. destruct (IH H) as (l1 & l2 & -> & Hx & Hl). exists (a :: l1), l2. split; [done|]. split; [done|].
    intros y [->|Hy]%elem_of_cons; auto.
Qed.


Lemma rotate_in_ring (l1 : list nat) c l2 a n b :
  NoDup (l1 ++ c :: l2) → l2 ++ l1 = a ++ n :: b →
  ∃ m1 m2, l1 ++ c :: l2 = m1 ++ n :: m2 ∧ m2 ++ m1 = b ++ c :: a.
Proof.
  intros _ H. destruct (decide (length l2 <= length a)%nat) as [Hle|Hgt].
  - assert (∃ x, a = l2 ++ x ∧ l1 = x ++ n :: b) as (x & -> & ->).
    { exists (drop (length l2) a).
      assert (take (length l2) a = l2) as Ht.
      { rewrite <- (take_app_le a (n :: b)) by done. rewrite <- H. by apply take_app_length. }
      split; [transitivity (take (length l2) a ++ drop (length l2) a); [by rewrite take_drop|by rewrite Ht]|].
      rewrite <- (drop_app_le a (n :: b)) by done. rewrite <- H. by rewrite drop_app_length. }
    exists x, (b ++ c :: l2). split; [by rewrite <- !app_assoc|]. by rewrite <- !app_assoc.
  - assert (∃ y, l2 = a ++ n :: y ∧ b = y ++ l1) as (y & -> & ->).
    { assert (take (length a) l2 = a) as Ht.
      { rewrite <- (take_app_le l2 l1) by lia. rewrite H. by apply take_app_length. }
      assert (drop (length a) l2 ++ l1 = n :: b) as Hd.
      { rewrite <- (drop_app_le l2 l1) by lia. rewrite H. by rewrite drop_app_length. }
      destruct (drop (length a) l2) as [|z y] eqn:E.
      - apply (f_equal length) in E. rewrite length_drop in E. simpl in E. lia.
      - injection Hd as -> <-. exists y. split; [|done]. rewrite <- (take_drop (length a) l2), Ht, E. done. }
    exists (l1 ++ c :: a), y. split; [by rewrite <- !app_assoc|]. by rewrite <- !app_assoc.
Qed.

Lemma yields_reach m : ∀ before s l1 c l2 i rest,
  (length before <= m)%nat → sched_ok s (l1 ++ c :: l2) c → state_of s i = Some TASK_READY →
  l2 ++ l1 = before ++ i :: rest →
  ∃ k, (k <= length before)%nat ∧ current_task (yields (S k) s) = Some i.
Proof.
  induction m as [|m IH]; intros before s l1 c l2 i rest Hm Hok Hi Hrot;
    destruct (yield_step s l1 c l2 Hok) as (n & Hpick & Hok' & Hx);
    pose proof (rg_nodup _ _ (sp_ring _ _ _ (proj1 Hok))) as Hnd.
  - destruct before; [|simpl in Hm; lia]. exists 0%nat. split; [done|]. simpl.
    rewrite app_assoc, Hrot in Hpick. cbn in Hpick. rewrite Hi in Hpick. injection Hpick as <-.
    apply (sp_current _ _ _ (proj1 Hok')).
  - rewrite app_assoc, Hrot, <- app_assoc in Hpick.
    destruct (decide (n = i)) as [->|Hne].
    { exists 0%nat. split; [lia|]. apply (sp_current _ _ _ (proj1 Hok')). }
    assert (∃ b1 b2, before = b1 ++ n :: b2) as (b1 & b2 & Hbefore).
    { assert (n ∈ before) as Hin; [|by apply list_elem_of_split in Hin].
      unfold pick in Hpick. destruct (find_split _ _ _ Hpick) as (p1 & p2 & Hp & Hrun & Hno).
      destruct (decide (length before <= length p1)%nat) as [Hle|Hgt].
      - exfalso. assert (i ∈ p1 ∨ n = i) as [Hip|?]; [|by specialize (Hno i Hip); rewrite Hi in Hno|done].
        assert (p1 ++ n :: p2 = (before ++ [i]) ++ rest ++ [c]) as Hp' by (rewrite <- Hp, <- app_assoc; done).
        destruct (decide (length before = length p1)) as [El|El].
        + right. apply (f_equal (lookup (length before))) in Hp'. rewrite El in Hp' at 1.
          rewrite lookup_app_r, Nat.sub_diag in Hp' by lia. rewrite lookup_app_l in Hp' by (rewrite length_app; simpl; lia).
          rewrite lookup_app_r, Nat.sub_diag in Hp' by lia. simpl in Hp'. congruence.
        + left. apply (f_equal (lookup (length before))) in Hp'.
          rewrite lookup_app_l in Hp' by lia. rewrite lookup_app_l in Hp' by (rewrite length_app; simpl; lia).
          rewrite lookup_app_r, Nat.sub_diag in Hp' by lia. simpl in Hp'. by eapply list_elem_of_lookup_2.
      - apply (f_equal (lookup (length p1))) in Hp. rewrite lookup_app_l in Hp by lia.
        rewrite lookup_app_r, Nat.sub_diag in Hp by lia. simpl in Hp. by eapply list_elem_of_lookup_2. }
    rewrite Hbefore, <- app_assoc in Hrot. cbn [app] in Hrot.
    destruct (rotate_in_ring l1 c l2 b1 n (b2 ++ i :: rest) Hnd Hrot) as (m1 & m2 & HL & Hrot').
    rewrite HL in Hok'. rewrite <- app_assoc in Hrot'. cbn [app] in Hrot'.
    assert (i ≠ c) as Hic.
    { intros ->. destruct Hok as [_ Hrun]. congruence. }
    destruct (IH b2 (sched_yield s) m1 n m2 i (rest ++ c :: b1)) as (k & Hk & Hcur).
    + rewrite Hbefore, length_app in Hm. simpl in Hm. lia.
    + done.
    + rewrite (sx_state _ _ _ Hx). unfold state_of in Hi. destruct (tasks s !! i) as [t|]; [|done].
      simpl in *. unfold yield_state. rewrite !decide_False by congruence. done.
    + done.
    + exists (S k). split; [rewrite Hbefore, length_app; simpl; lia|]. exact Hcur.
Qed.

(** C26: round robin is fair: if tasks only yield, every ready task of the ring runs
    after at most as many yields as there are tasks. *)
Theorem ready_task_runs (s : sched) (L : list nat) (c i : nat) :
  sched_ok s L c → i ∈ L → state_of s i = Some TASK_READY →
  ∃ k, (k <= length L)%nat ∧ current_task (yields k s) = Some i.
Proof.
  intros Hok Hi Hr. pose proof (sp_in _ _ _ (proj1 Hok)) as Hc. apply list_elem_of_split in Hc as (l1 & l2 & ->).
  assert (i ≠ c) as Hne by (intros ->; destruct Hok; congruence).
  apply (others_in l1 c l2) in Hi; [|done]. apply list_elem_of_split in Hi as (before & rest & Hrot).
  destruct (yields_reach (length before) before s l1 c l2 i rest) as (k & Hk & Hcur); [done..|].
  exists (S k). split; [|done].
  apply (f_equal length) in Hrot. rewrite !length_app in *. simpl in *. lia.
Qed.

(** ** Exit *)

Definition killed (code : Z) (t : task) : task := set_state TASK_DEAD (set_exit_code code t).

Lemma killed_pre s L c code : sched_pre s L c → sched_pre (update_task (killed code) c s) L c.
Proof. intros H. by apply pre_update. Qed.

Lemma killed_state s L c code : sched_pre s L c → state_of (update_task (killed code) c s) c = Some TASK_DEAD.
Proof.
  intros H. destruct (rg_tasks _ _ (sp_ring _ _ _ H) c (sp_in _ _ _ H)) as [t Ht].
  unfold state_of. simpl. by rewrite lookup_alter_eq, Ht.
Qed.

Lemma killed_parent s c code k : parent_of (update_task (killed code) c s) k = parent_of s k.
Proof.
  unfold parent_of. simpl. destruct (decide (k = c)) as [->|]; [|by rewrite lookup_alter_ne].
  rewrite lookup_alter_eq. by destruct (tasks s !! c).
Qed.

Lemma killed_foster s c code : foster c (update_task (killed code) c s) = foster c s.
Proof.
  unfold foster. simpl. destruct (init_task s) as [i|]; [|done]. destruct (Nat.eqb_spec i c) as [->|Hne]; [done|].
  unfold state_of. simpl. by rewrite lookup_alter_ne.
Qed.

(** What a task looks like after the death of [c]. *)
Definition survives (c : nat) (fp : option nat) (t t' : task) : Prop :=
  t_pid t' = t_pid t ∧ t_exit_code t' = t_exit_code t ∧
  t_parent t' = if decide (t_parent t = Some c) then fp else t_parent t.

Lemma exit_steps s l1 c l2 code :
  sched_ok s (l1 ++ c :: l2) c → idle_task s ≠ Some c →
  let s' := task_exit code s in
  ∃ n, sched_ok s' (l1 ++ l2) n ∧
    (∀ p, parent_of s c = Some p → n = p) ∧
    zombie_tasks s' = c :: zombie_tasks s ∧
    (∃ t t', tasks s !! c = Some t ∧ tasks s' !! c = Some t' ∧ t_pid t' = t_pid t ∧ t_exit_code t' = code ∧
       t_parent t' = t_parent t) ∧
    (∀ k t, k ≠ c → tasks s !! k = Some t → ∃ t', tasks s' !! k = Some t' ∧ survives c (foster c s) t t').
Proof.
  intros [Hpre Hrun] Hidle. cbv zeta. unfold task_exit. rewrite (sp_current _ _ _ Hpre).
  change (λ t, set_state TASK_DEAD (set_exit_code code t)) with (killed code).
  set (s0 := update_task (killed code) c s).
  pose proof (killed_pre s _ c code Hpre) as Hpre0. pose proof (killed_state s _ c code Hpre) as Hd0. fold s0 in Hpre0, Hd0.
  destruct (heir_in s0 l1 c l2 Hpre0 Hd0 Hidle) as (n & Hn & _ & _).
  destruct (schedule_dead s0 l1 c l2 Hpre0 Hd0 Hidle n Hn) as [Hok Hx].
  destruct (buried_spec s0 l1 c l2 Hpre0) as (_ & _ & _ & Hz & _).
  exists n. split; [done|]. split; [|split; [|split]].
  - intros p Hp. unfold heir in Hn. unfold s0 in Hn. rewrite killed_parent, Hp in Hn. by injection Hn.
  - rewrite (sx_zombies _ _ _ Hx), Hz. done.
  - destruct (rg_tasks _ _ (sp_ring _ _ _ Hpre) c (sp_in _ _ _ Hpre)) as [t Ht].
    assert (tasks s0 !! c = Some (killed code t)) as Ht0 by (unfold s0; simpl; by rewrite lookup_alter_eq, Ht).
    destruct (buried_task s0 l1 c l2 Hpre0 c _ Ht0) as (t' & Ht' & Hp & _ & _ & Hpid & Hcode & _).
    exists t, (set_state (if decide (c = n) then TASK_RUNNING else t_state t') t'). split; [done|].
    rewrite (sx_tasks _ _ _ Hx), Ht'. split; [done|]. split; [done|]. split; [done|].
    simpl. rewrite Hp. simpl. rewrite decide_False; [done|]. intros Hpc.
    destruct (sp_parent _ _ _ Hpre c c) as [_ Hcc]; [unfold parent_of; by rewrite Ht|done].
  - intros k t Hk Ht. assert (tasks s0 !! k = Some t) as Ht0 by (unfold s0; simpl; by rewrite lookup_alter_ne).
    destruct (buried_task s0 l1 c l2 Hpre0 k t Ht0) as (t' & Ht' & Hp & _ & _ & Hpid & Hcode & _).
    eexists. rewrite (sx_tasks _ _ _ Hx), Ht'. split; [done|]. unfold survives. simpl.
    split; [done|]. split; [done|]. rewrite Hp. unfold s0. by rewrite killed_foster.
Qed.

(** task_exit of a task other than the idle task: it leaves the run queue and
    becomes the newest zombie with its exit code, its children go to init (or to
    nobody when init is dead or is the one that exits), and its parent, blocked or
    not, is the task that runs next.  The scheduler's invariant holds again. *)
Theorem task_exit_correct (s : sched) (l1 : list nat) (c : nat) (l2 : list nat) (code : Z) :
  sched_ok s (l1 ++ c :: l2) c → idle_task s ≠ Some c →
  let s' := task_exit code s in
  ∃ n, sched_ok s' (l1 ++ l2) n ∧
    (∀ p, parent_of s c = Some p → n = p) ∧
    zombie_tasks s' = c :: zombie_tasks s ∧
    (∃ t t', tasks s !! c = Some t ∧ tasks s' !! c = Some t' ∧ t_pid t' = t_pid t ∧ t_exit_code t' = code ∧
       t_parent t' = t_parent t) ∧
    (∀ k t, k ≠ c → tasks s !! k = Some t → ∃ t', tasks s' !! k = Some t' ∧ survives c (foster c s) t t').
Proof. apply exit_steps. Qed.

(** ** Wait *)

(** The arguments [task_waitpid] accepts. *)
Definition wait_args (pid options : Z) : Prop := (pid = -1 ∨ 0 < pid) ∧ (options = 0 ∨ options = WNOHANG).

Lemma wait_args_check pid options : wait_args pid options →
  (pid =? 0) || (pid <? -1) || negb (options .& u32 (Z.lnot WNOHANG) =? 0) = false.
Proof.
  intros [Hp Ho]. rewrite (proj2 (Z.eqb_neq pid 0)), (proj2 (Z.ltb_ge pid (-1))) by lia.
  destruct Ho as [-> | ->]; reflexivity.
Qed.

(** A zombie child of [c] that matches [pid], the most recent first. *)
Definition dead_child (s : sched) (c : nat) (pid : Z) : option nat :=
  find (child_of s (Some c) pid) (zombie_tasks s).

Lemma child_of_parent s c pid i : child_of s (Some c) pid i = true → parent_of s i = Some c.
Proof.
  unfold child_of, parent_of. destruct (tasks s !! i) as [t|]; [|done].
  intros [H _]%andb_true_iff. by apply bool_decide_eq_true in H.
Qed.

Lemma reaped_not_init s L c c' pid z : sched_pre s L c → child_of s (Some c') pid z = true → init_task s ≠ Some z.
Proof.
  intros Hpre Hz%child_of_parent Hi. destruct (sp_init _ _ _ Hpre z Hi) as [_ Hn]. congruence.
Qed.

Lemma wait_reaps s L c pid options z t : sched_ok s L c → wait_args pid options → dead_child s c pid = Some z →
  tasks s !! z = Some t →
  task_waitpid pid options s = (WaitDone (t_pid t) (Some (Z.shiftl (t_exit_code t .& 255) 8)), forget z s).
Proof.
  intros [Hpre _] Hargs Hz Ht. unfold task_waitpid, take_zombie. rewrite wait_args_check by done.
  rewrite (sp_current _ _ _ Hpre). unfold dead_child in Hz. rewrite Hz.
  assert (tasks (task_unregister z (set_lists (all_tasks s) (filter (λ i, i ≠ z) (zombie_tasks s)) s)) !! z = Some t)
    as -> by exact Ht. done.
Qed.

Lemma waitpid_steps s L c pid options :
  sched_ok s L c → wait_args pid options → idle_task s ≠ Some c →
  match task_waitpid pid options s with
  | (WaitDone r status, s') =>
      sched_ok s' L c ∧
      match dead_child s c pid with
      | Some z => s' = forget z s ∧ parent_of s z = Some c ∧
          ∃ t, tasks s !! z = Some t ∧ t_state t = TASK_DEAD ∧ r = t_pid t ∧
               status = Some (Z.shiftl (t_exit_code t .& 255) 8)
      | None => s' = s ∧ status = None ∧
          (r = - ECHILD ∧ (∀ i t, tasks s !! i = Some t → t_parent t = Some c → pid ≠ -1 ∧ s32 (t_pid t) ≠ pid) ∨
           r = 0 ∧ options = WNOHANG ∧ task_has_child s (Some c) pid = true)
      end
  | (WaitBlocked, s') =>
      options = 0 ∧ dead_child s c pid = None ∧ task_has_child s (Some c) pid = true ∧
      ∃ n, n ≠ c ∧ sched_ok s' L n ∧ state_of s' c = Some TASK_BLOCKED
  end.
Proof.
  intros Hok Hargs Hidle. pose proof Hok as [Hpre Hrun].
  destruct (dead_child s c pid) as [z|] eqn:Hz.
  - pose proof Hz as Hfind. unfold dead_child in Hfind. apply find_some in Hfind as [Hzin Hzc].
    apply list_elem_of_In in Hzin. destruct (proj2 (sp_zombies _ _ _ Hpre) z Hzin) as [Hd _].
    unfold state_of in Hd. destruct (tasks s !! z) as [t|] eqn:Ht; [|done]. simpl in Hd.
    rewrite (wait_reaps s L c pid options z t Hok Hargs Hz Ht).
    split; [apply forget_ok; [done..|]; by eapply reaped_not_init|].
    split; [done|]. split; [by eapply child_of_parent|]. exists t. split; [done|]. split; [congruence|done].
  - unfold task_waitpid, take_zombie. rewrite wait_args_check by done. rewrite (sp_current _ _ _ Hpre).
    unfold dead_child in Hz. rewrite Hz, (sp_current _ _ _ Hpre).
    destruct (task_has_child s (Some c) pid) eqn:Hch; cbn [negb].
    + destruct Hargs as [Hp [-> | ->]];
        [change (negb (0 .& WNOHANG =? 0)) with false | change (negb (WNOHANG .& WNOHANG =? 0)) with true]; cbv beta iota.
      * split; [done|]. split; [done|]. split; [done|].
        set (s0 := update_task (set_state TASK_BLOCKED) c s).
        assert (sched_pre s0 L c) as Hpre0 by (by apply pre_update).
        destruct (rg_tasks _ _ (sp_ring _ _ _ Hpre) c (sp_in _ _ _ Hpre)) as [t Ht].
        assert (state_of s0 c = Some TASK_BLOCKED) as Hb by (unfold state_of, s0; simpl; by rewrite lookup_alter_eq, Ht).
        pose proof (sp_in _ _ _ Hpre) as HcL. apply list_elem_of_split in HcL as (l1 & l2 & ->).
        destruct (pick_next s0 l1 c l2 Hpre0) as [n Hn]; [by right|].
        destruct (schedule_live s0 l1 c l2 Hpre0 (or_intror (conj Hb Hidle)) n Hn) as [Hok' Hx].
        assert (n ≠ c) as Hne.
        { intros ->. destruct (pick_some _ _ _ Hn) as [_ Hrn]. rewrite Hb in Hrn. done. }
        exists n. split; [done|]. split; [done|].
        unfold sched_yield. rewrite (sx_state _ _ _ Hx). unfold s0. simpl. rewrite lookup_alter_eq, Ht. simpl.
        unfold yield_state. rewrite decide_False, decide_True by done. done.
      * split; [done|]. split; [done|]. split; [done|]. right. done.
    + split; [done|]. split; [done|]. split; [done|]. left. split; [done|]. intros i t Ht Hp.
      assert (child_of s (Some c) pid i = false) as Hci.
      { unfold task_has_child in Hch. destruct (child_of s (Some c) pid i) eqn:E; [|done].
        assert (existsb (child_of s (Some c) pid) (all_tasks s) = true); [|congruence].
        apply existsb_exists. exists i. split; [|done]. apply list_elem_of_In, (proj2 (sp_all _ _ _ Hpre)). eauto. }
      unfold child_of, pid_matches in Hci. rewrite Ht, bool_decide_true in Hci by done. simpl in Hci.
      apply orb_false_iff in Hci as [?%Z.eqb_neq ?%Z.eqb_neq]. done.
Qed.

(** one round of task_waitpid.  Bad arguments give -EINVAL and a task without a
    matching child gets -ECHILD, with nothing changed.  A dead child is reaped: its
    pid and the low byte of its exit code (in bits 8-15) are returned and exactly
    that task is released.  Otherwise WNOHANG returns 0 and a blocking wait blocks
    the caller and lets the next runnable task run. *)
Theorem task_waitpid_correct (s : sched) (L : list nat) (c : nat) (pid options : Z) :
  sched_ok s L c → wait_args pid options → idle_task s ≠ Some c →
  match task_waitpid pid options s with
  | (WaitDone r status, s') =>
      sched_ok s' L c ∧
      match dead_child s c pid with
      | Some z => s' = forget z s ∧ parent_of s z = Some c ∧
          ∃ t, tasks s !! z = Some t ∧ t_state t = TASK_DEAD ∧ r = t_pid t ∧
               status = Some (Z.shiftl (t_exit_code t .& 255) 8)
      | None => s' = s ∧ status = None ∧
          (r = - ECHILD ∧ (∀ i t, tasks s !! i = Some t → t_parent t = Some c → pid ≠ -1 ∧ s32 (t_pid t) ≠ pid) ∨
           r = 0 ∧ options = WNOHANG ∧ task_has_child s (Some c) pid = true)
      end
  | (WaitBlocked, s') =>
      options = 0 ∧ dead_child s c pid = None ∧ task_has_child s (Some c) pid = true ∧
      ∃ n, n ≠ c ∧ sched_ok s' L n ∧ state_of s' c = Some TASK_BLOCKED
  end.
Proof. apply waitpid_steps. Qed.

(** C23: a parent blocked in task_waitpid gets its child: when the child exits, the
    parent is the next task to run, and the round of task_waitpid it resumes returns
    the child's pid with the exit status. *)
Theorem exit_wakes_waiting_parent (s : sched) (L : list nat) (c p : nat) (t : task) (pid code : Z) :
  sched_ok s L c → idle_task s ≠ Some c → tasks s !! c = Some t → t_parent t = Some p →
  state_of s p = Some TASK_BLOCKED → pid = -1 ∨ 0 < pid ∧ pid = s32 (t_pid t) →
  let s' := task_exit code s in
  current_task s' = Some p ∧ state_of s' p = Some TASK_RUNNING ∧
  task_waitpid pid 0 s' = (WaitDone (t_pid t) (Some (Z.shiftl (code .& 255) 8)), forget c s').
Proof.
  intros Hok Hidle Ht Hp _ Hpid. cbv zeta.
  pose proof (sp_in _ _ _ (proj1 Hok)) as HcL. apply list_elem_of_split in HcL as (l1 & l2 & ->).
  destruct (exit_steps s l1 c l2 code Hok Hidle) as (n & Hok' & Hn & Hz & (t0 & t' & Ht0 & Ht' & Hpid' & Hcode & Hpar) & _).
  rewrite Ht in Ht0. injection Ht0 as <-.
  rewrite (Hn p) in Hok' by (unfold parent_of; rewrite Ht; exact Hp). pose proof Hok' as [Hpre' Hrun'].
  split; [apply Hpre'|]. split; [done|].
  assert (wait_args pid 0 ∧ dead_child (task_exit code s) p pid = Some c) as [Hargs Hdead].
  2: { rewrite (wait_reaps _ (l1 ++ l2) p pid 0 c t' Hok' Hargs Hdead Ht'). by rewrite Hcode, Hpid'. }
  split.
  - split; [|by left]. destruct Hpid as [?|[? _]]; auto.
  - unfold dead_child. rewrite Hz. simpl.
    assert (child_of (task_exit code s) (Some p) pid c = true) as E; [|by rewrite E].
    unfold child_of, pid_matches. rewrite Ht', bool_decide_true by congruence. simpl.
    destruct Hpid as [-> |[_ ->]]; [done|]. by rewrite Hpid', Z.eqb_refl, orb_true_r.
Qed.

(** ** Fork *)

Lemma fork_steps s l1 c l2 i stack cr3 frame :
  sched_ok s (l1 ++ c :: l2) c → (∃ t, tasks s !! c = Some t ∧ t_user_mode t = true) →
  tasks s !! i = None → 1 < next_pid s → len (l1 ++ c :: l2) + 1 < 2^32 →
  let '(r, s') := task_fork_from_frame (Some (i, stack)) (Some cr3) frame s in
  r = next_pid s ∧ sched_ok s' (l1 ++ c :: i :: l2) c ∧
  ∃ cur child, tasks s !! c = Some cur ∧ tasks s' !! i = Some child ∧
    t_pid child = next_pid s ∧ t_state child = TASK_READY ∧ t_parent child = Some c ∧ t_cr3 child = cr3 ∧
    t_layout child = t_layout cur ∧ t_cwd child = t_cwd cur ∧ t_files child = t_files cur ∧
    ks_ret (t_kstack child) = fork_return_to_user ∧ ks_frame (t_kstack child) = Some (with_rax 0 frame) ∧
    ∀ k, k ≠ i → k ≠ c → tasks s' !! k = tasks s !! k.
Proof.
  intros Hok (cur & Hcur & Hum) Hi Hnp Hlen. unfold task_fork_from_frame.
  rewrite (sp_current _ _ _ (proj1 Hok)). simpl. rewrite Hcur, Hum. simpl.
  set (child := Task _ _ _ _ _ _ _ _ _ _ _ _ _ _).
  destruct (add_task_ok s l1 c l2 i child Hok Hi eq_refl eq_refl Hnp Hlen) as (Hok' & Ht & Hk & _).
  split; [done|]. split; [done|]. eexists cur, _. rewrite Ht. split; [done|]. split; [done|]. by split_and!.
Qed.

(** fork returns the next pid to the parent and adds one ready task right after
    it in the run queue: a child of the caller, on the cloned address space, with the
    caller's memory layout, directory and open files, that will return to user mode
    from a copy of the caller's frame with 0 in rax.  No other task changes. *)
Theorem task_fork_correct (s : sched) (l1 : list nat) (c : nat) (l2 : list nat) (i : nat) (stack cr3 : Z)
    (frame : syscall_frame) :
  sched_ok s (l1 ++ c :: l2) c → (∃ t, tasks s !! c = Some t ∧ t_user_mode t = true) →
  tasks s !! i = None → 1 < next_pid s → len (l1 ++ c :: l2) + 1 < 2^32 →
  let '(r, s') := task_fork_from_frame (Some (i, stack)) (Some cr3) frame s in
  r = next_pid s ∧ sched_ok s' (l1 ++ c :: i :: l2) c ∧
  ∃ cur child, tasks s !! c = Some cur ∧ tasks s' !! i = Some child ∧
    t_pid child = next_pid s ∧ t_state child = TASK_READY ∧ t_parent child = Some c ∧ t_cr3 child = cr3 ∧
    t_layout child = t_layout cur ∧ t_cwd child = t_cwd cur ∧ t_files child = t_files cur ∧
    ks_ret (t_kstack child) = fork_return_to_user ∧ ks_frame (t_kstack child) = Some (with_rax 0 frame) ∧
    ∀ k, k ≠ i → k ≠ c → tasks s' !! k = tasks s !! k.
Proof. apply fork_steps. Qed.

(** ** Reaping and exec *)

Lemma reap_fold_ok L c l : ∀ s, sched_ok s L c → NoDup l → (∀ z, z ∈ l → z ∈ zombie_tasks s) →
  (∀ z, z ∈ l → init_task s ≠ Some z) → sched_ok (foldl reap_one s l) L c.
Proof.
  induction l as [|z l IH]; intros s Hok Hnd Hin Hini; cbn [foldl]; [done|].
  apply NoDup_cons in Hnd as [Hzl Hnd].
  unfold reap_one at 2. case_match eqn:E.
  - apply IH; [done..| |]; intros y Hy; [apply Hin|apply Hini]; by right.
  - fold (forget z s). apply IH; [|done| |].
    + apply forget_ok; [done|apply Hin; left|apply Hini; left].
    + intros y Hy. cbn. rewrite list_elem_of_filter. split; [|apply Hin; by right]. intros ->. done.
    + intros y Hy. apply Hini. by right.
Qed.

Lemma replace_ok s L c name l size rsp :
  sched_ok s L c → sched_ok (task_replace_user_elf c name l size rsp s).2 L c.
Proof.
  intros Hok. unfold task_replace_user_elf. destruct (tasks s !! c) as [t|] eqn:Ht; [|done].
  destruct l as [l|]; [|done]. destruct (negb (t_user_mode t)); [done|].
  destruct (_ || _); [done|]. cbn [snd].
  change (current_task (update_task (replace_image l name) c s)) with (current_task s).
  rewrite bool_decide_true by apply Hok. destruct Hok as [Hpre Hrun].
  set (s' := set_reg_cr3 _ _).
  assert (∀ k, k ≠ c → tasks s' !! k = tasks s !! k) as Hk by (intros; unfold s'; simpl; by rewrite lookup_alter_ne).
  assert (tasks s' !! c = Some (replace_image l name t)) as Hc by (unfold s'; simpl; by rewrite lookup_alter_eq, Ht).
  assert (∀ k, next_of s' k = next_of s k ∧ parent_of s' k = parent_of s k ∧ state_of s' k = state_of s k ∧
    stack_top_of s' k = stack_top_of s k ∧ (is_Some (tasks s' !! k) ↔ is_Some (tasks s !! k))) as Hf.
  { intros k. unfold next_of, parent_of, state_of, stack_top_of. destruct (decide (k = c)) as [->|Hne].
    - rewrite Hc, Ht. by split_and!.
    - by rewrite Hk. }
  destruct Hpre as [R A Z C Hcur Hin Al Id Pa In Cpu]. split; [split|].
  - destruct R as [R1 R2 R3 R4 R5]. split; [done..| |].
    + intros i Hi. apply Hf. auto.
    + destruct L as [|x l']; [done|]. destruct R5. split; [done|]. apply (path_ext (next_of s)); [|done].
      intros k _. apply Hf.
  - split; [apply A|]. intros i. destruct (Hf i) as (_ & _ & _ & _ & ->). apply A.
  - split; [apply Z|]. intros z Hz. destruct (Hf z) as (_ & _ & -> & _). by apply Z.
  - intros i. destruct (Hf i) as (_ & _ & _ & _ & ->). apply C.
  - done.
  - done.
  - intros i. destruct (Hf i) as (_ & _ & -> & _). apply Al.
  - destruct Id as (d & ? & ? & ?). exists d. destruct (Hf d) as (_ & _ & -> & _). done.
  - intros i p. destruct (Hf i) as (_ & -> & _). apply Pa.
  - intros i. destruct (Hf i) as (_ & -> & _ & _ & ->). apply In.
  - destruct (Hf c) as (_ & _ & _ & -> & _). unfold cr3_of. rewrite Hc. destruct Cpu as (_ & ? & ?). done.
  - destruct (Hf c) as (_ & _ & -> & _). done.
Qed.

(** ** Reachable states *)

(** What the kernel does between two entries, on behalf of the current task.  The
    idle task never exits or waits; a new task gets an address not in use; the
    parentless zombies are reaped while init is alive. *)
Inductive sched_step : sched → sched → Prop :=
  | step_yield s : sched_step s (sched_yield s)
  | step_tick s : sched_step s (sched_tick s)
  | step_exit s code : current_task s ≠ idle_task s → sched_step s (task_exit code s)
  | step_wait s pid options : current_task s ≠ idle_task s → wait_args pid options →
      sched_step s (task_waitpid pid options s).2
  | step_fork s i stack cr3 frame : tasks s !! i = None → 1 < next_pid s → task_count s + 1 < 2^32 →
      sched_step s (task_fork_from_frame (Some (i, stack)) (Some cr3) frame s).2
  | step_exec s c name l size rsp : current_task s = Some c →
      sched_step s (task_replace_user_elf c name l size rsp s).2
  | step_reap s : (∀ z, z ∈ zombie_tasks s → init_task s ≠ Some z) → sched_step s (task_reap_detached_zombies s).

(** After [main]: init is created, then sched_start makes the idle task and runs
    init. *)
Definition power_on (cr3 : Z) : sched := Sched ∅ None 1 [] [] None None 0 None cr3 0 0.
Definition boot_sched (cr3 stack1 stack2 fn : Z) (l : loaded) (name : list Z) : sched :=
  sched_start (Some (1%nat, stack2)) fn 0
    (task_create_user_elf (Some (0%nat, stack1)) (Some l) name (sched_init (power_on cr3))).2.

Inductive reachable : sched → Prop :=
  | reach_boot cr3 stack1 stack2 fn l name : reachable (boot_sched cr3 stack1 stack2 fn l name)
  | reach_step s s' : reachable s → sched_step s s' → reachable s'.

(** The links of a task. *)
Definition links (t : task) : task_state * option nat * option nat := (t_state t, t_parent t, t_next t).

Lemma sched_start_cpu new fn first s : let s' := sched_start new fn first s in
  reg_cr3 s' = cr3_of s' first ∧ tss_rsp0 s' = stack_top_of s' first ∧
  syscall_kernel_stack_top s' = stack_top_of s' first.
Proof. unfold sched_start. destruct (task_create _ _ _ _ _) as [i s1]. done. Qed.

(** What the boot sequence leaves, without the processor's registers. *)
Definition queues (s : sched) :=
  (links <$> tasks s !! 0%nat, links <$> tasks s !! 1%nat, dom (tasks s),
   (all_tasks s, zombie_tasks s, current_task s, idle_task s, init_task s, run_queue_head s, task_count s)).

Lemma boot_queues cr3 stack1 stack2 fn l name : queues (boot_sched cr3 stack1 stack2 fn l name) =
  (Some (TASK_RUNNING, None, Some 1%nat), Some (TASK_READY, None, Some 0%nat), {[ 0%nat; 1%nat ]},
   ([1%nat; 0%nat], [], Some 0%nat, Some 1%nat, Some 0%nat, Some 0%nat, 2)).
Proof. vm_compute. reflexivity. Qed.

Lemma two_tasks_ok s :
  queues s = (Some (TASK_RUNNING, None, Some 1%nat), Some (TASK_READY, None, Some 0%nat), {[ 0%nat; 1%nat ]},
    ([1%nat; 0%nat], [], Some 0%nat, Some 1%nat, Some 0%nat, Some 0%nat, 2)) →
  reg_cr3 s = cr3_of s 0 → tss_rsp0 s = stack_top_of s 0 → syscall_kernel_stack_top s = stack_top_of s 0 →
  sched_ok s [0%nat; 1%nat] 0.
Proof.
  unfold queues. intros [= L0' L1' Hdom' Ea Ez Ec Ei En Eh Ect] Er Et Ek.
  destruct (tasks s !! 0%nat) as [t0|] eqn:L0; [|done]. destruct (tasks s !! 1%nat) as [t1|] eqn:L1; [|done].
  injection L0' as S0 P0 N0. injection L1' as S1 P1 N1.
  assert (∀ i, is_Some (tasks s !! i) ↔ i ∈ [0%nat; 1%nat]) as Hdom.
  { intros i. rewrite <- elem_of_dom, Hdom'. set_solver. }
  unfold sched_ok, state_of. split; [split|by rewrite L0, <- S0].
  - split; [repeat constructor; set_solver|by rewrite Ect|simpl; lia|intros i; apply Hdom|].
    split; [done|]. simpl. unfold next_of. by rewrite L0, L1.
  - rewrite Ea. split; [repeat constructor; set_solver|]. intros i. rewrite Hdom. set_solver.
  - rewrite Ez. split; [constructor|]. intros z Hz. by apply not_elem_of_nil in Hz.
  - intros i Hi. left. by apply Hdom.
  - done.
  - left.
  - intros i Hi Hne. assert (i = 1%nat) as -> by set_solver. left. unfold state_of. by rewrite L1, <- S1.
  - exists 1%nat. split; [done|]. split; [set_solver|]. right. unfold state_of. by rewrite L1, <- S1.
  - intros i p Hp. exfalso. unfold parent_of in Hp. destruct (tasks s !! i) as [t|] eqn:E; [|done].
    assert (i ∈ [0%nat; 1%nat]) as Hi by (apply Hdom; eauto).
    apply elem_of_cons in Hi as [->|Hi]; [by simplify_eq/=|]. assert (i = 1%nat) as -> by set_solver.
    by simplify_eq/=.
  - intros i Hi. rewrite En in Hi. injection Hi as <-. unfold parent_of. rewrite L0. split; [eauto|done].
  - done.
Qed.

Lemma boot_sched_ok cr3 stack1 stack2 fn l name : sched_ok (boot_sched cr3 stack1 stack2 fn l name) [0%nat; 1%nat] 0.
Proof. apply two_tasks_ok; [apply boot_queues|apply sched_start_cpu..]. Qed.

Lemma step_ok s L c s' : sched_ok s L c → sched_step s s' → ∃ L' c', sched_ok s' L' c'.
Proof.
  intros Hok Hstep. pose proof (sp_in _ _ _ (proj1 Hok)) as HcL. apply list_elem_of_split in HcL as (l1 & l2 & ->).
  pose proof (sp_current _ _ _ (proj1 Hok)) as Hcur.
  destruct Hstep as [s|s|s code Hid|s pid options Hid Hargs|s i stack cr3 frame Hi Hnp Hcnt|s c' name l size rsp Hc'|s Hini].
  - destruct (yield_step s l1 c l2 Hok) as (n & _ & ? & _). eauto.
  - unfold sched_tick. rewrite Hcur. assert (sched_ok (update_task add_tick c s) (l1 ++ c :: l2) c) as Hok0.
    { destruct Hok as [Hpre Hrun]. split; [by apply pre_update|]. unfold state_of in *. simpl. rewrite lookup_alter_eq.
      by destruct (tasks s !! c). }
    destruct (yield_step _ l1 c l2 Hok0) as (n & _ & ? & _). eauto.
  - destruct (exit_steps s l1 c l2 code Hok) as (n & ? & _); [congruence|]. eauto.
  - pose proof (waitpid_steps s _ c pid options Hok Hargs ltac:(congruence)) as H.
    destruct (task_waitpid pid options s) as [[r st|] s']; [destruct H; eauto|].
    destruct H as (_ & _ & _ & n & _ & ? & _). eauto.
  - destruct (tasks s !! c) as [t|] eqn:Ht.
    2: { destruct (rg_tasks _ _ (sp_ring _ _ _ (proj1 Hok)) c (sp_in _ _ _ (proj1 Hok))). congruence. }
    destruct (t_user_mode t) eqn:Hum.
    + pose proof (fork_steps s l1 c l2 i stack cr3 frame Hok) as H.
      destruct (task_fork_from_frame _ _ _ _) as [r s']. destruct H as (_ & ? & _); [eauto|done|done| |eauto].
      rewrite <- (rg_count _ _ (sp_ring _ _ _ (proj1 Hok))). done.
    + unfold task_fork_from_frame. rewrite Hcur. simpl. rewrite Ht, Hum. eauto.
  - rewrite Hcur in Hc'. injection Hc' as <-. eauto using replace_ok.
  - exists (l1 ++ c :: l2), c. apply reap_fold_ok; [done|apply (sp_zombies _ _ _ (proj1 Hok))|done|done].
Qed.

(** C11: in every state the kernel reaches from boot, in any order of yields, timer
    ticks, exits, waits, forks, execs and reaps, the scheduler's invariant holds: the
    run queue is one ring without repetition, the current task is in it and is the
    only running one, its page tables and kernel stack are loaded, every other task
    of the ring is ready or blocked, every dead task is a zombie outside the ring,
    every parent pointer leads to a live task, and the idle task can run. *)
Theorem reachable_sched_ok (s : sched) : reachable s → ∃ L c, sched_ok s L c.
Proof.
  induction 1 as [cr3 stack1 stack2 fn l name|s s' _ (L & c & Hok) Hstep].
  - exists [0%nat; 1%nat], 0%nat. apply boot_sched_ok.
  - by eapply step_ok.
Qed.

(** ** Witnesses *)

Definition zero_frame : syscall_frame := Frame 0 0 0 0 0 0 0 0 0 0 0 0 0 0 57 0x400100 0x202 0x400fff00.

(** Init (0) and the idle task (1); init forks (2); init waits for its child. *)
Definition w_boot : sched :=
  boot_sched 0x1000 0x110000 0x120000 0x105000 (Loaded 0x8000 0x400000 0x402000) (chars "init").
Definition w_fork : sched := (task_fork_from_frame (Some (2%nat, 0x130000)) (Some 0x9000) zero_frame w_boot).2.
Definition w_wait : sched := (task_waitpid (-1) 0 w_fork).2.
Definition w_exit : sched := task_exit 7 w_wait.

Lemma field_some {A B} (f : A → B) (o : option A) (b : B) : f <$> o = Some b → ∃ a, o = Some a ∧ f a = b.
Proof. intros (a & -> & ->)%fmap_Some. eauto. Qed.

Lemma parent_field s c t p : tasks s !! c = Some t → parent_of s c = Some p → t_parent t = Some p.
Proof. unfold parent_of. by intros ->. Qed.

Lemma fork_keeps_ok s l1 c l2 i stack cr3 frame :
  sched_ok s (l1 ++ c :: l2) c → t_user_mode <$> tasks s !! c = Some true →
  tasks s !! i = None → 1 < next_pid s → len (l1 ++ c :: l2) + 1 < 2^32 →
  sched_ok (task_fork_from_frame (Some (i, stack)) (Some cr3) frame s).2 (l1 ++ c :: i :: l2) c.
Proof.
  intros Hok Hu%field_some Hi Hn Hl. pose proof (fork_steps s l1 c l2 i stack cr3 frame Hok Hu Hi Hn Hl) as H.
  destruct (task_fork_from_frame _ _ _ _) as [r s']. by destruct H as (_ & ? & _).
Qed.

Lemma w_boot_ok : sched_ok w_boot [0%nat; 1%nat] 0.
Proof. apply boot_sched_ok. Qed.

Lemma w_boot_user : t_user_mode <$> tasks w_boot !! 0%nat = Some true.
Proof. vm_compute. reflexivity. Qed.

Lemma w_boot_fresh : tasks w_boot !! 2%nat = None.
Proof. vm_compute. reflexivity. Qed.

Lemma w_boot_pid : 1 < next_pid w_boot.
Proof. vm_compute. reflexivity. Qed.

Lemma w_fork_ok : sched_ok w_fork [0%nat; 2%nat; 1%nat] 0.
Proof. apply (fork_keeps_ok w_boot [] 0 [1%nat] 2 0x130000 0x9000 zero_frame w_boot_ok w_boot_user w_boot_fresh w_boot_pid). done. Qed.

Lemma wait_minus_one : wait_args (-1) 0.
Proof. split; by left. Qed.

Lemma wait_keeps_ok s L c pid options n : sched_ok s L c → wait_args pid options → idle_task s ≠ Some c →
  (task_waitpid pid options s).1 = WaitBlocked → current_task (task_waitpid pid options s).2 = Some n →
  sched_ok (task_waitpid pid options s).2 L n.
Proof.
  intros Hok Ha Hi. pose proof (waitpid_steps s L c pid options Hok Ha Hi) as H.
  destruct (task_waitpid pid options s) as [r s']. intros E Hc. cbn in E, Hc. rewrite E in H.
  destruct H as (_ & _ & _ & m & _ & Hok' & _). pose proof (sp_current _ _ _ (proj1 Hok')).
  assert (n = m) as -> by congruence. exact Hok'.
Qed.

Lemma w_fork_idle : idle_task w_fork = Some 1%nat.
Proof. vm_compute. reflexivity. Qed.
Lemma w_wait_blocks : (task_waitpid (-1) 0 w_fork).1 = WaitBlocked.
Proof. vm_compute. reflexivity. Qed.
Lemma w_wait_current : current_task (task_waitpid (-1) 0 w_fork).2 = Some 2%nat.
Proof. vm_compute. reflexivity. Qed.

Lemma w_wait_ok : sched_ok w_wait [0%nat; 2%nat; 1%nat] 2.
Proof.
  apply (wait_keeps_ok w_fork _ 0 (-1) 0 2 w_fork_ok wait_minus_one); [|exact w_wait_blocks|exact w_wait_current].
  rewrite w_fork_idle. congruence.
Qed.

Lemma w_wait_idle : idle_task w_wait = Some 1%nat.
Proof. vm_compute. reflexivity. Qed.
Lemma w_wait_parent : parent_of w_wait 2 = Some 0%nat.
Proof. vm_compute. reflexivity. Qed.
Lemma w_wait_child : (t_pid <$> tasks w_wait !! 2%nat) = Some 3.
Proof. vm_compute. reflexivity. Qed.
Lemma w_wait_blocked : state_of w_wait 0 = Some TASK_BLOCKED.
Proof. vm_compute. reflexivity. Qed.

Lemma exit_keeps_ok s l1 c l2 code p : sched_ok s (l1 ++ c :: l2) c → idle_task s ≠ Some c →
  parent_of s c = Some p → sched_ok (task_exit code s) (l1 ++ l2) p.
Proof.
  intros Hok Hi Hp. destruct (exit_steps s l1 c l2 code Hok Hi) as (n & Hok' & Hn & _).
  by rewrite (Hn p Hp) in Hok'.
Qed.

Lemma w_exit_ok : sched_ok w_exit [0%nat; 1%nat] 0.
Proof.
  apply (exit_keeps_ok w_wait [0%nat] 2 [1%nat] 7 0 w_wait_ok); [|exact w_wait_parent].
  rewrite w_wait_idle. congruence.
Qed.

Lemma w_exit_idle : idle_task w_exit = Some 1%nat.
Proof. vm_compute. reflexivity. Qed.
Lemma w_exit_reaps : (task_waitpid (-1) 0 w_exit).1 = WaitDone 3 (Some 0x700).
Proof. vm_compute. reflexivity. Qed.

Lemma sched_yield_round_robin_witness :
  ∃ n, pick w_fork [2%nat; 1%nat; 0%nat] = Some n ∧ sched_ok (sched_yield w_fork) [0%nat; 2%nat; 1%nat] n ∧
       states_only (yield_state 0 n) w_fork (sched_yield w_fork).
Proof. apply (sched_yield_round_robin w_fork [] 0 [2%nat; 1%nat]). apply w_fork_ok. Defined.

Lemma w_fork_idle_ready : state_of w_fork 1 = Some TASK_READY.
Proof. vm_compute. reflexivity. Qed.

Lemma ready_task_runs_witness : ∃ k, (k <= 3)%nat ∧ current_task (yields k w_fork) = Some 1%nat.
Proof.
  apply (ready_task_runs w_fork [0%nat; 2%nat; 1%nat] 0 1);
    [apply w_fork_ok|do 2 apply list_elem_of_further; apply list_elem_of_here|exact w_fork_idle_ready].
Defined.

Lemma task_exit_correct_witness : ∃ n, sched_ok w_exit [0%nat; 1%nat] n ∧ n = 0%nat.
Proof.
  destruct (task_exit_correct w_wait [0%nat] 2 [1%nat] 7 w_wait_ok) as (n & Hok & Hn & _).
  - rewrite w_wait_idle. congruence.
  - exists n. split; [exact Hok|]. apply Hn. exact w_wait_parent.
Defined.

Lemma task_waitpid_correct_witness :
  sched_ok (task_waitpid (-1) 0 w_exit).2 [0%nat; 1%nat] 0 ∧
  (task_waitpid (-1) 0 w_exit).1 = WaitDone 3 (Some 0x700).
Proof.
  assert (idle_task w_exit ≠ Some 0%nat) as Hi by (rewrite w_exit_idle; congruence).
  pose proof (task_waitpid_correct w_exit _ 0 (-1) 0 w_exit_ok wait_minus_one Hi) as H.
  pose proof w_exit_reaps as E. revert H E. generalize (task_waitpid (-1) 0 w_exit).
  intros [r s] H E. cbn in E. subst r. destruct H as [H _]. split; [exact H|reflexivity].
Defined.

Lemma exit_wakes_waiting_parent_witness : ∃ t, t_pid t = 3 ∧
  current_task (task_exit 7 w_wait) = Some 0%nat ∧ state_of (task_exit 7 w_wait) 0 = Some TASK_RUNNING ∧
  task_waitpid (-1) 0 (task_exit 7 w_wait) =
    (WaitDone (t_pid t) (Some (Z.shiftl (7 .& 255) 8)), forget 2 (task_exit 7 w_wait)).
Proof.
  destruct (field_some _ _ _ w_wait_child) as (t & Ht & Hp).
  exists t. split; [exact Hp|].
  apply (exit_wakes_waiting_parent w_wait [0%nat; 2%nat; 1%nat] 2 0 t (-1) 7 w_wait_ok).
  - rewrite w_wait_idle. congruence.
  - exact Ht.
  - exact (parent_field _ _ _ _ Ht w_wait_parent).
  - exact w_wait_blocked.
  - by left.
Defined.

Lemma task_fork_correct_witness : sched_ok w_fork [0%nat; 2%nat; 1%nat] 0.
Proof.
  pose proof (task_fork_correct w_boot [] 0 [1%nat] 2 0x130000 0x9000 zero_frame w_boot_ok
    (field_some _ _ _ w_boot_user) w_boot_fresh w_boot_pid eq_refl) as H.
  revert H. unfold w_fork. generalize (task_fork_from_frame (Some (2%nat, 0x130000)) (Some 0x9000) zero_frame w_boot).
  intros [r s] (_ & H & _). exact H.
Defined.

Lemma w_boot_count : task_count w_boot + 1 < 2^32.
Proof. vm_compute. reflexivity. Qed.

Lemma reachable_sched_ok_witness : ∃ L c, sched_ok w_fork L c.
Proof.
  apply reachable_sched_ok. apply (reach_step w_boot); [apply reach_boot|].
  apply step_fork; [exact w_boot_fresh|exact w_boot_pid|exact w_boot_count].
Defined.
