(* ===== verification/Uaccess.v ===== *)
(** * Access to user memory ([kernel/syscall/syscall.c]): the model

    The kernel side of a copy is a local buffer of the caller, here its list of
    bytes; the user side is reached through the page tables of the current address
    space, one page at a time.  The only error of a copy is -EFAULT. *)

From Stdlib Require Import ZArith Lia.
From S2P Require Import Prelude Memory Frames Vmm.
Import StringC.

Definition EFAULT : Z := 14.
Definition S_EINVAL : Z := 22.

Definition USER_PRESENT : Z := VMM_PRESENT .| VMM_USER.

(** [for (page = ...; page <= end; page += PAGE_SIZE)] *)
Fixpoint range_loop (fuel : nat) (m : mem) (pml4 page end_ : Z) : bool :=
  match fuel with
  | O => true
  | S f =>
      if page <=? end_ then
        if negb (has_all (vmm_get_flags m pml4 page) USER_PRESENT) then false
        else if USER_SPACE_TOP - PAGE_SIZE <? page then true
        else range_loop f m pml4 (u64 (page + PAGE_SIZE)) end_
      else true
  end.

(** The loop visits one page more than the range has full pages, at most. *)
Definition user_range_ok (m : mem) (pml4 start len : Z) : bool :=
  if len =? 0 then true
  else if (start =? 0) || (USER_SPACE_TOP <=? start) then false
  else if USER_SPACE_TOP - start <? len then false
  else
    let end_ := start + len - 1 in
    range_loop (Z.to_nat (len / PAGE_SIZE + 3)) m pml4 (ALIGN_DOWN start PAGE_SIZE) end_.

(** [memcpy] between a page and a buffer. *)
Fixpoint load_bytes (n : nat) (m : mem) (a : Z) : list Z :=
  match n with O => [] | S n' => read8 m a :: load_bytes n' m (a + 1) end.
Definition slice (buf : list Z) (off n : Z) : list Z := take (Z.to_nat n) (drop (Z.to_nat off) buf).
Definition splice (buf : list Z) (off : Z) (data : list Z) : list Z :=
  take (Z.to_nat off) buf ++ data ++ drop (Z.to_nat off + length data) buf.

Section Uaccess.
Context {S : Type} `{FA : FrameAllocator S}.
Implicit Types v : vm S.

(** The physical address, or [None] for -EFAULT. *)
Definition user_page_for_copy (user_addr : Z) (write : bool) : M (vm S) (option Z) :=
  if (user_addr =? 0) || (USER_SPACE_TOP <=? user_addr) then mret None
  else
    pml4 ← gets vmm_current_pml4;
    let page := ALIGN_DOWN user_addr PAGE_SIZE in
    flags ← gets (λ v, vmm_get_flags (vm_mem v) pml4 page);
    if negb (has_all flags USER_PRESENT) then mret None
    else
      writable ← (if write && negb (has flags VMM_WRITE) then
        if negb (has flags VMM_COW) then mret false
        else
          handled ← vmm_handle_page_fault user_addr (VMM_PRESENT .| VMM_WRITE .| VMM_USER);
          if negb handled then mret false
          else
            flags ← gets (λ v, vmm_get_flags (vm_mem v) pml4 page);
            mret (has flags VMM_WRITE)
        else mret true);
      if negb writable then mret None
      else
        phys ← gets (λ v, vmm_get_physical (vm_mem v) pml4 user_addr);
        mret (if phys =? PMM_ALLOC_FAILED then None else Some phys).

(** [while (done < len)]: every round copies at least one byte. *)
Fixpoint copy_loop (fuel : nat) (user done len : Z) (to_user : bool) (buf : list Z) : M (vm S) (Z * list Z) :=
  if done <? len then
    match fuel with
    | O => no_fuel
    | Datatypes.S f =>
        let cur := user + done in
        rc ← user_page_for_copy cur to_user;
        match rc with
        | None => mret (- EFAULT, buf)
        | Some phys =>
            let page_off := cur .& (PAGE_SIZE - 1) in
            let n := MIN (PAGE_SIZE - page_off) (len - done) in
            if to_user then
              modify (λ v, set_mem (store_bytes (vm_mem v) phys (slice buf done n)) v);;
              copy_loop f user (done + n) len to_user buf
            else
              data ← gets (λ v, load_bytes (Z.to_nat n) (vm_mem v) phys);
              copy_loop f user (done + n) len to_user (splice buf done data)
        end
    end
  else mret (0, buf).

Definition copy_user_bytes (user : Z) (buf : list Z) (len : Z) (to_user : bool) : M (vm S) (Z * list Z) :=
  if len =? 0 then mret (0, buf)
  else if (user =? 0) || (USER_SPACE_TOP <=? user) || (USER_SPACE_TOP - user <? len) then mret (- EFAULT, buf)
  else copy_loop (Z.to_nat len) user 0 len to_user buf.

(** The return code and the buffer. *)
Definition copy_from_user (dst : list Z) (user_src len : Z) : M (vm S) (Z * list Z) :=
  copy_user_bytes user_src dst len false.

Definition copy_to_user (user_dst : Z) (src : list Z) (len : Z) : M (vm S) Z :=
  r ← copy_user_bytes user_dst src len true; mret r.1.

(** The loop of copy_user_string with [i] bytes of the string read; the result is
    the string in the buffer. *)
Fixpoint string_loop (n : nat) (user_src : Z) (read : list Z) : M (vm S) (Z * list Z) :=
  match n with
  | O => mret (- S_EINVAL, removelast read)
  | Datatypes.S n' =>
      r ← copy_from_user [0] (u64 (user_src + len read)) 1;
      if r.1 <? 0 then mret (- EFAULT, [])
      else
        let c := default 0 (head r.2) in
        if c =? 0 then mret (0, read) else string_loop n' user_src (read ++ [c])
  end.

Definition copy_user_string (user_src dst_size : Z) : M (vm S) (Z * list Z) :=
  if dst_size =? 0 then mret (- S_EINVAL, []) else string_loop (Z.to_nat dst_size) user_src [].

End Uaccess.
