(* ===== verification/UaccessInv.v ===== *)
(** * Access to user memory: pages, ranges and reads

    The three lookups are constant over a page; [user_range_ok] decides that every
    byte of a range is on a present user page; reading a range follows the page
    tables byte by byte. *)

From Stdlib Require Import ZArith Lia.
From S2P Require Import Prelude Memory Frames Vmm VmmInv VmmOps VmmCow Uaccess.
Import StringC.

(** Linear arithmetic with page numbers. *)
Ltac page_lia := unfold PAGE_SIZE, USER_SPACE_TOP in *; Z.to_euclidean_division_equations; lia.

(** ** One page *)

Lemma same_page_idx va vb : va / PAGE_SIZE = vb / PAGE_SIZE →
  pml4_idx va = pml4_idx vb ∧ pdpt_idx va = pdpt_idx vb ∧ pd_idx va = pd_idx vb ∧ pt_idx va = pt_idx vb.
Proof.
  intros H. rewrite !pml4_idx_vpage, !pdpt_idx_vpage, !pd_idx_vpage, !pt_idx_vpage.
  unfold vpage. change (2^12) with PAGE_SIZE. by rewrite H.
Qed.

Lemma vleaf_vpage m r va vb : vpage va = vpage vb → vleaf m r va = vleaf m r vb.
Proof.
  intros E. apply vpath_vpage in E. unfold vpath, tables_path in E. simpl in E. injection E as E4 E3 E2 E1.
  unfold vleaf. by rewrite E4, E3, E2, E1.
Qed.

Lemma same_page_flags m r va vb :
  va / PAGE_SIZE = vb / PAGE_SIZE → vmm_get_flags m r va = vmm_get_flags m r vb.
Proof.
  intros H. destruct (same_page_idx va vb H) as (E4 & E3 & E2 & E1).
  unfold vmm_get_flags. by rewrite E4, E3, E2, E1.
Qed.

(** The page-aligned part of an entry of 2^k bytes joined with the low bits. *)
Lemma block_or_offset e mask va k :
  0 <= k → (∀ n, 0 <= n < k → Z.testbit mask n = false) →
  (e .& mask) .| (va .& (2^k - 1)) = (e .& mask) + va mod 2^k.
Proof.
  intros Hk Hm. rewrite land_low_mod by done.
  apply (lor_add_low _ _ k); [done|apply Z.mod_pos_bound; lia|].
  rewrite <- Z.land_ones by done. apply Z.bits_inj'. intros n Hn. rewrite !Z.land_spec, Z.bits_0.
  destruct (decide (n < k)); [rewrite Hm by lia; by rewrite andb_false_r|].
  rewrite Z.ones_spec_high by lia. apply andb_false_r.
Qed.

Lemma low_page_split va k : 12 <= k →
  va mod 2^k = (va / PAGE_SIZE) mod 2^(k - 12) * PAGE_SIZE + va mod PAGE_SIZE.
Proof.
  intros Hk. replace (2^k) with (PAGE_SIZE * 2^(k - 12)).
  2: { change PAGE_SIZE with (2^12). rewrite <- Z.pow_add_r by lia. f_equal. lia. }
  assert (0 < 2^(k - 12)) by (apply Z.pow_pos_nonneg; lia).
  rewrite Z.rem_mul_r by (unfold PAGE_SIZE; lia). lia.
Qed.

Lemma small_mask_low n mask k : mask = Z.shiftl (mask / 2^k) k → 0 <= n < k → Z.testbit mask n = false.
Proof. intros -> Hn. apply Z.shiftl_spec_low. lia. Qed.

Lemma same_page_physical m r va vb :
  va / PAGE_SIZE = vb / PAGE_SIZE → has (vmm_get_flags m r va) VMM_PRESENT = true →
  vmm_get_physical m r vb = vmm_get_physical m r va - va mod PAGE_SIZE + vb mod PAGE_SIZE ∧
  0 <= vmm_get_physical m r va - va mod PAGE_SIZE.
Proof.
  intros H. destruct (same_page_idx va vb H) as (E4 & E3 & E2 & E1).
  unfold vmm_get_flags, vmm_get_physical. rewrite <- E4, <- E3, <- E2, <- E1.
  assert (∀ e mask k, 12 <= k → mask = Z.shiftl (mask / 2^k) k → 0 <= mask →
    (e .& mask) .| (vb .& (2^k - 1)) = (e .& mask) .| (va .& (2^k - 1)) - va mod PAGE_SIZE + vb mod PAGE_SIZE ∧
    0 <= (e .& mask) .| (va .& (2^k - 1)) - va mod PAGE_SIZE) as Hb.
  { intros e mask k Hk Hm Hpos.
    rewrite !(block_or_offset e mask) by (lia || (intros; by eapply small_mask_low)).
    rewrite !(low_page_split _ k) by done. rewrite H.
    pose proof (Z.mod_pos_bound (vb / PAGE_SIZE) (2^(k - 12)) ltac:(apply Z.pow_pos_nonneg; lia)).
    assert (0 <= e .& mask) by (apply Z.land_nonneg; by right). unfold PAGE_SIZE in *. lia. }
  destruct (has (pte m r (pml4_idx va)) VMM_PRESENT); simpl; [|done].
  destruct (has (pte m _ (pdpt_idx va)) VMM_PRESENT); simpl; [|done].
  destruct (has (pte m _ (pdpt_idx va)) VMM_HUGE); [intros _; by apply (Hb _ _ 30)|].
  destruct (has (pte m _ (pd_idx va)) VMM_PRESENT); simpl; [|done].
  destruct (has (pte m _ (pd_idx va)) VMM_HUGE); [intros _; by apply (Hb _ _ 21)|].
  destruct (has (pte m _ (pt_idx va)) VMM_PRESENT); simpl; [|done].
  intros _. by apply (Hb _ _ 12).
Qed.

Lemma present_not_failed m r va :
  has (vmm_get_flags m r va) VMM_PRESENT = true → vmm_get_physical m r va ≠ PMM_ALLOC_FAILED.
Proof.
  unfold vmm_get_flags, vmm_get_physical.
  assert (∀ e mask k, 0 <= k <= 52 → 0 <= mask < 2^52 → (e .& mask) .| (va .& (2^k - 1)) ≠ PMM_ALLOC_FAILED) as Hb.
  { intros e mask k Hk Hm. assert (0 <= (e .& mask) .| (va .& (2^k - 1)) < 2^52); [|unfold PMM_ALLOC_FAILED; lia].
    apply lor_range; [done| |].
    - rewrite Z.land_comm. by apply land_range_l.
    - rewrite land_low_mod by lia. pose proof (Z.mod_pos_bound va (2^k) ltac:(apply Z.pow_pos_nonneg; lia)).
      pose proof (Z.pow_le_mono_r 2 k 52). lia. }
  destruct (has (pte m r (pml4_idx va)) VMM_PRESENT); simpl; [|done].
  destruct (has (pte m _ (pdpt_idx va)) VMM_PRESENT); simpl; [|done].
  destruct (has (pte m _ (pdpt_idx va)) VMM_HUGE); [intros _; by apply (Hb _ _ 30)|].
  destruct (has (pte m _ (pd_idx va)) VMM_PRESENT); simpl; [|done].
  destruct (has (pte m _ (pd_idx va)) VMM_HUGE); [intros _; by apply (Hb _ _ 21)|].
  destruct (has (pte m _ (pt_idx va)) VMM_PRESENT); simpl; [|done].
  intros _. by apply (Hb _ _ 12).
Qed.

Lemma has_all_present f : has_all f USER_PRESENT = true → has f VMM_PRESENT = true.
Proof. intros H. rewrite has_present. by apply (has_all_bit f _ 0 H). Qed.

Lemma align_page va : 0 <= va < 2^64 → ALIGN_DOWN va PAGE_SIZE = va / PAGE_SIZE * PAGE_SIZE.
Proof. intros. change PAGE_SIZE with (2^12). apply ALIGN_DOWN_spec; lia. Qed.

Lemma align_page_flags m r va :
  0 <= va < 2^64 → vmm_get_flags m r (ALIGN_DOWN va PAGE_SIZE) = vmm_get_flags m r va.
Proof.
  intros H. apply same_page_flags. rewrite align_page by done. apply Z.div_mul. done.
Qed.

(** ** Ranges *)

(** Byte [a] is on a present user page. *)
Definition user_ok (m : mem) (r a : Z) : bool := has_all (vmm_get_flags m r a) USER_PRESENT.

Lemma user_ok_page m r a b : a / PAGE_SIZE = b / PAGE_SIZE → user_ok m r a = user_ok m r b.
Proof. intros H. unfold user_ok. by rewrite (same_page_flags m r a b). Qed.

Lemma range_loop_spec m r end_ : 0 <= end_ < USER_SPACE_TOP → ∀ fuel p,
  0 <= p → end_ / PAGE_SIZE - p + 2 <= Z.of_nat fuel →
  range_loop fuel m r (p * PAGE_SIZE) end_ = true ↔
  (∀ a, p * PAGE_SIZE <= a <= end_ → user_ok m r a = true).
Proof.
  intros Hend. induction fuel as [|f IH]; intros p Hp Hf; cbn [range_loop].
  { split; [|done]. intros _ a Ha. exfalso. page_lia. }
  destruct (p * PAGE_SIZE <=? end_) eqn:E; b2p.
  2: { split; [|done]. intros _ a Ha. lia. }
  change (has_all (vmm_get_flags m r (p * PAGE_SIZE)) USER_PRESENT) with (user_ok m r (p * PAGE_SIZE)).
  assert (∀ a, p * PAGE_SIZE <= a < (p + 1) * PAGE_SIZE → user_ok m r a = user_ok m r (p * PAGE_SIZE)) as Hpage.
  { intros a Ha. apply user_ok_page. rewrite Z.div_mul by done. page_lia. }
  destruct (user_ok m r (p * PAGE_SIZE)) eqn:E1; cbn [negb].
  2: { split; [done|]. intros H. rewrite H in E1; [done|]. lia. }
  destruct (USER_SPACE_TOP - PAGE_SIZE <? p * PAGE_SIZE) eqn:E2; b2p.
  { split; [|done]. intros _ a Ha. rewrite Hpage; [done|]. page_lia. }
  rewrite u64_small by page_lia.
  replace (p * PAGE_SIZE + PAGE_SIZE) with ((p + 1) * PAGE_SIZE) by lia.
  rewrite IH by lia. split.
  - intros H a Ha. destruct (decide (a < (p + 1) * PAGE_SIZE)); [rewrite Hpage by lia; done|]. apply H. lia.
  - intros H a Ha. apply H. page_lia.
Qed.

Definition user_range (start n : Z) : Prop := 0 < start ∧ start + n <= USER_SPACE_TOP.

Lemma user_range_ok_spec m r start n : 0 <= start → 0 < n →
  user_range_ok m r start n = true ↔
  user_range start n ∧ ∀ a, start <= a < start + n → user_ok m r a = true.
Proof.
  intros Hs Hn. unfold user_range_ok, user_range. rewrite (proj2 (Z.eqb_neq n 0)) by lia.
  destruct ((start =? 0) || (USER_SPACE_TOP <=? start)) eqn:E1.
  { split; [done|]. intros [? _]. apply orb_true_iff in E1 as [?|?]; b2p; lia. }
  b2p. destruct (USER_SPACE_TOP - start <? n) eqn:E2; b2p; [split; [done|]; intros [? _]; lia|].
  rewrite align_page by (unfold USER_SPACE_TOP in *; lia).
  rewrite range_loop_spec; [|lia|apply Z.div_pos; unfold PAGE_SIZE; lia|].
  2: { page_lia. }
  split.
  - intros Hr. split; [lia|]. intros a Ha. apply Hr. page_lia.
  - intros [_ Hr] a Ha. destruct (decide (start <= a)); [apply Hr; lia|].
    rewrite (user_ok_page m r a start); [apply Hr; lia|]. page_lia.
Qed.

(** ** Reading *)

(** The bytes a program of address space [r] sees. *)
Definition ubyte (m : mem) (r a : Z) : Z := read8 m (vmm_get_physical m r a).
Fixpoint ubytes (n : nat) (m : mem) (r a : Z) : list Z :=
  match n with O => [] | S n' => ubyte m r a :: ubytes n' m r (a + 1) end.

Lemma length_ubytes n m r a : length (ubytes n m r a) = n.
Proof. revert a. induction n; intros; simpl; auto. Qed.

Lemma ubytes_lookup n m r : ∀ a k, (k < n)%nat → ubytes n m r a !! k = Some (ubyte m r (a + Z.of_nat k)).
Proof.
  induction n as [|n IH]; intros a k Hk; [lia|]. destruct k as [|k]; simpl.
  - by rewrite Z.add_0_r.
  - rewrite IH by lia. do 2 f_equal. lia.
Qed.

Lemma ubytes_app n k m r a : ubytes (n + k) m r a = ubytes n m r a ++ ubytes k m r (a + Z.of_nat n).
Proof.
  revert a. induction n as [|n IH]; intros a; simpl; [by rewrite Z.add_0_r|].
  rewrite IH. by replace (a + 1 + Z.of_nat n) with (a + Z.of_nat (S n)) by lia.
Qed.

Lemma load_bytes_length n m a : length (load_bytes n m a) = n.
Proof. revert a. induction n; intros; simpl; auto. Qed.

Lemma page_bytes m r a b : user_ok m r a = true → a / PAGE_SIZE = b / PAGE_SIZE → a <= b →
  vmm_get_physical m r b = vmm_get_physical m r a + (b - a).
Proof.
  intros Hok Hp Hle. destruct (same_page_physical m r a b Hp (has_all_present _ Hok)) as [-> _]. page_lia.
Qed.

Lemma load_page m r cur n : user_ok m r cur = true → Z.of_nat n <= PAGE_SIZE - cur mod PAGE_SIZE →
  load_bytes n m (vmm_get_physical m r cur) = ubytes n m r cur.
Proof.
  intros Hok. revert cur Hok. induction n as [|n IH]; intros cur Hok Hn; simpl; [done|].
  f_equal. destruct n as [|n']; [done|].
  assert ((cur + 1) / PAGE_SIZE = cur / PAGE_SIZE) as Hp by page_lia.
  replace (vmm_get_physical m r cur + 1) with (vmm_get_physical m r (cur + 1)).
  - apply IH; [by rewrite (user_ok_page _ _ _ cur)|page_lia].
  - rewrite (page_bytes m r cur); [lia|done|done|lia].
Qed.

Lemma splice_here (buf data : list Z) n :
  (n <= length buf)%nat → take (n + length data) (splice buf (Z.of_nat n) data) = take n buf ++ data.
Proof.
  intros Hn. unfold splice. rewrite Nat2Z.id, app_assoc.
  rewrite take_app_le by (rewrite length_app, length_take; lia).
  apply take_ge. rewrite length_app, length_take. lia.
Qed.

Lemma splice_length (buf data : list Z) n :
  (n + length data <= length buf)%nat → length (splice buf (Z.of_nat n) data) = length buf.
Proof. intros. unfold splice. rewrite Nat2Z.id, !length_app, length_take, length_drop. lia. Qed.

Section Read.
Context {S : Type} `{FA : FrameAllocator S}.
Context (v : vm S).
Abbreviation m := (vm_mem v).
Abbreviation r := (vmm_current_pml4 v).

Lemma page_for_read a : 0 < a < USER_SPACE_TOP →
  user_page_for_copy a false v = Ret (if user_ok m r a then Some (vmm_get_physical m r a) else None, v).
Proof.
  intros Ha. unfold user_page_for_copy.
  rewrite (proj2 (Z.eqb_neq a 0)), (proj2 (Z.leb_gt USER_SPACE_TOP a)) by lia. simpl.
  unfold mbind, M_bind, gets, mret, M_ret.
  rewrite align_page_flags by page_lia. fold (user_ok m r a).
  destruct (user_ok m r a) eqn:E; simpl; [|done].
  by rewrite (proj2 (Z.eqb_neq _ _)) by (apply present_not_failed, has_all_present, E).
Qed.

Lemma copy_loop_read user n : user_range user n → ∀ fuel done buf,
  0 <= done <= n → n - done <= Z.of_nat fuel → len buf = n →
  ∃ rc buf', copy_loop fuel user done n false buf v = Ret ((rc, buf'), v) ∧
    ((rc = 0 ∧ (∀ a, user + done <= a < user + n → user_ok m r a = true) ∧
      buf' = take (Z.to_nat done) buf ++ ubytes (Z.to_nat (n - done)) m r (user + done)) ∨
     (rc = - EFAULT ∧ ∃ a, user + done <= a < user + n ∧ user_ok m r a = false)).
Proof.
  intros [Hu Htop]. induction fuel as [|f IH]; intros done buf Hd Hf Hbuf; cbn [copy_loop].
  - rewrite (proj2 (Z.ltb_ge done n)) by lia. exists 0, buf. split; [done|]. left. split; [done|].
    split; [intros; lia|]. replace (n - done) with 0 by lia. simpl. rewrite app_nil_r.
    symmetry. apply take_ge. lia.
  - destruct (done <? n) eqn:E; b2p.
    2: { exists 0, buf. split; [done|]. left. split; [done|].
         split; [intros; lia|]. replace (n - done) with 0 by lia. simpl. rewrite app_nil_r.
         symmetry. apply take_ge. lia. }
    unfold mbind at 1, M_bind at 1. rewrite page_for_read by lia.
    destruct (user_ok m r (user + done)) eqn:Hok.
    2: { eexists _, _. split; [done|]. right. split; [done|]. exists (user + done). split; [lia|done]. }
    change (PAGE_SIZE - 1) with (2^12 - 1). rewrite land_low_mod by done. change (2^12) with PAGE_SIZE.
    set (k := MIN (PAGE_SIZE - (user + done) mod PAGE_SIZE) (n - done)).
    assert (0 < k <= n - done ∧ k <= PAGE_SIZE - (user + done) mod PAGE_SIZE) as [Hk Hkp].
    { unfold k, MIN. case_if; page_lia. }
    unfold mbind, M_bind, gets at 1. rewrite load_page by (done || lia).
    set (data := ubytes (Z.to_nat k) m r (user + done)).
    assert (length data = Z.to_nat k) as Hdata by apply length_ubytes.
    assert (done = Z.of_nat (Z.to_nat done)) as Hdn by lia.
    destruct (IH (done + k) (splice buf done data)) as (rc & buf' & -> & Hcase); [lia|lia| |].
    { rewrite Hdn, splice_length; lia. }
    exists rc, buf'. split; [done|]. destruct Hcase as [(-> & Hall & ->)|(-> & a & Ha & Hno)].
    + left. split; [done|]. split.
      * intros a Ha. destruct (decide (a < user + (done + k))) as [Hlt|]; [|apply Hall; lia].
        rewrite (user_ok_page _ _ a (user + done)); [done|]. page_lia.
      * replace (Z.to_nat (done + k)) with (Z.to_nat done + length data)%nat by lia.
        rewrite Hdn at 2. rewrite splice_here by lia.
        replace (Z.to_nat (n - done)) with (Z.to_nat k + Z.to_nat (n - (done + k)))%nat by lia.
        rewrite ubytes_app, <- app_assoc. fold data. do 3 f_equal. lia.
    + right. split; [done|]. exists a. split; [lia|done].
Qed.

Lemma copy_from_user_steps dst user n : 0 <= user → len dst = n →
  ∃ buf, copy_from_user dst user n v =
    Ret ((if user_range_ok m r user n then 0 else - EFAULT, buf), v) ∧
    (user_range_ok m r user n = true → buf = ubytes (Z.to_nat n) m r user).
Proof.
  intros Hu Hl. unfold copy_from_user, copy_user_bytes.
  destruct (Z.eqb_spec n 0) as [->|Hn].
  { exists dst. split; [done|]. intros _. by destruct dst. }
  assert (0 < n) as Hpos by lia.
  pose proof (user_range_ok_spec m r user n Hu Hpos) as Hiff.
  destruct ((user =? 0) || (USER_SPACE_TOP <=? user) || (USER_SPACE_TOP - user <? n)) eqn:E.
  - assert (user_range_ok m r user n = false) as ->.
    { apply not_true_iff_false. intros [[? ?] _]%Hiff.
      apply orb_true_iff in E as [[?|?]%orb_true_iff|?]; b2p; lia. }
    by eexists.
  - b2p. destruct (copy_loop_read user n) with (fuel := Z.to_nat n) (done := 0) (buf := dst)
      as (rc & buf & -> & [(-> & Hall & ->)|(-> & a & Ha & Hno)]); [split; lia|lia|lia|done| |].
    + rewrite Z.add_0_r, Z.sub_0_r in *.
      assert (user_range_ok m r user n = true) as -> by (apply Hiff; split; [split; lia|done]).
      by eexists.
    + assert (user_range_ok m r user n = false) as ->.
      { apply not_true_iff_false. intros [_ Hall]%Hiff. rewrite Hall in Hno; [done|lia]. }
      by eexists.
Qed.

(** One byte. *)
Lemma copy_byte a : 0 <= a < 2^64 →
  ∃ buf, copy_from_user [0] a 1 v =
    Ret ((if bool_decide (0 < a < USER_SPACE_TOP) && user_ok m r a then 0 else - EFAULT, buf), v) ∧
    (0 < a < USER_SPACE_TOP → user_ok m r a = true → buf = [ubyte m r a]).
Proof.
  intros Ha. destruct (copy_from_user_steps [0] a 1) as (buf & -> & Hbuf); [lia|done|].
  pose proof (user_range_ok_spec m r a 1 ltac:(lia) ltac:(lia)) as Hiff. unfold user_range in Hiff.
  exists buf. assert (user_range_ok m r a 1 = bool_decide (0 < a < USER_SPACE_TOP) && user_ok m r a) as E.
  { apply eq_true_iff_eq. rewrite Hiff, andb_true_iff, bool_decide_eq_true. split.
    - intros [? H]. split; [lia|]. apply H. lia.
    - intros [? H]. split; [lia|]. intros b Hb. by replace b with a by lia. }
  rewrite E. split; [done|]. intros Hr Hu. rewrite Hbuf; [done|]. rewrite E, Hu, andb_true_r.
  by apply bool_decide_eq_true.
Qed.

End Read.
