(* ===== verification/UaccessWrite.v ===== *)
(** * Access to user memory: address spaces and writes

    [space_ok] is what the kernel keeps true of a user address space: its tables are
    in order, and every user page is a 4 KiB page on a frame of its own that the
    allocator counts and that is none of the tables.  Writing user memory, with the
    copy of shared pages it may cause, keeps it. *)

From Stdlib Require Import ZArith Lia.
From S2P Require Import Prelude Memory Frames Vmm VmmInv VmmOps VmmCow Uaccess UaccessInv.
Import StringC.

Lemma leaf_present m r va h e : vleaf m r va = Some (h, e) → has e VMM_PRESENT = true.
Proof.
  unfold vleaf, leaf. intros H. repeat case_match; simplify_eq; done.
Qed.

Lemma flags_bit e k : 0 <= k < 12 → Z.testbit (e .& ~64 VMM_PHYS_MASK) k = Z.testbit e k.
Proof.
  intros Hk. rewrite Z.land_spec, u64_bits, Z.lnot_spec, phys_mask_bits by lia.
  rewrite (proj2 (Z.leb_gt 12 k)), (proj2 (Z.ltb_lt k 64)) by lia. apply andb_true_r.
Qed.

Lemma user_present_bits f : has_all f USER_PRESENT = Z.testbit f 0 && Z.testbit f 2.
Proof.
  apply eq_true_iff_eq. split.
  - intros H. by rewrite (has_all_bit f _ 0 H), (has_all_bit f _ 2 H).
  - intros [H0 H2]%andb_true_iff. unfold has_all. apply Z.eqb_eq. change USER_PRESENT with (2^0 .| 2^2).
    apply Z.bits_inj'. intros n Hn. rewrite Z.land_spec, Z.lor_spec, !Z.pow2_bits_eqb by lia.
    destruct (Z.eqb_spec 0 n) as [<-|]; [by rewrite H0|]. destruct (Z.eqb_spec 2 n) as [<-|]; [by rewrite H2|].
    apply andb_false_r.
Qed.

Lemma read8_store_bytes l : ∀ m a b, read8 (store_bytes m a l) b =
  if in_block a (len l) b then u8 (default 0 (l !! Z.to_nat (b - a))) else read8 m b.
Proof.
  induction l as [|c l IH]; intros m a b; cbn [store_bytes].
  - block; [simpl in *; lia|done].
  - rewrite IH, read8_write8. cbn [length]. block; try lia; try done.
    + replace (Z.to_nat (b - a)) with (S (Z.to_nat (b - (a + 1)))) by lia. done.
    + subst. by rewrite Z.sub_diag.
Qed.

Section Space.
Context {S : Type} `{FA : FrameAllocator S}.
Implicit Types v : vm S.
Abbreviation rc_of v := (fa_rc (vm_pmm v)).

(** The user page of address [va] is the entry [e]. *)
Definition user_page (v : vm S) (r va e : Z) : Prop :=
  0 <= va < USER_SPACE_TOP ∧ vleaf (vm_mem v) r va = Some (false, e) ∧ has e VMM_USER = true.

(** A frame somebody holds that is no table of [r]. *)
Definition own_frame (v : vm S) (r f : Z) : Prop :=
  0 < f ∧ 0 < rc_of v f ∧ ∀ q, valid_path q → (length q <= 3)%nat → walk (vm_mem v) r q ≠ Some f.

Record space_ok (v : vm S) (r : Z) : Prop := {
  so_root : root_ok v r;
  so_small va h e : 0 <= va < USER_SPACE_TOP → vleaf (vm_mem v) r va = Some (h, e) →
    has e VMM_USER = true → h = false;
  so_frame va e : user_page v r va e → own_frame v r (e .& VMM_PHYS_MASK);
  so_inj va vb e e' : user_page v r va e → user_page v r vb e' →
    e .& VMM_PHYS_MASK = e' .& VMM_PHYS_MASK → vpage va = vpage vb;
}.

Lemma own_is_frame v r f : root_ok v r → own_frame v r f → is_frame f.
Proof. intros [Hfa _] (H0 & Hrc & _). by apply (fa_rc_frame (vm_pmm v)). Qed.

Lemma user_ok_iff v r va : space_ok v r → 0 <= va < USER_SPACE_TOP →
  user_ok (vm_mem v) r va = true ↔ ∃ e, user_page v r va e.
Proof.
  intros Hs Hva. unfold user_ok. rewrite (get_flags_leaf _ _ _ (proj2 (so_root _ _ Hs))), user_present_bits.
  unfold user_page. destruct (vleaf (vm_mem v) r va) as [[h e]|] eqn:E; cbn [leaf_flags].
  - rewrite !flags_bit, <- has_present, <- has_user, (leaf_present _ _ _ _ _ E) by lia. simpl. split.
    + intros Hu. exists e. by rewrite (so_small _ _ Hs va h e).
    + by intros (e' & _ & [= -> ->] & ?).
  - split; [done|]. by intros (e & _ & ? & _).
Qed.

Lemma user_page_physical v r va e : root_ok v r → user_page v r va e →
  vmm_get_physical (vm_mem v) r va = e .& VMM_PHYS_MASK + va mod PAGE_SIZE.
Proof.
  intros Hok (_ & Hl & _). rewrite (get_physical_leaf _ _ _ (proj2 Hok)), Hl. simpl.
  change 0xFFF with (2^12 - 1). apply block_or_offset; [done|]. intros n Hn.
  rewrite phys_mask_bits, (proj2 (Z.leb_gt 12 n)) by lia. done.
Qed.

(** The kernel may write the page of [va], after copying it if it is shared. *)
Definition writable (m : mem) (r va : Z) : bool :=
  let f := vmm_get_flags m r va in has_all f USER_PRESENT && (has f VMM_WRITE || has f VMM_COW).

(** From [v] to [v'] the same user pages exist, with the same permissions. *)
Definition same_pages (r : Z) (v v' : vm S) : Prop :=
  vm_cr3 v' = vm_cr3 v ∧
  ∀ vb, user_ok (vm_mem v') r vb = user_ok (vm_mem v) r vb ∧
        writable (vm_mem v') r vb = writable (vm_mem v) r vb.

Lemma same_pages_refl r v : same_pages r v v.
Proof. done. Qed.

Lemma same_pages_trans r v1 v2 v3 : same_pages r v1 v2 → same_pages r v2 v3 → same_pages r v1 v3.
Proof.
  intros [H1 H2] [H3 H4]. split; [congruence|]. intros vb. destruct (H2 vb), (H4 vb). split; congruence.
Qed.

(** ** Writing into a page *)

Section WritePage.
Context (v : vm S) (r va e : Z) (Hs : space_ok v r) (Hp : user_page v r va e).
Context (l : list Z) (Hl : va mod PAGE_SIZE + len l <= PAGE_SIZE).
Abbreviation f := (e .& VMM_PHYS_MASK).
Abbreviation a := (f + va mod PAGE_SIZE).
Abbreviation v' := (set_mem (store_bytes (vm_mem v) a l) v).

Lemma write_in_frame b : ¬ page_range f b → read8 (vm_mem v') b = read8 (vm_mem v) b.
Proof.
  intros Hb. simpl. rewrite read8_store_bytes. block; [|done]. destruct Hb. unfold page_range.
  pose proof (Z.mod_pos_bound va PAGE_SIZE). unfold PAGE_SIZE in *. lia.
Qed.

Lemma write_keeps_entries p t i : valid_path p → (length p <= 3)%nat → walk (vm_mem v) r p = Some t → 0 <= i < 512 →
  pte (vm_mem v') t i = pte (vm_mem v) t i.
Proof.
  intros Hv Hlp Hw Hi. apply pte_ext; [done|]. intros b Hb. apply write_in_frame. intros Hb'.
  destruct (so_frame _ _ Hs va e Hp) as (_ & _ & Hno). apply (Hno p Hv Hlp). rewrite Hw. f_equal.
  eapply frames_disjoint; [|eapply own_is_frame; [apply Hs|by eapply so_frame]|done|done].
  by apply (pt_tables _ _ _ (proj2 (so_root _ _ Hs)) p).
Qed.

Lemma write_leaf vb : vleaf (vm_mem v') r vb = vleaf (vm_mem v) r vb.
Proof. unfold vleaf. apply (same_entries_leaf _ _ _ _ _ _ _ write_keeps_entries), (vpath_valid vb). Qed.

Lemma write_root : root_ok v' r.
Proof.
  destruct (so_root _ _ Hs) as [Hfa Hwf]. split; [done|].
  eapply same_entries_wf; [exact Hwf|exact write_keeps_entries|done].
Qed.

Lemma write_space : space_ok v' r.
Proof.
  assert (∀ vb eb, user_page v' r vb eb ↔ user_page v r vb eb) as Hup.
  { intros vb eb. unfold user_page. by rewrite write_leaf. }
  split.
  - apply write_root.
  - intros vb h eb. rewrite write_leaf. apply Hs.
  - intros vb eb H%Hup. destruct (so_frame _ _ Hs vb eb H) as (H0 & Hrc & Hno). split; [done|]. split; [done|].
    intros q Hq Hlq. rewrite (same_entries_walk _ _ _ _ write_keeps_entries) by (done || lia). by apply Hno.
  - intros vb vc eb ec H1%Hup H2%Hup. by apply Hs.
Qed.

Lemma write_same_pages : same_pages r v v'.
Proof.
  split; [done|]. intros vb. unfold user_ok, writable.
  rewrite !(get_flags_leaf _ _ _ (proj2 write_root)), !(get_flags_leaf _ _ _ (proj2 (so_root _ _ Hs))).
  by rewrite write_leaf.
Qed.

Lemma write_ubyte vb : 0 <= vb < USER_SPACE_TOP → user_ok (vm_mem v) r vb = true →
  ubyte (vm_mem v') r vb =
    if in_block va (len l) vb then u8 (default 0 (l !! Z.to_nat (vb - va))) else ubyte (vm_mem v) r vb.
Proof.
  intros Hb Hok. apply (user_ok_iff v r vb Hs Hb) in Hok as [eb Hpb]. unfold ubyte.
  rewrite (user_page_physical v r vb eb (so_root _ _ Hs) Hpb).
  rewrite (user_page_physical v' r vb eb write_root); [|destruct Hpb; split; [done|]; by rewrite write_leaf].
  simpl. rewrite read8_store_bytes.
  pose proof (Z.mod_pos_bound va PAGE_SIZE ltac:(done)) as Hma. pose proof (Z.mod_pos_bound vb PAGE_SIZE ltac:(done)) as Hmb.
  destruct (decide (vpage vb = vpage va)) as [Hv|Hv].
  - assert (eb = e) as ->.
    { destruct Hp as (_ & Hle & _), Hpb as (_ & Hlb & _). rewrite (vleaf_vpage _ _ _ _ Hv) in Hlb. congruence. }
    assert (vb - va = vb mod PAGE_SIZE - va mod PAGE_SIZE) as Hd.
    { destruct Hp as (Hu & _). unfold vpage in Hv. change (2^12) with PAGE_SIZE in Hv.
      rewrite !Z.mod_small in Hv by page_lia. page_lia. }
    block; try lia; try done. f_equal. f_equal. f_equal. lia.
  - assert (eb .& VMM_PHYS_MASK ≠ f) as Hf by (intros E; by apply Hv, (so_inj _ _ Hs vb va eb e)).
    pose proof (own_is_frame v r _ (so_root _ _ Hs) (so_frame _ _ Hs va e Hp)) as F1.
    pose proof (own_is_frame v r _ (so_root _ _ Hs) (so_frame _ _ Hs vb eb Hpb)) as F2.
    assert (¬ in_block a (len l) (eb .& VMM_PHYS_MASK + vb mod PAGE_SIZE) = true) as E1%not_true_iff_false.
    { rewrite in_block_true. intros H. destruct Hf.
      apply (frames_disjoint _ _ (eb .& VMM_PHYS_MASK + vb mod PAGE_SIZE) F2 F1); unfold page_range; lia. }
    assert (¬ in_block va (len l) vb = true) as E2%not_true_iff_false.
    { rewrite in_block_true. intros H. apply Hv. unfold vpage. change (2^12) with PAGE_SIZE.
      f_equal. page_lia. }
    by rewrite E1, E2.
Qed.

End WritePage.

(** ** Resolving a copy-on-write page *)

Section Resolve.
Context (v v' : vm S) (va e f' : Z).
Abbreviation r := (vmm_current_pml4 v).
Abbreviation old := (e .& VMM_PHYS_MASK).
Context (Hs : space_ok v r) (Hp : user_page v r va e)
  (Hall : has_all e (VMM_PRESENT .| VMM_USER .| VMM_COW) = true) (Hm : page_moved v v' va e f').
Context (Hrc : if rc_of v old =? 1 then f' = old ∧ vm_pmm v' = vm_pmm v
  else rc_of v f' = 0 ∧ ∀ b, rc_of v' b = if b =? f' then 1 else if b =? old then rc_of v old - 1 else rc_of v b).

Lemma resolve_phys : (f' .| cow_resolved e) .& VMM_PHYS_MASK = f'.
Proof. apply cow_entry_phys, Hm. Qed.

Lemma resolve_user : has (f' .| cow_resolved e) VMM_USER = true.
Proof.
  rewrite has_user, Z.lor_spec. unfold cow_resolved. bits_expand.
  rewrite (has_all_bit e _ 2 Hall) by done. simpl. apply orb_true_r.
Qed.

Lemma resolve_page vb eb : user_page v' r vb eb ↔
  0 <= vb < USER_SPACE_TOP ∧
  if vpage vb =? vpage va then eb = f' .| cow_resolved e else user_page v r vb eb.
Proof.
  unfold user_page. rewrite (moved_leaf _ _ _ _ _ Hm). destruct (vpage vb =? vpage va); [|tauto]. split.
  - intros (? & [= <-] & _). done.
  - intros [? ->]. split; [done|]. split; [done|]. apply resolve_user.
Qed.

Lemma page_entry_same vb eb : vpage vb = vpage va → user_page v r vb eb → eb = e.
Proof.
  intros Hv (_ & Hb & _). destruct Hp as (_ & Ha & _). rewrite (vleaf_vpage _ _ _ _ Hv) in Hb. congruence.
Qed.

(** The new frame is nobody else's. *)
Lemma resolve_fresh vb eb : vpage vb ≠ vpage va → user_page v r vb eb → eb .& VMM_PHYS_MASK ≠ f'.
Proof.
  intros Hv Hb ->%symmetry. destruct (Z.eqb_spec (rc_of v old) 1) as [E|E].
  - destruct Hrc as [Hf _]. by apply Hv, (so_inj _ _ Hs vb va eb e).
  - destruct Hrc as [Hf _], (so_frame _ _ Hs vb eb Hb) as (_ & ? & _). lia.
Qed.

Lemma resolve_held a : 0 < rc_of v a → 0 < rc_of v' a.
Proof.
  intros Ha. destruct (so_frame _ _ Hs va e Hp) as (_ & Hold & _). destruct (Z.eqb_spec (rc_of v old) 1) as [E|E].
  - destruct Hrc as [_ ->]. done.
  - destruct Hrc as [_ ->]. repeat case_if; subst; lia.
Qed.

Lemma resolve_new : own_frame v' r f'.
Proof.
  pose proof (moved_frame _ _ _ _ _ Hm) as [_ Hf]. destruct (so_frame _ _ Hs va e Hp) as (H0 & Hold & Hno).
  split; [lia|]. assert (∀ q, valid_path q → (length q <= 3)%nat → walk (vm_mem v) r q ≠ Some f') as Hw.
  { intros q Hq Hl Hw. destruct (Z.eqb_spec (rc_of v old) 1) as [E|E].
    - destruct Hrc as [-> _]. by apply (Hno q).
    - destruct Hrc as [H _], (pt_tables _ _ _ (proj2 (so_root _ _ Hs)) q f'); [done..|lia]. }
  split.
  - destruct (Z.eqb_spec (rc_of v old) 1) as [E|E].
    + destruct Hrc as [-> ->]. lia.
    + destruct Hrc as [_ ->]. rewrite Z.eqb_refl. lia.
  - intros q Hq Hl. rewrite (moved_walk _ _ _ _ _ Hm) by done. by apply Hw.
Qed.

Lemma resolve_space : space_ok v' r.
Proof.
  split.
  - apply Hm.
  - intros vb h eb Hb. rewrite (moved_leaf _ _ _ _ _ Hm). destruct (vpage vb =? vpage va); [|by apply Hs].
    by intros [= <- _].
  - intros vb eb [Hb H]%resolve_page. destruct (vpage vb =? vpage va); [subst; rewrite resolve_phys; apply resolve_new|].
    destruct (so_frame _ _ Hs vb eb H) as (H0 & Hh & Hno). split; [done|]. split; [by apply resolve_held|].
    intros q Hq Hl. rewrite (moved_walk _ _ _ _ _ Hm) by done. by apply Hno.
  - intros vb vc eb ec [Hb H1]%resolve_page [Hc H2]%resolve_page.
    destruct (Z.eqb_spec (vpage vb) (vpage va)) as [Eb|Eb], (Z.eqb_spec (vpage vc) (vpage va)) as [Ec|Ec].
    + intros _. congruence.
    + subst. rewrite resolve_phys. intros E. by destruct (resolve_fresh vc ec).
    + subst. rewrite resolve_phys. intros E. by destruct (resolve_fresh vb eb).
    + by apply Hs.
Qed.

Lemma resolve_flag_bits k : 0 <= k < 12 → k ≠ 9 → k ≠ 1 → Z.testbit (cow_resolved e) k = Z.testbit e k.
Proof.
  intros Hk H9 H1. unfold cow_resolved. rewrite Z.lor_spec, Z.land_spec, flags_bit by lia.
  unfold VMM_COW, VMM_WRITE. rewrite u64_bits, Z.lnot_spec, !Z.pow2_bits_eqb by lia.
  rewrite (proj2 (Z.ltb_lt k 64)), (proj2 (Z.eqb_neq 9 k)), (proj2 (Z.eqb_neq 1 k)) by lia.
  simpl. by rewrite andb_true_r, orb_false_r.
Qed.

Lemma resolve_same_pages : same_pages r v v'.
Proof.
  split; [apply Hm|]. intros vb. unfold user_ok, writable.
  rewrite !(get_flags_leaf _ _ _ (proj2 (moved_ok _ _ _ _ _ Hm))), !(get_flags_leaf _ _ _ (proj2 (so_root _ _ Hs))).
  rewrite (moved_leaf _ _ _ _ _ Hm). destruct (Z.eqb_spec (vpage vb) (vpage va)) as [E|]; [|done].
  assert (vleaf (vm_mem v) r vb = Some (false, e)) as ->.
  { destruct Hp as (_ & Ha & _). by rewrite (vleaf_vpage _ _ _ _ E). }
  cbn [leaf_flags]. rewrite (cow_entry_flags f' e (moved_frame _ _ _ _ _ Hm)), !user_present_bits.
  rewrite !resolve_flag_bits, !flags_bit by lia. split; [done|]. f_equal.
  rewrite !has_write, !has_cow, !flags_bit, (has_all_bit e _ 9 Hall) by (done || lia).
  unfold cow_resolved. rewrite Z.lor_spec. change (Z.testbit VMM_WRITE 1) with true.
  by rewrite !orb_true_r.
Qed.

Lemma resolve_ubyte vb : 0 <= vb < USER_SPACE_TOP → user_ok (vm_mem v) r vb = true →
  ubyte (vm_mem v') r vb = ubyte (vm_mem v) r vb.
Proof.
  intros Hb Hok. apply (user_ok_iff v r vb Hs Hb) in Hok as [eb Hpb]. unfold ubyte.
  rewrite (user_page_physical v r vb eb (so_root _ _ Hs) Hpb).
  pose proof (Z.mod_pos_bound vb PAGE_SIZE ltac:(done)) as Hmb.
  destruct (decide (vpage vb = vpage va)) as [Hv|Hv].
  - assert (eb = e) as -> by (by apply (page_entry_same vb)).
    rewrite (user_page_physical v' r vb (f' .| cow_resolved e) (moved_ok _ _ _ _ _ Hm)).
    2: { apply resolve_page. by rewrite Hv, Z.eqb_refl. }
    rewrite resolve_phys. by apply Hm.
  - rewrite (user_page_physical v' r vb eb (moved_ok _ _ _ _ _ Hm)).
    2: { apply resolve_page. by rewrite (proj2 (Z.eqb_neq _ _) Hv). }
    pose proof (own_is_frame v r _ (so_root _ _ Hs) (so_frame _ _ Hs vb eb Hpb)) as F.
    destruct (moved_mem _ _ _ _ _ Hm (eb .& VMM_PHYS_MASK + vb mod PAGE_SIZE)) as [?|[H|(pt & Hw & H)]]; [done|..]; exfalso.
    + apply (resolve_fresh vb eb Hv Hpb). eapply frames_disjoint; [exact F|apply Hm| |exact H]. unfold page_range. lia.
    + destruct (so_frame _ _ Hs vb eb Hpb) as (_ & _ & Hno).
      apply (Hno (tables_path va)); [apply tables_path_valid|simpl; lia|]. rewrite Hw. f_equal.
      eapply frames_disjoint; [|exact F|exact H|unfold page_range; lia].
      apply (pt_tables _ _ _ (proj2 (so_root _ _ Hs)) (tables_path va)); [apply tables_path_valid|simpl; lia|done].
Qed.

End Resolve.

End Space.
