(* ===== verification/UaccessProps.v ===== *)
(** * Access to user memory: properties *)

From Stdlib Require Import ZArith Lia.
From S2P Require Import Prelude Memory Frames Pmm PmmInv PmmProps Vmm VmmInv VmmOps VmmCow VmmProps.
From S2P Require Import Uaccess UaccessInv UaccessWrite.
Import StringC.

Section UaccessProps.
Context {S : Type} `{FA : FrameAllocator S}.
Implicit Types v : vm S.

(** C30: copy_from_user succeeds exactly on the ranges user_range_ok accepts, and then
    the buffer holds the bytes the program sees at those addresses; otherwise it
    returns -EFAULT.  It never changes memory. *)
Theorem copy_from_user_correct (v : vm S) (dst : list Z) (user n : Z) :
  0 <= user → len dst = n →
  wp (copy_from_user dst user n) (λ res v',
    v' = v ∧
    if user_range_ok (vm_mem v) (vmm_current_pml4 v) user n
    then res = (0, ubytes (Z.to_nat n) (vm_mem v) (vmm_current_pml4 v) user)
    else res.1 = - EFAULT) v.
Proof.
  intros Hu Hl. destruct (copy_from_user_steps v dst user n Hu Hl) as (buf & E & Hbuf).
  unfold wp. rewrite E. split; [done|]. destruct (user_range_ok _ _ _ _); [by rewrite Hbuf|done].
Qed.

(** ** Writing *)

Lemma has_all3 e : has e VMM_PRESENT = true → has e VMM_USER = true → has e VMM_COW = true →
  has_all e (VMM_PRESENT .| VMM_USER .| VMM_COW) = true.
Proof.
  rewrite has_present, has_user, has_cow. intros H0 H2 H9. unfold has_all. apply Z.eqb_eq.
  apply Z.bits_inj'. intros n Hn. bits_expand.
  destruct (Z.eqb_spec 0 n) as [<-|]; [by rewrite H0|]. destruct (Z.eqb_spec 2 n) as [<-|]; [by rewrite H2|].
  destruct (Z.eqb_spec 9 n) as [<-|]; [by rewrite H9|]. by rewrite andb_false_r.
Qed.

(** A copy-on-write fault at [a] was resolved. *)
Definition resolved (v v' : vm S) (a : Z) : Prop :=
  ∃ e f', user_page v (vmm_current_pml4 v) a e ∧
    has_all e (VMM_PRESENT .| VMM_USER .| VMM_COW) = true ∧ page_moved v v' a e f' ∧
    let old := e .& VMM_PHYS_MASK in
    if fa_rc (vm_pmm v) old =? 1 then f' = old ∧ vm_pmm v' = vm_pmm v
    else fa_rc (vm_pmm v) f' = 0 ∧
      ∀ b, fa_rc (vm_pmm v') b = if b =? f' then 1 else if b =? old then fa_rc (vm_pmm v) old - 1
                                 else fa_rc (vm_pmm v) b.

Lemma resolved_write f' e : has (f' .| cow_resolved e) VMM_WRITE = true.
Proof. rewrite has_write. unfold cow_resolved. rewrite !Z.lor_spec. change (Z.testbit VMM_WRITE 1) with true. by rewrite !orb_true_r. Qed.

Lemma page_for_write v a : let r := vmm_current_pml4 v in
  space_ok v r → 0 < a < USER_SPACE_TOP →
  wp (user_page_for_copy a true) (λ o v',
    space_ok v' r ∧ same_pages r v v' ∧
    (∀ vb, 0 <= vb < USER_SPACE_TOP → user_ok (vm_mem v) r vb = true →
       ubyte (vm_mem v') r vb = ubyte (vm_mem v) r vb) ∧
    match o with
    | Some phys => writable (vm_mem v) r a = true ∧
        ∃ e, user_page v' r a e ∧ phys = e .& VMM_PHYS_MASK + a mod PAGE_SIZE ∧
          has e VMM_WRITE = true ∧ (v' = v ∨ resolved v v' a)
    | None => v' = v ∧ (writable (vm_mem v) r a = false ∨ fa_avail (vm_pmm v) = 0)
    end) v.
Proof.
  intros r Hs Ha. unfold user_page_for_copy.
  rewrite (proj2 (Z.eqb_neq a 0)), (proj2 (Z.leb_gt USER_SPACE_TOP a)) by lia. simpl.
  repeat wp_step. fold r. rewrite align_page_flags by page_lia. fold (user_ok (vm_mem v) r a).
  destruct (user_ok (vm_mem v) r a) eqn:Hok; simpl.
  2: { apply wp_ret. split; [done|]. split; [done|]. split; [done|]. split; [done|]. left.
       unfold writable. fold (user_ok (vm_mem v) r a). by rewrite Hok. }
  apply (user_ok_iff v r a Hs ltac:(lia)) in Hok as Hpage. destruct Hpage as [e Hp].
  assert (vmm_get_flags (vm_mem v) r a = e .& ~64 VMM_PHYS_MASK) as Hfl.
  { destruct Hp as (_ & Hl & _). by rewrite (get_flags_leaf _ _ _ (proj2 (so_root _ _ Hs))), Hl. }
  assert (∀ v1 e1, space_ok v1 r → user_page v1 r a e1 →
    (vmm_get_physical (vm_mem v1) r a =? PMM_ALLOC_FAILED) = false ∧
    vmm_get_physical (vm_mem v1) r a = e1 .& VMM_PHYS_MASK + a mod PAGE_SIZE) as Hphys.
  { intros v1 e1 Hs1 Hp1. split; [|by apply user_page_physical, Hp1; apply Hs1].
    apply Z.eqb_neq, present_not_failed, has_all_present.
    apply (user_ok_iff v1 r a Hs1 ltac:(lia)). eauto. }
  assert (writable (vm_mem v) r a = has (vmm_get_flags (vm_mem v) r a) VMM_WRITE || has (vmm_get_flags (vm_mem v) r a) VMM_COW) as Hwr.
  { unfold writable. fold (user_ok (vm_mem v) r a). by rewrite Hok. }
  destruct (has (vmm_get_flags (vm_mem v) r a) VMM_WRITE) eqn:Hw; simpl.
  { repeat wp_step. simpl. repeat wp_step. destruct (Hphys v e Hs Hp) as [-> ->]. split_and!; [done..| |].
    { by rewrite Hwr. }
    exists e. split_and!; [done|done| |by left]. rewrite has_write in *. by rewrite Hfl, flags_bit in Hw by lia. }
  destruct (has (vmm_get_flags (vm_mem v) r a) VMM_COW) eqn:Hc; simpl.
  2: { repeat wp_step. simpl. apply wp_ret. split_and!; [done..|]. left. by rewrite Hwr. }
  apply wp_bind. apply wp_bind.
  assert (cow_fault v a (VMM_PRESENT .| VMM_WRITE .| VMM_USER) e) as Hcow.
  { split; [done|]. split; [lia|]. destruct Hp as (_ & Hl & Hu). split; [done|].
    apply has_all3; [by eapply leaf_present|done|]. rewrite has_cow in *. rewrite Hfl, flags_bit in Hc by lia. done. }
  eapply wp_mono.
  { apply page_fault_steps; [apply Hs|page_lia|]. intros e' (_ & _ & Hl' & _).
    assert (e' = e) as -> by (destruct Hp as (_ & Hl & _); fold r in Hl'; congruence).
    destruct (so_frame _ _ Hs a e Hp) as (? & ? & Hno). split; [done|]. split; [done|].
    apply Hno; [apply tables_path_valid|simpl; lia]. }
  intros [] v' H; simpl.
  - destruct H as (e' & f' & (_ & _ & Hl' & Hall) & Hm & Hrc).
    assert (e' = e) as -> by (destruct Hp as (_ & Hl & _); fold r in Hl'; congruence).
    pose proof (resolve_space v v' a e f' Hs Hp Hall Hm Hrc) as Hs'.
    pose proof (resolve_same_pages v v' a e f' Hs Hp Hall Hm) as Hsame. fold r in Hs', Hsame.
    assert (user_page v' r a (f' .| cow_resolved e)) as Hp'.
    { apply (resolve_page v v' a e f' Hall Hm). split; [lia|]. by rewrite Z.eqb_refl. }
    repeat wp_step. rewrite align_page_flags by page_lia.
    assert (has (vmm_get_flags (vm_mem v') r a) VMM_WRITE = true) as ->.
    { destruct Hp' as (_ & Hl1 & _). rewrite (get_flags_leaf _ _ _ (proj2 (so_root _ _ Hs'))), Hl1. cbn [leaf_flags].
      rewrite (cow_entry_flags f' e (moved_frame _ _ _ _ _ Hm)), has_write. unfold cow_resolved.
      rewrite Z.lor_spec. apply orb_true_r. }
    simpl. repeat wp_step. destruct (Hphys v' _ Hs' Hp') as [-> ->].
    split; [done|]. split; [done|]. split; [intros vb; by apply (resolve_ubyte v v' a e f' Hs Hp Hall Hm Hrc)|]. split; [by rewrite Hwr|].
    eexists. split; [exact Hp'|]. split; [done|]. split; [apply resolved_write|]. right. by exists e, f'.
  - destruct H as [-> H]. repeat wp_step. simpl. apply wp_ret. split_and!; [done..|]. right. by apply (H e).
Qed.

(** After a write of [l] at [a]: the user bytes of the range are [l], the others are
    what they were. *)
Definition wrote (r a : Z) (l : list Z) (v v' : vm S) : Prop :=
  space_ok v' r ∧ same_pages r v v' ∧
  ∀ vb, 0 <= vb < USER_SPACE_TOP → user_ok (vm_mem v) r vb = true →
    ubyte (vm_mem v') r vb =
      if in_block a (len l) vb then default 0 (l !! Z.to_nat (vb - a)) else ubyte (vm_mem v) r vb.

Lemma slice_length (buf : list Z) off n : 0 <= off → 0 <= n → off + n <= len buf → len (slice buf off n) = n.
Proof. intros. unfold slice. rewrite length_take, length_drop. lia. Qed.

Lemma slice_app (buf : list Z) off n k : 0 <= off → 0 <= n → 0 <= k →
  slice buf off (n + k) = slice buf off n ++ slice buf (off + n) k.
Proof.
  intros. unfold slice. rewrite Z2Nat.inj_add by lia.
  rewrite <- (take_take_drop (drop (Z.to_nat off) buf) (Z.to_nat n)).
  rewrite drop_drop. do 3 f_equal; lia.
Qed.

Lemma slice_bytes (buf : list Z) off n i : Forall (λ c, 0 <= c < 2^8) buf →
  u8 (default 0 (slice buf off n !! i)) = default 0 (slice buf off n !! i).
Proof.
  intros Hb. destruct (slice buf off n !! i) as [c|] eqn:E; [|done]. simpl. apply u8_small.
  apply (Forall_lookup_1 (λ c, 0 <= c < 2^8) _ i c) in E; [done|]. by apply Forall_take, Forall_drop.
Qed.

Lemma copy_loop_write (r user n : Z) buf : user_range user n → len buf = n →
  Forall (λ c, 0 <= c < 2^8) buf → ∀ fuel v done,
  vmm_current_pml4 v = r → space_ok v r → 0 <= done <= n → n - done <= Z.of_nat fuel →
  wp (copy_loop fuel user done n true buf) (λ res v',
    ∃ k, done <= k <= n ∧ wrote r (user + done) (slice buf done (k - done)) v v' ∧
      (∀ a, user + done <= a < user + k → writable (vm_mem v) r a = true) ∧
      ((res = (0, buf) ∧ k = n) ∨
       (res = (- EFAULT, buf) ∧ k < n ∧
        (writable (vm_mem v) r (user + k) = false ∨ fa_avail (vm_pmm v') = 0)))) v.
Proof.
  intros [Hu Htop] Hbuf Hbytes.
  assert (∀ v done, space_ok v r → wrote r (user + done) (slice buf done (done - done)) v v) as Hnone.
  { intros v done Hs. split; [done|]. split; [done|]. intros vb _ _.
    unfold slice. rewrite Z.sub_diag. simpl. block; [lia|done]. }
  induction fuel as [|f IH]; intros v done Hr Hs Hd Hf; cbn [copy_loop].
  { rewrite (proj2 (Z.ltb_ge done n)) by lia. apply wp_ret. exists done. split; [lia|]. split; [by apply Hnone|]. split; [intros; lia|].
    left. split; [done|lia]. }
  destruct (done <? n) eqn:E; b2p.
  2: { apply wp_ret. exists done. split; [lia|]. split; [by apply Hnone|]. split; [intros; lia|]. left. split; [done|lia]. }
  apply wp_bind. rewrite <- Hr in Hs. eapply wp_mono; [apply page_for_write; [exact Hs|lia]|]. rewrite Hr in Hs |- *.
  intros [phys|] v1 (Hs1 & Hsame1 & Hb1 & Hcase).
  2: { destruct Hcase as [-> Hwhy]. apply wp_ret. exists done. split; [lia|]. split; [by apply Hnone|]. split; [intros; lia|].
       right. split; [done|]. split; [lia|done]. }
  destruct Hcase as (Hwr & e & Hp & -> & _).
  change (PAGE_SIZE - 1) with (2^12 - 1). rewrite land_low_mod by done. change (2^12) with PAGE_SIZE.
  set (k := MIN (PAGE_SIZE - (user + done) mod PAGE_SIZE) (n - done)).
  assert (0 < k <= n - done ∧ k <= PAGE_SIZE - (user + done) mod PAGE_SIZE) as [Hk Hkp].
  { unfold k, MIN. case_if; page_lia. }
  set (l := slice buf done k). assert (len l = k) as Hl by (apply slice_length; lia).
  repeat wp_step.
  assert ((user + done) mod PAGE_SIZE + len l <= PAGE_SIZE) as Hlp by lia.
  pose proof (write_space v1 r (user + done) e Hs1 Hp l Hlp) as Hs2.
  pose proof (write_same_pages v1 r (user + done) e Hs1 Hp l Hlp) as Hsame2.
  pose proof (write_ubyte v1 r (user + done) e Hs1 Hp l Hlp) as Hb2.
  set (v2 := set_mem _ v1) in *.
  pose proof (same_pages_trans _ _ _ _ Hsame1 Hsame2) as Hsame.
  eapply wp_mono.
  { apply (IH v2 (done + k)); [|done|lia|lia]. unfold vmm_current_pml4 in *. by rewrite (proj1 Hsame). }
  intros res v' (k' & Hk' & (Hs' & Hsame' & Hb') & Hwr' & Hres).
  exists k'. split; [lia|]. split.
  - split; [done|]. split; [by eapply same_pages_trans|]. intros vb Hvb Hok.
    assert (user_ok (vm_mem v2) r vb = true) as Hok2 by (by rewrite (proj1 (proj2 Hsame vb))).
    assert (user_ok (vm_mem v1) r vb = true) as Hok1 by (by rewrite (proj1 (proj2 Hsame1 vb))).
    rewrite Hb' by done. rewrite Hb2 by done. rewrite Hb1 by done.
    replace (k' - done) with (k + (k' - (done + k))) by lia. rewrite slice_app by lia. fold l.
    assert (len (slice buf (done + k) (k' - (done + k))) = k' - (done + k)) as Hl2 by (apply slice_length; lia).
    rewrite length_app, Nat2Z.inj_add, Hl, Hl2. block; try lia; try done.
    + rewrite lookup_app_r by lia. do 2 f_equal. lia.
    + rewrite lookup_app_l by lia. unfold l. by rewrite slice_bytes.
  - split.
    { intros a Ha. destruct (decide (a < user + (done + k))) as [Hlt|].
      - unfold writable. rewrite (same_page_flags _ _ a (user + done)); [done|]. page_lia.
      - rewrite <- (proj2 (proj2 Hsame a)). apply Hwr'. lia. }
    destruct Hres as [?|(-> & Hlt & Hwhy)]; [by left|]. right. split; [done|]. split; [done|].
    destruct Hwhy as [Hw|?]; [left|by right]. by rewrite <- (proj2 (proj2 Hsame _)).
Qed.

Lemma copy_to_user_steps (v : vm S) (user : Z) (src : list Z) :
  let r := vmm_current_pml4 v in
  space_ok v r → 0 <= user → Forall (λ c, 0 <= c < 2^8) src →
  wp (copy_to_user user src (len src)) (λ rc v',
    ∃ k, 0 <= k <= len src ∧ wrote r user (take (Z.to_nat k) src) v v' ∧
      ((rc = 0 ∧ k = len src ∧ ∀ a, user <= a < user + len src → user_range user (len src) ∧ writable (vm_mem v) r a = true) ∨
       (rc = - EFAULT ∧ k < len src ∧
        (¬ user_range user (len src) ∨ writable (vm_mem v) r (user + k) = false ∨ fa_avail (vm_pmm v') = 0)))) v.
Proof.
  intros r Hs Hu Hb. unfold copy_to_user, copy_user_bytes.
  assert (wrote r user (take (Z.to_nat 0) src) v v) as Hnone.
  { split; [done|]. split; [done|]. intros vb _ _. simpl. block; [lia|done]. }
  destruct (Z.eqb_spec (len src) 0) as [E0|E0].
  { repeat wp_step. exists 0. split; [lia|]. split; [done|]. left. split; [done|]. split; [lia|]. intros; lia. }
  destruct (_ || _) eqn:E; repeat wp_step.
  - exists 0. split; [lia|]. split; [done|]. right. split; [done|]. split; [lia|]. left. unfold user_range.
    intros [? ?]. apply orb_true_iff in E as [[?|?]%orb_true_iff|?]; b2p; lia.
  - b2p. eapply wp_mono.
    { apply (copy_loop_write r user (len src) src) with (done := 0); [split; lia|done|done|done|done|lia|lia]. }
    intros res v' (k & Hk & Hw & Hwr & Hres). repeat wp_step. exists k. split; [done|].
    rewrite Z.add_0_r, Z.sub_0_r in Hw. unfold slice in Hw. simpl in Hw. split; [done|].
    destruct Hres as [(-> & ->)|(-> & ? & ?)]; [left|right; simpl; auto].
    split; [done|]. split; [done|]. intros a Ha. split; [split; lia|]. apply Hwr. lia.
Qed.


(** what copy_to_user stores copy_from_user reads back: after a successful store
    the load of the same range succeeds and returns the stored bytes. *)
Theorem copy_user_roundtrip (v : vm S) (user : Z) (src dst : list Z) :
  let r := vmm_current_pml4 v in
  space_ok v r → 0 <= user → Forall (λ c, 0 <= c < 2^8) src → length dst = length src →
  wp (rc ← copy_to_user user src (len src);
      if rc =? 0 then copy_from_user dst user (len src) else mret (rc, dst)) (λ res v',
    res = (0, src) ∨
    res.1 = - EFAULT ∧ (¬ user_range user (len src) ∨
      (∃ k, 0 <= k < len src ∧ writable (vm_mem v) r (user + k) = false) ∨ fa_avail (vm_pmm v') = 0)) v.
Proof.
  intros r Hs Hu Hb Hl. apply wp_bind. eapply wp_mono; [by apply copy_to_user_steps|].
  intros rc v' (k & Hk & (Hs' & Hsame & Hbytes) & [(-> & -> & Hwr)|(-> & Hlt & Hwhy)]); simpl.
  2: { apply wp_ret. right. split; [done|]. destruct Hwhy as [?|[?|?]]; [by left|right; left; exists k; split; [lia|done]|by right; right]. }
  fold r in Hs', Hsame, Hbytes, Hwr.
  assert (vmm_current_pml4 v' = r) as Hr by (unfold r, vmm_current_pml4; by rewrite (proj1 Hsame)).
  assert (∀ a, user <= a < user + len src → user_ok (vm_mem v) r a = true) as Hok.
  { intros a Ha. destruct (Hwr a Ha) as [_ [? _]%andb_true_iff]. done. }
  destruct (copy_from_user_steps v' dst user (len src) Hu) as (buf & E & Hbuf); [by rewrite Hl|].
  unfold wp. rewrite E. rewrite Hr in *.
  assert (user_range_ok (vm_mem v') r user (len src) = true) as Hrok.
  { destruct (decide (len src = 0)) as [->|Hn]; [done|]. apply user_range_ok_spec; [done|lia|].
    split; [apply (Hwr user); lia|]. intros a Ha. rewrite (proj1 (proj2 Hsame a)). by apply Hok. }
  rewrite Hrok in *. left. f_equal. rewrite Hbuf by done. apply list_eq_same_length with (n := length src);
    [done|by rewrite length_ubytes, Nat2Z.id|].
  intros i x y Hi Hx Hy. rewrite ubytes_lookup in Hx by lia. injection Hx as <-.
  assert (0 < user ∧ user + Z.of_nat i < USER_SPACE_TOP) as Hui.
  { destruct (Hwr user) as [[? ?] _]; lia. }
  rewrite Hbytes by (lia || (apply Hok; lia)).
  rewrite Nat2Z.id, take_ge by lia. block; [|lia].
  replace (Z.to_nat (user + Z.of_nat i - user)) with i by lia. by rewrite Hy.
Qed.

(** ** Strings *)

(** Byte [a] can be read. *)
Definition readable (v : vm S) (a : Z) : bool :=
  bool_decide (0 < a < USER_SPACE_TOP) && user_ok (vm_mem v) (vmm_current_pml4 v) a.

(** The first [k] bytes at [a] can be read and none of them is 0. *)
Definition text_at (v : vm S) (a : Z) (k : nat) : Prop :=
  ∀ j, (j < k)%nat → readable v (a + Z.of_nat j) = true ∧
    ubyte (vm_mem v) (vmm_current_pml4 v) (a + Z.of_nat j) ≠ 0.

Lemma string_loop_steps v user n : 0 <= user → ∀ k i, user + Z.of_nat (i + k) <= 2^64 →
  n = (i + k)%nat → text_at v user i →
  let str j := ubytes j (vm_mem v) (vmm_current_pml4 v) user in
  ∃ res, string_loop k user (str i) v = Ret (res, v) ∧
    ((∃ j, (j < n)%nat ∧ text_at v user j ∧ readable v (user + Z.of_nat j) = true ∧
        ubyte (vm_mem v) (vmm_current_pml4 v) (user + Z.of_nat j) = 0 ∧ res = (0, str j)) ∨
     (∃ j, (j < n)%nat ∧ text_at v user j ∧ readable v (user + Z.of_nat j) = false ∧ res = (- EFAULT, [])) ∨
     (text_at v user n ∧ res = (- S_EINVAL, removelast (str n)))).
Proof.
  intros Hu. induction k as [|k IH]; intros i Hb Hn Ht; cbv zeta; cbn [string_loop].
  - eexists. split; [done|]. right. right. subst n. rewrite Nat.add_0_r. done.
  - unfold mbind, M_bind. rewrite length_ubytes, u64_small by lia.
    destruct (copy_byte v (user + Z.of_nat i)) as (buf & -> & Hbuf); [lia|].
    fold (readable v (user + Z.of_nat i)). destruct (readable v (user + Z.of_nat i)) eqn:Hr; cbn [fst snd].
    2: { eexists. split; [done|]. right. left. exists i. split_and!; [lia|done..]. }
    assert (buf = [ubyte (vm_mem v) (vmm_current_pml4 v) (user + Z.of_nat i)]) as ->.
    { unfold readable in Hr. apply andb_true_iff in Hr as [?%bool_decide_eq_true ?]. by apply Hbuf. }
    rewrite (proj2 (Z.ltb_ge 0 0)) by lia. cbn [head default from_option].
    destruct (Z.eqb_spec (id (ubyte (vm_mem v) (vmm_current_pml4 v) (user + Z.of_nat i))) 0) as [E|E].
    { eexists. split; [done|]. left. exists i. split_and!; [lia|done..]. }
    unfold id in *.
    replace (ubytes i _ _ user ++ [_]) with (ubytes (Datatypes.S i) (vm_mem v) (vmm_current_pml4 v) user)
      by (by rewrite <- Nat.add_1_r, ubytes_app).
    apply IH; [lia|lia|]. intros j Hj. destruct (decide (j = i)) as [->|]; [done|]. apply Ht. lia.
Qed.

(** C38: copy_user_string stops at the first NUL.  It returns the string when its
    terminator fits in the buffer, -EFAULT and an empty string when it meets a byte
    the program cannot read before that, and -EINVAL with the string cut to fit when
    the buffer is too small.  It never changes memory. *)
Theorem copy_user_string_correct (v : vm S) (user : Z) (size : nat) :
  0 <= user → (0 < size)%nat → user + Z.of_nat size <= 2^64 →
  let str j := ubytes j (vm_mem v) (vmm_current_pml4 v) user in
  wp (copy_user_string user (Z.of_nat size)) (λ res v', v' = v ∧
    ((∃ j, (j < size)%nat ∧ text_at v user j ∧ readable v (user + Z.of_nat j) = true ∧
        ubyte (vm_mem v) (vmm_current_pml4 v) (user + Z.of_nat j) = 0 ∧ res = (0, str j)) ∨
     (∃ j, (j < size)%nat ∧ text_at v user j ∧ readable v (user + Z.of_nat j) = false ∧ res = (- EFAULT, [])) ∨
     (text_at v user size ∧ res = (- S_EINVAL, str (size - 1)%nat)))) v.
Proof.
  intros Hu Hsz Hb. unfold copy_user_string. rewrite (proj2 (Z.eqb_neq (Z.of_nat size) 0)) by lia. rewrite Nat2Z.id.
  destruct (string_loop_steps v user size Hu size 0) as (res & E & Hres); [lia|done|intros j Hj; lia|].
  cbv zeta in *. unfold wp. change [] with (ubytes 0 (vm_mem v) (vmm_current_pml4 v) user). rewrite E. split; [done|].
  destruct Hres as [?|[?|[? ->]]]; [by left|by right; left|]. right. right. split; [done|]. f_equal.
  replace size with (size - 1 + 1)%nat at 1 by lia. rewrite ubytes_app. apply removelast_last.
Qed.

End UaccessProps.
