(* ===== verification/Usermem.v ===== *)
(** * User memory system calls ([kernel/syscall/syscall.c]): brk, mmap, munmap

    The calls act on the current task: its page-table root, its [user_mode] flag and
    its memory layout are arguments, and the layout they leave is a result. *)

From Stdlib Require Import ZArith Lia.
From S2P Require Import Prelude Memory Frames Vmm Uaccess Kbd Vfs Sched.
Import StringC.

Definition PROT_WRITE : Z := 0x2.
Definition PROT_EXEC : Z := 0x4.
Definition MAP_PRIVATE : Z := 0x02.
Definition MAP_ANONYMOUS : Z := 0x20.
Definition MAP_FAILED_RET : Z := -12.

Definition set_brk (b : Z) (l : layout) : layout :=
  Layout (user_entry l) (user_stack_top l) (brk_base l) b (mmap_next l).
Definition set_mmap_next (b : Z) (l : layout) : layout :=
  Layout (user_entry l) (user_stack_top l) (brk_base l) (brk_current l) b.

Section Usermem.
Context {S : Type} `{FA : FrameAllocator S}.
Implicit Types v : vm S.

Definition map_user_zero_page (cr3 virt flags : Z) : M (vm S) Z :=
  phys ← alloc_frame;
  if phys =? PMM_ALLOC_FAILED then mret (- ENOMEM)
  else
    zero_page phys;;
    rc ← vmm_map_page cr3 virt phys flags;
    if negb (rc =? 0) then free_frame phys;; mret (- ENOMEM) else mret 0.

Definition unmap_user_page (cr3 virt : Z) : M (vm S) () :=
  flags ← gets (λ v, vmm_get_flags (vm_mem v) cr3 virt);
  if negb (has_all flags USER_PRESENT) then mret ()
  else
    phys ← gets (λ v, vmm_get_physical (vm_mem v) cr3 virt);
    vmm_unmap_page cr3 virt;;
    if negb (phys =? PMM_ALLOC_FAILED) then free_frame (ALIGN_DOWN phys PAGE_SIZE) else mret ().

(** [n] pages from [base]: map them all, stopping with the number mapped so far at
    the first failure, or unmap them all. *)
Fixpoint map_pages (n : nat) (cr3 base flags : Z) (done : nat) : M (vm S) (option nat) :=
  match n with
  | O => mret None
  | Datatypes.S n' =>
      rc ← map_user_zero_page cr3 (base + PAGE_SIZE * Z.of_nat done) flags;
      if rc <? 0 then mret (Some done) else map_pages n' cr3 base flags (Datatypes.S done)
  end.

Fixpoint unmap_pages (n : nat) (cr3 base : Z) (done : nat) : M (vm S) () :=
  match n with
  | O => mret ()
  | Datatypes.S n' =>
      unmap_user_page cr3 (base + PAGE_SIZE * Z.of_nat done);;
      unmap_pages n' cr3 base (Datatypes.S done)
  end.

(** The number of rounds of [for (x = lo; x < hi; x += PAGE_SIZE)]. *)
Definition page_rounds (lo hi : Z) : nat := Z.to_nat ((hi - lo + PAGE_SIZE - 1) / PAGE_SIZE).

Definition sys_brk_impl (cr3 : Z) (user_mode : bool) (l : layout) (requested : Z) : M (vm S) (Z * layout) :=
  if negb user_mode then mret (- S_EINVAL, l)
  else if requested =? 0 then mret (brk_current l, l)
  else if (requested <? brk_base l) || (mmap_next l <=? requested) then mret (brk_current l, l)
  else
    let old_top := ALIGN_UP (brk_current l) PAGE_SIZE in
    let new_top := ALIGN_UP requested PAGE_SIZE in
    let grown := mret (requested, set_brk requested l) in
    if old_top <? new_top then
      failed ← map_pages (page_rounds old_top new_top) cr3 old_top (VMM_USER .| VMM_WRITE .| VMM_NX) 0;
      match failed with
      | Some _ => mret (brk_current l, l)
      | None => grown
      end
    else if new_top <? old_top then
      unmap_pages (page_rounds new_top old_top) cr3 new_top 0;;
      grown
    else grown.

Definition mmap_flags (prot : Z) : Z :=
  let f := if has prot PROT_WRITE then VMM_USER .| VMM_WRITE else VMM_USER in
  if has prot PROT_EXEC then f else f .| VMM_NX.

Definition sys_mmap_impl (cr3 : Z) (user_mode : bool) (l : layout) (addr len prot flags fd : Z)
    : M (vm S) (Z * layout) :=
  if negb user_mode || (len =? 0) then mret (MAP_FAILED_RET, l)
  else if negb (has flags MAP_ANONYMOUS) || negb (has flags MAP_PRIVATE) || negb (fd =? -1)
  then mret (MAP_FAILED_RET, l)
  else
    let size := ALIGN_UP len PAGE_SIZE in
    let base := if addr =? 0 then mmap_next l else ALIGN_DOWN addr PAGE_SIZE in
    if (base =? 0) || (USER_SPACE_TOP <=? base) || (USER_SPACE_TOP - base <? size)
    then mret (MAP_FAILED_RET, l)
    else
      failed ← map_pages (page_rounds 0 size) cr3 base (mmap_flags prot) 0;
      match failed with
      | Some off => unmap_pages off cr3 base 0;; mret (MAP_FAILED_RET, l)
      | None => mret (base, if addr =? 0 then set_mmap_next (ALIGN_UP (base + size) PAGE_SIZE) l else l)
      end.

Definition sys_munmap_impl (cr3 : Z) (user_mode : bool) (addr len : Z) : M (vm S) Z :=
  if negb user_mode || (len =? 0) || negb (addr .& (PAGE_SIZE - 1) =? 0) then mret (- S_EINVAL)
  else
    ok ← gets (λ v, user_range_ok (vm_mem v) (vmm_current_pml4 v) addr len);
    if negb ok then mret (- S_EINVAL)
    else
      let size := ALIGN_UP len PAGE_SIZE in
      unmap_pages (page_rounds 0 size) cr3 addr 0;;
      mret 0.

End Usermem.
