(* ===== verification/UsermemInv.v ===== *)
(** * User memory system calls: one page

    Mapping a zero page and unmapping a page of a well-formed address space, on its
    translations, on the frames it owns and on their bytes. *)

From Stdlib Require Import ZArith Lia.
From S2P Require Import Prelude Memory Frames Vmm VmmInv VmmOps VmmCow.
From S2P Require Import Uaccess UaccessInv UaccessWrite Kbd Vfs Sched Usermem.
Import StringC.

(** [vb] is on one of the [n] pages from [lo]. *)
Definition in_pages (lo n vb : Z) : bool := in_block (lo / PAGE_SIZE) n (vpage vb).

Lemma user_vpage vb : 0 <= vb < USER_SPACE_TOP → vpage vb = vb / PAGE_SIZE.
Proof. intros H. unfold vpage. change (2^12) with PAGE_SIZE. apply Z.mod_small. page_lia. Qed.

Lemma in_pages_user lo n vb : lo mod PAGE_SIZE = 0 → 0 <= vb < USER_SPACE_TOP →
  in_pages lo n vb = in_block lo (n * PAGE_SIZE) vb.
Proof.
  intros Ha Hb. unfold in_pages. rewrite user_vpage by done. apply eq_true_iff_eq. rewrite !in_block_true. page_lia.
Qed.

Lemma in_pages_none lo n vb : n <= 0 → in_pages lo n vb = false.
Proof. intros. apply in_block_false. lia. Qed.

(** The first page and the others. *)
Lemma in_pages_cons va n vb : 0 <= va < USER_SPACE_TOP → 0 <= n →
  in_pages va (n + 1) vb = (vpage vb =? vpage va) || in_pages (va + PAGE_SIZE) n vb ∧
  (in_pages (va + PAGE_SIZE) n vb = true → vpage vb ≠ vpage va).
Proof.
  intros Hva Hn. unfold in_pages. rewrite (user_vpage va) by done.
  replace ((va + PAGE_SIZE) / PAGE_SIZE) with (va / PAGE_SIZE + 1) by page_lia. split.
  - apply eq_true_iff_eq. rewrite orb_true_iff, !in_block_true, Z.eqb_eq. lia.
  - rewrite in_block_true. lia.
Qed.

Section UsermemInv.
Context {S : Type} `{FA : FrameAllocator S}.
Implicit Types v : vm S.
Abbreviation rc_of v := (fa_rc (vm_pmm v)).

(** The root stays in order; the frames the space owns, [except] apart, stay its own
    with their bytes. *)
Record keeps (except : option Z) (r : Z) (v v' : vm S) : Prop := {
  keeps_root : root_ok v' r;
  keeps_cr3 : vm_cr3 v' = vm_cr3 v;
  keeps_own g : own_frame v r g → Some g ≠ except → own_frame v' r g;
  keeps_bytes g b : own_frame v r g → Some g ≠ except → page_range g b →
    read8 (vm_mem v') b = read8 (vm_mem v) b;
}.

Lemma keeps_refl x r v : root_ok v r → keeps x r v v.
Proof. by split. Qed.

Lemma space_keeps_trans x r v1 v2 v3 : keeps x r v1 v2 → keeps x r v2 v3 → keeps x r v1 v3.
Proof.
  intros H12 H23. split.
  - apply H23.
  - rewrite (keeps_cr3 _ _ _ _ H23). apply H12.
  - intros g Hg Hx. by apply H23; [apply H12|].
  - intros g b Hg Hx Hb. rewrite (keeps_bytes _ _ _ _ H23 g) by (done || by apply H12).
    by apply (keeps_bytes _ _ _ _ H12 g).
Qed.

Lemma keeps_weaken x r v v' : keeps None r v v' → keeps x r v v'.
Proof. intros H. split; [apply H..| |]; intros; by eapply H. Qed.

(** A user page on a kept frame shows the same bytes. *)
Lemma keeps_ubyte x r v v' vb : space_ok v r → keeps x r v v' →
  (∀ e, user_page v r vb e → Some (e .& VMM_PHYS_MASK) ≠ x) →
  vleaf (vm_mem v') r vb = vleaf (vm_mem v) r vb → 0 <= vb < USER_SPACE_TOP → user_ok (vm_mem v) r vb = true →
  ubyte (vm_mem v') r vb = ubyte (vm_mem v) r vb.
Proof.
  intros Hs Hk Hx Hl Hvb Hok. apply (user_ok_iff v r vb Hs Hvb) in Hok as [e Hp]. unfold ubyte.
  rewrite (user_page_physical v r vb e (so_root _ _ Hs) Hp).
  rewrite (user_page_physical v' r vb e (keeps_root _ _ _ _ Hk)); [|unfold user_page in *; by rewrite Hl].
  apply (keeps_bytes _ _ _ _ Hk (e .& VMM_PHYS_MASK)); [by eapply so_frame|by apply Hx|].
  pose proof (Z.mod_pos_bound vb PAGE_SIZE ltac:(done)). unfold page_range. lia.
Qed.

(** ** Taking, clearing and giving back a frame *)

Lemma keeps_alloc v r n s' : root_ok v r → is_frame n → rc_of v n = 0 → fa_wf s' → rc_update (rc_of v) (fa_rc s') n 1 →
  keeps None r v (set_pmm s' v) ∧ own_frame (set_pmm s' v) r n.
Proof.
  intros Hok Hn H0 Hfa Hrc. destruct (root_ok_alloc v r n s' Hok Hn H0 Hfa Hrc) as [Hok' Hno].
  split; [split; [done|done| |done]|].
  - intros g (Hg & Hrg & Hw) _. split; [done|]. split; [|done]. simpl. rewrite Hrc. case_if; lia.
  - destruct Hn as [_ Hn]. split; [lia|]. split; [|done]. simpl. rewrite Hrc, Z.eqb_refl. lia.
Qed.

(** Memory changed inside frame [n] only, which is none of the tables. *)
Lemma keeps_write v r n m' : root_ok v r → own_frame v r n → is_frame n →
  (∀ b, ¬ page_range n b → read8 m' b = read8 (vm_mem v) b) →
  keeps (Some n) r v (set_mem m' v) ∧ own_frame (set_mem m' v) r n ∧
  (∀ vb, vleaf m' r vb = vleaf (vm_mem v) r vb).
Proof.
  intros Hok Hown Hn Hm. destruct Hok as [Hfa Hwf].
  assert (∀ p t i, valid_path p → (length p <= 3)%nat → walk (vm_mem v) r p = Some t → 0 <= i < 512 →
    pte m' t i = pte (vm_mem v) t i) as Hsame.
  { intros p t i Hp Hl Hw Hi. apply pte_ext; [done|]. intros b Hb. apply Hm. intros Hb'.
    destruct Hown as (_ & _ & Hno). apply (Hno p Hp Hl). rewrite Hw. f_equal.
    eapply frames_disjoint; [|exact Hn|exact Hb|exact Hb']. by apply (pt_tables _ _ _ Hwf p). }
  assert (∀ q, valid_path q → (length q <= 3)%nat → walk m' r q = walk (vm_mem v) r q) as Hwalk.
  { intros q Hq Hl. apply (same_entries_walk _ _ _ _ Hsame); [done|lia]. }
  assert (∀ g, own_frame v r g → own_frame (set_mem m' v) r g) as Hkeep.
  { intros g (? & ? & Hno). split; [done|]. split; [done|]. intros q Hq Hl. simpl. rewrite Hwalk by done. by apply Hno. }
  split; [split|split].
  - split; [done|]. eapply same_entries_wf; [exact Hwf|exact Hsame|done].
  - done.
  - intros g Hg _. by apply Hkeep.
  - intros g b Hg Hx Hb. apply Hm. intros Hb'. apply Hx. f_equal.
    eapply frames_disjoint; [|exact Hn|exact Hb|exact Hb']. by eapply own_is_frame.
  - by apply Hkeep.
  - intros vb. apply (same_entries_leaf _ _ _ _ _ _ _ Hsame), (vpath_valid vb).
Qed.

Lemma keeps_free v r n s' : root_ok v r → own_frame v r n → fa_wf s' →
  rc_update (rc_of v) (fa_rc s') n (rc_of v n - 1) → keeps (Some n) r v (set_pmm s' v).
Proof.
  intros Hok (Hn0 & Hn & Hno) Hfa Hrc. split; [by apply (root_ok_free v r n)|done| |done].
  intros g (Hg & Hrg & Hw) Hx. split; [done|]. split; [|done]. simpl. rewrite Hrc. case_if; [congruence|done].
Qed.

(** ** The tables grow *)

Lemma keeps_grows path r v v' : valid_path path → (length path <= 3)%nat → root_ok v r →
  grows path r v v' → keeps None r v v'.
Proof.
  intros Hv Hl Hok G. split; [apply G|apply (grows_cr3 _ _ _ _ G)|..].
  - intros g (H0 & Hrc & Hno) _. destruct (grows_held _ _ _ _ _ G Hrc Hno) as [Hrc' ?].
    split; [done|]. split; [by rewrite Hrc'|done].
  - intros g b (H0 & Hrc & Hno) _ Hb. destruct (grows_mem _ _ _ _ G b) as [?|(q & t & Hq & Hw & Hb')]; [done|].
    exfalso. destruct (grows_held _ _ _ _ _ G Hrc Hno) as [_ Hno'].
    assert (valid_path q ∧ (length q <= 3)%nat) as [Hvq Hlq].
    { split; [by eapply valid_path_prefix|]. apply prefix_length in Hq. lia. }
    apply (Hno' q Hvq Hlq). rewrite Hw. f_equal.
    eapply frames_disjoint; [| |exact Hb'|exact Hb].
    + by apply (pt_tables _ _ _ (proj2 (grows_ok _ _ _ _ G)) q).
    + by apply (fa_rc_frame (vm_pmm v)); [apply Hok| |].
Qed.

Lemma keeps_leaf_store v r va pt e : root_ok v r → walk (vm_mem v) r (tables_path va) = Some pt → 0 <= e < 2^64 →
  keeps None r v (set_mem (write64 (vm_mem v) (pte_addr pt (pt_idx va)) e) v).
Proof.
  intros Hok Hw He.
  pose proof (leaf_store_walk v r va pt e Hok Hw He _ eq_refl) as Hwalk.
  destruct (leaf_store_table v r va pt Hok Hw) as [Hpt _].
  destruct (leaf_store_entries v r va pt e Hok Hw He _ eq_refl) as (_ & _ & Hmem).
  split.
  - split; [apply Hok|]. by apply (leaf_store_wf v r va pt e Hok Hw He).
  - done.
  - intros g (H0 & Hrc & Hno) _. split; [done|]. split; [done|]. intros q Hq Hl. simpl. rewrite Hwalk by done. by apply Hno.
  - intros g b Hg _ Hb. apply Hmem. intros Hb'. destruct Hg as (H0 & Hrc & Hno).
    apply (Hno (tables_path va)); [apply tables_path_valid|simpl; lia|]. rewrite Hw. f_equal.
    eapply frames_disjoint; [exact Hpt| |exact Hb'|exact Hb]. by apply (fa_rc_frame (vm_pmm v)); [apply Hok| |].
Qed.

(** ** A page of the space is replaced *)

Lemma space_same r v v' : space_ok v r → keeps None r v v' →
  (∀ vb, vleaf (vm_mem v') r vb = vleaf (vm_mem v) r vb) → space_ok v' r.
Proof.
  intros Hs Hk Hl.
  assert (∀ vb e, user_page v' r vb e ↔ user_page v r vb e) as Hup by (intros; unfold user_page; by rewrite Hl).
  split.
  - apply Hk.
  - intros vb h e. rewrite Hl. apply Hs.
  - intros vb e H%Hup. apply (keeps_own _ _ _ _ Hk); [by eapply so_frame|done].
  - intros vb vc e e' H1%Hup H2%Hup. by apply Hs.
Qed.

Lemma frame_phys_mask f : is_frame f → f .& VMM_PHYS_MASK = f.
Proof.
  intros Hf. bits_eq; match goal with H : Z.testbit f _ = true |- _ => by rewrite frame_bits in H by (done || lia) end.
Qed.

Lemma space_map r v v' va f flags : space_ok v r → keeps None r v v' → is_frame f → rc_of v f = 0 → own_frame v' r f →
  (∀ vb, vleaf (vm_mem v') r vb =
    if vpage vb =? vpage va then Some (false, leaf_entry f flags) else vleaf (vm_mem v) r vb) →
  space_ok v' r.
Proof.
  intros Hs Hk Hf Hf0 Hown Hl.
  assert (∀ vb e, user_page v' r vb e → 0 <= vb < USER_SPACE_TOP ∧
    if vpage vb =? vpage va then e .& VMM_PHYS_MASK = f else user_page v r vb e) as Hup.
  { intros vb e (Hb & H & Hu). split; [done|]. rewrite Hl in H. destruct (vpage vb =? vpage va); [|done].
    injection H as <-. by rewrite leaf_entry_phys, frame_phys_mask. }
  assert (∀ vb e, user_page v r vb e → e .& VMM_PHYS_MASK ≠ f) as Hne.
  { intros vb e H ->%symmetry. destruct (so_frame _ _ Hs vb e H) as (_ & ? & _). lia. }
  split.
  - apply Hk.
  - intros vb h e Hb. rewrite Hl. destruct (vpage vb =? vpage va); [by intros [= <- _]|by apply Hs].
  - intros vb e [_ H]%Hup. destruct (vpage vb =? vpage va); [by rewrite H|].
    apply (keeps_own _ _ _ _ Hk); [by eapply so_frame|done].
  - intros vb vc e e' [_ H1]%Hup [_ H2]%Hup E.
    destruct (Z.eqb_spec (vpage vb) (vpage va)), (Z.eqb_spec (vpage vc) (vpage va)); [congruence| | |by eapply Hs].
    + destruct (Hne vc e' H2). congruence.
    + destruct (Hne vb e H1). congruence.
Qed.

(** A frame is taken and filled. *)
Lemma fresh_page v r f s1 m2 : root_ok v r → is_frame f → rc_of v f = 0 → fa_wf s1 →
  rc_update (rc_of v) (fa_rc s1) f 1 → (∀ b, ¬ page_range f b → read8 m2 b = read8 (vm_mem v) b) →
  let v2 := set_mem m2 (set_pmm s1 v) in
  keeps None r v v2 ∧ own_frame v2 r f ∧ ∀ vb, vleaf (vm_mem v2) r vb = vleaf (vm_mem v) r vb.
Proof.
  intros Hok Hf Hf0 Hfa1 Hrc1 Hm v2.
  destruct (keeps_alloc v r f s1 Hok Hf Hf0 Hfa1 Hrc1) as [K1 Own1].
  destruct (keeps_write (set_pmm s1 v) r f m2 (keeps_root _ _ _ _ K1) Own1 Hf Hm) as (K2 & Own2 & L2).
  assert (∀ g, own_frame v r g → Some g ≠ Some f) as Hnf by (intros g (_ & ? & _) [= ->]; lia).
  split; [split; [apply K2|done|..]|done].
  - intros g Hg _. apply K2; [by apply K1|by apply Hnf].
  - intros g b Hg _ Hb. rewrite (keeps_bytes _ _ _ _ K2 g); [done|by apply K1|by apply Hnf|done].
Qed.

(** It is given back unused, or installed as a page of the space. *)
Section Install.
Context (v : vm S) (r f : Z) (Hs : space_ok v r) (Hf : is_frame f) (Hf0 : rc_of v f = 0).

Lemma discard_steps v2 (bad : Z) : keeps None r v v2 → own_frame v2 r f →
  (∀ vb, vleaf (vm_mem v2) r vb = vleaf (vm_mem v) r vb) →
  wp (free_frame f;; mret bad) (λ rc v', rc = bad ∧ space_ok v' r ∧ keeps None r v v' ∧
    vm_mem v' = vm_mem v2 ∧ fa_avail (vm_pmm v') <= fa_avail (vm_pmm v2) + 1 ∧
    ∀ vb, vleaf (vm_mem v') r vb = vleaf (vm_mem v) r vb) v2.
Proof.
  intros K2 Own2 L2. pose proof Own2 as (F0 & Frc & _). unfold free_frame, on_pmm. repeat wp_step.
  eapply wp_mono; [apply fa_free_spec; [apply K2|done|done]|]. intros _ s4 (Hfa4 & Hrc4 & Hav4). apply wp_ret.
  pose proof (keeps_free v2 r f s4 (keeps_root _ _ _ _ K2) Own2 Hfa4 Hrc4) as K4.
  assert (keeps None r v (set_pmm s4 v2)) as K.
  { split; [apply K4|apply K2|..].
    - intros g Hg _. apply K4; [by apply K2|]. intros [= ->]. destruct Hg as (_ & ? & _). lia.
    - intros g b Hg _ Hb. simpl. by apply (keeps_bytes _ _ _ _ K2 g). }
  split; [done|]. split; [by eapply space_same|]. split; [done|]. split; [done|]. split; [|done].
  simpl. rewrite Hav4. case_if; lia.
Qed.

Lemma install_steps v2 va flags (bad : Z) : keeps None r v v2 → own_frame v2 r f →
  (∀ vb, vleaf (vm_mem v2) r vb = vleaf (vm_mem v) r vb) →
  wp (rc ← vmm_map_page r va f flags; if negb (rc =? 0) then free_frame f;; mret bad else mret 0) (λ rc v',
    space_ok v' r ∧ keeps None r v v' ∧
    ((rc = 0 ∧ (∀ b, page_range f b → read8 (vm_mem v') b = read8 (vm_mem v2) b) ∧
        ∀ vb, vleaf (vm_mem v') r vb =
          if vpage vb =? vpage va then Some (false, leaf_entry f flags) else vleaf (vm_mem v) r vb) ∨
     (rc = bad ∧ (fa_avail (vm_pmm v') <= 1 ∨ pd_huge (vm_mem v') r va) ∧
        ∀ vb, vleaf (vm_mem v') r vb = vleaf (vm_mem v) r vb))) v2.
Proof.
  intros K02 Own2 L02. apply wp_bind. eapply wp_mono; [apply map_page_steps, K02|].
  intros res v3 [(-> & G & Hwhy)|(-> & v3' & pt & G & Hw & _ & ->)]; simpl.
  - pose proof (keeps_grows _ _ _ _ (tables_path_valid va) (le_n 3) (keeps_root _ _ _ _ K02) G) as K3.
    eapply wp_mono.
    { apply (discard_steps v3 bad); [by eapply space_keeps_trans|by apply (keeps_own _ _ _ _ K3)|].
      intros vb. by rewrite (grows_vleaf _ _ _ _ _ G). }
    intros rc v' (-> & Hs' & K & Hm & Hav & L). split; [done|]. split; [done|]. right. split; [done|]. split; [|done].
    destruct Hwhy as [H0|?]; [left; lia|right; by rewrite Hm].
  - apply wp_ret.
    pose proof (keeps_grows _ _ _ _ (tables_path_valid va) (le_n 3) (keeps_root _ _ _ _ K02) G) as K3.
    pose proof (leaf_entry_range f flags) as He.
    pose proof (keeps_leaf_store v3' r va pt _ (keeps_root _ _ _ _ K3) Hw He) as K4.
    pose proof (leaf_store_vleaf v3' r va pt _ (keeps_root _ _ _ _ K3) Hw He _ eq_refl) as L4.
    rewrite leaf_entry_present in L4.
    pose proof (space_keeps_trans _ _ _ _ _ K3 K4) as K24.
    pose proof (space_keeps_trans _ _ _ _ _ K02 K24) as K. set (v4 := set_mem _ v3') in *.
    assert (∀ vb, vleaf (vm_mem v4) r vb =
      if vpage vb =? vpage va then Some (false, leaf_entry f flags) else vleaf (vm_mem v) r vb) as L.
    { intros vb. unfold v4. simpl. rewrite L4. case_if; [done|]. by rewrite (grows_vleaf _ _ _ _ _ G). }
    split; [eapply (space_map r v v4 va f flags); [done|done|done|done|by apply K24|done]|].
    split; [done|]. left. split; [done|]. split; [|done].
    intros b Hb. by apply (keeps_bytes _ _ _ _ K24 f).
Qed.

End Install.

Lemma map_zero_steps v r va flags : space_ok v r →
  wp (map_user_zero_page r va flags) (λ rc v',
    space_ok v' r ∧ keeps None r v v' ∧
    ((rc = 0 ∧ ∃ f, is_frame f ∧ (∀ b, page_range f b → read8 (vm_mem v') b = 0) ∧
        ∀ vb, vleaf (vm_mem v') r vb =
          if vpage vb =? vpage va then Some (false, leaf_entry f flags) else vleaf (vm_mem v) r vb) ∨
     (rc = - ENOMEM ∧ (fa_avail (vm_pmm v') <= 1 ∨ pd_huge (vm_mem v') r va) ∧
        ∀ vb, vleaf (vm_mem v') r vb = vleaf (vm_mem v) r vb))) v.
Proof.
  intros Hs. pose proof (so_root _ _ Hs) as Hok. pose proof Hok as [Hfa _].
  unfold map_user_zero_page, alloc_frame, on_pmm. repeat wp_step.
  eapply wp_mono; [by apply fa_alloc_spec|].
  intros f s1 [(-> & -> & Hav)|(Hf & Hf0 & Hfa1 & Hrc1 & _ & _)].
  { rewrite Z.eqb_refl. apply wp_ret. assert (set_pmm (vm_pmm v) v = v) as -> by (by destruct v).
    split; [done|]. split; [by apply keeps_refl|]. right. split; [done|]. split; [left; lia|done]. }
  rewrite (proj2 (Z.eqb_neq _ _)) by (by apply is_frame_not_failed).
  unfold zero_page. apply wp_bind, wp_modify.
  destruct (fresh_page v r f s1 (memset (vm_mem v) f 0 PAGE_SIZE) Hok Hf Hf0 Hfa1 Hrc1) as (K2 & Own2 & L2);
    [intros b; apply read8_zero_page_ne|].
  eapply wp_mono; [by apply (install_steps v r f Hs Hf Hf0 (set_mem (memset (vm_mem v) f 0 PAGE_SIZE) (set_pmm s1 v)))|].
  intros rc v' (Hs' & K & [(-> & Hb & L)|H]); (split; [done|]; split; [done|]); [left|by right].
  split; [done|]. exists f. split; [done|]. split; [|done]. intros b Hr. rewrite Hb by done. simpl.
  rewrite read8_memset by done. unfold page_range in Hr. block; [done|lia].
Qed.

(** ** Runs of pages *)

(** The [n] pages from [lo] hold the bytes [c] with the permissions [flags]; all other
    translations and all other user bytes are as before. *)
Definition filled (r lo n flags : Z) (c : Z → Z) (v v' : vm S) : Prop :=
  space_ok v' r ∧ vm_cr3 v' = vm_cr3 v ∧
  (∀ vb, 0 <= vb < USER_SPACE_TOP → in_pages lo n vb = true →
     vmm_get_flags (vm_mem v') r vb = (flags .& ~64 VMM_PHYS_MASK) .| VMM_PRESENT ∧ ubyte (vm_mem v') r vb = c vb) ∧
  (∀ vb, in_pages lo n vb = false → vleaf (vm_mem v') r vb = vleaf (vm_mem v) r vb) ∧
  (∀ vb, 0 <= vb < USER_SPACE_TOP → in_pages lo n vb = false → user_ok (vm_mem v) r vb = true →
     ubyte (vm_mem v') r vb = ubyte (vm_mem v) r vb).

Lemma leaf_user_ok r v v' vb : root_ok v r → root_ok v' r →
  vleaf (vm_mem v') r vb = vleaf (vm_mem v) r vb → user_ok (vm_mem v') r vb = user_ok (vm_mem v) r vb.
Proof.
  intros [_ H] [_ H'] E. unfold user_ok. by rewrite (get_flags_leaf _ _ _ H'), (get_flags_leaf _ _ _ H), E.
Qed.

Lemma mapped_page r v f flags vb : root_ok v r → is_frame f →
  vleaf (vm_mem v) r vb = Some (false, leaf_entry f flags) →
  vmm_get_flags (vm_mem v) r vb = (flags .& ~64 VMM_PHYS_MASK) .| VMM_PRESENT ∧
  ubyte (vm_mem v) r vb = read8 (vm_mem v) (f + vb mod PAGE_SIZE).
Proof.
  intros [_ Hwf] Hf Hl. rewrite (get_flags_leaf _ _ _ Hwf), Hl. split; [apply leaf_entry_flags|].
  unfold ubyte. rewrite (get_physical_leaf _ _ _ Hwf), Hl. cbn [leaf_physical].
  rewrite leaf_entry_phys, frame_phys_mask by done. change 0xFFF with (2^12 - 1). rewrite land_low_mod by done.
  change (2^12) with PAGE_SIZE. pose proof (Z.mod_pos_bound vb PAGE_SIZE ltac:(done)).
  rewrite (lor_add_low _ _ 12); [done|done|done|apply Hf].
Qed.

Lemma page_flags_user flags : has flags VMM_USER = true →
  has_all ((flags .& ~64 VMM_PHYS_MASK) .| VMM_PRESENT) USER_PRESENT = true.
Proof.
  rewrite has_user. intros H. rewrite user_present_bits, !Z.lor_spec, !flags_bit, H by lia.
  change (Z.testbit VMM_PRESENT 0) with true. by rewrite orb_true_r.
Qed.

Lemma filled_none r lo flags c v v' : space_ok v r → space_ok v' r → keeps None r v v' →
  (∀ vb, vleaf (vm_mem v') r vb = vleaf (vm_mem v) r vb) → filled r lo 0 flags c v v'.
Proof.
  intros Hs Hs' K L. split; [done|]. split; [apply K|]. split; [intros vb _; by rewrite in_pages_none|].
  split; [done|]. intros vb Hb _ Hok. by apply (keeps_ubyte None r v v' vb Hs K).
Qed.

(** One page was installed, then the following [n]. *)
Lemma filled_cons r va n flags c f v v1 v' : has flags VMM_USER = true → 0 <= va < USER_SPACE_TOP → 0 <= n →
  space_ok v r → space_ok v1 r → keeps None r v v1 → is_frame f →
  (∀ vb, vleaf (vm_mem v1) r vb =
    if vpage vb =? vpage va then Some (false, leaf_entry f flags) else vleaf (vm_mem v) r vb) →
  (∀ vb, 0 <= vb < USER_SPACE_TOP → vpage vb = vpage va → read8 (vm_mem v1) (f + vb mod PAGE_SIZE) = c vb) →
  keeps None r v1 v' → filled r (va + PAGE_SIZE) n flags c v1 v' → filled r va (n + 1) flags c v v'.
Proof.
  intros Hfl Hva Hn Hs Hs1 K1 Hf Hl Hc K (Hs' & Hcr & Hin & Hout & Hby).
  pose proof (space_keeps_trans _ _ _ _ _ K1 K) as K01.
  split; [done|]. split; [apply K01|]. split; [|split].
  - intros vb Hvb. destruct (in_pages_cons va n vb Hva Hn) as [-> Hdis].
    destruct (in_pages (va + PAGE_SIZE) n vb) eqn:Ein; [intros _; by apply Hin|].
    rewrite orb_false_r. intros E. b2p. pose proof (Hl vb) as Hlb. rewrite E, Z.eqb_refl in Hlb.
    destruct (mapped_page r v1 f flags vb (so_root _ _ Hs1) Hf Hlb) as [Hfb H0].
    assert (user_ok (vm_mem v1) r vb = true) as Hok by (unfold user_ok; rewrite Hfb; by apply page_flags_user).
    rewrite (Hby vb Hvb Ein Hok), H0. split; [|by apply Hc].
    by rewrite <- Hfb, (get_flags_leaf _ _ _ (proj2 (so_root _ _ Hs'))), (get_flags_leaf _ _ _ (proj2 (so_root _ _ Hs1))), Hout.
  - intros vb. destruct (in_pages_cons va n vb Hva Hn) as [-> _]. intros [E1 E2]%orb_false_iff.
    by rewrite (Hout vb E2), Hl, E1.
  - intros vb Hvb. destruct (in_pages_cons va n vb Hva Hn) as [-> _]. intros [E1 E2]%orb_false_iff Hok.
    apply (keeps_ubyte None r v v' vb Hs K01); [done| |done|done]. by rewrite (Hout vb E2), Hl, E1.
Qed.

(** ** A page is removed *)

Lemma unmap_steps v r va : space_ok v r → 0 <= va < USER_SPACE_TOP →
  wp (unmap_user_page r va) (λ _ v',
    space_ok v' r ∧
    keeps (match vleaf (vm_mem v) r va with
           | Some (_, e) => if has e VMM_USER then Some (e .& VMM_PHYS_MASK) else None
           | None => None end) r v v' ∧
    ∀ vb, vleaf (vm_mem v') r vb =
      if (vpage vb =? vpage va) && user_ok (vm_mem v) r va then None else vleaf (vm_mem v) r vb) v.
Proof.
  intros Hs Hva. pose proof (so_root _ _ Hs) as Hok. unfold unmap_user_page. repeat wp_step.
  fold (user_ok (vm_mem v) r va). destruct (user_ok (vm_mem v) r va) eqn:E; simpl.
  2: { apply wp_ret. split; [done|]. split; [apply keeps_weaken; by apply keeps_refl|].
       intros vb. by rewrite andb_false_r. }
  apply (user_ok_iff v r va Hs Hva) in E as Hp. destruct Hp as [e Hp]. pose proof Hp as (_ & Hl & Hu).
  rewrite Hl, Hu. repeat wp_step. unfold wp at 1. rewrite (unmap_page_walk r va v Hok).
  destruct (walk (vm_mem v) r (tables_path va)) as [pt|] eqn:Hw.
  2: { exfalso. pose proof (so_small _ _ Hs va) as _. unfold vleaf, leaf in Hl. unfold tables_path in Hw.
       rewrite Hw in Hl. by repeat case_match. }
  rewrite (user_page_physical v r va e Hok Hp).
  pose proof (so_frame _ _ Hs va e Hp) as Hown. pose proof (own_is_frame _ _ _ Hok Hown) as Hf.
  set (f := e .& VMM_PHYS_MASK) in *. pose proof (Z.mod_pos_bound va PAGE_SIZE ltac:(done)) as Hm.
  rewrite (proj2 (Z.eqb_neq _ _)) by (destruct Hf; unfold PMM_ALLOC_FAILED, PMM_MAX_PHYS, PAGE_SIZE in *; lia). simpl.
  rewrite align_page by (destruct Hf; unfold PMM_MAX_PHYS, PAGE_SIZE in *; lia).
  assert ((f + va mod PAGE_SIZE) / PAGE_SIZE * PAGE_SIZE = f) as ->.
  { destruct Hf as [Hf _]. unfold PMM_FRAME_SIZE, PAGE_SIZE in *. page_lia. }
  pose proof (keeps_leaf_store v r va pt 0 Hok Hw ltac:(lia)) as K1.
  pose proof (leaf_store_vleaf v r va pt 0 Hok Hw ltac:(lia) _ eq_refl) as L1.
  set (v1 := set_mem _ v) in *. pose proof (keeps_own _ _ _ _ K1 f Hown ltac:(done)) as Hown1.
  pose proof Hown1 as (F0 & Frc & _). unfold free_frame, on_pmm. repeat wp_step.
  eapply wp_mono; [apply fa_free_spec; [apply K1|done|done]|]. intros _ s2 (Hfa2 & Hrc2 & _).
  pose proof (keeps_free v1 r f s2 (keeps_root _ _ _ _ K1) Hown1 Hfa2 Hrc2) as K2.
  pose proof (space_keeps_trans _ _ _ _ _ (keeps_weaken (Some f) _ _ _ K1) K2) as K. set (v2 := set_pmm s2 v1) in *.
  assert (∀ vb, vleaf (vm_mem v2) r vb = if vpage vb =? vpage va then None else vleaf (vm_mem v) r vb) as L by exact L1.
  split; [|split; [done|]].
  2: { intros vb. rewrite L. by destruct (vpage vb =? vpage va). }
  assert (∀ vb eb, user_page v2 r vb eb → vpage vb ≠ vpage va ∧ user_page v r vb eb) as Hup.
  { intros vb eb (Hb & H & Hub). rewrite L in H. destruct (Z.eqb_spec (vpage vb) (vpage va)); [done|]. done. }
  split.
  - apply K.
  - intros vb h eb Hb. rewrite L. destruct (vpage vb =? vpage va); [done|]. by apply Hs.
  - intros vb eb [Hv H]%Hup. apply (keeps_own _ _ _ _ K); [by eapply so_frame|].
    intros [= Hx]. by apply Hv, (so_inj _ _ Hs vb va eb e).
  - intros vb vc eb ec [_ H1]%Hup [_ H2]%Hup. by apply Hs.
Qed.

End UsermemInv.
