(* ===== verification/UsermemProps.v ===== *)
(** * User memory system calls: properties *)

From Stdlib Require Import ZArith Lia.
From S2P Require Import Prelude Memory Frames Pmm PmmInv PmmProps Vmm VmmInv VmmOps VmmBuild VmmInit VmmSpace VmmCow VmmProps.
From S2P Require Import Uaccess UaccessInv UaccessWrite UaccessProps Kbd Vfs Sched Usermem UsermemInv.
Import StringC.

(** [n] zero-filled pages. *)
Abbreviation zero_filled r lo n flags := (filled r lo n flags (λ _, 0)).

Section UsermemProps.
Context {S : Type} `{FA : FrameAllocator S}.
Implicit Types v : vm S.

(** The user pages among the [n] pages from [lo] are gone; everything else is as
    before. *)
Definition unmapped (r lo n : Z) (v v' : vm S) : Prop :=
  space_ok v' r ∧ vm_cr3 v' = vm_cr3 v ∧
  (∀ vb, vleaf (vm_mem v') r vb =
     if in_pages lo n vb && user_ok (vm_mem v) r vb then None else vleaf (vm_mem v) r vb) ∧
  (∀ vb, 0 <= vb < USER_SPACE_TOP → in_pages lo n vb = false → user_ok (vm_mem v) r vb = true →
     ubyte (vm_mem v') r vb = ubyte (vm_mem v) r vb).

Lemma map_pages_steps r base flags : base mod PAGE_SIZE = 0 → 0 <= base → has flags VMM_USER = true →
  ∀ n v done, space_ok v r → base + PAGE_SIZE * (Z.of_nat done + Z.of_nat n) <= USER_SPACE_TOP →
  wp (map_pages n r base flags done) (λ o v',
    let k := default (done + n)%nat o in
    keeps None r v v' ∧ (done <= k)%nat ∧
    zero_filled r (base + PAGE_SIZE * Z.of_nat done) (Z.of_nat k - Z.of_nat done) flags v v' ∧
    (o ≠ None → (k < done + n)%nat)) v.
Proof.
  intros Hal Hpos Hfl. induction n as [|n IH]; intros v done Hs Htop; cbn [map_pages].
  { apply wp_ret. cbn. split; [apply keeps_refl, Hs|]. split; [lia|]. split; [|done].
    rewrite Nat.add_0_r, Z.sub_diag. apply filled_none; [done|done|apply keeps_refl, Hs|done]. }
  assert (0 <= base + PAGE_SIZE * Z.of_nat done < USER_SPACE_TOP) as Hva by page_lia.
  apply wp_bind. eapply wp_mono; [by apply map_zero_steps|].
  intros rc v1 (Hs1 & K1 & [(-> & f & Hf & Hz & Hl)|(-> & Hwhy & Hl)]).
  - rewrite (proj2 (Z.ltb_ge 0 0)) by lia. eapply wp_mono; [apply (IH v1 (Datatypes.S done)); [done|lia]|].
    cbv zeta. intros o v' (K & Hk & Hfill & Hres).
    set (k := default (Datatypes.S done + n)%nat o) in *.
    replace (default (done + Datatypes.S n)%nat o) with k by (unfold k; destruct o; simpl; lia).
    split; [by eapply space_keeps_trans|]. split; [lia|]. split; [|intros Ho; specialize (Hres Ho); lia].
    replace (Z.of_nat k - Z.of_nat done) with (Z.of_nat k - Z.of_nat (Datatypes.S done) + 1) by lia.
    eapply (filled_cons r _ _ flags _ f v v1 v'); [done|done|lia|done|done|done|done|exact Hl| |exact K|].
    + intros vb Hvb E. apply Hz. pose proof (Z.mod_pos_bound vb PAGE_SIZE ltac:(done)). unfold page_range. lia.
    + replace (base + PAGE_SIZE * Z.of_nat done + PAGE_SIZE) with (base + PAGE_SIZE * Z.of_nat (Datatypes.S done)) by lia.
      exact Hfill.
  - simpl. apply wp_ret. cbn. split; [done|]. split; [lia|]. rewrite Z.sub_diag. split; [|intros _; lia].
    by apply filled_none.
Qed.

Lemma unmap_pages_steps r base : base mod PAGE_SIZE = 0 → 0 <= base →
  ∀ n v done, space_ok v r → base + PAGE_SIZE * (Z.of_nat done + Z.of_nat n) <= USER_SPACE_TOP →
  wp (unmap_pages n r base done) (λ _ v', unmapped r (base + PAGE_SIZE * Z.of_nat done) (Z.of_nat n) v v') v.
Proof.
  intros Hal Hpos. induction n as [|n IH]; intros v done Hs Htop; cbn [unmap_pages].
  { apply wp_ret. split; [done|]. split; [done|]. split; [intros vb; by rewrite in_pages_none|done]. }
  set (va := base + PAGE_SIZE * Z.of_nat done).
  assert (0 <= va < USER_SPACE_TOP) as Hva by (unfold va; page_lia).
  assert (vpage va = base / PAGE_SIZE + Z.of_nat done) as Hpg.
  { rewrite user_vpage by done. unfold va. rewrite Z.mul_comm, Z.div_add by done. lia. }
  apply wp_bind. eapply wp_mono; [by apply unmap_steps|].
  intros _ v1 (Hs1 & K1 & Hl1).
  eapply wp_mono; [apply (IH v1 (Datatypes.S done)); [done|lia]|].
  intros _ v' (Hs' & Hc & Hl & Hby).
  assert (∀ vb, in_pages va (Z.of_nat (Datatypes.S n)) vb =
    (vpage vb =? vpage va) || in_pages (base + PAGE_SIZE * Z.of_nat (Datatypes.S done)) (Z.of_nat n) vb) as Hsplit.
  { intros vb. unfold in_pages. rewrite <- (user_vpage va) by done. rewrite Hpg.
    rewrite (Z.mul_comm PAGE_SIZE), Z.div_add by done.
    apply eq_true_iff_eq. rewrite orb_true_iff, !in_block_true, Z.eqb_eq. lia. }
  assert (∀ vb, vpage vb = vpage va → user_ok (vm_mem v) r vb = user_ok (vm_mem v) r va) as Hsame.
  { intros vb E. unfold user_ok. rewrite !(get_flags_leaf _ _ _ (proj2 (so_root _ _ Hs))).
    by rewrite (vleaf_vpage _ _ _ _ E). }
  assert (∀ vb, vpage vb ≠ vpage va → vleaf (vm_mem v1) r vb = vleaf (vm_mem v) r vb ∧
    user_ok (vm_mem v1) r vb = user_ok (vm_mem v) r vb) as Hother.
  { intros vb E. assert (vleaf (vm_mem v1) r vb = vleaf (vm_mem v) r vb) as H.
    { by rewrite Hl1, (proj2 (Z.eqb_neq _ _) E). }
    split; [done|]. apply leaf_user_ok; [apply Hs|apply Hs1|done]. }
  split; [done|]. split; [rewrite Hc; apply K1|]. split.
  - intros vb. rewrite Hsplit, Hl. destruct (Z.eqb_spec (vpage vb) (vpage va)) as [E|E]; simpl.
    + rewrite Hl1, (Hsame vb E), E, Z.eqb_refl. simpl.
      destruct (user_ok (vm_mem v) r va) eqn:Eu; [by destruct (_ && _)|].
      assert (user_ok (vm_mem v1) r vb = user_ok (vm_mem v) r vb) as Hub.
      { apply leaf_user_ok; [apply Hs|apply Hs1|]. by rewrite Hl1, ?Eu, andb_false_r. }
      by rewrite Hub, (Hsame vb E), ?Eu, andb_false_r.
    + destruct (Hother vb E) as [-> ->]. done.
  - intros vb Hvb. rewrite Hsplit. intros [E1 E2]%orb_false_iff Hok. b2p. destruct (Hother vb E1) as [Hlb Hub].
    rewrite Hby by (done || by rewrite Hub).
    eapply (keeps_ubyte _ r v v1 vb Hs K1); [|done|done|done].
    intros eb Hpb. destruct (vleaf (vm_mem v) r va) as [[h e]|] eqn:Ev; [|done].
    destruct (has e VMM_USER) eqn:Hu; [|done]. intros [= Hx].
    assert (h = false) as -> by (by apply (so_small _ _ Hs va h e)).
    apply E1, (so_inj _ _ Hs vb va eb e); done.
Qed.

(** ** The system calls *)

Lemma unmapped_none r lo v : space_ok v r → unmapped r lo 0 v v.
Proof.
  intros Hs. split; [done|]. split; [done|]. split; [intros vb; by rewrite in_pages_none|done].
Qed.

Lemma page_up x : 0 <= x <= 2^64 - PAGE_SIZE →
  ALIGN_UP x PAGE_SIZE mod PAGE_SIZE = 0 ∧ x <= ALIGN_UP x PAGE_SIZE < x + PAGE_SIZE.
Proof.
  intros Hx. change PAGE_SIZE with (2^12) in *. rewrite ALIGN_UP_spec by lia. change (2^12) with 4096.
  split; [apply Z.mod_mul; lia|]. Z.to_euclidean_division_equations; lia.
Qed.

Lemma page_down x : 0 <= x < 2^64 → ALIGN_DOWN x PAGE_SIZE mod PAGE_SIZE = 0 ∧ 0 <= ALIGN_DOWN x PAGE_SIZE <= x.
Proof. intros Hx. rewrite align_page by done. split; [by apply Z.mod_mul|]. page_lia. Qed.

Lemma page_rounds_aligned lo hi : lo mod PAGE_SIZE = 0 → hi mod PAGE_SIZE = 0 → lo <= hi →
  Z.of_nat (page_rounds lo hi) = (hi - lo) / PAGE_SIZE ∧ PAGE_SIZE * Z.of_nat (page_rounds lo hi) = hi - lo.
Proof.
  intros Hl Hh Hle. unfold page_rounds. rewrite Z2Nat.id by (apply Z.div_pos; page_lia). split; page_lia.
Qed.

Lemma mmap_flags_user prot : has (mmap_flags prot) VMM_USER = true.
Proof. unfold mmap_flags. by destruct (has prot PROT_WRITE), (has prot PROT_EXEC). Qed.

(** The address a mapping is placed at. *)
Definition mmap_base (l : layout) (addr : Z) : Z := if addr =? 0 then mmap_next l else ALIGN_DOWN addr PAGE_SIZE.

(** What sys_mmap_impl accepts. *)
Definition mmap_valid (l : layout) (addr n flags fd : Z) : bool :=
  has flags MAP_ANONYMOUS && has flags MAP_PRIVATE && (fd =? -1) && (0 <? mmap_base l addr) &&
  (mmap_base l addr + ALIGN_UP n PAGE_SIZE <=? USER_SPACE_TOP).

(** The first [k] pages from [lo] were mapped and taken away again. *)
Definition withdrawn (r lo k : Z) (v v' : vm S) : Prop :=
  space_ok v' r ∧ vm_cr3 v' = vm_cr3 v ∧
  (∀ vb, 0 <= vb < USER_SPACE_TOP → in_pages lo k vb = true → vleaf (vm_mem v') r vb = None) ∧
  (∀ vb, in_pages lo k vb = false → vleaf (vm_mem v') r vb = vleaf (vm_mem v) r vb) ∧
  (∀ vb, 0 <= vb < USER_SPACE_TOP → in_pages lo k vb = false → user_ok (vm_mem v) r vb = true →
     ubyte (vm_mem v') r vb = ubyte (vm_mem v) r vb).

Lemma zero_then_unmap r lo k flags v v1 v2 : has flags VMM_USER = true → space_ok v r →
  zero_filled r lo k flags v v1 → unmapped r lo k v1 v2 → withdrawn r lo k v v2.
Proof.
  intros Hfl Hs (Hs1 & Hc1 & Hin & Hout & Hby) (Hs2 & Hc2 & Hl & Hby2). split; [done|]. split; [congruence|].
  split; [|split].
  - intros vb Hb E. rewrite Hl, E. destruct (Hin vb Hb E) as [Hf _]. unfold user_ok. rewrite Hf.
    by rewrite page_flags_user.
  - intros vb E. by rewrite Hl, E, Hout.
  - intros vb Hb E Hok. rewrite Hby2; [by apply Hby|done|done|].
    rewrite (leaf_user_ok r v v1 vb); [done|apply Hs|apply Hs1|by apply Hout].
Qed.

Lemma sys_mmap_steps (v : vm S) (r : Z) (l : layout) (addr n prot flags fd : Z) :
  space_ok v r → 0 <= addr < 2^64 → 0 < n <= 2^64 - PAGE_SIZE →
  mmap_next l mod PAGE_SIZE = 0 → 0 <= mmap_next l < 2^63 →
  let base := mmap_base l addr in
  let size := ALIGN_UP n PAGE_SIZE in
  wp (sys_mmap_impl r true l addr n prot flags fd) (λ res v',
    if mmap_valid l addr n flags fd then
      (res = (base, if addr =? 0 then set_mmap_next (base + size) l else l) ∧
       n <= size < n + PAGE_SIZE ∧ zero_filled r base (size / PAGE_SIZE) (mmap_flags prot) v v') ∨
      (res = (MAP_FAILED_RET, l) ∧ ∃ k, 0 <= k < size / PAGE_SIZE ∧ withdrawn r base k v v')
    else res = (MAP_FAILED_RET, l) ∧ v' = v) v.
Proof.
  intros Hs Ha Hn Hnext Hnext' base size. unfold sys_mmap_impl.
  rewrite (proj2 (Z.eqb_neq n 0)) by lia. simpl.
  fold (mmap_base l addr). fold base. fold size.
  destruct (page_up n ltac:(unfold PAGE_SIZE in *; lia)) as [Hsz Hsz']. fold size in Hsz, Hsz'.
  assert (base mod PAGE_SIZE = 0 ∧ 0 <= base < 2^64) as [Hbal Hb].
  { unfold base, mmap_base. case_if; [split; [done|lia]|]. destruct (page_down addr Ha). split; [done|lia]. }
  unfold mmap_valid. fold base. fold size.
  destruct (has flags MAP_ANONYMOUS); simpl; [|by apply wp_ret].
  destruct (has flags MAP_PRIVATE); simpl; [|by apply wp_ret].
  destruct (fd =? -1); simpl; [|by apply wp_ret].
  destruct ((base =? 0) || (USER_SPACE_TOP <=? base) || (USER_SPACE_TOP - base <? size)) eqn:E.
  { apply wp_ret. assert ((0 <? base) && (base + size <=? USER_SPACE_TOP) = false) as ->; [|done].
    apply andb_false_iff. rewrite Z.ltb_ge, Z.leb_gt.
    apply orb_true_iff in E as [[?|?]%orb_true_iff|?]; b2p; lia. }
  b2p. rewrite (proj2 (Z.ltb_lt 0 base)), (proj2 (Z.leb_le (base + size) USER_SPACE_TOP)) by lia. simpl.
  destruct (page_rounds_aligned 0 size) as [Hr Hr']; [done|done|lia|]. rewrite Z.sub_0_r in *.
  apply wp_bind. eapply wp_mono; [apply map_pages_steps; [done|lia|apply mmap_flags_user|done|rewrite Z.add_0_l, Hr'; lia]|].
  intros [k|] v1; cbv zeta; unfold default, id; rewrite Z.mul_0_r, Z.add_0_r, Z.sub_0_r; intros (_ & _ & Hz & Hres).
  - specialize (Hres ltac:(done)) as Hk. apply wp_bind.
    eapply wp_mono; [apply (unmap_pages_steps r base Hbal ltac:(lia)); [apply Hz|unfold PAGE_SIZE in *; lia]|].
    intros u v' Hu. apply wp_ret. right. split; [done|]. exists (Z.of_nat k). split; [lia|].
    rewrite Z.mul_0_r, Z.add_0_r in Hu. by eapply zero_then_unmap; [apply mmap_flags_user| |exact Hz|].
  - apply wp_ret. left. split; [|split; [done|]].
    + assert (ALIGN_UP (base + size) PAGE_SIZE = base + size) as ->; [|done].
      destruct (page_up (base + size)) as [Hu1 Hu2]; [page_lia|]. page_lia.
    + simpl in Hz. by rewrite <- Hr.
Qed.


Lemma sys_munmap_steps (v : vm S) (addr n : Z) :
  let r := vmm_current_pml4 v in
  space_ok v r → 0 <= addr < 2^64 → 0 < n < 2^64 →
  wp (sys_munmap_impl r true addr n) (λ rc v',
    if (addr mod PAGE_SIZE =? 0) && user_range_ok (vm_mem v) r addr n
    then rc = 0 ∧ unmapped r addr ((n + PAGE_SIZE - 1) / PAGE_SIZE) v v' ∧
      ∀ vb, addr <= vb < addr + n → user_ok (vm_mem v) r vb = true ∧ vleaf (vm_mem v') r vb = None
    else rc = - S_EINVAL ∧ v' = v) v.
Proof.
  intros r Hs Ha Hn. unfold sys_munmap_impl. rewrite (proj2 (Z.eqb_neq n 0)) by lia. simpl.
  change (PAGE_SIZE - 1) with (2^12 - 1). rewrite land_low_mod by done. change (2^12) with PAGE_SIZE.
  destruct (Z.eqb_spec (addr mod PAGE_SIZE) 0) as [Hal|]; simpl; [|by apply wp_ret].
  repeat wp_step. fold r. destruct (user_range_ok (vm_mem v) r addr n) eqn:E; simpl; [|by apply wp_ret].
  apply user_range_ok_spec in E as [[Hpos Htop] Hall]; [|lia|lia].
  destruct (page_up n) as [Hsz Hsz']; [page_lia|].
  destruct (page_rounds_aligned 0 (ALIGN_UP n PAGE_SIZE)) as [Hr Hr']; [done|done|lia|]. rewrite Z.sub_0_r in *.
  assert (ALIGN_UP n PAGE_SIZE / PAGE_SIZE = (n + PAGE_SIZE - 1) / PAGE_SIZE) as Hq by page_lia.
  apply wp_bind. eapply wp_mono; [apply (unmap_pages_steps r addr Hal ltac:(lia)); [done|page_lia]|].
  intros u v' Hu. apply wp_ret. rewrite Hr, Hq, Z.mul_0_r, Z.add_0_r in Hu. split; [done|]. split; [done|].
  intros vb Hvb. split; [by apply Hall|]. destruct Hu as (_ & _ & Hl & _).
  rewrite Hl, (Hall vb Hvb), in_pages_user by page_lia.
  rewrite (proj2 (in_block_true addr _ vb)); [done|page_lia].
Qed.

(** munmap of a page-aligned range that lies on present user pages removes exactly
    the pages the range touches; any other call returns -EINVAL and changes nothing. *)
Theorem sys_munmap_correct (v : vm S) (addr n : Z) :
  let r := vmm_current_pml4 v in
  space_ok v r → 0 <= addr < 2^64 → 0 < n < 2^64 →
  wp (sys_munmap_impl r true addr n) (λ rc v',
    if (addr mod PAGE_SIZE =? 0) && user_range_ok (vm_mem v) r addr n
    then rc = 0 ∧ unmapped r addr ((n + PAGE_SIZE - 1) / PAGE_SIZE) v v' ∧
      ∀ vb, addr <= vb < addr + n → user_ok (vm_mem v) r vb = true ∧ vleaf (vm_mem v') r vb = None
    else rc = - S_EINVAL ∧ v' = v) v.
Proof. apply sys_munmap_steps. Qed.

Lemma sys_brk_steps (v : vm S) (r : Z) (l : layout) (req : Z) :
  space_ok v r → 0 <= req < 2^64 → 0 <= brk_current l <= USER_SPACE_TOP → mmap_next l <= USER_SPACE_TOP →
  let old := ALIGN_UP (brk_current l) PAGE_SIZE in
  let new := ALIGN_UP req PAGE_SIZE in
  let fl := VMM_USER .| VMM_WRITE .| VMM_NX in
  wp (sys_brk_impl r true l req) (λ res v',
    if (req =? 0) || (req <? brk_base l) || (mmap_next l <=? req) then res = (brk_current l, l) ∧ v' = v
    else if old <? new then
      (res = (req, set_brk req l) ∧ zero_filled r old ((new - old) / PAGE_SIZE) fl v v') ∨
      (res = (brk_current l, l) ∧ ∃ k, 0 <= k < (new - old) / PAGE_SIZE ∧ zero_filled r old k fl v v')
    else res = (req, set_brk req l) ∧ unmapped r new ((old - new) / PAGE_SIZE) v v') v.
Proof.
  intros Hs Hreq Hcur Hnext old new fl. unfold sys_brk_impl. simpl.
  destruct (req =? 0) eqn:E0; [by apply wp_ret|]. simpl.
  destruct ((req <? brk_base l) || (mmap_next l <=? req)) eqn:E1; [by apply wp_ret|]. fold old. fold new. b2p.
  destruct (page_up (brk_current l)) as [Hold Hold']; [page_lia|]. fold old in Hold, Hold'.
  destruct (page_up req) as [Hnew Hnew']; [page_lia|]. fold new in Hnew, Hnew'.
  assert (new <= USER_SPACE_TOP) as Htop by page_lia. assert (old <= USER_SPACE_TOP) as Htop' by page_lia.
  destruct (old <? new) eqn:E; b2p.
  - destruct (page_rounds_aligned old new) as [Hr Hr']; [done|done|lia|].
    apply wp_bind. eapply wp_mono; [apply map_pages_steps; [done|lia|done|done|rewrite Z.add_0_l, Hr'; lia]|]. fold fl.
    intros [k|] v1; cbv zeta; unfold default, id; rewrite Z.mul_0_r, Z.add_0_r, Z.sub_0_r; intros (_ & _ & Hz & Hres); apply wp_ret.
    + right. split; [done|]. specialize (Hres ltac:(done)) as Hk. exists (Z.of_nat k). split; [lia|done].
    + left. split; [done|]. rewrite <- Hr. exact Hz.
  - destruct (new <? old) eqn:E'; b2p.
    + destruct (page_rounds_aligned new old) as [Hr Hr']; [done|done|lia|].
      apply wp_bind. eapply wp_mono; [apply (unmap_pages_steps r new Hnew ltac:(lia)); [done|rewrite Z.add_0_l, Hr'; lia]|].
      intros u v' Hu. apply wp_ret. rewrite Hr, Z.mul_0_r, Z.add_0_r in Hu. done.
    + apply wp_ret. split; [done|]. replace (old - new) with 0 by lia. by apply unmapped_none.
Qed.


(** ** What every call keeps *)

Definition layout_ok (l : layout) : Prop :=
  0 <= brk_current l <= USER_SPACE_TOP ∧ mmap_next l mod PAGE_SIZE = 0 ∧ 0 < mmap_next l <= USER_SPACE_TOP.

Lemma align_up_wraps n : 2^64 - PAGE_SIZE < n < 2^64 → ALIGN_UP n PAGE_SIZE = 0.
Proof.
  intros Hn. unfold ALIGN_UP. change PAGE_SIZE with (2^12) in *.
  replace (u64 (n + 2^12 - 1)) with (n + 2^12 - 1 - 2^64).
  - rewrite land_lnot_low by lia. rewrite Z.div_small by lia. done.
  - unfold u64. apply (Z.mod_unique _ _ 1); lia.
Qed.

Lemma sys_mmap_keeps v r um l addr n prot flags fd : space_ok v r → 0 <= addr < 2^64 → 0 <= n < 2^64 → layout_ok l →
  wp (sys_mmap_impl r um l addr n prot flags fd) (λ res v',
    space_ok v' r ∧ vm_cr3 v' = vm_cr3 v ∧ layout_ok res.2) v.
Proof.
  intros Hs Ha Hn Hlay. pose proof Hlay as (Hb & Hm & Hm').
  destruct um; [|by apply wp_ret].
  destruct (decide (n = 0)) as [->|Hn0]; [by apply wp_ret|].
  destruct (decide (n <= 2^64 - PAGE_SIZE)) as [Hle|Hgt].
  - eapply wp_mono; [apply sys_mmap_steps; [done|done|lia|done|page_lia]|]. cbv zeta. intros res v'.
    destruct (mmap_valid l addr n flags fd) eqn:E.
    + intros [(-> & Hsz & Hz)|(-> & k & _ & Hz)]; (split; [apply Hz|]; split; [apply Hz|]); [|done].
      unfold mmap_valid in E. b2p. simpl. case_if; [|done]. subst addr. unfold mmap_base in *. simpl in *.
      destruct (page_up n ltac:(page_lia)) as [Hup _].
      split; [done|]. simpl. split; [rewrite Z.add_mod, Hm, Hup by done; done|]. page_lia.
    + by intros [-> ->].
  - pose proof (align_up_wraps n ltac:(lia)) as Hz. unfold sys_mmap_impl. rewrite (proj2 (Z.eqb_neq n 0)) by done. simpl.
    destruct (_ || _); [by apply wp_ret|]. rewrite Hz. destruct (_ || _); [by apply wp_ret|].
    change (page_rounds 0 0) with O. repeat wp_step. split; [done|]. split; [done|]. simpl. case_if; [|done].
    rewrite Z.add_0_r. destruct (page_up (mmap_next l) ltac:(page_lia)) as [H1 H2].
    assert (ALIGN_UP (mmap_next l) PAGE_SIZE = mmap_next l) as -> by page_lia. by destruct l.
Qed.

Lemma sys_munmap_keeps v um addr n : let r := vmm_current_pml4 v in
  space_ok v r → 0 <= addr < 2^64 → 0 <= n < 2^64 →
  wp (sys_munmap_impl r um addr n) (λ _ v', space_ok v' r ∧ vm_cr3 v' = vm_cr3 v) v.
Proof.
  intros r Hs Ha Hn. destruct um; [|by apply wp_ret]. destruct (decide (n = 0)) as [->|Hn0]; [by apply wp_ret|].
  eapply wp_mono; [apply sys_munmap_steps; [done|done|lia]|]. cbv zeta. intros rc v'.
  destruct (_ && _); [intros (_ & Hu & _); split; apply Hu|by intros [_ ->]].
Qed.

Lemma sys_brk_keeps v r um l req : space_ok v r → 0 <= req < 2^64 → layout_ok l →
  wp (sys_brk_impl r um l req) (λ res v', space_ok v' r ∧ vm_cr3 v' = vm_cr3 v ∧ layout_ok res.2) v.
Proof.
  intros Hs Hreq Hlay. pose proof Hlay as (Hb & Hm & Hm'). destruct um; [|by apply wp_ret].
  eapply wp_mono; [apply sys_brk_steps; [done|done|lia|lia]|]. cbv zeta. intros res v'.
  destruct (_ || _) eqn:E; [by intros [-> ->]|]. b2p.
  assert (layout_ok (set_brk req l)) as Hl' by (split; [simpl; lia|done]).
  destruct (_ <? _).
  - intros [(-> & Hz)|(-> & k & _ & Hz)]; (split; [apply Hz|]; split; [apply Hz|done]).
  - intros (-> & Hz). split; [apply Hz|]. split; [apply Hz|done].
Qed.

(** A length in the last page of the 64-bit range rounds up to 0: the call reports
    success and maps nothing. *)
Theorem mmap_length_wraps (v : vm S) (r : Z) (l : layout) (addr n prot : Z) :
  PAGE_SIZE <= addr < USER_SPACE_TOP → 2^64 - PAGE_SIZE < n < 2^64 →
  sys_mmap_impl r true l addr n prot (MAP_PRIVATE .| MAP_ANONYMOUS) (-1) v =
    Ret ((ALIGN_DOWN addr PAGE_SIZE, l), v).
Proof.
  intros Ha Hn. unfold sys_mmap_impl. rewrite (proj2 (Z.eqb_neq n 0)) by (unfold PAGE_SIZE in *; lia). simpl.
  rewrite (proj2 (Z.eqb_neq addr 0)) by (unfold PAGE_SIZE in *; lia).
  rewrite align_up_wraps by done.
  destruct (page_down addr ltac:(page_lia)) as [_ Hd]. rewrite align_page in * by page_lia.
  rewrite (proj2 (Z.eqb_neq _ 0)) by page_lia.
  rewrite (proj2 (Z.leb_gt USER_SPACE_TOP _)), (proj2 (Z.ltb_ge (USER_SPACE_TOP - _) 0)) by page_lia. done.
Qed.

End UsermemProps.

(** ** Concrete runs *)

Lemma no_user_space {S} `{FA : FrameAllocator S} (v : vm S) (r : Z) : root_ok v r →
  (∀ vb h e, vleaf (vm_mem v) r vb = Some (h, e) → has e VMM_USER = false) → space_ok v r.
Proof.
  intros Hok Hno. split.
  - done.
  - intros va h e _ Hl Hu. rewrite (Hno va h e Hl) in Hu. done.
  - intros va e (_ & Hl & Hu). rewrite (Hno _ _ _ Hl) in Hu. done.
  - intros va vb e e' (_ & Hl & Hu) _. rewrite (Hno _ _ _ Hl) in Hu. done.
Qed.

Lemma small_page_not_user i : has (small_page i) VMM_USER = false.
Proof.
  rewrite has_user. unfold small_page. rewrite !Z.lor_spec. change PAGE_SIZE with (2^12).
  rewrite Z.mul_pow2_bits_low by lia. done.
Qed.

Lemma huge_page_not_user i : has (huge_page i) VMM_USER = false.
Proof.
  rewrite has_user. unfold huge_page. rewrite !Z.lor_spec. change 0x200000 with (2^21).
  rewrite Z.mul_pow2_bits_low by lia. done.
Qed.

Lemma boot_no_user vb h e : vleaf (vm_mem boot_vm) (kernel_pml4 boot_vm) vb = Some (h, e) → has e VMM_USER = false.
Proof.
  destruct raw_vm_ready as [H1 H2].
  destruct (boot_vm_run _ (vmm_init_built raw_vm 0x105000 0x110000 H1 H2))
    as (pml4 & pt0 & pd0 & pdpt_id & pdpt_hh & pd_hh & B & Hk & _).
  rewrite Hk. unfold vleaf. rewrite (boot_leaf _ _ _ _ _ _ _ _ _ B) by apply (vpath_valid vb).
  repeat case_if; intros [= _ <-]; apply small_page_not_user || apply huge_page_not_user.
Qed.

Lemma switch_space {S} `{FA : FrameAllocator S} (v : vm S) (r : Z) : root_ok v r →
  (∀ vb h e, vleaf (vm_mem v) r vb = Some (h, e) → has e VMM_USER = false) →
  space_ok (set_cr3 r v) r ∧ vmm_current_pml4 (set_cr3 r v) = r.
Proof.
  intros Hok Hno. split; [by apply no_user_space|]. apply frame_page_aligned.
  by apply (pt_tables _ _ _ (proj2 Hok) []); [constructor|simpl; lia|].
Qed.

Lemma space_no_user vb h e : vleaf (vm_mem space_vm) space_root vb = Some (h, e) → has e VMM_USER = false.
Proof.
  destruct space_vm_built as [low B]. destruct boot_vm_space as [K1 K2]. rewrite boot_vm_current in *.
  rewrite (space_leaf boot_vm space_vm (kernel_pml4 boot_vm) space_root low K1 K2 B).
  destruct (shared_path (tables_path vb)); [|discriminate]. apply boot_no_user.
Qed.

(** The new address space, loaded. *)
Definition user_vm : vm pmm_state := set_cr3 space_root space_vm.

Lemma user_vm_space : space_ok user_vm space_root ∧ vmm_current_pml4 user_vm = space_root.
Proof. exact (switch_space space_vm space_root (proj1 space_vm_ok) space_no_user). Qed.

Definition w_layout : layout := Layout 0x40000000 TASK_USER_STACK_TOP 0x40002000 0x40002000 USER_MMAP_BASE.
Definition MAP_ANON : Z := MAP_PRIVATE .| MAP_ANONYMOUS.

(** Two pages from the kernel's choice of address. *)
Abbreviation two_pages := (sys_mmap_impl space_root true w_layout 0 5000 PROT_WRITE MAP_ANON (-1)).
Definition mmap_vm : vm pmm_state := run two_pages user_vm.

Lemma mmap_vm_run (Q : Z * layout → vm pmm_state → Prop) :
  wp two_pages Q user_vm → Q (result two_pages user_vm (0, w_layout)) mmap_vm.
Proof. unfold mmap_vm. exact (run_wp two_pages Q user_vm (0, w_layout)). Qed.

Lemma two_pages_base : (result two_pages user_vm (0, w_layout)).1 = 0x50000000.
Proof. vm_compute. reflexivity. Qed.
#[global] Opaque mmap_vm.

Lemma w_layout_next : 0 <= mmap_next w_layout < 2^63.
Proof. split; vm_compute; congruence. Qed.


Lemma mmap_vm_zero : zero_filled space_root 0x50000000 2 (mmap_flags PROT_WRITE) user_vm mmap_vm.
Proof.
  destruct user_vm_space as [Hs _].
  pose proof (sys_mmap_steps user_vm space_root w_layout 0 5000 PROT_WRITE MAP_ANON (-1) Hs
    ltac:(lia) ltac:(unfold PAGE_SIZE; lia) eq_refl w_layout_next) as H.
  cbv zeta in H. apply mmap_vm_run in H.
  replace (mmap_valid w_layout 0 5000 MAP_ANON (-1)) with true in H by reflexivity.
  destruct H as [(_ & _ & H)|(H & _)]; [exact H|].
  exfalso. pose proof two_pages_base as E. rewrite H in E. discriminate E.
Qed.

Lemma zero_filled_space {S} `{FA : FrameAllocator S} r lo n fl (v v' : vm S) :
  zero_filled r lo n fl v v' → vmm_current_pml4 v = r → space_ok v' r ∧ vmm_current_pml4 v' = r.
Proof. intros (Hs & Hc & _) Hr. split; [done|]. unfold vmm_current_pml4 in *. congruence. Qed.

Lemma mmap_vm_space : space_ok mmap_vm space_root ∧ vmm_current_pml4 mmap_vm = space_root.
Proof. exact (zero_filled_space _ _ _ _ _ _ mmap_vm_zero (proj2 user_vm_space)). Qed.

Lemma mmap_vm_current : space_ok mmap_vm (vmm_current_pml4 mmap_vm).
Proof. rewrite (proj2 mmap_vm_space). exact (proj1 mmap_vm_space). Qed.

Abbreviation drop_pages := (sys_munmap_impl (vmm_current_pml4 mmap_vm) true 0x50000000 4097).
Definition munmap_vm : vm pmm_state := run drop_pages mmap_vm.

Lemma munmap_vm_run (Q : Z → vm pmm_state → Prop) :
  wp drop_pages Q mmap_vm → Q (result drop_pages mmap_vm 1) munmap_vm.
Proof. unfold munmap_vm. exact (run_wp drop_pages Q mmap_vm 1). Qed.
#[global] Opaque munmap_vm.

Lemma mmap_vm_range : user_range_ok (vm_mem mmap_vm) (vmm_current_pml4 mmap_vm) 0x50000000 4097 = true.
Proof. vm_compute. reflexivity. Qed.

Lemma sys_munmap_correct_witness :
  unmapped (vmm_current_pml4 mmap_vm) 0x50000000 2 mmap_vm munmap_vm.
Proof.
  pose proof (sys_munmap_correct mmap_vm 0x50000000 4097 mmap_vm_current ltac:(lia) ltac:(lia)) as H.
  cbv zeta in H. apply munmap_vm_run in H. rewrite mmap_vm_range in H.
  change (0x50000000 mod PAGE_SIZE =? 0) with true in H. destruct H as (_ & H & _). exact H.
Defined.

Abbreviation grow_heap := (sys_brk_impl space_root true w_layout 0x40003001).
Definition brk_vm : vm pmm_state := run grow_heap user_vm.

Lemma brk_vm_run (Q : Z * layout → vm pmm_state → Prop) :
  wp grow_heap Q user_vm → Q (result grow_heap user_vm (0, w_layout)) brk_vm.
Proof. unfold brk_vm. exact (run_wp grow_heap Q user_vm (0, w_layout)). Qed.
Lemma grow_heap_ret : (result grow_heap user_vm (0, w_layout)).1 = 0x40003001.
Proof. vm_compute. reflexivity. Qed.
#[global] Opaque brk_vm.

Lemma w_layout_brk : 0 <= brk_current w_layout <= USER_SPACE_TOP ∧ mmap_next w_layout <= USER_SPACE_TOP.
Proof. repeat split; vm_compute; congruence. Qed.


(** Copies on that machine: four bytes across the two pages, and back. *)
Definition w_bytes : list Z := [1; 2; 3; 0].

Lemma w_bytes_ok : Forall (λ c, 0 <= c < 2^8) w_bytes.
Proof. repeat constructor; lia. Qed.

Abbreviation put_bytes_run := (copy_to_user 0x50000ffe w_bytes 4).
Definition copied_vm : vm pmm_state := run put_bytes_run mmap_vm.
Lemma copied_vm_run (Q : Z → vm pmm_state → Prop) :
  wp put_bytes_run Q mmap_vm → Q (result put_bytes_run mmap_vm 1) copied_vm.
Proof. unfold copied_vm. exact (run_wp put_bytes_run Q mmap_vm 1). Qed.
Lemma copied_vm_ret : result put_bytes_run mmap_vm 1 = 0.
Proof. vm_compute. reflexivity. Qed.
#[global] Opaque copied_vm.


Abbreviation there_and_back := (rc ← put_bytes_run; if rc =? 0 then copy_from_user [0; 0; 0; 0] 0x50000ffe 4 else mret (rc, [0; 0; 0; 0])).
Lemma there_and_back_ret : (result there_and_back mmap_vm (1, [])).1 = 0.
Proof. vm_compute. reflexivity. Qed.

Lemma copy_user_roundtrip_witness : result there_and_back mmap_vm (1, []) = (0, w_bytes).
Proof.
  pose proof (copy_user_roundtrip mmap_vm 0x50000ffe w_bytes [0; 0; 0; 0] mmap_vm_current ltac:(lia) w_bytes_ok
    eq_refl) as H.
  cbv zeta in H. apply (run_wp there_and_back _ mmap_vm (1, [])) in H. destruct H as [H|(H & _)]; [exact H|].
  exfalso. rewrite there_and_back_ret in H. discriminate H.
Defined.

Lemma copied_vm_range : user_range_ok (vm_mem copied_vm) (vmm_current_pml4 copied_vm) 0x50000ffe 4 = true.
Proof. vm_compute. reflexivity. Qed.

Lemma copy_from_user_correct_witness :
  (result (copy_from_user [0; 0; 0; 0] 0x50000ffe 4) copied_vm (1, [])).1 = 0.
Proof.
  pose proof (copy_from_user_correct copied_vm [0; 0; 0; 0] 0x50000ffe 4 ltac:(lia) eq_refl) as H.
  apply (run_wp _ _ copied_vm (1, [])) in H. rewrite copied_vm_range in H. destruct H as [_ ->]. reflexivity.
Defined.

Abbreviation read_string := (copy_user_string 0x50000ffe (Z.of_nat 128)).
Lemma read_string_ret : (result read_string copied_vm (1, [])).1 = 0.
Proof. vm_compute. reflexivity. Qed.

Lemma copy_user_string_correct_witness : ∃ j, (j < 128)%nat ∧
  result read_string copied_vm (1, []) =
    (0, ubytes j (vm_mem copied_vm) (vmm_current_pml4 copied_vm) 0x50000ffe).
Proof.
  pose proof (copy_user_string_correct copied_vm 0x50000ffe 128 ltac:(lia) ltac:(lia) ltac:(lia)) as H.
  cbv zeta in H. apply (run_wp read_string _ copied_vm (1, [])) in H.
  destruct H as (_ & [(j & Hj & _ & _ & _ & H)|[(j & _ & _ & _ & H)|(_ & H)]]).
  - exists j. split; [exact Hj|exact H].
  - exfalso. pose proof read_string_ret as E. rewrite H in E. discriminate E.
  - exfalso. pose proof read_string_ret as E. rewrite H in E. discriminate E.
Defined.

(** ** Mappings the calls should refuse *)

(** The page tables of the first 2 MiB belong to the kernel and are shared by all
    address spaces; a mapping with a hint in that range replaces the kernel's own
    identity-mapped page, in every address space, by a page the program can write. *)
Example mmap_replaces_kernel_page :
  let v' := run (sys_mmap_impl space_root true w_layout 0x120000 1 PROT_WRITE MAP_ANON (-1)) user_vm in
  vmm_get_physical (vm_mem user_vm) (kernel_pml4 boot_vm) 0x120000 = 0x120000 ∧
  vmm_get_physical (vm_mem v') (kernel_pml4 boot_vm) 0x120000 ≠ 0x120000 ∧
  has_all (vmm_get_flags (vm_mem v') (kernel_pml4 boot_vm) 0x120000) (USER_PRESENT .| VMM_WRITE) = true.
Proof. vm_compute. repeat split; congruence. Qed.

(** Mapping over a mapped page forgets the old frame: it stays allocated for ever. *)
Example mmap_over_mapping_leaks :
  let map := sys_mmap_impl space_root true w_layout 0x50000000 1 PROT_WRITE MAP_ANON (-1) in
  let unmap := sys_munmap_impl space_root true 0x50000000 1 in
  let once := run (r1 ← map; unmap) user_vm in
  let twice := run (r1 ← map; r2 ← map; unmap) user_vm in
  fa_avail (vm_pmm twice) = fa_avail (vm_pmm once) - 1.
Proof. vm_compute. reflexivity. Qed.

(** The heap may grow through the program's stack: the stack page is replaced by a
    zero page. *)
Example brk_overwrites_stack :
  let l := set_brk 0x400ff000 w_layout in
  let v1 := run (_ ← map_user_zero_page space_root 0x400ff000 (VMM_USER .| VMM_WRITE);
                 copy_to_user 0x400ff000 [7] 1) user_vm in
  let v2 := run (sys_brk_impl space_root true l TASK_USER_STACK_TOP) v1 in
  ubyte (vm_mem v1) space_root 0x400ff000 = 7 ∧ ubyte (vm_mem v2) space_root 0x400ff000 = 0.
Proof. vm_compute. split; reflexivity. Qed.
