(* ===== verification/Elf.v ===== *)
(** * ELF loader ([kernel/proc/elf.c], [load_user_image] of [kernel/sched/task.c]): the model

    The image is the list of its bytes; the packed header structures are read from it
    in little-endian order.  [None] is the return code -1. *)

From Stdlib Require Import ZArith Lia.
From S2P Require Import Prelude Memory Frames Vmm Uaccess Kbd Vfs Sched.
Import StringC.

Definition ELFCLASS64 : Z := 2.
Definition ELFDATA2LSB : Z := 1.
Definition EV_CURRENT : Z := 1.
Definition ET_EXEC : Z := 2.
Definition EM_X86_64 : Z := 62.
Definition PT_LOAD : Z := 1.
Definition PF_X : Z := 1.
Definition PF_W : Z := 2.

(** The [n]-byte field at offset [off]. *)
Fixpoint le_value (l : list Z) : Z := match l with [] => 0 | b :: l' => b + 2^8 * le_value l' end.
Definition field (file : list Z) (off : Z) (n : Z) : Z := le_value (slice file off n).

Definition sizeof_ehdr : Z := 64.
Definition sizeof_phdr : Z := 56.

Record ehdr := Ehdr {
  e_ident : list Z; e_type : Z; e_machine : Z; e_version : Z; e_entry : Z; e_phoff : Z;
  e_ehsize : Z; e_phentsize : Z; e_phnum : Z;
}.
Definition read_ehdr (file : list Z) : ehdr :=
  Ehdr (slice file 0 16) (field file 16 2) (field file 18 2) (field file 20 4) (field file 24 8) (field file 32 8)
    (field file 52 2) (field file 54 2) (field file 56 2).

Record phdr := Phdr {
  p_type : Z; p_flags : Z; p_offset : Z; p_vaddr : Z; p_filesz : Z; p_memsz : Z; p_align : Z;
}.
Definition read_phdr (file : list Z) (off : Z) : phdr :=
  Phdr (field file off 4) (field file (off + 4) 4) (field file (off + 8) 8) (field file (off + 16) 8)
    (field file (off + 32) 8) (field file (off + 40) 8) (field file (off + 48) 8).

Definition range_ok (start size limit : Z) : bool := (size <=? limit) && (start <=? limit - size).

(** The checks on the ELF header. *)
Definition ehdr_ok (h : ehdr) (image_size : Z) : bool :=
  bool_decide (take 4 (e_ident h) = [0x7f; 69; 76; 70]) &&
  bool_decide (slice (e_ident h) 4 2 = [ELFCLASS64; ELFDATA2LSB]) &&
  (e_type h =? ET_EXEC) && (e_machine h =? EM_X86_64) && (e_version h =? EV_CURRENT) &&
  (e_ehsize h =? sizeof_ehdr) && (e_phentsize h =? sizeof_phdr) &&
  negb (e_phnum h =? 0) && (e_phnum h <=? 32) &&
  range_ok (e_phoff h) (e_phnum h * e_phentsize h) image_size &&
  negb (e_entry h =? 0) && (e_entry h <? USER_SPACE_TOP).

(** The checks on a PT_LOAD header. *)
Definition phdr_ok (ph : phdr) (image_size : Z) : bool :=
  negb ((p_memsz ph <? p_filesz ph) || (p_memsz ph =? 0)) &&
  range_ok (p_offset ph) (p_filesz ph) image_size &&
  range_ok (p_vaddr ph) (p_memsz ph) USER_SPACE_TOP &&
  ((p_align ph =? 0) || (p_align ph =? PAGE_SIZE)).

Definition segment_flags (ph : phdr) : Z :=
  let f := if has (p_flags ph) PF_W then VMM_USER .| VMM_WRITE else VMM_USER in
  if has (p_flags ph) PF_X then f else f .| VMM_NX.

Section Elf.
Context {S : Type} `{FA : FrameAllocator S}.
Implicit Types v : vm S.

Definition map_segment_page (pml4 virt : Z) (file : list Z) (ph : phdr) : M (vm S) Z :=
  phys ← alloc_frame;
  if phys =? PMM_ALLOC_FAILED then mret (-1)
  else
    zero_page phys;;
    let page_start := ALIGN_DOWN virt PAGE_SIZE in
    let page_end := u64 (page_start + PAGE_SIZE) in
    let seg_file_start := p_vaddr ph in
    let seg_file_end := u64 (p_vaddr ph + p_filesz ph) in
    let copy_start := MAX page_start seg_file_start in
    let copy_end := MIN page_end seg_file_end in
    ok ← (if copy_start <? copy_end then
            let file_off := u64 (p_offset ph + (copy_start - p_vaddr ph)) in
            if negb (range_ok file_off (copy_end - copy_start) (len file)) then mret false
            else
              modify (λ v, set_mem (store_bytes (vm_mem v) (phys + (copy_start - page_start))
                                     (slice file file_off (copy_end - copy_start))) v);;
              mret true
          else mret true);
    if negb ok then free_frame phys;; mret (-1)
    else
      rc ← vmm_map_page pml4 page_start phys (segment_flags ph);
      if negb (rc =? 0) then free_frame phys;; mret (-1) else mret 0.

(** [for (page = first; page < last; page += PAGE_SIZE)]; [true] is the early return. *)
Fixpoint load_pages (n : nat) (pml4 page : Z) (file : list Z) (ph : phdr) : M (vm S) bool :=
  match n with
  | O => mret false
  | Datatypes.S n' =>
      rc ← map_segment_page pml4 page file ph;
      if negb (rc =? 0) then mret true else load_pages n' pml4 (page + PAGE_SIZE) file ph
  end.

Definition first_page (ph : phdr) : Z := ALIGN_DOWN (p_vaddr ph) PAGE_SIZE.
Definition last_page (ph : phdr) : Z := ALIGN_UP (p_vaddr ph + p_memsz ph) PAGE_SIZE.
Definition page_count (ph : phdr) : nat := Z.to_nat ((last_page ph - first_page ph + PAGE_SIZE - 1) / PAGE_SIZE).

(** The loop over the program headers: [highest] and [saw_load] at its end. *)
Fixpoint load_segments (phs : list phdr) (pml4 : Z) (file : list Z) (highest : Z) (saw_load : bool)
    : M (vm S) (option (Z * bool)) :=
  match phs with
  | [] => mret (Some (highest, saw_load))
  | ph :: phs' =>
      if negb (p_type ph =? PT_LOAD) then load_segments phs' pml4 file highest saw_load
      else if negb (phdr_ok ph (len file)) then mret None
      else
        failed ← load_pages (page_count ph) pml4 (first_page ph) file ph;
        if failed : bool then mret None
        else load_segments phs' pml4 file (MAX (p_vaddr ph + p_memsz ph) highest) true
  end.

Definition read_phdrs (file : list Z) : list phdr :=
  let h := read_ehdr file in
  map (λ i, read_phdr file (e_phoff h + sizeof_phdr * Z.of_nat i)) (seq 0 (Z.to_nat (e_phnum h))).

(** [entry] and [brk_base]. *)
Definition elf_load_user_image (pml4 : Z) (file : list Z) : M (vm S) (option (Z * Z)) :=
  if len file <? sizeof_ehdr then mret None
  else
    let h := read_ehdr file in
    if negb (ehdr_ok h (len file)) then mret None
    else
      r ← load_segments (read_phdrs file) pml4 file 0 false;
      match r with
      | Some (highest, true) => mret (Some (e_entry h, ALIGN_UP highest PAGE_SIZE))
      | _ => mret None
      end.

(** The new root with what the task needs, and the frame of the stack page. *)
Definition load_user_image (file : list Z) : M (vm S) (option (loaded * Z)) :=
  if len file =? 0 then mret None
  else
    pml4 ← vmm_create_address_space;
    if pml4 =? 0 then mret None
    else
      img ← elf_load_user_image pml4 file;
      match img with
      | None => vmm_destroy_user_address_space pml4;; mret None
      | Some (entry, brk_base) =>
          stack_phys ← alloc_frame;
          if stack_phys =? PMM_ALLOC_FAILED then vmm_destroy_user_address_space pml4;; mret None
          else
            zero_page stack_phys;;
            rc ← vmm_map_page pml4 (TASK_USER_STACK_TOP - PAGE_SIZE) stack_phys (VMM_USER .| VMM_WRITE .| VMM_NX);
            if negb (rc =? 0) then
              free_frame stack_phys;; vmm_destroy_user_address_space pml4;; mret None
            else mret (Some (Loaded pml4 entry brk_base, stack_phys))
      end.

End Elf.
