(* ===== verification/ElfProps.v ===== *)
(** * ELF loader: properties *)

From Stdlib Require Import ZArith Lia.
From S2P Require Import Prelude Memory Frames Pmm PmmInv PmmProps Vmm VmmInv VmmOps VmmBuild VmmInit VmmSpace VmmCow VmmProps.
From S2P Require Import Uaccess UaccessInv UaccessWrite UaccessProps Kbd Vfs Sched Usermem UsermemInv UsermemProps Elf.
Import StringC.

(** ** What an image describes *)

(** The byte of segment [ph] at address [a]: the file's bytes, then zeros. *)
Definition seg_byte (file : list Z) (ph : phdr) (a : Z) : Z :=
  if in_block (p_vaddr ph) (p_filesz ph) a
  then default 0 (file !! Z.to_nat (p_offset ph + (a - p_vaddr ph))) else 0.

Definition covers (ph : phdr) (a : Z) : bool :=
  (p_type ph =? PT_LOAD) && in_block (first_page ph) (last_page ph - first_page ph) a.

(** The segment that provides the page of [a]: the last one that covers it. *)
Fixpoint owner (phs : list phdr) (a : Z) : option phdr :=
  match phs with
  | [] => None
  | ph :: phs' => match owner phs' a with
                  | Some q => Some q
                  | None => if covers ph a then Some ph else None
                  end
  end.

(** The end of the highest segment. *)
Definition top_of (phs : list phdr) : Z :=
  foldl (λ t ph, if p_type ph =? PT_LOAD then MAX (p_vaddr ph + p_memsz ph) t else t) 0 phs.

Definition loads (phs : list phdr) : list phdr := filter (λ ph, p_type ph = PT_LOAD) phs.

(** The image passes all checks. *)
Definition elf_valid (file : list Z) : bool :=
  (sizeof_ehdr <=? len file) && ehdr_ok (read_ehdr file) (len file) &&
  forallb (λ ph, phdr_ok ph (len file)) (loads (read_phdrs file)) && negb (bool_decide (loads (read_phdrs file) = [])).

(** ** Fields *)

Lemma le_value_nonneg l : Forall (λ c, 0 <= c < 2^8) l → 0 <= le_value l.
Proof. induction 1; simpl; lia. Qed.

Lemma field_nonneg file off n : Forall (λ c, 0 <= c < 2^8) file → 0 <= field file off n.
Proof. intros H. apply le_value_nonneg. by apply Forall_take, Forall_drop. Qed.

Definition phdr_nonneg (ph : phdr) : Prop := 0 <= p_offset ph ∧ 0 <= p_vaddr ph ∧ 0 <= p_filesz ph ∧ 0 <= p_memsz ph.

Lemma read_phdrs_nonneg file : Forall (λ c, 0 <= c < 2^8) file → Forall phdr_nonneg (read_phdrs file).
Proof.
  intros H. unfold read_phdrs. apply Forall_forall. intros ph (i & -> & _)%list_elem_of_fmap.
  unfold phdr_nonneg. simpl. split_and!; by apply field_nonneg.
Qed.

Lemma range_ok_true start size limit : range_ok start size limit = true ↔ size <= limit ∧ start <= limit - size.
Proof. unfold range_ok. by rewrite andb_true_iff, !Z.leb_le. Qed.

(** A checked segment: its numbers do not wrap. *)
Record seg_ok (ph : phdr) (n : Z) : Prop := {
  seg_nonneg : phdr_nonneg ph;
  seg_sizes : p_filesz ph <= p_memsz ph ∧ 0 < p_memsz ph;
  seg_file : p_offset ph + p_filesz ph <= n;
  seg_space : p_vaddr ph + p_memsz ph <= USER_SPACE_TOP;
}.

Lemma phdr_ok_seg ph n : phdr_nonneg ph → phdr_ok ph n = true → seg_ok ph n.
Proof.
  intros Hn. unfold phdr_ok. intros H. repeat apply andb_true_iff in H as [H ?]. b2p.
  repeat match goal with H : range_ok _ _ _ = true |- _ => apply range_ok_true in H as [? ?] end.
  unfold phdr_nonneg in Hn. split; [done|lia..].
Qed.

Section Segment.
Context (file : list Z) (ph : phdr) (Hseg : seg_ok ph (len file)).

Lemma seg_pages :
  first_page ph mod PAGE_SIZE = 0 ∧ last_page ph mod PAGE_SIZE = 0 ∧
  0 <= first_page ph <= p_vaddr ph ∧ p_vaddr ph + p_memsz ph <= last_page ph <= USER_SPACE_TOP ∧
  first_page ph + PAGE_SIZE * Z.of_nat (page_count ph) = last_page ph.
Proof.
  destruct Hseg as [(H1 & H2 & H3 & H4) [H5 H6] H7 H8].
  destruct (page_down (p_vaddr ph)) as [Hf Hf']; [page_lia|]. fold (first_page ph) in Hf, Hf'.
  destruct (page_up (p_vaddr ph + p_memsz ph)) as [Hl Hl']; [page_lia|]. fold (last_page ph) in Hl, Hl'.
  destruct (page_rounds_aligned (first_page ph) (last_page ph) Hf Hl ltac:(lia)) as [_ Hr].
  unfold page_count. fold (page_rounds (first_page ph) (last_page ph)).
  split_and!; try done; try lia. page_lia.
Qed.

End Segment.

Lemma segment_flags_user ph : has (segment_flags ph) VMM_USER = true.
Proof. unfold segment_flags. by destruct (has (p_flags ph) PF_W), (has (p_flags ph) PF_X). Qed.

Section ElfProps.
Context {S : Type} `{FA : FrameAllocator S}.
Implicit Types v : vm S.

(** ** One page *)

Lemma map_segment_steps v r va file ph : space_ok v r → Forall (λ c, 0 <= c < 2^8) file → len file < 2^63 →
  seg_ok ph (len file) → va mod PAGE_SIZE = 0 → 0 <= va → va + PAGE_SIZE <= USER_SPACE_TOP →
  wp (map_segment_page r va file ph) (λ rc v',
    space_ok v' r ∧ keeps None r v v' ∧
    ((rc = 0 ∧ ∃ f, is_frame f ∧
        (∀ vb, 0 <= vb < USER_SPACE_TOP → vpage vb = vpage va →
           read8 (vm_mem v') (f + vb mod PAGE_SIZE) = seg_byte file ph vb) ∧
        ∀ vb, vleaf (vm_mem v') r vb =
          if vpage vb =? vpage va then Some (false, leaf_entry f (segment_flags ph)) else vleaf (vm_mem v) r vb) ∨
     (rc = -1 ∧ (fa_avail (vm_pmm v') <= 1 ∨ pd_huge (vm_mem v') r va)))) v.
Proof.
  intros Hs Hbytes Hlen Hseg Hal Hva Htop. pose proof (so_root _ _ Hs) as Hok. pose proof Hok as [Hfa _].
  destruct Hseg as [(H1 & H2 & H3 & H4) [H5 H6] H7 H8].
  unfold map_segment_page, alloc_frame, on_pmm. repeat wp_step.
  eapply wp_mono; [by apply fa_alloc_spec|].
  intros f s1 [(-> & -> & Hav)|(Hf & Hf0 & Hfa1 & Hrc1 & _ & _)].
  { rewrite Z.eqb_refl. apply wp_ret. assert (set_pmm (vm_pmm v) v = v) as -> by (by destruct v).
    split; [done|]. split; [by apply keeps_refl|]. right. split; [done|]. left. lia. }
  rewrite (proj2 (Z.eqb_neq _ _)) by (by apply is_frame_not_failed).
  assert (ALIGN_DOWN va PAGE_SIZE = va) as -> by (rewrite align_page by page_lia; page_lia).
  rewrite !u64_small by page_lia.
  set (cs := MAX va (p_vaddr ph)). set (ce := MIN (va + PAGE_SIZE) (p_vaddr ph + p_filesz ph)).
  assert (va <= cs ∧ p_vaddr ph <= cs ∧ (cs = va ∨ cs = p_vaddr ph)) as Hcs by (unfold cs, MAX; case_if; lia).
  assert (ce <= va + PAGE_SIZE ∧ ce <= p_vaddr ph + p_filesz ph ∧
    (ce = va + PAGE_SIZE ∨ ce = p_vaddr ph + p_filesz ph)) as Hce by (unfold ce, MIN; case_if; lia).
  clearbody cs ce. unfold zero_page. apply wp_bind, wp_modify. simpl.
  assert (∀ vb, 0 <= vb < USER_SPACE_TOP → vpage vb = vpage va → vb mod PAGE_SIZE = vb - va ∧ va <= vb < va + PAGE_SIZE) as Hpg.
  { intros vb Hvb E. rewrite !user_vpage in E by page_lia. page_lia. }
  assert (∀ m2, (∀ b, ¬ page_range f b → read8 m2 b = read8 (vm_mem v) b) →
    (∀ vb, 0 <= vb < USER_SPACE_TOP → vpage vb = vpage va → read8 m2 (f + vb mod PAGE_SIZE) = seg_byte file ph vb) →
    wp (rc ← vmm_map_page r va f (segment_flags ph);
        if negb (rc =? 0) then free_frame f;; mret (-1) else mret 0) (λ rc v',
      space_ok v' r ∧ keeps None r v v' ∧
      ((rc = 0 ∧ ∃ f, is_frame f ∧
        (∀ vb, 0 <= vb < USER_SPACE_TOP → vpage vb = vpage va →
           read8 (vm_mem v') (f + vb mod PAGE_SIZE) = seg_byte file ph vb) ∧
        ∀ vb, vleaf (vm_mem v') r vb =
          if vpage vb =? vpage va then Some (false, leaf_entry f (segment_flags ph)) else vleaf (vm_mem v) r vb) ∨
     (rc = -1 ∧ (fa_avail (vm_pmm v') <= 1 ∨ pd_huge (vm_mem v') r va)))) (set_mem m2 (set_pmm s1 v))) as Hinst.
  { intros m2 Hm Hc. destruct (fresh_page v r f s1 m2 Hok Hf Hf0 Hfa1 Hrc1 Hm) as (K2 & Own2 & L2).
    eapply wp_mono; [by apply (install_steps v r f Hs Hf Hf0 (set_mem m2 (set_pmm s1 v)))|].
    intros rc v' (Hs' & K & [(-> & Hb & L)|(-> & Hwhy & _)]); (split; [done|]; split; [done|]); [left|by right].
    split; [done|]. exists f. split; [done|]. split; [|done]. intros vb Hvb E.
    rewrite Hb; [by apply Hc|]. destruct (Hpg vb Hvb E). unfold page_range. lia. }
  destruct (cs <? ce) eqn:Ecopy; b2p.
  - rewrite u64_small by lia.
    assert (range_ok (p_offset ph + (cs - p_vaddr ph)) (ce - cs) (len file) = true) as ->
      by (apply range_ok_true; lia). simpl. repeat wp_step. simpl.
    set (bs := slice file (p_offset ph + (cs - p_vaddr ph)) (ce - cs)).
    assert (len bs = ce - cs) as Hbs by (apply slice_length; lia).
    apply (Hinst (store_bytes (memset (vm_mem v) f 0 PAGE_SIZE) (f + (cs - va)) bs)).
    + intros b Hb. rewrite read8_store_bytes, Hbs. block; [destruct Hb; unfold page_range, PAGE_SIZE in *; lia|].
      by apply read8_zero_page_ne.
    + intros vb Hvb E. destruct (Hpg vb Hvb E) as [-> Hr]. unfold seg_byte.
      rewrite read8_store_bytes, Hbs, read8_memset by done. block; try lia; try done.
      unfold bs. rewrite slice_bytes by done. unfold slice. rewrite lookup_take_lt by lia. rewrite lookup_drop.
      do 2 f_equal. lia.
  - repeat wp_step. simpl. apply (Hinst (memset (vm_mem v) f 0 PAGE_SIZE)).
    + intros b. apply read8_zero_page_ne.
    + intros vb Hvb E. destruct (Hpg vb Hvb E) as [-> Hr]. unfold seg_byte.
      rewrite read8_memset by done. block; try lia; try done.
Qed.

(** Why a page could not be added. *)
Definition no_room (v : vm S) (r va : Z) : Prop := fa_avail (vm_pmm v) <= 1 ∨ pd_huge (vm_mem v) r va.

Lemma load_pages_steps r file ph : Forall (λ c, 0 <= c < 2^8) file → len file < 2^63 → seg_ok ph (len file) →
  ∀ n v va, space_ok v r → va mod PAGE_SIZE = 0 → 0 <= va → va + PAGE_SIZE * Z.of_nat n <= USER_SPACE_TOP →
  wp (load_pages n r va file ph) (λ failed v', space_ok v' r ∧ keeps None r v v' ∧
    if failed : bool then ∃ vb, va <= vb < va + PAGE_SIZE * Z.of_nat n ∧ no_room v' r vb
    else filled r va (Z.of_nat n) (segment_flags ph) (seg_byte file ph) v v') v.
Proof.
  intros Hbytes Hlen Hseg. induction n as [|n IH]; intros v va Hs Hal Hva Htop; cbn [load_pages].
  { apply wp_ret. split; [done|]. split; [apply keeps_refl, Hs|]. apply filled_none; [done|done|apply keeps_refl, Hs|done]. }
  apply wp_bind. eapply wp_mono; [apply (map_segment_steps v r va file ph); (done || page_lia)|].
  intros rc v1 (Hs1 & K1 & [(-> & f & Hf & Hc & Hl)|(-> & Hwhy)]); simpl.
  - eapply wp_mono; [apply (IH v1 (va + PAGE_SIZE)); [done| |page_lia|page_lia]|].
    { rewrite <- Z.add_mod_idemp_l by done. by rewrite Hal. }
    intros failed v' (Hs' & K & Hres). split; [done|]. split; [by eapply space_keeps_trans|].
    destruct failed; [destruct Hres as (vb & ? & ?); exists vb; split; [page_lia|done]|].
    replace (Z.of_nat (Datatypes.S n)) with (Z.of_nat n + 1) by lia.
    by eapply (filled_cons r va _ _ _ f v v1 v'); [apply segment_flags_user|page_lia|lia|..].
  - apply wp_ret. split; [done|]. split; [done|]. exists va. split; [page_lia|done].
Qed.

(** ** All segments *)

(** The pages of the image are in place in [v'], the rest is as in [v]. *)
Definition loaded_from (r : Z) (file : list Z) (phs : list phdr) (v v' : vm S) : Prop :=
  ∀ a, 0 <= a < USER_SPACE_TOP →
    match owner phs a with
    | Some ph => vmm_get_flags (vm_mem v') r a = (segment_flags ph .& ~64 VMM_PHYS_MASK) .| VMM_PRESENT ∧
                 ubyte (vm_mem v') r a = seg_byte file ph a
    | None => vleaf (vm_mem v') r a = vleaf (vm_mem v) r a ∧
              (user_ok (vm_mem v) r a = true → ubyte (vm_mem v') r a = ubyte (vm_mem v) r a)
    end.

Lemma load_segment_first r file ph phs v v1 v' : p_type ph = PT_LOAD → seg_ok ph (len file) →
  root_ok v r → space_ok v1 r → root_ok v' r →
  filled r (first_page ph) (Z.of_nat (page_count ph)) (segment_flags ph) (seg_byte file ph) v v1 →
  loaded_from r file phs v1 v' → loaded_from r file (ph :: phs) v v'.
Proof.
  intros Ht Hseg Hokv Hs1 Hok' (_ & _ & Hin & Hout & Hby) Hrest a Ha. specialize (Hrest a Ha). simpl.
  destruct (owner phs a) as [q|] eqn:E; [done|]. destruct Hrest as [Hl Hb].
  destruct (seg_pages file ph Hseg) as (Hf & _ & _ & _ & Hcnt).
  assert (covers ph a = in_pages (first_page ph) (Z.of_nat (page_count ph)) a) as ->.
  { unfold covers. rewrite Ht. simpl. rewrite in_pages_user by done. f_equal. lia. }
  destruct (in_pages _ _ a) eqn:Ein.
  - destruct (Hin a Ha Ein) as [Hfl Hc].
    assert (user_ok (vm_mem v1) r a = true) as Hok
      by (unfold user_ok; rewrite Hfl; apply page_flags_user, segment_flags_user).
    rewrite (Hb Hok). split; [|done].
    by rewrite <- Hfl, (get_flags_leaf _ _ _ (proj2 Hok')), (get_flags_leaf _ _ _ (proj2 (so_root _ _ Hs1))), Hl.
  - split; [by rewrite Hl, Hout|]. intros Hok.
    rewrite Hb; [by apply Hby|]. rewrite (leaf_user_ok r v v1 a); [done|done|apply Hs1|by apply Hout].
Qed.

Lemma load_segments_steps r file : Forall (λ c, 0 <= c < 2^8) file → len file < 2^63 →
  ∀ phs v highest saw, space_ok v r → Forall phdr_nonneg phs →
  wp (load_segments phs r file highest saw) (λ res v', space_ok v' r ∧ keeps None r v v' ∧
    match res with
    | Some (h, b) => Forall (λ ph, phdr_ok ph (len file) = true) (loads phs) ∧
        h = foldl (λ t ph, if p_type ph =? PT_LOAD then MAX (p_vaddr ph + p_memsz ph) t else t) highest phs ∧
        b = saw || negb (bool_decide (loads phs = [])) ∧ loaded_from r file phs v v'
    | None => Exists (λ ph, phdr_ok ph (len file) = false ∨ ∃ va, covers ph va = true ∧ no_room v' r va) (loads phs)
    end) v.
Proof.
  intros Hbytes Hlen. induction phs as [|ph phs IH]; intros v highest saw Hs Hnn; cbn [load_segments].
  { apply wp_ret. split; [done|]. split; [apply keeps_refl, Hs|]. split; [constructor|]. split; [done|].
    split; [by rewrite orb_false_r|]. done. }
  apply Forall_cons in Hnn as [Hph Hnn]. unfold loads. rewrite filter_cons. cbn [foldl].
  destruct (Z.eqb_spec (p_type ph) PT_LOAD) as [Ht|Ht]; simpl.
  2: { rewrite decide_False by done. eapply wp_mono; [by apply IH|].
       intros res v' (Hs' & K & Hres). split; [done|]. split; [done|]. destruct res as [[h b]|]; [|done].
       destruct Hres as (Hall & Hh & Hb & Hld). split; [done|]. split; [done|]. split; [done|].
       intros a Ha. specialize (Hld a Ha). simpl. unfold covers. rewrite (proj2 (Z.eqb_neq _ _) Ht). simpl.
       by destruct (owner phs a). }
  rewrite decide_True by done. destruct (phdr_ok ph (len file)) eqn:Hpok; simpl.
  2: { apply wp_ret. split; [done|]. split; [apply keeps_refl, Hs|]. apply Exists_cons. left. by left. }
  pose proof (phdr_ok_seg ph (len file) Hph Hpok) as Hseg. destruct (seg_pages file ph Hseg) as (Hf & Hl & Hf0 & Hl0 & Hcnt).
  apply wp_bind. eapply wp_mono; [apply (load_pages_steps r file ph Hbytes Hlen Hseg); [done|done|lia|lia]|].
  intros failed v1 (Hs1 & K1 & Hres). destruct failed.
  { apply wp_ret. split; [done|]. split; [done|]. apply Exists_cons. left. right. destruct Hres as (va & Hva & Hno).
    exists va. split; [|done]. unfold covers. rewrite Ht. simpl. apply in_block_true. lia. }
  eapply wp_mono; [by apply IH|]. intros res v' (Hs' & K & Hres'). split; [done|]. split; [by eapply space_keeps_trans|].
  destruct res as [[h b]|].
  - destruct Hres' as (Hall & Hh & Hb & Hld). split; [by constructor|]. split; [done|]. split; [by rewrite Hb, orb_true_r|].
    eapply load_segment_first; [done|done|apply Hs|exact Hs1|apply Hs'|exact Hres|exact Hld].
  - apply Exists_cons. by right.
Qed.


End ElfProps.

(** ** A concrete image *)

Fixpoint le_bytes (n : nat) (x : Z) : list Z :=
  match n with O => [] | S n' => x mod 2^8 :: le_bytes n' (x / 2^8) end.

(** One segment at [vaddr]: four bytes of code and zeros up to 5000 bytes. *)
Definition sample_elf (vaddr : Z) : list Z :=
  [0x7f; 69; 76; 70; 2; 1; 1] ++ replicate 9 0 ++ le_bytes 2 2 ++ le_bytes 2 62 ++ le_bytes 4 1 ++
  le_bytes 8 vaddr ++ le_bytes 8 64 ++ le_bytes 8 0 ++ le_bytes 4 0 ++ le_bytes 2 64 ++ le_bytes 2 56 ++
  le_bytes 2 1 ++ le_bytes 6 0 ++
  le_bytes 4 1 ++ le_bytes 4 5 ++ le_bytes 8 120 ++ le_bytes 8 vaddr ++ le_bytes 8 vaddr ++ le_bytes 8 4 ++
  le_bytes 8 5000 ++ le_bytes 8 4096 ++ [0x0f; 0x05; 0xeb; 0xfe].

Definition sample_image : list Z := sample_elf 0x40000078.

Lemma sample_image_bytes : Forall (λ c, 0 <= c < 2^8) sample_image ∧ len sample_image < 2^63.
Proof.
  split; [|vm_compute; reflexivity]. apply (bool_decide_unpack _). vm_compute. exact I.
Qed.

Abbreviation load_sample := (elf_load_user_image space_root sample_image).
Definition elf_vm : vm pmm_state := run load_sample user_vm.
Lemma elf_vm_run (Q : option (Z * Z) → vm pmm_state → Prop) :
  wp load_sample Q user_vm → Q (result load_sample user_vm None) elf_vm.
Proof. unfold elf_vm. exact (run_wp load_sample Q user_vm None). Qed.
Lemma load_sample_ret : result load_sample user_vm None = Some (0x40000078, 0x40002000).
Proof. vm_compute. reflexivity. Qed.
#[global] Opaque elf_vm.


(** An image linked at an address in the first 2 MiB replaces the kernel's own page
    there, in every address space. *)
Example elf_replaces_kernel_page :
  let v' := run (elf_load_user_image space_root (sample_elf 0x120078)) user_vm in
  vmm_get_physical (vm_mem user_vm) (kernel_pml4 boot_vm) 0x120000 = 0x120000 ∧
  vmm_get_physical (vm_mem v') (kernel_pml4 boot_vm) 0x120000 ≠ 0x120000.
Proof. vm_compute. split; congruence. Qed.
