(* ===== verification/Syscall.v ===== *)
(** * System calls ([kernel/syscall/syscall.c]): handlers and dispatch

    The kernel's state is that of its parts: memory and page tables, tasks, files, the
    characters the keyboard will deliver and those written to the console.  CR3 is one
    register: a task switch loads it in [k_vm] too.  A handler returns its code and
    the frame it leaves, or the caller is suspended (it exits, or blocks and will
    issue the call again when it runs).

    The heap's answers are parameters: [can_alloc], [fresh] and [stack_tail] as in
    [Vfs.v], [new_task] the address and kernel stack of a new task, [exec_alloc]
    whether execve gets its argument buffer, [stack_byte] the byte behind an
    unterminated name. *)

From Stdlib Require Import ZArith Lia.
From S2P Require Import Prelude Memory Frames Vmm Uaccess Kbd Vfs Path Exec Sched Usermem Elf.
Import StringC.

Definition EBADF : Z := 9.
Definition ENOENT : Z := 2.
Definition ENOEXEC : Z := 8.
Definition ENOSYS : Z := 38.
Definition ERANGE : Z := 34.

Definition SYS_READ : Z := 0.
Definition SYS_WRITE : Z := 1.
Definition SYS_OPEN : Z := 2.
Definition SYS_CLOSE : Z := 3.
Definition SYS_MMAP : Z := 9.
Definition SYS_MUNMAP : Z := 11.
Definition SYS_BRK : Z := 12.
Definition SYS_SCHED_YIELD : Z := 24.
Definition SYS_GETPID : Z := 39.
Definition SYS_FORK : Z := 57.
Definition SYS_EXECVE : Z := 59.
Definition SYS_EXIT : Z := 60.
Definition SYS_WAITPID : Z := 61.
Definition SYS_READDIR : Z := 78.
Definition SYS_PROCINFO : Z := 79.
Definition SYS_CHDIR : Z := 80.
Definition SYS_GETCWD : Z := 81.
Definition SYS_CREAT : Z := 82.
Definition SYS_DUP2 : Z := 83.

Record kernel (S : Type) := Kernel {
  k_vm : vm S;
  k_sched : sched;
  k_fs : vfs;
  k_keys : list Z;
  k_out : list Z;
}.
Arguments Kernel {S}.
Arguments k_vm {S}.
Arguments k_sched {S}.
Arguments k_fs {S}.
Arguments k_keys {S}.
Arguments k_out {S}.

(** How a call ends for the caller. *)
Inductive outcome := Returns (ret : Z) | Suspended.

(** The fields of a task that system calls change. *)
Definition set_files (fs : list file) (t : task) : task :=
  Task (t_kstack t) (t_cr3 t) (t_pid t) (t_state t) (t_name t) (t_stack_base t) (t_user_mode t) (t_layout t)
    (t_cwd t) fs (t_parent t) (t_exit_code t) (t_ticks t) (t_next t).
Definition set_layout (l : layout) (t : task) : task :=
  Task (t_kstack t) (t_cr3 t) (t_pid t) (t_state t) (t_name t) (t_stack_base t) (t_user_mode t) l
    (t_cwd t) (t_files t) (t_parent t) (t_exit_code t) (t_ticks t) (t_next t).
Definition set_cwd (d : list Z) (t : task) : task :=
  Task (t_kstack t) (t_cr3 t) (t_pid t) (t_state t) (t_name t) (t_stack_base t) (t_user_mode t) (t_layout t)
    d (t_files t) (t_parent t) (t_exit_code t) (t_ticks t) (t_next t).

Definition with_rip_rsp (rip rsp : Z) (f : syscall_frame) : syscall_frame :=
  Frame (fr_r15 f) (fr_r14 f) (fr_r13 f) (fr_r12 f) (fr_r11 f) (fr_r10 f) (fr_r9 f) (fr_r8 f)
    (fr_rbp f) (fr_rdi f) (fr_rsi f) (fr_rdx f) (fr_rcx f) (fr_rbx f) (fr_rax f) rip (user_rflags f) rsp.

Definition pad (n : Z) (s : list Z) : list Z := s ++ replicate (Z.to_nat (n - len s)) 0.
Definition info_bytes (i : task_info) : list Z :=
  to_le 4 (ti_pid i) ++ to_le 4 (ti_ppid i) ++ to_le 4 (ti_state i) ++ to_le 4 (ti_user_mode i) ++
  to_le 8 (ti_ticks i) ++ pad TASK_NAME_MAX (ti_name i).

Definition type_number (t : vnode_type) : Z :=
  match t with VFS_FILE => 0 | VFS_DIR => 1 | VFS_DEVICE => 2 | VFS_SYMLINK => 3 end.

(** [strrchr(path, '/')] and the name after it. *)
Definition base_name (path : list Z) : list Z :=
  match break_last path with Some (_, name) => name | None => path end.

Section Syscall.
Context {S : Type} `{FA : FrameAllocator S}.
Context (can_alloc : Z → vfs → bool) (fresh : vfs → array) (stack_tail : list Z).
Context (new_task : kernel S → option (nat * Z)) (exec_alloc : kernel S → bool) (stack_byte : Z).

Definition set_vm (v : vm S) (k : kernel S) : kernel S := Kernel v (k_sched k) (k_fs k) (k_keys k) (k_out k).
Definition set_sched (s : sched) (k : kernel S) : kernel S :=
  Kernel (set_cr3 (reg_cr3 s) (k_vm k)) s (k_fs k) (k_keys k) (k_out k).
Definition set_fs (f : vfs) (k : kernel S) : kernel S := Kernel (k_vm k) (k_sched k) f (k_keys k) (k_out k).
Definition set_keys (l : list Z) (k : kernel S) : kernel S := Kernel (k_vm k) (k_sched k) (k_fs k) l (k_out k).
Definition print (l : list Z) (k : kernel S) : kernel S :=
  Kernel (k_vm k) (k_sched k) (k_fs k) (k_keys k) (k_out k ++ l).

Definition in_vm {A} (c : M (vm S) A) : M (kernel S) A := zoom k_vm set_vm c.

(** [current_task], with its address. *)
Definition current (k : kernel S) : option (nat * task) :=
  c ← current_task (k_sched k); t ← tasks (k_sched k) !! c; Some (c, t).
Definition change_task (c : nat) (f : task → task) : M (kernel S) () :=
  modify (λ k, Kernel (k_vm k) (update_task f c (k_sched k)) (k_fs k) (k_keys k) (k_out k)).

(** [!current_task || !current_task->files[fd].valid] *)
Definition fd_unused (cur : option (nat * task)) (fd : Z) : bool :=
  match cur with Some (_, t) => negb (bool_decide (is_Some (get_file (t_files t) fd))) | None => true end.

(** ** Files *)

Definition CHUNK : Z := 128.

(** [while (done < count)]; every round writes at least one byte. *)
Fixpoint write_loop (fuel : nat) (fd src done count : Z) : M (kernel S) Z :=
  if done <? count then
    match fuel with
    | O => no_fuel
    | Datatypes.S f =>
        let n := MIN CHUNK (count - done) in
        r ← in_vm (copy_from_user (replicate (Z.to_nat n) 0) (u64 (src + done)) n);
        if r.1 <? 0 then mret r.1
        else
          cur ← gets current;
          if ((fd =? 1) || (fd =? 2)) && fd_unused cur fd then
            modify (print r.2);; write_loop f fd src (done + n) count
          else
            match cur with
            | None => mret (- EBADF)
            | Some (c, t) =>
                fs ← gets k_fs;
                let '(written, files, fs') := vfs_write_in can_alloc fresh fs (t_files t) fd r.2 in
                change_task c (set_files files);;
                modify (set_fs fs');;
                if written <? 0 then mret (- EBADF)
                else if written =? 0 then mret done
                else write_loop f fd src (done + written) count
            end
    end
  else mret done.
Definition sys_write_impl (fd user_buf count : Z) : M (kernel S) Z :=
  write_loop (Z.to_nat count) fd user_buf 0 count.

(** [kbd_getchar()]: the next character of the keyboard; the call does not return
    before there is one. *)
Definition kbd_next : M (kernel S) Z :=
  l ← gets k_keys;
  match l with c :: l' => modify (set_keys l');; mret c | [] => no_fuel end.

Fixpoint key_loop (n : nat) (dst i count : Z) : M (kernel S) Z :=
  match n with
  | O => mret count
  | Datatypes.S n' =>
      c ← kbd_next;
      rc ← in_vm (copy_to_user (u64 (dst + i)) [c] 1);
      if rc <? 0 then mret rc
      else if (c =? 10) || (c =? 13) then mret (i + 1)
      else key_loop n' dst (i + 1) count
  end.

Fixpoint read_loop (fuel : nat) (fd dst done count : Z) : M (kernel S) Z :=
  if done <? count then
    match fuel with
    | O => no_fuel
    | Datatypes.S f =>
        let n := MIN CHUNK (count - done) in
        cur ← gets current;
        match cur with
        | None => mret (- EBADF)
        | Some (c, t) =>
            fs ← gets k_fs;
            let '(read, data, files) := vfs_read_in fs (t_files t) fd n in
            change_task c (set_files files);;
            if read <? 0 then mret (- EBADF)
            else if read =? 0 then mret done
            else
              rc ← in_vm (copy_to_user (u64 (dst + done)) data read);
              if rc <? 0 then mret rc
              else if read <? n then mret (done + read)
              else read_loop f fd dst (done + read) count
        end
    end
  else mret done.

Definition sys_read_impl (fd user_buf count : Z) : M (kernel S) Z :=
  cur ← gets current;
  if (fd =? 0) && fd_unused cur 0 then key_loop (Z.to_nat count) user_buf 0 count
  else read_loop (Z.to_nat count) fd user_buf 0 count.

(** [copy_user_string] into a path buffer, then [resolve_path]. *)
Definition user_path (user : Z) : M (kernel S) (Z + list Z) :=
  raw ← in_vm (copy_user_string user VFS_MAX_PATH);
  if raw.1 <? 0 then mret (inl raw.1)
  else
    cur ← gets current;
    mret (resolve_path ((λ ct, t_cwd ct.2) <$> cur) raw.2 VFS_MAX_PATH).

Definition sys_open_impl (user : Z) : M (kernel S) Z :=
  p ← user_path user;
  match p with
  | inl rc => mret rc
  | inr path =>
      cur ← gets current;
      match cur with
      | None => mret (- EBADF)
      | Some (c, t) =>
          fs ← gets k_fs;
          let '(fd, files) := vfs_open_in stack_tail fs (t_files t) path in
          change_task c (set_files files);; mret fd
      end
  end.

Definition sys_close_impl (fd : Z) : M (kernel S) Z :=
  cur ← gets current;
  match cur with
  | None => mret (- EBADF)
  | Some (c, t) =>
      if negb (bool_decide (is_Some (get_file (t_files t) fd))) then mret (- EBADF)
      else change_task c (set_files (vfs_close_in (t_files t) fd));; mret 0
  end.

Definition name_bytes (name : list Z) : list Z :=
  if len name <? VFS_NAME_MAX - 1 then pad VFS_NAME_MAX name else name ++ [stack_byte].

Definition sys_readdir_impl (user idx user_name user_type : Z) : M (kernel S) Z :=
  p ← user_path user;
  match p with
  | inl rc => mret rc
  | inr path =>
      if (user_name =? 0) || (user_type =? 0) then mret (- EFAULT)
      else
        fs ← gets k_fs;
        match vfs_readdir stack_tail fs path idx with
        | None => mret (- ENOENT)
        | Some (name, type) =>
            rc ← in_vm (copy_to_user user_name (name_bytes name) VFS_NAME_MAX);
            if rc <? 0 then mret rc
            else
              rc ← in_vm (copy_to_user user_type (to_le 4 (type_number type)) 4);
              if rc <? 0 then mret rc else mret 0
        end
  end.

Definition sys_procinfo_impl (index user_info : Z) : M (kernel S) Z :=
  if user_info =? 0 then mret (- EFAULT)
  else
    info ← gets (λ k, task_get_info index (k_sched k));
    match info with
    | None => mret (- EINVAL)
    | Some i =>
        rc ← in_vm (copy_to_user user_info (info_bytes i) 56);
        mret (if rc <? 0 then rc else 0)
    end.

Definition sys_chdir_impl (user : Z) : M (kernel S) Z :=
  p ← user_path user;
  match p with
  | inl rc => mret rc
  | inr path =>
      fs ← gets k_fs;
      if negb (bool_decide ((vfs_lookup stack_tail fs path ≫= node_type fs) = Some VFS_DIR)) then mret (- ENOENT)
      else
        cur ← gets current;
        match cur with
        | None => mret (- EINVAL)
        | Some (c, _) => change_task c (set_cwd (take (Z.to_nat (VFS_MAX_PATH - 1)) path));; mret 0
        end
  end.

Definition sys_getcwd_impl (user_buf size : Z) : M (kernel S) Z :=
  cur ← gets current;
  match cur with
  | None => mret (- EFAULT)
  | Some (_, t) =>
      if user_buf =? 0 then mret (- EFAULT)
      else
        let n := len (t_cwd t) + 1 in
        if size <? n then mret (- ERANGE)
        else
          rc ← in_vm (copy_to_user user_buf (t_cwd t ++ [0]) n);
          mret (if rc <? 0 then rc else n)
  end.

Definition sys_creat_impl (user : Z) : M (kernel S) Z :=
  p ← user_path user;
  match p with
  | inl rc => mret rc
  | inr path =>
      cur ← gets current;
      match cur with
      | None => mret (- EBADF)
      | Some (c, t) =>
          fs ← gets k_fs;
          let '(rc, fs') := vfs_create_file can_alloc fresh stack_tail path None 0 fs in
          modify (set_fs fs');;
          if negb (rc =? 0) then mret (- ENOENT)
          else
            let '(fd, files) := vfs_open_in stack_tail fs' (t_files t) path in
            change_task c (set_files files);; mret fd
      end
  end.

Definition sys_dup2_impl (oldfd newfd : Z) : M (kernel S) Z :=
  cur ← gets current;
  match cur with
  | None => mret (- EBADF)
  | Some (c, t) =>
      match get_file (t_files t) oldfd with
      | None => mret (- EBADF)
      | Some f =>
          if (newfd <? 0) || (VFS_MAX_FDS <=? newfd) then mret (- EBADF)
          else if oldfd =? newfd then mret newfd
          else change_task c (set_files (<[Z.to_nat newfd := f]> (t_files t)));; mret newfd
      end
  end.

(** ** Memory *)

(** A call that may change the layout of the current task. *)
Definition on_layout (none : Z) (call : task → M (vm S) (Z * layout)) : M (kernel S) Z :=
  cur ← gets current;
  match cur with
  | None => mret none
  | Some (c, t) => r ← in_vm (call t); change_task c (set_layout r.2);; mret r.1
  end.

Definition sys_brk (requested : Z) : M (kernel S) Z :=
  on_layout (- EINVAL) (λ t, sys_brk_impl (t_cr3 t) (t_user_mode t) (t_layout t) requested).
Definition sys_mmap (addr n prot flags fd : Z) : M (kernel S) Z :=
  on_layout MAP_FAILED_RET (λ t, sys_mmap_impl (t_cr3 t) (t_user_mode t) (t_layout t) addr n prot flags fd).
Definition sys_munmap (addr n : Z) : M (kernel S) Z :=
  cur ← gets current;
  match cur with
  | None => mret (- EINVAL)
  | Some (_, t) => in_vm (sys_munmap_impl (t_cr3 t) (t_user_mode t) addr n)
  end.

(** ** Tasks *)

Definition sys_getpid_impl : M (kernel S) Z :=
  gets (λ k, match current k with Some (_, t) => t_pid t | None => 0 end).

Definition sys_sched_yield_impl : M (kernel S) Z :=
  modify (λ k, set_sched (sched_yield (k_sched k)) k);; mret 0.

Definition sys_fork_impl (frame : syscall_frame) : M (kernel S) Z :=
  cur ← gets current;
  match cur with
  | None => mret (- EINVAL)
  | Some (_, t) =>
      if negb (t_user_mode t) then mret (- EINVAL)
      else
        new ← gets new_task;
        match new with
        | None => mret (- ENOMEM)
        | Some _ =>
            root ← in_vm (vmm_clone_user_address_space (t_cr3 t));
            s ← gets k_sched;
            let '(ret, s') := task_fork_from_frame new (if root =? 0 then None else Some root) frame s in
            modify (set_sched s');; mret ret
        end
  end.

Definition sys_exit_impl (code : Z) : M (kernel S) outcome :=
  cur ← gets current;
  match cur with
  | None => mret (Returns 0)
  | Some _ => modify (λ k, set_sched (task_exit code (k_sched k)) k);; mret Suspended
  end.

(** The part of [task_free] that [Sched.v] leaves out. *)
Definition free_space (t : task) : M (vm S) () :=
  if t_user_mode t && negb (t_cr3 t =? 0) then vmm_destroy_user_address_space (t_cr3 t) else mret ().

Definition sys_waitpid_impl (pid user_status options : Z) : M (kernel S) outcome :=
  s ← gets k_sched;
  let dead := find (child_of s (current_task s) pid) (zombie_tasks s) ≫= λ z, tasks s !! z in
  match task_waitpid pid options s with
  | (WaitBlocked, s') => modify (set_sched s');; mret Suspended
  | (WaitDone ret None, s') => modify (set_sched s');; mret (Returns ret)
  | (WaitDone ret (Some status), s') =>
      match dead with Some t => in_vm (free_space t) | None => mret () end;;
      modify (set_sched s');;
      if (0 <? ret) && negb (user_status =? 0) then
        rc ← in_vm (copy_to_user user_status (to_le 4 status) 4);
        mret (Returns (if rc <? 0 then rc else ret))
      else mret (Returns ret)
  end.

(** ** Execve *)

(** The loop over a vector of strings; a vector that does not end in time or a string
    that does not fit is -E2BIG. *)
Fixpoint vector_loop (n : nat) (vec : Z) (i : Z) (acc : list (list Z)) : M (vm S) (Z + list (list Z)) :=
  match n with
  | O => mret (inl (- E2BIG))
  | Datatypes.S n' =>
      r ← copy_from_user (replicate 8 0) (u64 (vec + 8 * i)) 8;
      if r.1 <? 0 then mret (inl r.1)
      else
        let user_str := le_value r.2 in
        if user_str =? 0 then mret (inr acc)
        else
          s ← copy_user_string user_str EXEC_STR_MAX;
          if s.1 =? - S_EINVAL then mret (inl (- E2BIG))
          else if s.1 <? 0 then mret (inl s.1)
          else vector_loop n' vec (i + 1) (acc ++ [s.2])
  end.
Definition collect_exec_vector (user_vec : Z) : M (vm S) (Z + list (list Z)) :=
  if user_vec =? 0 then mret (inr []) else vector_loop (Z.to_nat EXEC_MAX_ARGS) user_vec 0 [].

(** [task_replace_user_elf] of the current task: the page tables around the task's own
    fields. *)
Definition replace_image_of (c : nat) (t : task) (name image : list Z) (stack : mem) (initial_rsp : Z)
    : M (kernel S) (option (Z * Z)) :=
  if negb (t_user_mode t) || (len image =? 0) then mret None
  else
    l ← in_vm (load_user_image image);
    match l with
    | None => mret None
    | Some (l, stack_phys) =>
        s ← gets k_sched;
        match task_replace_user_elf c name (Some l) PAGE_SIZE initial_rsp s with
        | (None, _) => in_vm (vmm_destroy_user_address_space (ld_cr3 l));; mret None
        | (Some r, s') =>
            in_vm (modify (λ v, set_mem (store_bytes (vm_mem v) stack_phys (load_bytes (Z.to_nat PAGE_SIZE) stack 0)) v));;
            modify (set_sched s');;
            (if t_cr3 t =? 0 then mret () else in_vm (vmm_destroy_user_address_space (t_cr3 t)));;
            mret (Some r)
        end
    end.

(** [page] is what the argument buffer holds before it is filled. *)
Definition sys_execve_impl (page : mem) (frame : syscall_frame) (user argv envp : Z)
    : M (kernel S) (Z * syscall_frame) :=
  cur ← gets current;
  match cur with
  | None => mret (- EINVAL, frame)
  | Some (c, t) =>
      if negb (t_user_mode t) then mret (- EINVAL, frame)
      else
        p ← user_path user;
        match p with
        | inl rc => mret (rc, frame)
        | inr path =>
            ok ← gets exec_alloc;
            if negb ok then mret (- ENOMEM, frame)
            else
              a ← in_vm (collect_exec_vector argv);
              match a with
              | inl rc => mret (rc, frame)
              | inr args =>
                  e ← in_vm (collect_exec_vector envp);
                  match e with
                  | inl rc => mret (rc, frame)
                  | inr env =>
                      match build_exec_stack page args env with
                      | inl rc => mret (rc, frame)
                      | inr (stack, initial_rsp) =>
                          fs ← gets k_fs;
                          match vfs_read_all can_alloc stack_tail path fs with
                          | None => mret (- ENOENT, frame)
                          | Some image =>
                              r ← replace_image_of c t (base_name path) image stack initial_rsp;
                              match r with
                              | None => mret (- ENOEXEC, frame)
                              | Some (entry, rsp) => mret (0, with_rip_rsp entry rsp frame)
                              end
                          end
                      end
                  end
              end
        end
  end.

(** ** Dispatch *)

Definition syscall_fn : Type := syscall_frame → M (kernel S) (outcome * syscall_frame).

(** A handler that returns a code and leaves the frame. *)
Definition plain (f : syscall_frame → M (kernel S) Z) : syscall_fn := λ frame, r ← f frame; mret (Returns r, frame).

Definition sys_unsupported : syscall_fn := plain (λ _, mret (- ENOSYS)).

(** [syscall_table]; [None] is a NULL entry or an index out of range. *)
Definition syscall_table (page : mem) (nr : Z) : option syscall_fn :=
  if nr =? SYS_READ then Some (plain (λ f, sys_read_impl (s32 (fr_rdi f)) (fr_rsi f) (fr_rdx f)))
  else if nr =? SYS_WRITE then Some (plain (λ f, sys_write_impl (s32 (fr_rdi f)) (fr_rsi f) (fr_rdx f)))
  else if nr =? SYS_OPEN then Some (plain (λ f, sys_open_impl (fr_rdi f)))
  else if nr =? SYS_CLOSE then Some (plain (λ f, sys_close_impl (s32 (fr_rdi f))))
  else if nr =? SYS_MMAP then
    Some (plain (λ f, sys_mmap (fr_rdi f) (fr_rsi f) (fr_rdx f) (fr_r10 f) (s32 (fr_r8 f))))
  else if nr =? SYS_MUNMAP then Some (plain (λ f, sys_munmap (fr_rdi f) (fr_rsi f)))
  else if nr =? SYS_BRK then Some (plain (λ f, sys_brk (fr_rdi f)))
  else if nr =? SYS_SCHED_YIELD then Some (plain (λ _, sys_sched_yield_impl))
  else if nr =? SYS_GETPID then Some (plain (λ _, sys_getpid_impl))
  else if nr =? SYS_FORK then Some (plain sys_fork_impl)
  else if nr =? SYS_EXECVE then
    Some (λ f, r ← sys_execve_impl page f (fr_rdi f) (fr_rsi f) (fr_rdx f); mret (Returns r.1, r.2))
  else if nr =? SYS_EXIT then Some (λ f, r ← sys_exit_impl (s32 (fr_rdi f)); mret (r, f))
  else if nr =? SYS_WAITPID then
    Some (λ f, r ← sys_waitpid_impl (s32 (fr_rdi f)) (fr_rsi f) (s32 (fr_rdx f)); mret (r, f))
  else if nr =? SYS_READDIR then
    Some (plain (λ f, sys_readdir_impl (fr_rdi f) (u32 (fr_rsi f)) (fr_rdx f) (fr_r10 f)))
  else if nr =? SYS_PROCINFO then Some (plain (λ f, sys_procinfo_impl (u32 (fr_rdi f)) (fr_rsi f)))
  else if nr =? SYS_CHDIR then Some (plain (λ f, sys_chdir_impl (fr_rdi f)))
  else if nr =? SYS_GETCWD then Some (plain (λ f, sys_getcwd_impl (fr_rdi f) (fr_rsi f)))
  else if nr =? SYS_CREAT then Some (plain (λ f, sys_creat_impl (fr_rdi f)))
  else if nr =? SYS_DUP2 then Some (plain (λ f, sys_dup2_impl (s32 (fr_rdi f)) (s32 (fr_rsi f))))
  else None.

Definition syscall_dispatch (page : mem) (frame : syscall_frame) : M (kernel S) (outcome * syscall_frame) :=
  let fn := default sys_unsupported (syscall_table page (fr_rax frame)) in
  r ← fn frame;
  match r with
  | (Returns ret, frame') => mret (Returns ret, with_rax (u64 ret) frame')
  | (Suspended, frame') => mret (Suspended, frame')
  end.

End Syscall.
