(* ===== verification/SyscallProps.v ===== *)
(** * System calls: properties *)

From Stdlib Require Import ZArith Lia.
From S2P Require Import Prelude Memory Frames Pmm PmmInv PmmProps Vmm VmmInv VmmOps VmmCow VmmProps.
From S2P Require Import Uaccess UaccessInv UaccessWrite UaccessProps Kbd Vfs Path Exec Sched.
From S2P Require Import Usermem UsermemInv UsermemProps Elf ElfProps Syscall.
Import StringC.

(** ** Copies of any length keep the address space *)

Section Copies.
Context {S : Type} `{FA : FrameAllocator S}.
Implicit Types v : vm S.

Lemma copy_loop_keeps r user n buf : user_range user n → ∀ fuel v done,
  vmm_current_pml4 v = r → space_ok v r → 0 <= done <= n → n - done <= Z.of_nat fuel →
  wp (copy_loop fuel user done n true buf) (λ _ v', space_ok v' r ∧ vm_cr3 v' = vm_cr3 v) v.
Proof.
  intros [Hu Htop]. induction fuel as [|f IH]; intros v done Hr Hs Hd Hf; cbn [copy_loop].
  { rewrite (proj2 (Z.ltb_ge done n)) by lia. by apply wp_ret. }
  destruct (done <? n) eqn:E; b2p; [|by apply wp_ret].
  apply wp_bind. rewrite <- Hr in Hs. eapply wp_mono; [apply page_for_write; [exact Hs|lia]|]. rewrite Hr in Hs |- *.
  intros [phys|] v1 (Hs1 & [Hc1 _] & _ & Hcase); [|by apply wp_ret].
  destruct Hcase as (_ & e & Hp & -> & _).
  change (PAGE_SIZE - 1) with (2^12 - 1). rewrite land_low_mod by done. change (2^12) with PAGE_SIZE.
  set (k := MIN (PAGE_SIZE - (user + done) mod PAGE_SIZE) (n - done)).
  assert (0 < k <= n - done ∧ k <= PAGE_SIZE - (user + done) mod PAGE_SIZE) as [Hk Hkp].
  { unfold k, MIN. case_if; page_lia. }
  assert ((user + done) mod PAGE_SIZE + len (slice buf done k) <= PAGE_SIZE) as Hlp.
  { unfold slice. rewrite length_take. lia. }
  pose proof (write_space v1 r (user + done) e Hs1 Hp _ Hlp) as Hs2.
  repeat wp_step. eapply wp_mono; [apply (IH _ (done + k)); [|exact Hs2|lia|lia]|].
  - unfold vmm_current_pml4 in *. simpl. by rewrite Hc1.
  - intros _ v' [Hs' Hc']. split; [done|]. simpl in Hc'. congruence.
Qed.

Lemma copy_to_user_keeps r v user src n : vmm_current_pml4 v = r → space_ok v r → 0 <= user →
  wp (copy_to_user user src n) (λ _ v', space_ok v' r ∧ vm_cr3 v' = vm_cr3 v) v.
Proof.
  intros Hr Hs Hu. unfold copy_to_user, copy_user_bytes. apply wp_bind.
  destruct (n =? 0) eqn:E0; [by repeat wp_step|]. destruct (_ || _) eqn:E; [by repeat wp_step|]. b2p.
  destruct (decide (n < 0)) as [Hneg|].
  - replace (Z.to_nat n) with O by lia. cbn [copy_loop]. rewrite (proj2 (Z.ltb_ge 0 n)) by lia. by repeat wp_step.
  - eapply wp_mono; [apply (copy_loop_keeps r); [split; lia|done|done|lia|lia]|]. intros res v' Hv. by apply wp_ret.
Qed.

Lemma string_loop_keeps v user k : ∀ acc, ∃ res, string_loop k user acc v = Ret (res, v).
Proof.
  induction k as [|k IH]; intros acc; cbn [string_loop]; [by eexists|].
  unfold mbind, M_bind. pose proof (u64_range (user + len acc)) as Hr.
  destruct (copy_from_user_steps v [0] (u64 (user + len acc)) 1) as (buf & -> & _); [lia|done|].
  cbn [fst snd]. repeat case_if; try (by eexists). apply IH.
Qed.

Lemma copy_user_string_keeps v user n : ∃ res, copy_user_string user n v = Ret (res, v).
Proof. unfold copy_user_string. case_if; [by eexists|]. apply string_loop_keeps. Qed.

End Copies.

(** ** What a call on behalf of the current task keeps *)

(** Everything but the files, the layout and the directory of a task. *)
Definition same_task (t t' : task) : Prop :=
  set_files [] (set_layout (Layout 0 0 0 0 0) (set_cwd [] t)) =
  set_files [] (set_layout (Layout 0 0 0 0 0) (set_cwd [] t')).

(** Everything but task [c]. *)
Definition same_sched (c : nat) (s s' : sched) : Prop :=
  set_tasks (delete c (tasks s)) s = set_tasks (delete c (tasks s')) s'.

Lemma same_sched_update c s0 s f : same_sched c s0 s → same_sched c s0 (update_task f c s).
Proof.
  unfold same_sched, update_task. intros ->. unfold set_tasks. simpl. f_equal.
  apply map_eq. intros i. destruct (decide (i = c)) as [->|]; [by rewrite !lookup_delete_eq|].
  rewrite !lookup_delete_ne by done. by rewrite lookup_alter_ne.
Qed.

Section Good.
Context {S : Type} `{FA : FrameAllocator S}.

(** Task [c] of user mode runs on a well-formed address space with sound bookkeeping;
    the other tasks are those of [s0] and the task itself has its identity from [t0]. *)
Definition good (s0 : sched) (c : nat) (t0 : task) (k : kernel S) : Prop :=
  ∃ t, current k = Some (c, t) ∧ same_task t0 t ∧ same_sched c s0 (k_sched k) ∧
    vmm_current_pml4 (k_vm k) = t_cr3 t0 ∧ space_ok (k_vm k) (t_cr3 t0) ∧
    length (t_files t) = Z.to_nat VFS_MAX_FDS ∧ layout_ok (t_layout t).

Context (s0 : sched) (c : nat) (t0 : task).
Abbreviation G := (good s0 c t0).

Lemma same_task_cr3 t : same_task t0 t → t_cr3 t = t_cr3 t0.
Proof. intros H. by injection H. Qed.

Lemma good_current k : G k → ∃ t, current k = Some (c, t) ∧ t_cr3 t = t_cr3 t0 ∧
  length (t_files t) = Z.to_nat VFS_MAX_FDS ∧ layout_ok (t_layout t).
Proof. intros (t & Hc & Ht & _ & _ & _ & Hf & Hl). exists t. split; [done|]. split; [by apply same_task_cr3|done]. Qed.

Lemma good_vm k v' : G k → space_ok v' (t_cr3 t0) → vm_cr3 v' = vm_cr3 (k_vm k) → G (set_vm v' k).
Proof.
  intros (t & Hc & Ht & Hs & Hr & _ & H) Hs' Hcr. exists t. split; [done|]. split; [done|]. split; [done|].
  split; [|done]. unfold vmm_current_pml4 in *. simpl. by rewrite Hcr.
Qed.

Lemma good_fs k f : G k → G (set_fs f k).
Proof. intros (t & H). by exists t. Qed.
Lemma good_print k l : G k → G (print l k).
Proof. intros (t & H). by exists t. Qed.
Lemma good_keys k l : G k → G (set_keys l k).
Proof. intros (t & H). by exists t. Qed.

(** The three updates of the current task. *)
Lemma good_change f (Q : () → kernel S → Prop) k : G k →
  (∀ t, same_task t0 t → length (t_files t) = Z.to_nat VFS_MAX_FDS → layout_ok (t_layout t) →
     current k = Some (c, t) →
     same_task t0 (f t) ∧ length (t_files (f t)) = Z.to_nat VFS_MAX_FDS ∧ layout_ok (t_layout (f t))) →
  (∀ k', G k' → k_fs k' = k_fs k → k_keys k' = k_keys k → Q tt k') → wp (change_task c f) Q k.
Proof.
  intros (t & Hc & Ht & Hs & Hr & Hsp & Hf & Hl) Hfun HQ. unfold change_task. apply wp_modify, HQ; [|done|done].
  destruct (Hfun t Ht Hf Hl Hc) as (Ht' & Hf' & Hl'). exists (f t). split; [|split; [done|]].
  - unfold current in *. simpl. destruct (current_task (k_sched k)) as [i|] eqn:Ei; [|done]. simpl in *.
    destruct (tasks (k_sched k) !! i) as [u|] eqn:Eu; [|done]. simpl in Hc. injection Hc as -> ->.
    by rewrite lookup_alter_eq, Eu.
  - split; [by apply same_sched_update|]. done.
Qed.

Lemma good_files fs Q k : G k → length fs = Z.to_nat VFS_MAX_FDS →
  (∀ k', G k' → k_fs k' = k_fs k → k_keys k' = k_keys k → Q tt k') → wp (change_task c (set_files fs)) Q k.
Proof. intros Hg Hl HQ. apply good_change; [done| |done]. intros t Ht _ Hlay _. split; [exact Ht|]. split; [exact Hl|exact Hlay]. Qed.

Lemma good_layout l Q k : G k → layout_ok l →
  (∀ k', G k' → k_fs k' = k_fs k → k_keys k' = k_keys k → Q tt k') → wp (change_task c (set_layout l)) Q k.
Proof. intros Hg Hl HQ. apply good_change; [done| |done]. intros t Ht Hf _ _. split; [exact Ht|]. split; [exact Hf|exact Hl]. Qed.

Lemma good_cwd d Q k : G k →
  (∀ k', G k' → k_fs k' = k_fs k → k_keys k' = k_keys k → Q tt k') → wp (change_task c (set_cwd d)) Q k.
Proof. intros Hg HQ. apply good_change; [done| |done]. intros t Ht Hf Hl _. split; [exact Ht|]. split; [exact Hf|exact Hl]. Qed.

Lemma good_copy_to user src n Q k : G k → 0 <= user →
  (∀ rc k', G k' → k_fs k' = k_fs k → k_keys k' = k_keys k → Q rc k') → wp (in_vm (copy_to_user user src n)) Q k.
Proof.
  intros Hg Hu HQ. pose proof Hg as (t & _ & _ & _ & Hr & Hsp & _). unfold in_vm. apply wp_zoom.
  eapply wp_mono; [by apply (copy_to_user_keeps (t_cr3 t0))|]. intros rc v' [Hs' Hc'].
  by apply HQ; [apply good_vm| |].
Qed.

Lemma good_copy_from dst user n Q k : G k → 0 <= user → len dst = n →
  (∀ r, length r.2 = length dst ∨ r.1 < 0 → Q r k) → wp (in_vm (copy_from_user dst user n)) Q k.
Proof.
  intros Hg Hu Hl HQ. unfold in_vm. apply wp_zoom. unfold wp.
  destruct (copy_from_user_steps (k_vm k) dst user n Hu Hl) as (buf & -> & Hbuf).
  assert (set_vm (k_vm k) k = k) as -> by (by destruct k). apply HQ. simpl.
  destruct (user_range_ok _ _ _ _); [left|right; done]. rewrite Hbuf, length_ubytes by done. lia.
Qed.

Lemma good_user_path user Q k : G k → (∀ p, Q p k) → wp (user_path user) Q k.
Proof.
  intros Hg HQ. unfold user_path. apply wp_bind. unfold in_vm. apply wp_zoom. unfold wp at 1.
  destruct (copy_user_string_keeps (k_vm k) user VFS_MAX_PATH) as [res ->].
  assert (set_vm (k_vm k) k = k) as -> by (by destruct k).
  case_if; repeat wp_step; apply HQ.
Qed.

End Good.

(** ** File tables keep their size *)

Lemma length_advance r fd files : length (advance r fd files) = length files.
Proof. unfold advance. case_if; [apply length_alter|done]. Qed.

Lemma length_write_in can_alloc fresh v files fd buf :
  length (vfs_write_in can_alloc fresh v files fd buf).1.2 = length files.
Proof. unfold vfs_write_in. repeat case_match; simpl; try done. apply length_advance. Qed.

Lemma length_read_in v files fd n : length (vfs_read_in v files fd n).2 = length files.
Proof. unfold vfs_read_in. repeat case_match; simpl; try done. apply length_advance. Qed.

Lemma length_open_in stack_tail v files path : length (vfs_open_in stack_tail v files path).2 = length files.
Proof. unfold vfs_open_in. repeat case_match; simpl; try done. apply length_insert. Qed.

Lemma length_close_in files fd : length (vfs_close_in files fd) = length files.
Proof. unfold vfs_close_in. case_match; [apply length_alter|done]. Qed.

(** ** The handlers *)

Section Handlers.
Context {S : Type} `{FA : FrameAllocator S}.
Context (can_alloc : Z → vfs → bool) (fresh : vfs → array) (stack_tail : list Z) (stack_byte : Z).
Context (s0 : sched) (c : nat) (t0 : task).
Abbreviation G := (good s0 c t0).

Lemma write_loop_good fd src count : ∀ fuel k done, G k → 0 <= done → count - done <= Z.of_nat fuel →
  wp (write_loop can_alloc fresh fuel fd src done count) (λ _ k', G k') k.
Proof.
  induction fuel as [|f IH]; intros k done Hg Hd Hf; cbn [write_loop].
  { rewrite (proj2 (Z.ltb_ge done count)) by lia. by apply wp_ret. }
  destruct (done <? count) eqn:E; b2p; [|by apply wp_ret].
  set (n := MIN CHUNK (count - done)). assert (0 < n) as Hn by (unfold n, MIN, CHUNK; case_if; lia).
  apply wp_bind. apply (good_copy_from s0 c t0); [done|apply u64_range|rewrite length_replicate; lia|].
  intros r _. case_if; [by apply wp_ret|]. repeat wp_step.
  destruct (good_current s0 c t0 k Hg) as (t & Hc & _ & Hfl & _). rewrite Hc.
  destruct (_ && _).
  - repeat wp_step. apply IH; [by apply good_print|lia|lia].
  - repeat wp_step. pose proof (length_write_in can_alloc fresh (k_fs k) (t_files t) fd r.2) as Hlen.
    destruct (vfs_write_in _ _ _ _ _ _) as [[written files] fs']. simpl in Hlen. apply wp_bind.
    apply (good_files s0 c t0); [done|congruence|]. intros k1 Hg1 _ _. repeat wp_step.
    repeat case_if; [by apply wp_ret..|]. apply IH; [by apply good_fs|lia|lia].
Qed.

Lemma key_loop_good dst count : ∀ n k i, G k → (n <= length (k_keys k))%nat →
  wp (key_loop n dst i count) (λ _ k', G k') k.
Proof.
  induction n as [|n IH]; intros k i Hg Hn; cbn [key_loop]; [by apply wp_ret|].
  unfold kbd_next. repeat wp_step. destruct (k_keys k) as [|ch l] eqn:Ek; [simpl in Hn; lia|]. repeat wp_step.
  apply (good_copy_to s0 c t0); [by apply good_keys|apply u64_range|].
  intros rc k' Hg' _ Hk'. repeat case_if; [by apply wp_ret..|]. apply IH; [done|]. rewrite Hk'. simpl in *. lia.
Qed.

Lemma read_loop_good fd dst count : ∀ fuel k done, G k → 0 <= done → count - done <= Z.of_nat fuel →
  wp (read_loop fuel fd dst done count) (λ _ k', G k') k.
Proof.
  induction fuel as [|f IH]; intros k done Hg Hd Hf; cbn [read_loop].
  { rewrite (proj2 (Z.ltb_ge done count)) by lia. by apply wp_ret. }
  destruct (done <? count) eqn:E; b2p; [|by apply wp_ret].
  set (n := MIN CHUNK (count - done)). repeat wp_step.
  destruct (good_current s0 c t0 k Hg) as (t & Hc & _ & Hfl & _). rewrite Hc. repeat wp_step.
  pose proof (length_read_in (k_fs k) (t_files t) fd n) as Hlen.
  destruct (vfs_read_in _ _ _ _) as [[read data] files]. simpl in Hlen. apply wp_bind.
  apply (good_files s0 c t0); [done|congruence|]. intros k1 Hg1 _ _.
  destruct (read <? 0) eqn:E1; b2p; [by apply wp_ret|]. destruct (read =? 0) eqn:E2; b2p; [by apply wp_ret|].
  apply wp_bind. apply (good_copy_to s0 c t0); [done|apply u64_range|]. intros rc k2 Hg2 _ _.
  repeat case_if; [by apply wp_ret..|]. apply IH; [done|lia|lia].
Qed.

Lemma read_good fd buf count k : G k → 0 <= count <= len (k_keys k) →
  wp (sys_read_impl fd buf count) (λ _ k', G k') k.
Proof.
  intros Hg Hc. unfold sys_read_impl. repeat wp_step. destruct (_ && _).
  - apply key_loop_good; [done|lia].
  - apply read_loop_good; [done|lia|lia].
Qed.

(** Open the path and the current task. *)
Ltac handler_path Hg := apply wp_bind; apply (good_user_path s0 c t0); [exact Hg|]; intros [rc|path]; [by apply wp_ret|].
Ltac handler_task Hg := let t := fresh "t" in repeat wp_step;
  destruct (good_current s0 c t0 _ Hg) as (t & -> & ? & ? & ?).

Lemma open_good user k : G k → wp (sys_open_impl stack_tail user) (λ _ k', G k') k.
Proof.
  intros Hg. unfold sys_open_impl. handler_path Hg. handler_task Hg. repeat wp_step.
  pose proof (length_open_in stack_tail (k_fs k) (t_files t) path) as Hlen.
  destruct (vfs_open_in _ _ _ _) as [fd files]. simpl in Hlen. apply wp_bind.
  apply (good_files s0 c t0); [done|congruence|]. intros k1 Hg1 _ _. by apply wp_ret.
Qed.

Lemma close_good fd k : G k → wp (sys_close_impl fd) (λ _ k', G k') k.
Proof.
  intros Hg. unfold sys_close_impl. handler_task Hg. case_if; [by apply wp_ret|]. apply wp_bind.
  apply (good_files s0 c t0); [done|by rewrite length_close_in|]. intros k1 Hg1 _ _. by apply wp_ret.
Qed.

Lemma readdir_good user idx un ut k : G k → 0 <= un → 0 <= ut →
  wp (sys_readdir_impl stack_tail stack_byte user idx un ut) (λ _ k', G k') k.
Proof.
  intros Hg Hn Ht. unfold sys_readdir_impl. handler_path Hg. case_if; [by apply wp_ret|]. repeat wp_step.
  destruct (vfs_readdir _ _ _ _) as [[name type]|]; [|by apply wp_ret]. apply wp_bind.
  apply (good_copy_to s0 c t0); [done..|]. intros rc k1 Hg1 _ _. case_if; [by apply wp_ret|]. apply wp_bind.
  apply (good_copy_to s0 c t0); [done..|]. intros rc2 k2 Hg2 _ _. case_if; by apply wp_ret.
Qed.

Lemma procinfo_good idx ui k : G k → 0 <= ui → wp (sys_procinfo_impl idx ui) (λ _ k', G k') k.
Proof.
  intros Hg Hu. unfold sys_procinfo_impl. case_if; [by apply wp_ret|]. repeat wp_step.
  destruct (task_get_info _ _) as [i|]; [|by apply wp_ret]. apply wp_bind.
  apply (good_copy_to s0 c t0); [done..|]. intros rc k1 Hg1 _ _. by apply wp_ret.
Qed.

Lemma chdir_good user k : G k → wp (sys_chdir_impl stack_tail user) (λ _ k', G k') k.
Proof.
  intros Hg. unfold sys_chdir_impl. handler_path Hg. repeat wp_step. case_if; [by apply wp_ret|]. handler_task Hg.
  apply wp_bind. apply (good_cwd s0 c t0); [done|]. intros k1 Hg1 _ _. by apply wp_ret.
Qed.

Lemma getcwd_good buf size k : G k → 0 <= buf → wp (sys_getcwd_impl buf size) (λ _ k', G k') k.
Proof.
  intros Hg Hb. unfold sys_getcwd_impl. handler_task Hg. repeat (case_if; [by apply wp_ret|]). apply wp_bind.
  apply (good_copy_to s0 c t0); [done..|]. intros rc k1 Hg1 _ _. by apply wp_ret.
Qed.

Lemma creat_good user k : G k → wp (sys_creat_impl can_alloc fresh stack_tail user) (λ _ k', G k') k.
Proof.
  intros Hg. unfold sys_creat_impl. handler_path Hg. handler_task Hg. repeat wp_step.
  destruct (vfs_create_file _ _ _ _ _ _ _) as [rc fs']. repeat wp_step. case_if; [by apply wp_ret, good_fs|].
  pose proof (length_open_in stack_tail fs' (t_files t) path) as Hlen.
  destruct (vfs_open_in _ _ _ _) as [fd files]. simpl in Hlen. apply wp_bind.
  apply (good_files s0 c t0); [by apply good_fs|congruence|]. intros k1 Hg1 _ _. by apply wp_ret.
Qed.

Lemma dup2_good oldfd newfd k : G k → wp (sys_dup2_impl oldfd newfd) (λ _ k', G k') k.
Proof.
  intros Hg. unfold sys_dup2_impl. handler_task Hg. destruct (get_file _ _) as [f|]; [|by apply wp_ret].
  repeat (case_if; [by apply wp_ret|]). apply wp_bind.
  apply (good_files s0 c t0); [done|by rewrite length_insert|]. intros k1 Hg1 _ _. by apply wp_ret.
Qed.

Lemma on_layout_good none call k : G k →
  (∀ t, t_cr3 t = t_cr3 t0 → layout_ok (t_layout t) →
     wp (call t) (λ r v', space_ok v' (t_cr3 t0) ∧ vm_cr3 v' = vm_cr3 (k_vm k) ∧ layout_ok r.2) (k_vm k)) →
  wp (on_layout none call) (λ _ k', G k') k.
Proof.
  intros Hg Hcall. unfold on_layout. handler_task Hg. apply wp_bind. unfold in_vm. apply wp_zoom.
  eapply wp_mono; [by apply Hcall|]. intros r v' (Hs & Hc & Hl). apply wp_bind.
  apply (good_layout s0 c t0); [by apply good_vm|done|]. intros k1 Hg1 _ _. by apply wp_ret.
Qed.

Lemma good_space k : G k → vmm_current_pml4 (k_vm k) = t_cr3 t0 ∧ space_ok (k_vm k) (t_cr3 t0).
Proof. by intros (t & _ & _ & _ & ? & ? & _). Qed.

Lemma brk_good req k : G k → 0 <= req < 2^64 → wp (sys_brk req) (λ _ k', G k') k.
Proof.
  intros Hg Hr. apply on_layout_good; [done|]. intros t -> Hl. apply sys_brk_keeps; [by apply good_space|done|done].
Qed.

Lemma mmap_good addr n prot flags fd k : G k → 0 <= addr < 2^64 → 0 <= n < 2^64 →
  wp (sys_mmap addr n prot flags fd) (λ _ k', G k') k.
Proof.
  intros Hg Ha Hn. apply on_layout_good; [done|]. intros t -> Hl.
  apply sys_mmap_keeps; [by apply good_space|done|done|done].
Qed.

Lemma munmap_good addr n k : G k → 0 <= addr < 2^64 → 0 <= n < 2^64 → wp (sys_munmap addr n) (λ _ k', G k') k.
Proof.
  intros Hg Ha Hn. unfold sys_munmap. handler_task Hg. destruct (good_space k Hg) as [Hr Hs].
  unfold in_vm. apply wp_zoom. rewrite H, <- Hr. rewrite <- Hr in Hs.
  eapply wp_mono; [by apply sys_munmap_keeps|]. intros rc v' [Hs' Hc']. rewrite Hr in Hs'. by apply good_vm.
Qed.

End Handlers.

(** ** Dispatch *)

(** Calls that neither switch tasks nor replace the address space. *)
Definition local_calls : list Z :=
  [SYS_READ; SYS_WRITE; SYS_OPEN; SYS_CLOSE; SYS_MMAP; SYS_MUNMAP; SYS_BRK; SYS_GETPID; SYS_READDIR; SYS_PROCINFO;
   SYS_CHDIR; SYS_GETCWD; SYS_CREAT; SYS_DUP2].
Definition all_calls : list Z :=
  local_calls ++ [SYS_SCHED_YIELD; SYS_FORK; SYS_EXECVE; SYS_EXIT; SYS_WAITPID].

(** The argument registers hold 64-bit words. *)
Definition regs_ok (f : syscall_frame) : Prop :=
  0 <= fr_rdi f < 2^64 ∧ 0 <= fr_rsi f < 2^64 ∧ 0 <= fr_rdx f < 2^64 ∧ 0 <= fr_r10 f < 2^64.

Section Dispatch.
Context {S : Type} `{FA : FrameAllocator S}.
Context (can_alloc : Z → vfs → bool) (fresh : vfs → array) (stack_tail : list Z).
Context (new_task : kernel S → option (nat * Z)) (exec_alloc : kernel S → bool) (stack_byte : Z) (page : mem).
Abbreviation dispatch := (syscall_dispatch can_alloc fresh stack_tail new_task exec_alloc stack_byte page).
Abbreviation table := (syscall_table can_alloc fresh stack_tail new_task exec_alloc stack_byte page).

Lemma plain_dispatch (f : syscall_frame → M (kernel S) Z) frame (P : kernel S → Prop) k :
  table (fr_rax frame) = Some (plain f) → wp (f frame) (λ _ k', P k') k →
  wp (dispatch frame) (λ res k', (∃ ret, res = (Returns ret, with_rax (u64 ret) frame)) ∧ P k') k.
Proof.
  intros Ht Hf. unfold syscall_dispatch. rewrite Ht. unfold default, id, plain. do 2 apply wp_bind.
  eapply wp_mono; [exact Hf|]. intros r k' HP. repeat wp_step. by split; [exists r|].
Qed.

Ltac this_call := match goal with H : fr_rax _ = _ |- _ => rewrite H; reflexivity end.


(** a number that is in no entry of the table is answered with -ENOSYS; nothing but
    rax changes. *)
Theorem unknown_syscall (k : kernel S) (frame : syscall_frame) :
  fr_rax frame ∉ all_calls →
  dispatch frame k = Ret ((Returns (- ENOSYS), with_rax (2^64 - ENOSYS) frame), k).
Proof.
  intros Hnr. unfold syscall_dispatch.
  assert (table (fr_rax frame) = None) as ->; [|reflexivity].
  unfold syscall_table. unfold all_calls, local_calls in Hnr. cbn [app] in Hnr.
  repeat match goal with |- context [fr_rax frame =? ?n] =>
    rewrite (proj2 (Z.eqb_neq (fr_rax frame) n)) by (intros E; apply Hnr; rewrite E; repeat constructor) end.
  done.
Qed.

End Dispatch.

(** ** Output *)

Section Output.
Context {S : Type} `{FA : FrameAllocator S}.
Context (can_alloc : Z → vfs → bool) (fresh : vfs → array).

Lemma write_loop_console (fd src count : Z) : fd = 1 ∨ fd = 2 → ∀ fuel (k : kernel S) done,
  fd_unused (current k) fd = true → user_range src count →
  (∀ a, src <= a < src + count → user_ok (vm_mem (k_vm k)) (vmm_current_pml4 (k_vm k)) a = true) →
  0 <= done <= count → count - done <= Z.of_nat fuel →
  write_loop can_alloc fresh fuel fd src done count k =
    Ret (count, print (ubytes (Z.to_nat (count - done)) (vm_mem (k_vm k)) (vmm_current_pml4 (k_vm k)) (src + done)) k).
Proof.
  intros Hfd. induction fuel as [|f IH]; intros k done Hun Hr Hok Hd Hf; cbn [write_loop].
  - rewrite (proj2 (Z.ltb_ge done count)) by lia. assert (done = count) as -> by lia. rewrite Z.sub_diag.
    unfold print. simpl. rewrite app_nil_r. by destruct k.
  - destruct (done <? count) eqn:E; b2p.
    2: { assert (done = count) as -> by lia. rewrite Z.sub_diag. unfold print. simpl. rewrite app_nil_r. by destruct k. }
    set (n := MIN CHUNK (count - done)). assert (0 < n <= count - done) as Hn by (unfold n, MIN, CHUNK; case_if; lia).
    pose proof Hr as [Hpos Htop]. unfold mbind, M_bind, in_vm, zoom. rewrite u64_small by page_lia.
    destruct (copy_from_user_steps (k_vm k) (replicate (Z.to_nat n) 0) (src + done) n) as (buf & -> & Hbuf);
      [lia|rewrite length_replicate; lia|].
    assert (user_range_ok (vm_mem (k_vm k)) (vmm_current_pml4 (k_vm k)) (src + done) n = true) as Hok'.
    { apply user_range_ok_spec; [lia|lia|]. split; [split; lia|]. intros a Ha. apply Hok. lia. }
    rewrite Hok' in *. rewrite Hbuf by done. cbn [fst snd]. rewrite (proj2 (Z.ltb_ge 0 0)) by lia.
    assert (set_vm (k_vm k) k = k) as -> by (by destruct k). unfold gets.
    assert (((fd =? 1) || (fd =? 2)) = true) as -> by (destruct Hfd as [-> | ->]; done).
    rewrite Hun. cbn [andb]. unfold modify.
    rewrite IH; [|done|done|done|lia|lia]. f_equal. f_equal. unfold print. simpl. f_equal. rewrite <- app_assoc. f_equal.
    replace (Z.to_nat (count - done)) with (Z.to_nat n + Z.to_nat (count - (done + n)))%nat by lia.
    rewrite ubytes_app. do 2 f_equal. lia.
Qed.

(** write on an unopened descriptor 1 or 2 prints exactly the bytes of the
    program's buffer, in order, whatever their number, and returns their number. *)
Theorem sys_write_prints (k : kernel S) (fd buf count : Z) :
  fd = 1 ∨ fd = 2 → fd_unused (current k) fd = true → 0 <= buf → 0 < count →
  user_range_ok (vm_mem (k_vm k)) (vmm_current_pml4 (k_vm k)) buf count = true →
  sys_write_impl can_alloc fresh fd buf count k =
    Ret (count, print (ubytes (Z.to_nat count) (vm_mem (k_vm k)) (vmm_current_pml4 (k_vm k)) buf) k).
Proof.
  intros Hfd Hun Hb Hc [Hr Hok]%user_range_ok_spec; [|done|done]. unfold sys_write_impl.
  rewrite write_loop_console by (done || lia). by rewrite Z.sub_0_r, Z.add_0_r.
Qed.

End Output.

(** ** Witnesses: one program on the machine with two mapped pages *)

Definition w_task : task :=
  Task (Kstack 0 [] user_mode_enter None) space_root 2 TASK_RUNNING (chars "sh") 0 true w_layout [slash] no_files
    None 0 0 (Some 0%nat).
Definition w_sched : sched :=
  Sched {[0%nat := w_task]} (Some 0%nat) 3 [0%nat] [] (Some 0%nat) (Some 0%nat) 1 None space_root 0 0.
Definition w_kernel : kernel pmm_state := Kernel mmap_vm w_sched (Vfs ∅ 0 0 no_files) [] [].

Definition call_frame (nr a1 a2 a3 : Z) : syscall_frame :=
  Frame 0 0 0 0 0 0 0 0 0 a1 a2 a3 0 0 nr 0x400100 0x202 0x400fff00.

Abbreviation w_dispatch :=
  (syscall_dispatch (λ _ _, true) (λ _, arr_fill 0) [] (λ _, None) (λ _, true) 0 (arr_fill 0)).

Lemma w_layout_ok : layout_ok w_layout.
Proof. repeat split; vm_compute; congruence. Qed.

Lemma w_kernel_good : good w_sched 0 w_task w_kernel.
Proof.
  exists w_task. split; [reflexivity|]. split; [reflexivity|]. split; [reflexivity|].
  split; [exact (proj2 mmap_vm_space)|]. split; [exact (proj1 mmap_vm_space)|].
  split; [reflexivity|exact w_layout_ok].
Qed.


Lemma unknown_syscall_witness :
  w_dispatch (call_frame 1000 0 0 0) w_kernel =
    Ret ((Returns (- ENOSYS), with_rax (2^64 - ENOSYS) (call_frame 1000 0 0 0)), w_kernel).
Proof.
  apply (unknown_syscall (λ _ _, true) (λ _, arr_fill 0) [] (λ _, None) (λ _, true) 0 (arr_fill 0)).
  apply (bool_decide_unpack _). vm_compute. exact I.
Defined.

Lemma w_kernel_range :
  user_range_ok (vm_mem (k_vm w_kernel)) (vmm_current_pml4 (k_vm w_kernel)) 0x50000ffe 4 = true.
Proof. vm_compute. reflexivity. Qed.

Lemma sys_write_prints_witness :
  sys_write_impl (λ _ _, true) (λ _, arr_fill 0) 1 0x50000ffe 4 w_kernel =
    Ret (4, print (ubytes 4 (vm_mem mmap_vm) (vmm_current_pml4 mmap_vm) 0x50000ffe) w_kernel).
Proof.
  apply (sys_write_prints (λ _ _, true) (λ _, arr_fill 0) w_kernel 1 0x50000ffe 4);
    [by left|reflexivity|lia|lia|exact w_kernel_range].
Defined.
