(* ===== verification/SpaceDestroy.v ===== *)
(** * Address spaces: what a space holds, and its destruction

    An address space holds its root, its own tables and the frames of its user
    pages, each at one position of the tree of tables.  [vmm_destroy_user_address_space]
    visits the positions bottom up and gives every frame back once. *)

From Stdlib Require Import ZArith Lia.
From S2P Require Import Prelude Memory Frames Vmm VmmInv VmmOps VmmBuild VmmSpace VmmCow VmmProps.
From S2P Require Import Uaccess UaccessInv UaccessWrite.
Import StringC.

(** ** Positions *)

(** A position below [p] whose next index is less than [i]. *)
Fixpoint below (p : list Z) (i : Z) (q : list Z) : bool :=
  match p, q with
  | [], j :: _ => j <? i
  | a :: p', b :: q' => (a =? b) && below p' i q'
  | _, [] => false
  end.

Lemma below_app p i q : below p i (p ++ q) = match q with j :: _ => j <? i | [] => false end.
Proof. induction p as [|a p IH]; simpl; [done|]. by rewrite Z.eqb_refl. Qed.

Lemma below_true p i q : below p i q = true ↔ ∃ j q', q = p ++ j :: q' ∧ j < i.
Proof.
  split.
  - revert q. induction p as [|a p IH]; intros [|b q]; simpl; try done.
    + intros ?. b2p. eauto.
    + intros [E (j & q' & -> & Hj)%IH]%andb_true_iff. apply Z.eqb_eq in E as ->. eauto.
  - intros (j & q' & -> & Hj). rewrite below_app. by apply Z.ltb_lt.
Qed.

(** A position of the part of the tree that the space does not share. *)
Definition position (q : list Z) : Prop :=
  valid_path q ∧ (length q <= 4)%nat ∧ shared_path q = false.

Lemma position_prefix p q : p `prefix_of` q → position q → position p.
Proof.
  intros Hp (Hv & Hl & Hs). split; [by eapply valid_path_prefix|]. split; [apply prefix_length in Hp; lia|].
  destruct (shared_path p) eqn:E; [|done]. by rewrite (shared_path_prefix p q) in Hs.
Qed.

Lemma position_va q : position q → length q = 4%nat → ∃ va, 0 <= va < USER_SPACE_TOP ∧ vpath va = q.
Proof.
  intros (Hv & _ & Hs) Hl. destruct q as [|i [|j [|k [|l [|]]]]]; simplify_eq/=.
  apply Forall_cons in Hv as [Hi [Hj [Hk [Hl' _]%Forall_cons]%Forall_cons]%Forall_cons].
  destruct (make_virt_roundtrip i j k l Hi Hj Hk Hl') as (E4 & E3 & E2 & E1 & _ & Htop).
  exists (make_virt i j k l). split; [|unfold vpath, tables_path; simpl; congruence].
  apply orb_false_iff in Hs as [Hs _]. b2p. split; [|lia].
  rewrite make_virt_sum by done. unfold PAGE_SIZE. lia.
Qed.

(** ** What a space holds *)

(** The frame behind a position: the table an entry leads to, or the frame of a user
    page. *)
Definition holder (m : mem) (r : Z) (q : list Z) : option Z :=
  match q with
  | [i4; i3; i2; i1] =>
      match walk m r [i4; i3; i2] with
      | Some pt => let e := pte m pt i1 in if has_all e USER_PRESENT then Some (e .& VMM_PHYS_MASK) else None
      | None => None
      end
  | _ => walk m r q
  end.

Lemma holder_table m r q : (length q <= 3)%nat → holder m r q = walk m r q.
Proof. intros H. destruct q as [|? [|? [|? [|? [|]]]]]; try done. simpl in H. lia. Qed.

Lemma holder_page m r p pt i : length p = 3%nat → walk m r p = Some pt →
  holder m r (p ++ [i]) = let e := pte m pt i in if has_all e USER_PRESENT then Some (e .& VMM_PHYS_MASK) else None.
Proof. intros Hl Hw. destruct p as [|? [|? [|? [|]]]]; simplify_eq/=. by rewrite Hw. Qed.

Section Space.
Context {S : Type} `{FA : FrameAllocator S}.
Implicit Types v : vm S.
Abbreviation rc_of v := (fa_rc (vm_pmm v)).

(** The space has no 2 MiB page of its own. *)
Definition no_huge (v : vm S) (r : Z) : Prop :=
  ∀ va h e, shared_path (tables_path va) = false → vleaf (vm_mem v) r va = Some (h, e) → h = false.

(** [f] is the root, a table or a page of space [r] alone. *)
Definition holds (v : vm S) (r f : Z) : Prop := ∃ q, position q ∧ holder (vm_mem v) r q = Some f.

Section Held.
Context (v : vm S) (r : Z) (Hs : space_ok v r).
Abbreviation m := (vm_mem v).

Lemma holder_user q f : position q → length q = 4%nat → holder m r q = Some f →
  ∃ va e, vpath va = q ∧ user_page v r va e ∧ f = e .& VMM_PHYS_MASK.
Proof.
  intros Hp Hl Hh. destruct (position_va q Hp Hl) as (va & Hva & <-).
  change (holder m r (vpath va)) with (match walk m r (tables_path va) with
    | Some pt => let e := pte m pt (pt_idx va) in if has_all e USER_PRESENT then Some (e .& VMM_PHYS_MASK) else None
    | None => None end) in Hh.
  destruct (walk m r (tables_path va)) as [pt|] eqn:Hw; [|done]. cbv zeta in Hh.
  destruct (has_all _ _) eqn:Ha; [|done]. injection Hh as <-.
  exists va, (pte m pt (pt_idx va)). split; [done|]. split; [|done]. split; [done|].
  rewrite user_present_bits in Ha. apply andb_true_iff in Ha as [H0 H2]. rewrite <- has_present in H0.
  rewrite <- has_user in H2. split; [|done].
  rewrite (fault_entry _ _ _ _ _ (proj2 (so_root _ _ Hs)) Hw). by rewrite H0.
Qed.

Lemma holder_held q f : position q → holder m r q = Some f → is_frame f ∧ 0 < rc_of v f.
Proof.
  intros Hp Hh. destruct (decide (length q = 4%nat)) as [Hl|Hl].
  - destruct (holder_user q f Hp Hl Hh) as (va & e & _ & Hu & ->). pose proof (so_frame _ _ Hs _ _ Hu) as Ho.
    split; [by eapply own_is_frame; [apply Hs|]|apply Ho].
  - destruct Hp as (Hv & Hlen & _). rewrite holder_table in Hh by lia.
    apply (pt_tables _ _ _ (proj2 (so_root _ _ Hs)) q); [done|lia|done].
Qed.

Lemma holder_inj q q' f : position q → position q' →
  holder m r q = Some f → holder m r q' = Some f → q = q'.
Proof.
  assert (∀ q q', position q → position q' → length q = 4%nat → length q' ≠ 4%nat →
    holder m r q = Some f → holder m r q' = Some f → False) as Hmix.
  { intros p p' Hp (Hv' & Hl' & _) Hl Hne Hh Hh'. destruct (holder_user p f Hp Hl Hh) as (va & e & _ & Hu & ->).
    destruct (so_frame _ _ Hs _ _ Hu) as (_ & _ & Hno). rewrite holder_table in Hh' by lia.
    apply (Hno p'); [done|lia|done]. }
  intros Hp Hp' Hh Hh'. destruct (decide (length q = 4%nat)) as [Hl|Hl], (decide (length q' = 4%nat)) as [Hl'|Hl'].
  - destruct (holder_user q f Hp Hl Hh) as (va & e & <- & Hu & ->).
    destruct (holder_user q' _ Hp' Hl' Hh') as (vb & e' & <- & Hu' & E).
    by apply vpath_vpage, (so_inj _ _ Hs va vb e e').
  - by destruct (Hmix q q').
  - by destruct (Hmix q' q).
  - destruct Hp as (Hv & Hlen & _), Hp' as (Hv' & Hlen' & _). rewrite holder_table in Hh, Hh' by lia.
    apply (pt_inj _ _ _ (proj2 (so_root _ _ Hs)) q q' f); (done || lia).
Qed.

(** A user page is at its position. *)
Lemma user_page_holder va e : user_page v r va e → holder m r (vpath va) = Some (e .& VMM_PHYS_MASK).
Proof.
  intros (Hva & Hl & Hu). destruct (walk m r (tables_path va)) as [pt|] eqn:Hw.
  - pose proof (fault_entry _ _ _ _ _ (proj2 (so_root _ _ Hs)) Hw) as Hf. rewrite Hl in Hf.
    destruct (has (pte m pt (pt_idx va)) VMM_PRESENT) eqn:E; [|done]. injection Hf as Hpte.
    unfold vpath. rewrite (holder_page _ _ (tables_path va) pt) by done. cbv zeta.
    rewrite user_present_bits, <- has_present, <- has_user, E, <- Hpte, Hu. done.
  - exfalso. clear -Hl Hw. unfold vleaf, leaf in Hl. fold (tables_path va) in Hl. rewrite Hw in Hl.
    by repeat case_match.
Qed.

End Held.

(** ** Destruction *)

Definition under (s q : list Z) : bool := bool_decide (s `prefix_of` q).

Lemma under_snoc p i q : below p (i + 1) q = below p i q || under (p ++ [i]) q.
Proof.
  unfold under. apply eq_true_iff_eq. rewrite orb_true_iff, !below_true, bool_decide_eq_true. split.
  - intros (j & q' & -> & Hj). destruct (decide (j = i)) as [->|].
    + right. exists q'. by rewrite <- app_assoc.
    + left. exists j, q'. split; [done|lia].
  - intros [(j & q' & -> & Hj)|[q' ->]].
    + exists j, q'. split; [done|lia].
    + exists i, q'. rewrite <- app_assoc. split; [done|lia].
Qed.

Lemma under_split s q : valid_path q → under s q = below s 512 q || bool_decide (q = s).
Proof.
  intros Hv. unfold under. apply eq_true_iff_eq. rewrite orb_true_iff, below_true, !bool_decide_eq_true. split.
  - intros [[|j q'] ->]; [right; by rewrite app_nil_r|]. left. exists j, q'. split; [done|].
    apply valid_path_app in Hv as [_ [Hj _]%Forall_cons]. lia.
  - intros [(j & q' & -> & _)| ->]; [by eexists|done].
Qed.

Lemma below_zero p q : valid_path q → below p 0 q = false.
Proof.
  intros Hv. apply not_true_iff_false. rewrite below_true. intros (j & q' & -> & Hj).
  apply valid_path_app in Hv as [_ [? _]%Forall_cons]. lia.
Qed.

Lemma position_snoc p i : position p → (2 <= length p <= 3)%nat → 0 <= i < 512 → position (p ++ [i]).
Proof.
  intros (Hv & _ & Hs) Hl Hi. split; [by apply valid_path_app; split; [|apply valid_path_one]|].
  split; [rewrite length_app; simpl; lia|]. destruct p as [|a [|b p]]; simpl in *; (lia || done).
Qed.

Section Destroy.
Context (v0 : vm S) (r : Z) (Hs : space_ok v0 r) (Hnh : no_huge v0 r).
Abbreviation m0 := (vm_mem v0).

(** The positions of [P] are given back: their entries cleared, their frames released
    once; nothing else changed. *)
Record emptied (P : list Z → bool) (v : vm S) : Prop := {
  em_fa : fa_wf (vm_pmm v);
  em_cr3 : vm_cr3 v = vm_cr3 v0;
  em_entry p t i : position (p ++ [i]) → walk m0 r p = Some t →
    pte (vm_mem v) t i =
      if P (p ++ [i]) && bool_decide (is_Some (holder m0 r (p ++ [i]))) then 0 else pte m0 t i;
  em_held q f : position q → holder m0 r q = Some f → rc_of v f = rc_of v0 f - (if P q then 1 else 0);
  em_rc f : ¬ holds v0 r f → rc_of v f = rc_of v0 f;
  em_mem b : (∀ p t, position p → (length p <= 3)%nat → walk m0 r p = Some t → ¬ page_range t b) →
    read8 (vm_mem v) b = read8 m0 b;
}.

Lemma emptied_none : emptied (λ _, false) v0.
Proof. constructor; try done; [apply Hs|]. intros. lia. Qed.

Lemma emptied_ext P P' v :
  (∀ q f, position q → holder m0 r q = Some f → P q = P' q) → emptied P v → emptied P' v.
Proof.
  intros H [Hfa Hc He Hh Hrc Hm]. constructor; try done.
  - intros p t i Hp Hw. rewrite (He p t i Hp Hw). destruct (holder m0 r (p ++ [i])) as [f|] eqn:E.
    + by rewrite (H _ f Hp E).
    + by rewrite !andb_false_r.
  - intros q f Hq E. by rewrite <- (H q f Hq E), (Hh q f).
Qed.

Lemma position_table p i : position (p ++ [i]) → position p ∧ (length p <= 3)%nat ∧ 0 <= i < 512.
Proof.
  intros Hp. split; [eapply position_prefix; [|done]; by eexists|].
  destruct Hp as ([_ Hi%valid_path_one]%valid_path_app & Hl & _). rewrite length_app in Hl. simpl in Hl.
  split; [lia|done].
Qed.

Lemma table_frame p t : position p → (length p <= 3)%nat → walk m0 r p = Some t → is_frame t.
Proof. intros (Hv & _) Hl Hw. by apply (pt_tables _ _ _ (proj2 (so_root _ _ Hs)) p). Qed.

(** One frame given back and its entry cleared. *)
Lemma release P v p t i f :
  position (p ++ [i]) → walk m0 r p = Some t → holder m0 r (p ++ [i]) = Some f → P (p ++ [i]) = false →
  emptied P v →
  wp (free_frame f;; store t i 0) (λ _ v', emptied (λ q, P q || bool_decide (q = p ++ [i])) v') v.
Proof.
  intros Hp Hw Hh HP E. destruct (position_table p i Hp) as (Hpp & Hlp & Hi).
  pose proof (table_frame p t Hpp Hlp Hw) as Ht.
  destruct (holder_held v0 r Hs _ f Hp Hh) as [Hf Hrc].
  pose proof (em_held _ _ E _ f Hp Hh) as Hrcv. rewrite HP in Hrcv.
  apply wp_bind. unfold free_frame, on_pmm. apply wp_zoom.
  eapply wp_mono; [apply fa_free_spec; [apply E|destruct Hf; lia|lia]|].
  intros [] s' (Hfa & Hupd & _). unfold store. apply wp_modify. simpl.
  destruct (stored_entries (vm_mem v) t i 0 _ Ht Hi ltac:(lia) eq_refl) as (Hset & Hother & Hmem).
  generalize dependent (write64 (vm_mem v) (pte_addr t i) 0). intros m' Hset Hother Hmem.
  constructor; simpl; [done|apply E| | | |].
  - intros p' t' i' Hp' Hw'. destruct (position_table p' i' Hp') as (Hpp' & Hlp' & Hi').
    destruct (decide (p' ++ [i'] = p ++ [i])) as [Heq|Hne].
    + rewrite Heq, Hh. apply app_inj_tail in Heq as [-> ->]. assert (t' = t) as -> by congruence.
      rewrite bool_decide_true by done. rewrite orb_true_r. simpl. exact Hset.
    + rewrite Hother; [|by apply (table_frame p')|done|].
      * rewrite (em_entry _ _ E p' t' i' Hp' Hw'). by rewrite (bool_decide_false (p' ++ [i'] = _)), orb_false_r.
      * intros [= -> ->]. destruct Hne. destruct Hpp as (Hv & _), Hpp' as (Hv' & _).
        by rewrite (pt_inj _ _ _ (proj2 (so_root _ _ Hs)) p p' t).
  - intros q g Hq Hg. rewrite Hupd. destruct (Z.eqb_spec f g) as [<-|Hne].
    + assert (q = p ++ [i]) as -> by (by eapply (holder_inj v0 r Hs)).
      rewrite bool_decide_true, orb_true_r by done. lia.
    + rewrite (em_held _ _ E q g Hq Hg). rewrite bool_decide_false, orb_false_r by congruence. done.
  - intros g Hg. rewrite Hupd. destruct (Z.eqb_spec f g) as [<-|Hne]; [|by apply E].
    destruct Hg. by exists (p ++ [i]).
  - intros b Hb. rewrite Hmem by (by apply (Hb p)). by apply E.
Qed.

(** The entries of one table, in turn. *)
Lemma entries_loop P v p n body :
  0 <= n <= 512 → (∀ q, p `prefix_of` q → P q = false) → emptied P v →
  (∀ i Q w, 0 <= i < n → (∀ q, p ++ [i] `prefix_of` q → Q q = false) → emptied Q w →
     wp (body i) (λ _ w', emptied (λ q, Q q || under (p ++ [i]) q) w') w) →
  wp (for_rangeM 0 n body) (λ _ v', emptied (λ q, P q || below p n q) v') v.
Proof.
  intros Hn HP E Hbody.
  apply (wp_for_range (λ i w, emptied (λ q, P q || below p i q) w)); [lia| | |done].
  - eapply emptied_ext; [|exact E]. intros q f (Hv & _) _. by rewrite below_zero, orb_false_r.
  - intros i w Hi Ei. eapply wp_mono.
    + apply (Hbody i (λ q, P q || below p i q) w Hi); [|exact Ei]. intros q [k ->]. cbv beta. rewrite HP.
      2: { exists ([i] ++ k). by rewrite app_assoc. }
      rewrite <- app_assoc, below_app. simpl. apply Z.ltb_irrefl.
    + intros [] w' E'. eapply emptied_ext; [|exact E']. intros q f _ _. cbv beta. by rewrite under_snoc, orb_assoc.
Qed.

(** Below an absent entry there is nothing to give back. *)
Lemma absent_entry P v p i :
  (length p <= 2)%nat → walk m0 r (p ++ [i]) = None → emptied P v → emptied (λ q, P q || under (p ++ [i]) q) v.
Proof.
  intros Hl Hw E. eapply emptied_ext; [|exact E]. intros q f (Hv & Hq & _) Hh. cbv beta. unfold under.
  rewrite bool_decide_false; [by rewrite orb_false_r|]. intros [k ->]. exfalso.
  assert (∀ k, walk m0 r ((p ++ [i]) ++ k) = None) as Hnone by (intros k'; by rewrite walk_app, Hw).
  rewrite !length_app in Hq. simpl in Hq.
  destruct (decide (length ((p ++ [i]) ++ k) <= 3)%nat) as [Hle|Hgt].
  - rewrite holder_table, Hnone in Hh by done. done.
  - rewrite !length_app in Hgt. simpl in Hgt. destruct k as [|a k] using rev_ind; [simpl in Hgt; lia|].
    rewrite length_app in *. simpl in *.
    rewrite app_assoc in Hh.
    destruct ((p ++ [i]) ++ k) as [|i4 [|i3 [|i2 [|]]]] eqn:Ek;
      apply (f_equal length) in Ek as Ek'; rewrite !length_app in Ek'; simpl in Ek'; try lia.
    cbn [app holder] in Hh. rewrite <- Ek, Hnone in Hh. done.
Qed.

(** A present entry of a position leads to a table. *)
Lemma present_entry p t i : (length p <= 2)%nat → position (p ++ [i]) → walk m0 r p = Some t →
  has (pte m0 t i) VMM_PRESENT = true →
  has (pte m0 t i) VMM_HUGE = false ∧ walk m0 r (p ++ [i]) = Some (pte m0 t i .& VMM_PHYS_MASK).
Proof.
  intros Hl Hp Hw Hpr. destruct (position_table p i Hp) as ((Hv & _) & _ & Hi).
  assert (has (pte m0 t i) VMM_HUGE = false) as Hh.
  2: { split; [done|]. rewrite walk_snoc, Hw. by apply next_intro. }
  destruct (decide (length p <= 1)%nat) as [Hle|Hgt].
  { by apply (pt_nohuge _ _ _ (proj2 (so_root _ _ Hs)) p). }
  destruct p as [|i4 [|i3 [|]]]; simpl length in *; try lia.
  destruct (has (pte m0 t i) VMM_HUGE) eqn:E; [|done].
  assert (position [i4; i3; i; 0]) as Hp4 by (apply (position_snoc [i4; i3; i]); [done|simpl; lia|lia]).
  destruct (position_va _ Hp4 eq_refl) as (va & _ & Hva). unfold vpath, tables_path in Hva.
  injection Hva as E4 E3 E2 E1.
  apply (Hnh va true (pte m0 t i)); [unfold tables_path; rewrite E4, E3, E2; apply Hp|].
  unfold vleaf, leaf. rewrite E4, E3, E2.
  assert (walk m0 r [i4; i3; i] = None) as ->.
  { change [i4; i3; i] with ([i4; i3] ++ [i]). rewrite walk_snoc, Hw. unfold next. by rewrite E, andb_false_r. }
  by rewrite Hw, Hpr.
Qed.

(** The table behind an entry: its own entries first, then the table. *)
Lemma table_release P v p t i (inner : M (vm S) ()) :
  (length p <= 2)%nat → position (p ++ [i]) → walk m0 r p = Some t → has (pte m0 t i) VMM_PRESENT = true →
  (∀ q, p ++ [i] `prefix_of` q → P q = false) →
  wp inner (λ _ v', emptied (λ q, P q || below (p ++ [i]) 512 q) v') v →
  wp (inner;; e' ← load t i; free_frame (e' .& VMM_PHYS_MASK);; store t i 0)
     (λ _ v', emptied (λ q, P q || under (p ++ [i]) q) v') v.
Proof.
  intros Hl Hp Hw Hpr HP Hin. destruct (present_entry p t i Hl Hp Hw Hpr) as [_ Hwi].
  apply wp_bind. eapply wp_mono; [exact Hin|]. intros [] w E. unfold load. apply wp_bind, wp_gets.
  assert (P (p ++ [i]) || below (p ++ [i]) 512 (p ++ [i]) = false) as HQ.
  { rewrite HP by done. rewrite <- (app_nil_r (p ++ [i])) at 2. by rewrite below_app. }
  rewrite (em_entry _ _ E p t i Hp Hw), HQ. simpl.
  eapply wp_mono; [apply (release (λ q, P q || below (p ++ [i]) 512 q) w p); [done|done| |exact HQ|exact E]|].
  - rewrite holder_table; [done|rewrite length_app; simpl; lia].
  - intros [] w' E'. eapply emptied_ext; [|exact E']. intros q f (Hv & _) _. cbv beta.
    by rewrite (under_split _ q Hv), orb_assoc.
Qed.

Lemma destroy_pt_steps P v p pt : length p = 3%nat → position p → walk m0 r p = Some pt →
  (∀ q, p `prefix_of` q → P q = false) → emptied P v →
  wp (destroy_pt pt) (λ _ v', emptied (λ q, P q || below p 512 q) v') v.
Proof.
  intros Hl Hp Hw HP E. unfold destroy_pt. apply entries_loop; [lia|done|done|].
  intros i Q w Hi HQ Ew. assert (position (p ++ [i])) as Hpi by (apply position_snoc; (done || lia)).
  unfold load. apply wp_bind, wp_gets. rewrite (em_entry _ _ Ew p pt i Hpi Hw), HQ by done. simpl.
  pose proof (holder_page m0 r p pt i Hl Hw) as Hh. cbv zeta in Hh. unfold USER_PRESENT in Hh.
  assert (∀ q f, position q → holder m0 r q = Some f → under (p ++ [i]) q = bool_decide (q = p ++ [i])) as Hund.
  { intros q f (Hv & Hlq & _) _. rewrite under_split by done.
    assert (below (p ++ [i]) 512 q = false) as ->; [|done]. apply not_true_iff_false. rewrite below_true.
    intros (j & q' & -> & _). rewrite !length_app in Hlq. simpl in Hlq. lia. }
  destruct (has_all _ _).
  - eapply wp_mono; [by apply (release Q w p pt i _ Hpi Hw Hh); [apply HQ|]|].
    intros [] w' E'. eapply emptied_ext; [|exact E']. intros q f Hq Hf. cbv beta. by rewrite (Hund q f).
  - apply wp_ret. eapply emptied_ext; [|exact Ew]. intros q f Hq Hf. cbv beta. rewrite (Hund q f) by done.
    rewrite bool_decide_false; [by rewrite orb_false_r|]. intros ->. congruence.
Qed.

Lemma destroy_pd_entry_steps P v p pd k : length p = 2%nat → position (p ++ [k]) → walk m0 r p = Some pd →
  (∀ q, p ++ [k] `prefix_of` q → P q = false) → emptied P v →
  wp (destroy_pd_entry pd k) (λ _ v', emptied (λ q, P q || under (p ++ [k]) q) v') v.
Proof.
  intros Hl Hp Hw HP E. unfold destroy_pd_entry. unfold load at 1. apply wp_bind, wp_gets.
  rewrite (em_entry _ _ E p pd k Hp Hw), HP by done. simpl.
  destruct (has (pte m0 pd k) VMM_PRESENT) eqn:Hpr; simpl.
  2: { apply wp_ret. apply absent_entry; [lia| |done]. rewrite walk_snoc, Hw. by apply next_absent. }
  destruct (present_entry p pd k) as [Hh Hwk]; [lia|done..|]. rewrite Hh.
  apply table_release; [lia|done..|].
  apply destroy_pt_steps; [rewrite length_app; simpl; lia|done..].
Qed.

Lemma destroy_pdpt_entry_steps P v i pdpt j : 0 <= i < 256 → 0 <= j < 512 → walk m0 r [i] = Some pdpt →
  (∀ q, [i; j] `prefix_of` q → P q = false) → emptied P v →
  wp (destroy_pdpt_entry i pdpt j) (λ _ v', emptied (λ q, P q || under [i; j] q) v') v.
Proof.
  intros Hi Hj Hw HP E. unfold destroy_pdpt_entry.
  destruct ((i =? 0) && (j =? 0)) eqn:E0.
  { apply andb_true_iff in E0 as [->%Z.eqb_eq ->%Z.eqb_eq]. apply wp_ret. eapply emptied_ext; [|exact E].
    intros q f (_ & _ & Hsh) _. cbv beta. unfold under. rewrite bool_decide_false; [by rewrite orb_false_r|].
    intros [k ->]. done. }
  assert (position ([i] ++ [j])) as Hp.
  { split; [apply valid_path_app; rewrite !valid_path_one; lia|]. split; [simpl; lia|]. simpl.
    rewrite (proj2 (Z.leb_gt 256 i)) by lia. exact E0. }
  unfold load at 1. apply wp_bind, wp_gets. rewrite (em_entry _ _ E [i] pdpt j Hp Hw). simpl app.
  rewrite HP by done. simpl.
  destruct (has (pte m0 pdpt j) VMM_PRESENT) eqn:Hpr; simpl.
  2: { apply wp_ret. apply (absent_entry P v [i] j); [simpl; lia| |done]. rewrite walk_snoc, Hw. by apply next_absent. }
  destruct (present_entry [i] pdpt j) as [Hh Hwj]; [simpl; lia|done..|]. rewrite Hh.
  apply (table_release P v [i] pdpt j); [simpl; lia|done..|].
  apply entries_loop; [lia|done|done|]. intros k Q w Hk HQ Ew.
  apply (destroy_pd_entry_steps Q w ([i] ++ [j])); [done| |done..]. apply position_snoc; [done|simpl; lia|done].
Qed.

Lemma destroy_pml4_entry_steps P v i : 0 <= i < 256 →
  (∀ q, [i] `prefix_of` q → P q = false) → emptied P v →
  wp (destroy_pml4_entry r i) (λ _ v', emptied (λ q, P q || under [i] q) v') v.
Proof.
  intros Hi HP E. unfold destroy_pml4_entry.
  assert (position ([] ++ [i])) as Hp.
  { split; [apply valid_path_one; lia|]. split; [simpl; lia|]. simpl.
    rewrite (proj2 (Z.leb_gt 256 i)) by lia. simpl. apply andb_false_r. }
  unfold load at 1. apply wp_bind, wp_gets. rewrite (em_entry _ _ E [] r i Hp eq_refl). simpl app.
  rewrite HP by done. simpl.
  destruct (has (pte m0 r i) VMM_PRESENT) eqn:Hpr; simpl.
  2: { apply wp_ret. apply (absent_entry P v [] i); [simpl; lia| |done]. simpl. by rewrite next_absent. }
  destruct (present_entry [] r i) as [_ Hwi]; [simpl; lia|done..|].
  apply (table_release P v [] r i); [simpl; lia|done..|].
  apply entries_loop; [lia|done|done|]. intros j Q w Hj HQ Ew.
  by apply destroy_pdpt_entry_steps.
Qed.

(** The space is gone: every frame it held is given back once, no other count changes,
    and only its own tables were written. *)
Definition destroyed (v : vm S) : Prop :=
  fa_wf (vm_pmm v) ∧ vm_cr3 v = vm_cr3 v0 ∧
  (∀ f, holds v0 r f → rc_of v f = rc_of v0 f - 1) ∧
  (∀ f, ¬ holds v0 r f → rc_of v f = rc_of v0 f) ∧
  (∀ b, (∀ q t, position q → (length q <= 3)%nat → holder m0 r q = Some t → ¬ page_range t b) →
     read8 (vm_mem v) b = read8 m0 b).

Lemma root_held : position [] ∧ holder m0 r [] = Some r.
Proof. split; [|done]. split; [constructor|]. split; [simpl; lia|done]. Qed.

Lemma position_below q : position q → q ≠ [] → below [] 256 q = true.
Proof.
  intros (_ & _ & Hsh) Hne. destruct q as [|i q]; [done|]. simpl in *.
  apply orb_false_iff in Hsh as [Hi _]. b2p. by apply Z.ltb_lt.
Qed.

Lemma destroy_steps : wp (vmm_destroy_user_address_space r) (λ _ v', destroyed v') v0.
Proof.
  destruct root_held as [Hp0 Hh0]. destruct (holder_held v0 r Hs [] r Hp0 Hh0) as [Hrf Hrc].
  unfold vmm_destroy_user_address_space. rewrite (proj2 (Z.eqb_neq r 0)) by (destruct Hrf; lia).
  apply wp_bind. eapply wp_mono.
  { apply (entries_loop (λ _, false) v0 [] 256); [lia|done|apply emptied_none|].
    intros i Q w Hi HQ E. by apply destroy_pml4_entry_steps. }
  intros [] w E. unfold free_frame, on_pmm. apply wp_zoom.
  pose proof (em_held _ _ E [] r Hp0 Hh0) as Hr. simpl in Hr.
  eapply wp_mono; [apply fa_free_spec; [apply E|destruct Hrf; lia|lia]|].
  intros [] s (Hfa & Hupd & _). split; [done|]. split; [apply E|]. simpl. split_and!.
  - intros f (q & Hq & Hf). rewrite Hupd. destruct (Z.eqb_spec r f) as [<-|Hne]; [lia|].
    rewrite (em_held _ _ E q f Hq Hf). simpl.
    assert (q ≠ []) as Hq0 by (intros ->; simpl in Hf; congruence).
    pose proof (position_below q Hq Hq0) as Hb. destruct q as [|j q]; [done|]. simpl in *. by rewrite Hb.
  - intros f Hf. rewrite Hupd. destruct (Z.eqb_spec r f) as [<-|Hne]; [|by apply E].
    destruct Hf. by exists [].
  - intros b Hb. apply E. intros p t Hp Hl Hw. apply (Hb p); [done|done|by rewrite holder_table].
Qed.

End Destroy.

(** ** Other address spaces *)

(** Space [r'] uses no table that [r] holds; a page of it that [r] holds too is no
    table and is counted for both. *)
Record apart (v : vm S) (r r' : Z) : Prop := {
  ap_table q t : valid_path q → (length q <= 3)%nat → walk (vm_mem v) r' q = Some t → ¬ holds v r t;
  ap_page va e q : user_page v r' va e → position q → holder (vm_mem v) r q = Some (e .& VMM_PHYS_MASK) →
    length q = 4%nat ∧ 2 <= rc_of v (e .& VMM_PHYS_MASK);
}.

(** A space whose tables and pages stay held and unwritten. *)
Record untouched (v v' : vm S) (r : Z) : Prop := {
  un_fa : fa_wf (vm_pmm v');
  un_table q t : valid_path q → (length q <= 3)%nat → walk (vm_mem v) r q = Some t →
    0 < rc_of v' t ∧ ∀ b, page_range t b → read8 (vm_mem v') b = read8 (vm_mem v) b;
  un_page va e : user_page v r va e →
    0 < rc_of v' (e .& VMM_PHYS_MASK) ∧
    ∀ b, page_range (e .& VMM_PHYS_MASK) b → read8 (vm_mem v') b = read8 (vm_mem v) b;
}.

(** The space is in order, with the translations and the user bytes it had. *)
Definition intact (v v' : vm S) (r : Z) : Prop :=
  space_ok v' r ∧ (∀ va, vleaf (vm_mem v') r va = vleaf (vm_mem v) r va) ∧
  (∀ va, 0 <= va < USER_SPACE_TOP → user_ok (vm_mem v) r va = true → ubyte (vm_mem v') r va = ubyte (vm_mem v) r va).

Section Untouched.
Context (v v' : vm S) (r : Z) (Hs : space_ok v r) (Hun : untouched v v' r).

Lemma untouched_entries q t i : valid_path q → (length q <= 3)%nat → walk (vm_mem v) r q = Some t → 0 <= i < 512 →
  pte (vm_mem v') t i = pte (vm_mem v) t i.
Proof. intros Hv Hl Hw Hi. apply pte_ext; [done|]. by apply (un_table _ _ _ Hun q t). Qed.

Lemma untouched_leaf va : vleaf (vm_mem v') r va = vleaf (vm_mem v) r va.
Proof. unfold vleaf. apply (same_entries_leaf _ _ _ _ _ _ _ untouched_entries), (vpath_valid va). Qed.

Lemma untouched_page va e : user_page v' r va e ↔ user_page v r va e.
Proof. unfold user_page. by rewrite untouched_leaf. Qed.

Lemma untouched_space : space_ok v' r.
Proof.
  constructor.
  - split; [apply Hun|]. eapply same_tables_wf; [apply Hs|exact untouched_entries|].
    intros q t Hv Hl Hw. by apply (un_table _ _ _ Hun q t).
  - intros va h e Hva. rewrite untouched_leaf. by apply (so_small _ _ Hs).
  - intros va e Hu%untouched_page. destruct (so_frame _ _ Hs va e Hu) as (H0 & _ & Hno). split; [done|].
    split; [by apply (un_page _ _ _ Hun va e)|]. intros q Hv Hl.
    rewrite (same_entries_walk _ _ _ _ untouched_entries) by (done || lia). by apply Hno.
  - intros va vb e e' Hu%untouched_page Hu'%untouched_page. by apply (so_inj _ _ Hs).
Qed.

Lemma untouched_holder q f : position q → holder (vm_mem v') r q = Some f → holder (vm_mem v) r q = Some f.
Proof.
  intros Hq Hh. pose proof Hq as (Hv & Hl & _). destruct (decide (length q = 4%nat)) as [H4|H4].
  - destruct (holder_user v' r untouched_space q f Hq H4 Hh) as (va & e & <- & Hu%untouched_page & ->).
    by apply user_page_holder.
  - rewrite holder_table in Hh |- * by lia.
    by rewrite (same_entries_walk _ _ _ _ untouched_entries) in Hh by (done || lia).
Qed.

Lemma untouched_intact : intact v v' r.
Proof.
  split; [apply untouched_space|]. split; [apply untouched_leaf|]. intros va Hva Hok.
  apply (user_ok_iff v r va Hs Hva) in Hok as [e Hu]. unfold ubyte.
  rewrite (user_page_physical v' r va e), (user_page_physical v r va e);
    [|apply Hs|done|apply untouched_space|by apply untouched_page].
  apply (un_page _ _ _ Hun va e Hu). unfold page_range. pose proof (Z.mod_pos_bound va PAGE_SIZE ltac:(done)). lia.
Qed.

End Untouched.

Section Other.
Context (v v' : vm S) (r r' : Z) (Hs : space_ok v r) (Hs' : space_ok v r') (Ha : apart v r r') (Hd : destroyed v r v').

Lemma destroyed_rc f : (∀ q, position q → holder (vm_mem v) r q = Some f → 2 <= rc_of v f) → 0 < rc_of v f →
  0 < rc_of v' f.
Proof.
  intros H2 H0. destruct Hd as (_ & _ & Hheld & Hrc & _).
  destruct (decide (rc_of v' f = rc_of v f)) as [->|Hne]; [done|].
  destruct (decide (0 < rc_of v' f)) as [|Hle]; [done|]. exfalso. apply Hne, Hrc. intros Hh.
  pose proof (Hheld f Hh). destruct Hh as (q & Hq & Hf). specialize (H2 q Hq Hf). lia.
Qed.

(** A frame that is no table of [r] keeps its bytes. *)
Lemma destroyed_bytes f : is_frame f →
  (∀ q, position q → (length q <= 3)%nat → holder (vm_mem v) r q ≠ Some f) →
  ∀ b, page_range f b → read8 (vm_mem v') b = read8 (vm_mem v) b.
Proof.
  intros Hf Hno b Hb. destruct Hd as (_ & _ & _ & _ & Hmem). apply Hmem. intros q t Hq Hl Hh Hb'.
  apply (Hno q Hq Hl). destruct (holder_held v r Hs q t Hq Hh) as [Ht _].
  by rewrite (frames_disjoint f t b Hf Ht Hb Hb').
Qed.

Lemma destroyed_intact : intact v v' r'.
Proof.
  apply untouched_intact; [done|]. constructor; [apply Hd| |].
  - intros q t Hv Hl Hw. destruct (pt_tables _ _ _ (proj2 (so_root _ _ Hs')) q t Hv Hl Hw) as [Ht Hrc]. split.
    + apply destroyed_rc; [|done]. intros p Hp Hh. destruct (ap_table _ _ _ Ha q t Hv Hl Hw). by exists p.
    + apply destroyed_bytes; [done|]. intros p Hp _ Hh. destruct (ap_table _ _ _ Ha q t Hv Hl Hw). by exists p.
  - intros va e Hu. pose proof (so_frame _ _ Hs' va e Hu) as Hown.
    pose proof (own_is_frame v r' _ (so_root _ _ Hs') Hown) as Hf. split.
    + apply destroyed_rc; [|apply Hown]. intros q Hq Hh. by apply (ap_page _ _ _ Ha va e q).
    + apply destroyed_bytes; [done|]. intros q Hq Hl Hh. destruct (ap_page _ _ _ Ha va e q Hu Hq Hh). lia.
Qed.

End Other.
End Space.
