(* ===== verification/SpaceClone.v ===== *)
(** * Address spaces: copy-on-write clones

    [vmm_clone_user_address_space] walks the tables of the parent: every user page is
    counted once more, made read-only and copy-on-write where it was writable, and
    entered into the child's tables.  On a shortage of frames the child is destroyed. *)

From Stdlib Require Import ZArith Lia.
From S2P Require Import Prelude Memory Frames Vmm VmmInv VmmOps VmmBuild VmmSpace VmmCow VmmProps.
From S2P Require Import Uaccess UaccessInv UaccessWrite SpaceDestroy.
Import StringC.

(** ** Entries of shared pages *)

Definition cow_flags (e : Z) : Z :=
  let flags := e .& ~64 VMM_PHYS_MASK in
  if has flags VMM_WRITE then (flags .& ~64 VMM_WRITE) .| VMM_COW else flags.

(** The entry of a page both spaces have. *)
Definition cow_entry (e : Z) : Z := (e .& VMM_PHYS_MASK) .| cow_flags e.

Section Entry.
Context (e : Z) (He : 0 <= e < 2^64).

Lemma split_entry : (e .& VMM_PHYS_MASK) .| (e .& ~64 VMM_PHYS_MASK) = e.
Proof.
  apply Z.bits_inj'. intros n Hn. bits_expand. destruct (Z.ltb_spec n 64) as [Hlt|Hge].
  - by destruct (Z.testbit e n), ((12 <=? n) && (n <? 52)).
  - by rewrite (bits_above e n 64).
Qed.

Lemma cow_entry_bit k : 0 <= k → k ≠ 1 → k ≠ 9 → Z.testbit (cow_entry e) k = Z.testbit e k.
Proof.
  intros Hk H1 H9. rewrite <- split_entry at 2. unfold cow_entry, cow_flags. cbv zeta. case_if; [|done].
  rewrite !Z.lor_spec. f_equal. bits_expand.
  rewrite (proj2 (Z.eqb_neq 1 k)), (proj2 (Z.eqb_neq 9 k)) by done. rewrite orb_false_r. simpl. rewrite !andb_true_r.
  destruct (Z.ltb_spec k 64); [by rewrite !andb_true_r|]. by rewrite (bits_above e k 64).
Qed.

Lemma cow_entry_write : has (cow_entry e) VMM_WRITE = false.
Proof.
  rewrite has_write. unfold cow_entry, cow_flags. cbv zeta. rewrite has_write.
  destruct (Z.testbit (e .& ~64 VMM_PHYS_MASK) 1) eqn:E.
  - bits_expand. simpl. by rewrite !andb_false_r.
  - rewrite Z.lor_spec, E. bits_expand. simpl. by rewrite andb_false_r.
Qed.

Lemma cow_entry_cow : has e VMM_WRITE = true → has (cow_entry e) VMM_COW = true.
Proof.
  rewrite has_write, has_cow. intros H. unfold cow_entry, cow_flags. cbv zeta. rewrite has_write, flags_bit, H by lia.
  bits_expand. simpl. by rewrite !orb_true_r.
Qed.

Lemma shared_entry_phys : cow_entry e .& VMM_PHYS_MASK = e .& VMM_PHYS_MASK.
Proof.
  apply Z.bits_inj'. intros n Hn. rewrite !Z.land_spec, phys_mask_bits by lia.
  destruct (decide (n = 1)) as [->|]; [by rewrite !andb_false_r|].
  destruct (decide (n = 9)) as [->|]; [by rewrite !andb_false_r|].
  by rewrite cow_entry_bit.
Qed.

Lemma cow_entry_in_range : 0 <= cow_entry e < 2^64.
Proof.
  apply range_of_bits; [lia|]. intros n Hn. rewrite cow_entry_bit by lia. by apply (bits_above _ _ 64).
Qed.

Lemma shared_entry_present : has (cow_entry e) VMM_PRESENT = has e VMM_PRESENT.
Proof. rewrite !has_present. by apply cow_entry_bit. Qed.

Lemma cow_entry_user : has (cow_entry e) VMM_USER = has e VMM_USER.
Proof. rewrite !has_user. by apply cow_entry_bit. Qed.

(** The child's entry, as [vmm_map_page] builds it, is the parent's. *)
Lemma cow_entry_mapped : has e VMM_PRESENT = true → leaf_entry (e .& VMM_PHYS_MASK) (cow_flags e) = cow_entry e.
Proof.
  rewrite has_present. intros Hp. unfold leaf_entry, cow_entry, cow_flags. cbv zeta.
  destruct (has _ VMM_WRITE); bits_eq; subst; congruence.
Qed.
End Entry.

Lemma cow_entry_readonly e : 0 <= e < 2^64 → has (e .& ~64 VMM_PHYS_MASK) VMM_WRITE = false → cow_entry e = e.
Proof. intros He Hw. unfold cow_entry, cow_flags. cbv zeta. rewrite Hw. by apply split_entry. Qed.

(** The leaf of the parent and of the child after the clone. *)
Definition cow_leaf (l : option (bool * Z)) : option (bool * Z) :=
  match l with Some (false, e) => if has e VMM_USER then Some (false, cow_entry e) else l | _ => l end.
Definition copy_leaf (l : option (bool * Z)) : option (bool * Z) :=
  match l with Some (false, e) => if has e VMM_USER then Some (false, cow_entry e) else None | _ => None end.

Definition add (P : list Z → bool) (q : list Z) : list Z → bool := λ p, P p || bool_decide (p = q).

Lemma add_eq P q : add P q q = true.
Proof. unfold add. by rewrite bool_decide_true, orb_true_r. Qed.
Lemma add_ne P q p : p ≠ q → add P q p = P p.
Proof. intros. unfold add. by rewrite bool_decide_false, orb_false_r. Qed.

Section Clone.
Context {S : Type} `{FA : FrameAllocator S}.
Implicit Types v : vm S.
Abbreviation rc_of v := (fa_rc (vm_pmm v)).

Context (v0 : vm S) (src dst : Z) (Hs : space_ok v0 src).
Context (Hpriv : ∀ va e, user_page v0 src va e → shared_path (tables_path va) = false).
Abbreviation m0 := (vm_mem v0).

(** In [v] the pages [PS] of the parent are copy-on-write, the pages [PD] are in the
    child and the pages [PR] are counted for it. *)
Record cloning (PS PD PR : list Z → bool) (v : vm S) : Prop := {
  cl_src : root_ok v src;
  cl_dst : root_ok v dst;
  cl_cr3 : vm_cr3 v = vm_cr3 v0;
  cl_walk q : valid_path q → (length q <= 3)%nat → walk (vm_mem v) src q = walk m0 src q;
  cl_leaf va : 0 <= va < USER_SPACE_TOP →
    vleaf (vm_mem v) src va = if PS (vpath va) then cow_leaf (vleaf m0 src va) else vleaf m0 src va;
  cl_shared q : valid_path q → (length q <= 3)%nat → shared_path q = true →
    walk (vm_mem v) dst q = walk m0 src q;
  cl_private q t : valid_path q → (length q <= 3)%nat → shared_path q = false →
    walk (vm_mem v) dst q = Some t → rc_of v0 t = 0 ∧ rc_of v t = 1;
  cl_copy va : 0 <= va < USER_SPACE_TOP → shared_path (tables_path va) = false →
    vleaf (vm_mem v) dst va = if PD (vpath va) then copy_leaf (vleaf m0 src va) else None;
  cl_huge q t i : length q = 2%nat → position (q ++ [i]) → walk (vm_mem v) dst q = Some t →
    has (pte (vm_mem v) t i) VMM_HUGE = false;
  cl_page va e : user_page v0 src va e →
    rc_of v (e .& VMM_PHYS_MASK) = rc_of v0 (e .& VMM_PHYS_MASK) + (if PR (vpath va) then 1 else 0);
  cl_ge f : rc_of v0 f <= rc_of v f;
  cl_rc f : (∀ va e, user_page v0 src va e → e .& VMM_PHYS_MASK ≠ f) → rc_of v0 f ≠ 0 → rc_of v f = rc_of v0 f;
  cl_free f : rc_of v0 f = 0 →
    rc_of v f = 0 ∨ ∃ q, position q ∧ (length q <= 3)%nat ∧ walk (vm_mem v) dst q = Some f;
  cl_mem b : read8 (vm_mem v) b = read8 m0 b ∨
    (∃ f, is_frame f ∧ rc_of v0 f = 0 ∧ page_range f b) ∨
    (∃ q t, position q ∧ length q = 3%nat ∧ walk m0 src q = Some t ∧ page_range t b);
}.

Lemma src_table q t : valid_path q → (length q <= 3)%nat → walk m0 src q = Some t → is_frame t ∧ 0 < rc_of v0 t.
Proof. by apply (pt_tables _ _ _ (proj2 (so_root _ _ Hs))). Qed.

Lemma user_frame_held va e : user_page v0 src va e → is_frame (e .& VMM_PHYS_MASK) ∧ 0 < rc_of v0 (e .& VMM_PHYS_MASK).
Proof.
  intros Hu. pose proof (so_frame _ _ Hs va e Hu) as Ho. split; [by eapply own_is_frame; [apply Hs|]|apply Ho].
Qed.

(** Two user pages at one position are the same entry. *)
Lemma user_page_path va vb e e' : user_page v0 src va e → user_page v0 src vb e' → vpath va = vpath vb → e = e'.
Proof.
  intros (_ & Hl & _) (_ & Hl' & _) Hp%vpath_vpage. rewrite (vleaf_vpage _ _ _ _ Hp) in Hl. congruence.
Qed.

Lemma cloning_ext PS PD PR PS' PD' PR' v :
  (∀ va e, user_page v0 src va e → PS (vpath va) = PS' (vpath va) ∧ PD (vpath va) = PD' (vpath va) ∧
     PR (vpath va) = PR' (vpath va)) →
  cloning PS PD PR v → cloning PS' PD' PR' v.
Proof.
  intros H [? ? ? ? Hl ? ? Hc ? Hp ? ? ? ?]. constructor; try eassumption.
  - intros va Hva. rewrite Hl by done. destruct (vleaf m0 src va) as [[[] e]|] eqn:E; simpl; try by repeat case_if.
    destruct (has e VMM_USER) eqn:Eu; [|by repeat case_if].
    destruct (H va e) as (-> & _); [|done]. by split; [|split].
  - intros va Hva Hsh. rewrite Hc by done. destruct (vleaf m0 src va) as [[[] e]|] eqn:E; simpl; try by repeat case_if.
    destruct (has e VMM_USER) eqn:Eu; [|by repeat case_if].
    destruct (H va e) as (_ & -> & _); [|done]. by split; [|split].
  - intros va e Hu. rewrite (Hp va e Hu). by destruct (H va e Hu) as (_ & _ & ->).
Qed.

(** ** The count of one page changes *)

Lemma count_step PS PD PR (PR' : list Z → bool) v s' va e n :
  cloning PS PD PR v → user_page v0 src va e → fa_wf s' →
  rc_update (rc_of v) (fa_rc s') (e .& VMM_PHYS_MASK) n →
  n = rc_of v0 (e .& VMM_PHYS_MASK) + (if PR' (vpath va) then 1 else 0) →
  (∀ q, q ≠ vpath va → PR' q = PR q) →
  cloning PS PD PR' (set_pmm s' v).
Proof.
  intros C Hu Hfa Hupd Hn HPR. destruct (user_frame_held va e Hu) as [Hf Hrc].
  set (f := e .& VMM_PHYS_MASK) in *. assert (0 < n) as Hn0 by (destruct (PR' _); lia).
  assert (∀ t, 0 < rc_of v t → 0 < fa_rc s' t) as Hpos by (intros t Ht; rewrite Hupd; case_if; lia).
  destruct C as [Hsrc Hdst Hcr Hcw Hcl Hcs Hpr Hcp Hhg Hpg Hge Hrcs Hfree Hcm].
  constructor; [..|exact Hcm]; cbn [vm_mem vm_pmm vm_cr3 set_pmm]; [| |exact Hcr|exact Hcw|exact Hcl|exact Hcs| |exact Hcp|exact Hhg|..].
  - split; [done|]. eapply same_entries_wf; [apply Hsrc|done|exact Hpos].
  - split; [done|]. eapply same_entries_wf; [apply Hdst|done|exact Hpos].
  - intros q t Hv Hl Hsh Hw. destruct (Hpr q t Hv Hl Hsh Hw) as [H0 H1]. split; [done|]. rewrite Hupd.
    case_if; [subst; b2p; subst; lia|done].
  - intros vb e' Hu'. rewrite Hupd. destruct (Z.eqb_spec f (e' .& VMM_PHYS_MASK)) as [Heq|Hne].
    + pose proof (so_inj _ _ Hs va vb e e' Hu Hu' Heq) as Hpg'%vpath_vpage. rewrite <- Heq, <- Hpg'. done.
    + rewrite (Hpg vb e' Hu'), HPR; [done|]. intros Hp. by rewrite (user_page_path vb va e' e Hu' Hu Hp) in Hne.
  - intros g. rewrite Hupd. destruct (Z.eqb_spec f g) as [<-|]; [|apply Hge]. rewrite Hn. destruct (PR' _); lia.
  - intros g Hg H0. rewrite Hupd. destruct (Z.eqb_spec f g) as [<-|]; [|by apply Hrcs]. by destruct (Hg va e Hu).
  - intros g H0. rewrite Hupd. destruct (Z.eqb_spec f g) as [<-|]; [lia|]. by apply Hfree.
Qed.

(** ** A store into a table of one of the two spaces *)

Lemma src_dst_apart PS PD PR v q q' t : cloning PS PD PR v → shared_path q = false →
  valid_path q → (length q <= 3)%nat → walk m0 src q = Some t →
  valid_path q' → (length q' <= 3)%nat → walk (vm_mem v) dst q' ≠ Some t.
Proof.
  intros C Hsh Hv Hl Hw Hv' Hl' Hw'. destruct (src_table q t Hv Hl Hw) as [_ Hrc].
  destruct (shared_path q') eqn:E.
  - rewrite (cl_shared _ _ _ _ C q') in Hw' by done.
    by rewrite (pt_inj _ _ _ (proj2 (so_root _ _ Hs)) q q' t Hv Hv' Hl Hl' Hw Hw') in Hsh; congruence.
  - destruct (cl_private _ _ _ _ C q' t Hv' Hl' E Hw'). lia.
Qed.

(** The tables of a root when another frame is written. *)
Lemma other_frame_entries (m m' : mem) rc r n : is_frame n → pt_wf m rc r →
  (∀ q, valid_path q → (length q <= 3)%nat → walk m r q ≠ Some n) →
  (∀ b, ¬ page_range n b → read8 m' b = read8 m b) →
  ∀ q t i, valid_path q → (length q <= 3)%nat → walk m r q = Some t → 0 <= i < 512 → pte m' t i = pte m t i.
Proof.
  intros Hn Hwf Hno Hmem q t i Hv Hl Hw Hi. apply pte_ext; [done|]. intros b Hb. apply Hmem. intros Hb'.
  destruct (pt_tables _ _ _ Hwf q t Hv Hl Hw) as [Ht _].
  apply (Hno q Hv Hl). by rewrite (frames_disjoint n t b Hn Ht Hb' Hb).
Qed.

(** The page becomes copy-on-write in the parent. *)
Lemma cow_step PS PD PR v va e pt :
  cloning PS PD PR v → user_page v0 src va e → walk m0 src (tables_path va) = Some pt → 0 <= e < 2^64 →
  cloning (add PS (vpath va)) PD PR
    (set_mem (write64 (vm_mem v) (pte_addr pt (pt_idx va)) (cow_entry e)) v).
Proof.
  intros C Hu Hw He. pose proof (Hpriv va e Hu) as Hsh. pose proof (tables_path_valid va) as Hv.
  destruct (src_table (tables_path va) pt Hv) as [Hpt Hrc]; [simpl; lia|done|].
  assert (walk (vm_mem v) src (tables_path va) = Some pt) as Hwv.
  { rewrite (cl_walk _ _ _ _ C); [done|done|simpl; lia]. }
  pose proof (cow_entry_in_range e He) as Hr. pose proof (cl_src _ _ _ _ C) as Hok.
  pose proof (leaf_store_wf v src va pt _ Hok Hwv Hr _ eq_refl) as Hwf.
  pose proof (leaf_store_walk v src va pt _ Hok Hwv Hr _ eq_refl) as Hwalk.
  pose proof (leaf_store_vleaf v src va pt _ Hok Hwv Hr _ eq_refl) as Hleaf.
  pose proof (leaf_store_entries v src va pt _ Hok Hwv Hr _ eq_refl) as (_ & _ & Hmem).
  generalize dependent (write64 (vm_mem v) (pte_addr pt (pt_idx va)) (cow_entry e)). intros m' Hwf Hwalk Hleaf Hmem.
  pose proof (cl_dst _ _ _ _ C) as Hdok.
  assert (∀ q, valid_path q → (length q <= 3)%nat → walk (vm_mem v) dst q ≠ Some pt) as Hno.
  { intros q. by apply (src_dst_apart PS PD PR v (tables_path va)); [done..|simpl; lia|]. }
  pose proof (other_frame_entries _ m' _ _ pt Hpt (proj2 Hdok) Hno Hmem) as Hsame.
  assert (∀ q, valid_path q → (length q <= 3)%nat → walk m' dst q = walk (vm_mem v) dst q) as Hdw.
  { intros q Hq Hl. apply (same_entries_walk _ _ _ _ Hsame); [done|lia]. }
  destruct C as [Hsrc Hdst Hcr Hcw Hcl Hcs Hpr Hcp Hhg Hpg Hge Hrcs Hfree Hcm].
  constructor; cbn [vm_mem vm_pmm vm_cr3 set_mem]; [| |exact Hcr| | | | | | |exact Hpg|exact Hge|exact Hrcs| |].
  - split; [apply Hok|exact Hwf].
  - split; [apply Hok|]. eapply same_entries_wf; [apply Hdok|exact Hsame|done].
  - intros q Hq Hl. rewrite Hwalk by done. by apply Hcw.
  - intros vb Hvb. rewrite Hleaf. rewrite (shared_entry_present e He). destruct Hu as (Hva & Hl & Hus).
    rewrite (leaf_present _ _ _ _ _ Hl). destruct (Z.eqb_spec (vpage vb) (vpage va)) as [E|E].
    + rewrite (proj2 (vpath_vpage vb va) E), add_eq, (vleaf_vpage _ _ _ _ E), Hl. simpl. by rewrite Hus.
    + rewrite add_ne by (rewrite vpath_vpage; done). by apply Hcl.
  - intros q Hq Hl Hqs. rewrite Hdw by done. by apply Hcs.
  - intros q t Hq Hl Hqs. rewrite Hdw by done. by apply Hpr.
  - intros vb Hvb Hvs. unfold vleaf at 1. rewrite (same_entries_leaf _ _ _ _ _ _ _ Hsame) by apply (vpath_valid vb).
    by apply Hcp.
  - intros q t i Hl Hq Hw'. pose proof (position_table q i Hq) as ((Hqv & _) & Hl3 & Hi).
    rewrite Hdw in Hw' by done. rewrite (Hsame q t i Hqv Hl3 Hw' Hi). by apply (Hhg q).
  - intros f H0. destruct (Hfree f H0) as [?|(q & Hq & Hl & Hf)]; [by left|right]. exists q. split; [done|].
    split; [done|]. rewrite Hdw; [done|apply Hq|done].
  - intros b. destruct (decide (page_range pt b)) as [Hb|Hb].
    + right. right. exists (tables_path va), pt. split; [|done]. split; [done|]. split; [simpl; lia|done].
    + rewrite Hmem by done. apply Hcm.
Qed.

(** A page that is not writable is shared as it is. *)
Lemma cow_skip PS PD PR v va e :
  cloning PS PD PR v → user_page v0 src va e → cow_entry e = e → cloning (add PS (vpath va)) PD PR v.
Proof.
  intros C (Hva & Hl & Hus) He. destruct C. constructor; try assumption.
  intros vb Hvb. rewrite cl_leaf0 by done. destruct (decide (vpath vb = vpath va)) as [E|E].
  - rewrite E, add_eq. apply vpath_vpage in E. rewrite (vleaf_vpage _ _ _ _ E), Hl. simpl. rewrite Hus, He. by case_if.
  - by rewrite add_ne.
Qed.

(** The page appears in the child. *)
Lemma copy_step PS PD PR v va e pt :
  cloning PS PD PR v → user_page v0 src va e → walk (vm_mem v) dst (tables_path va) = Some pt → 0 <= e < 2^64 →
  cloning PS (add PD (vpath va)) PR
    (set_mem (write64 (vm_mem v) (pte_addr pt (pt_idx va)) (cow_entry e)) v).
Proof.
  intros C Hu Hwv He. pose proof (Hpriv va e Hu) as Hsh. pose proof (tables_path_valid va) as Hv.
  pose proof (cow_entry_in_range e He) as Hr. pose proof (cl_dst _ _ _ _ C) as Hok.
  destruct (cl_private _ _ _ _ C (tables_path va) pt Hv) as [H0 _]; [simpl; lia|done|done|].
  destruct (leaf_store_table v dst va pt Hok Hwv) as [Hpt _].
  pose proof (leaf_store_wf v dst va pt _ Hok Hwv Hr _ eq_refl) as Hwf.
  pose proof (leaf_store_walk v dst va pt _ Hok Hwv Hr _ eq_refl) as Hwalk.
  pose proof (leaf_store_vleaf v dst va pt _ Hok Hwv Hr _ eq_refl) as Hleaf.
  pose proof (leaf_store_entries v dst va pt _ Hok Hwv Hr _ eq_refl) as (_ & _ & Hmem).
  pose proof (leaf_store_upper v dst va pt _ Hok Hwv Hr _ eq_refl) as Hupper.
  generalize dependent (write64 (vm_mem v) (pte_addr pt (pt_idx va)) (cow_entry e)). intros m' Hwf Hwalk Hleaf Hmem Hupper.
  pose proof (cl_src _ _ _ _ C) as Hsok.
  assert (∀ q, valid_path q → (length q <= 3)%nat → walk (vm_mem v) src q ≠ Some pt) as Hno.
  { intros q Hq Hl. rewrite (cl_walk _ _ _ _ C) by done. intros Hw. destruct (src_table q pt Hq Hl Hw). lia. }
  pose proof (other_frame_entries _ m' _ _ pt Hpt (proj2 Hsok) Hno Hmem) as Hsame.
  destruct C as [Hsrc Hdst Hcr Hcw Hcl Hcs Hpr Hcp Hhg Hpg Hge Hrcs Hfree Hcm].
  constructor; cbn [vm_mem vm_pmm vm_cr3 set_mem]; [| |exact Hcr| | | | | | |exact Hpg|exact Hge|exact Hrcs| |].
  - split; [apply Hok|]. eapply same_entries_wf; [apply Hsok|exact Hsame|done].
  - split; [apply Hok|exact Hwf].
  - intros q Hq Hl. rewrite (same_entries_walk _ _ _ _ Hsame) by (done || lia). by apply Hcw.
  - intros vb Hvb. unfold vleaf at 1. rewrite (same_entries_leaf _ _ _ _ _ _ _ Hsame) by apply (vpath_valid vb).
    by apply Hcl.
  - intros q Hq Hl Hqs. rewrite Hwalk by done. by apply Hcs.
  - intros q t Hq Hl Hqs. rewrite Hwalk by done. by apply Hpr.
  - intros vb Hvb Hvs. rewrite Hleaf, (shared_entry_present e He). destruct Hu as (Hva & Hl & Hus).
    rewrite (leaf_present _ _ _ _ _ Hl). destruct (Z.eqb_spec (vpage vb) (vpage va)) as [E|E].
    + rewrite (proj2 (vpath_vpage vb va) E), add_eq, (vleaf_vpage _ _ _ _ E), Hl. simpl. by rewrite Hus.
    + rewrite add_ne by (rewrite vpath_vpage; done). by apply Hcp.
  - intros q t i Hl Hq Hw'. pose proof (position_table q i Hq) as ((Hqv & _) & Hl3 & Hi).
    rewrite Hwalk in Hw' by done. rewrite (Hupper q t i); [by apply (Hhg q)|apply Hq|lia|done].
  - intros f Hf0. destruct (Hfree f Hf0) as [?|(q & Hq & Hl & Hf)]; [by left|right]. exists q. split; [done|].
    split; [done|]. rewrite Hwalk; [done|apply Hq|done].
  - intros b. destruct (decide (page_range pt b)) as [Hb|Hb]; [right; left; by exists pt|].
    rewrite Hmem by done. apply Hcm.
Qed.

(** ** The child's tables grow *)

Lemma grow_step PS PD PR v v' va :
  cloning PS PD PR v → shared_path (tables_path va) = false → grows (tables_path va) dst v v' →
  cloning PS PD PR v'.
Proof.
  intros C Hsh G. pose proof (tables_path_valid va) as Hv. pose proof (grows_ok _ _ _ _ G) as Hok'.
  assert (∀ q, q `prefix_of` tables_path va → valid_path q ∧ (length q <= 3)%nat ∧ shared_path q = false) as Hpre.
  { intros q Hq. split; [by eapply valid_path_prefix|]. split; [by apply prefix_length in Hq|].
    destruct (shared_path q) eqn:E; [|done]. by rewrite (shared_path_prefix q (tables_path va)) in Hsh. }
  assert (∀ f, 0 <= rc_of v0 f) as Hnn by (intros f; apply (fa_rc_range (vm_pmm v0)), Hs).
  assert (∀ q t, q `prefix_of` tables_path va → walk (vm_mem v') dst q = Some t → is_frame t ∧ rc_of v0 t = 0) as Hnew.
  { intros q t Hq Hw. destruct (Hpre q Hq) as (Hqv & Hql & Hqs).
    split; [by apply (pt_tables _ _ _ (proj2 Hok') q)|].
    destruct (grows_new _ _ _ _ G q t Hqv Hql Hw) as [Hw0|H0].
    - by apply (cl_private _ _ _ _ C q t).
    - pose proof (cl_ge _ _ _ _ C t). pose proof (Hnn t). lia. }
  assert (∀ f b, is_frame f → 0 < rc_of v0 f → page_range f b → read8 (vm_mem v') b = read8 (vm_mem v) b) as Hheld.
  { intros f b Hf Hrc Hb. destruct (grows_mem _ _ _ _ G b) as [?|(q & t & Hq & Hw & Hb')]; [done|].
    destruct (Hnew q t Hq Hw) as [Ht H0]. rewrite (frames_disjoint f t b Hf Ht Hb Hb') in Hrc. lia. }
  assert (∀ f, 0 < rc_of v f → rc_of v' f = rc_of v f) as Hrck.
  { intros f Hf. destruct (grows_rc _ _ _ _ G f) as [?|(? & _)]; [done|lia]. }
  assert (∀ q t i, valid_path q → (length q <= 3)%nat → walk (vm_mem v) src q = Some t → 0 <= i < 512 →
    pte (vm_mem v') t i = pte (vm_mem v) t i) as Hsame.
  { intros q t i Hq Hl Hw Hi. rewrite (cl_walk _ _ _ _ C) in Hw by done.
    destruct (src_table q t Hq Hl Hw) as [Ht Hrc]. apply pte_ext; [done|]. intros b Hb. by apply (Hheld t b). }
  destruct C as [Hsrc Hdst Hcr Hcw Hcl Hcs Hpr Hcp Hhg Hpg Hge Hcr' Hfree Hcm]. constructor.
  - split; [apply Hok'|]. eapply same_entries_wf; [apply Hsrc|exact Hsame|]. intros t Ht. by rewrite Hrck.
  - done.
  - rewrite (grows_cr3 _ _ _ _ G). done.
  - intros q Hq Hl. rewrite (same_entries_walk _ _ _ _ Hsame) by (done || lia). by apply Hcw.
  - intros vb Hvb. unfold vleaf at 1. rewrite (same_entries_leaf _ _ _ _ _ _ _ Hsame) by apply (vpath_valid vb).
    by apply Hcl.
  - intros q Hq Hl Hqs. rewrite <- Hcs by done. destruct (walk (vm_mem v) dst q) as [t|] eqn:E.
    { by apply G. }
    destruct (walk (vm_mem v') dst q) as [t|] eqn:E'; [|done]. exfalso.
    destruct (grows_new _ _ _ _ G q t Hq Hl E') as [?|H0]; [congruence|].
    destruct (pt_tables _ _ _ (proj2 Hok') q t Hq Hl E') as [_ Hrc].
    destruct (grows_rc _ _ _ _ G t) as [?|(_ & _ & q' & Hq' & Hw')]; [lia|].
    destruct (Hpre q' Hq') as (Hqv & Hql & Hqs').
    rewrite (pt_inj _ _ _ (proj2 Hok') q q' t Hq Hqv Hl Hql E' Hw') in Hqs. congruence.
  - intros q t Hq Hl Hqs Hw. destruct (pt_tables _ _ _ (proj2 Hok') q t Hq Hl Hw) as [_ Hrc].
    destruct (grows_new _ _ _ _ G q t Hq Hl Hw) as [Hw0|H0].
    + destruct (Hpr q t Hq Hl Hqs Hw0) as [? H1]. split; [done|]. rewrite Hrck; lia.
    + pose proof (Hge t). pose proof (Hnn t). split; [lia|].
      destruct (grows_rc _ _ _ _ G t) as [?|(_ & ? & _)]; [lia|done].
  - intros vb Hvb Hvs. rewrite (grows_vleaf _ _ _ _ _ G). by apply Hcp.
  - intros q t i Hl Hq Hw. destruct (has (pte (vm_mem v') t i) VMM_HUGE) eqn:E; [|done].
    destruct (grows_huge _ _ _ _ G q t i) as [Hw0 Hh0]; [apply Hq|lia|done|done|].
    by rewrite (Hhg q t i Hl Hq Hw0) in Hh0.
  - intros vb e Hu. rewrite Hrck; [by apply Hpg|]. destruct (user_frame_held vb e Hu) as [_ H0].
    rewrite (Hpg vb e Hu). destruct (PR _); lia.
  - intros f. destruct (grows_rc _ _ _ _ G f) as [->|(H0 & -> & _)]; [apply Hge|]. pose proof (Hge f). lia.
  - intros f Hf H0. rewrite Hrck; [by apply Hcr'|]. rewrite Hcr' by done. pose proof (Hnn f). lia.
  - intros f H0. destruct (grows_rc _ _ _ _ G f) as [->|(_ & _ & q & Hq & Hw)].
    + destruct (Hfree f H0) as [?|(q & Hq & Hl & Hw)]; [by left|right]. exists q. split; [done|]. split; [done|].
      apply G; [apply Hq|done|done].
    + right. destruct (Hpre q Hq) as (Hqv & Hql & Hqs). exists q. split; [|done]. split; [done|]. split; [lia|done].
  - intros b. destruct (grows_mem _ _ _ _ G b) as [->|(q & t & Hq & Hw & Hb)]; [apply Hcm|].
    right. left. exists t. destruct (Hnew q t Hq Hw). done.
Qed.

(** ** Frames the clone needs *)

Lemma pt_walk_avail v t i : fa_wf (vm_pmm v) →
  wp (pt_walk_or_alloc t i) (λ _ v', fa_wf (vm_pmm v') ∧ fa_avail (vm_pmm v) - 1 <= fa_avail (vm_pmm v')) v.
Proof.
  intros Hfa. unfold pt_walk_or_alloc, load. repeat wp_step. destruct (has _ _); repeat wp_step; [split; [done|lia]|].
  unfold alloc_frame, on_pmm. repeat wp_step. eapply wp_mono; [by apply fa_alloc_spec|].
  intros a s' [(-> & -> & _)|(Ha & _ & Hfa' & _ & Hav & _)].
  - rewrite Z.eqb_refl. apply wp_ret. simpl. split; [done|lia].
  - rewrite (proj2 (Z.eqb_neq _ _)) by (by apply is_frame_not_failed).
    unfold zero_page, store. repeat wp_step. simpl. split; [done|lia].
Qed.

Lemma mark_user_avail v fl t i : wp (mark_user fl t i) (λ _ v', vm_pmm v' = vm_pmm v) v.
Proof. unfold mark_user, load, store. case_if; by repeat wp_step. Qed.

(** Mapping a page takes at most three tables. *)
Lemma map_page_avail v r va phys fl : fa_wf (vm_pmm v) →
  wp (vmm_map_page r va phys fl) (λ _ v', fa_avail (vm_pmm v) - 3 <= fa_avail (vm_pmm v')) v.
Proof.
  intros Hfa. unfold vmm_map_page.
  apply wp_bind. eapply wp_mono; [by apply pt_walk_avail|]. intros a v1 [Hf1 H1].
  destruct (a =? 0); [apply wp_ret; lia|]. apply wp_bind. eapply wp_mono; [apply mark_user_avail|]. intros [] v1' E1.
  rewrite <- E1 in *. clear v1 E1.
  apply wp_bind. eapply wp_mono; [by apply pt_walk_avail|]. intros b v2 [Hf2 H2].
  destruct (b =? 0); [apply wp_ret; lia|]. apply wp_bind. eapply wp_mono; [apply mark_user_avail|]. intros [] v2' E2.
  rewrite <- E2 in *. clear v2 E2. unfold load at 1. repeat wp_step. destruct (has _ VMM_HUGE); [apply wp_ret; lia|].
  apply wp_bind. eapply wp_mono; [by apply pt_walk_avail|]. intros c v3 [Hf3 H3].
  destruct (c =? 0); [apply wp_ret; lia|]. apply wp_bind. eapply wp_mono; [apply mark_user_avail|]. intros [] v3' E3.
  unfold store. repeat wp_step. simpl. rewrite E3. lia.
Qed.

(** [pages] has an address of every user page. *)
Context (pages : list Z) (Hpages : ∀ va e, user_page v0 src va e → ∃ vb, vb ∈ pages ∧ vpage vb = vpage va).
Context (Hmax : ∀ va e, user_page v0 src va e → rc_of v0 (e .& VMM_PHYS_MASK) < 65535).

Definition count (P : list Z → bool) : nat := length (filter (λ vb, P (vpath vb) = true) pages).

Lemma count_mono (P P' : list Z → bool) : (∀ q, P q = true → P' q = true) → (count P <= count P')%nat.
Proof.
  intros H. unfold count. clear Hpages. induction pages as [|a l IH]; [done|]. rewrite !filter_cons.
  repeat case_decide; simpl; try lia. exfalso. auto.
Qed.

Lemma count_add P va e : user_page v0 src va e → P (vpath va) = false →
  (count P + 1 <= count (add P (vpath va)))%nat.
Proof.
  intros Hu HP. destruct (Hpages va e Hu) as (vb & Hin & Hvb%vpath_vpage). unfold count. clear Hpages.
  assert (∀ q, P q = true → add P (vpath va) q = true) as Hsub by (intros q Hq; unfold add; by rewrite Hq).
  induction pages as [|a l IH]; [by apply not_elem_of_nil in Hin|]. rewrite !filter_cons.
  apply elem_of_cons in Hin as [<-|Hin].
  - rewrite Hvb. rewrite decide_False by congruence. rewrite decide_True by apply add_eq. simpl.
    assert (length (filter (λ vb, P (vpath vb) = true) l) <=
      length (filter (λ vb, add P (vpath va) (vpath vb) = true) l))%nat; [|lia].
    clear IH. induction l as [|b l IH]; [done|]. rewrite !filter_cons. repeat case_decide; simpl; try lia. exfalso. auto.
  - specialize (IH Hin). repeat case_decide; simpl; try lia. exfalso. auto.
Qed.

Lemma count_le P : (count P <= length pages)%nat.
Proof. apply length_filter. Qed.

(** The loop's invariant, and what holds at the jump to [fail]. *)
Definition progress (P : list Z → bool) (v : vm S) : Prop :=
  cloning P P P v ∧ fa_avail (vm_pmm v0) <= fa_avail (vm_pmm v) + 2 + 3 * Z.of_nat (count P).
Definition failure (v : vm S) : Prop :=
  (∃ PS P, cloning PS P P v) ∧ fa_avail (vm_pmm v0) <= 2 + 3 * len pages.

Lemma progress_ext P P' v :
  (∀ q, P q = true → P' q = true) → (∀ va e, user_page v0 src va e → P (vpath va) = P' (vpath va)) →
  progress P v → progress P' v.
Proof.
  intros Hsub Heq [C Hav]. split.
  - eapply cloning_ext; [|exact C]. intros va e Hu. by rewrite (Heq va e Hu).
  - pose proof (count_mono P P' Hsub). lia.
Qed.

(** ** One page *)

Lemma clone_page PS P v va e :
  user_page v0 src va e → P (vpath va) = false → 0 <= e < 2^64 →
  cloning PS P (add P (vpath va)) v → fa_avail (vm_pmm v0) <= fa_avail (vm_pmm v) + 2 + 3 * Z.of_nat (count P) →
  wp (rc ← vmm_map_page dst va (e .& VMM_PHYS_MASK) (cow_flags e);
      if negb (rc =? 0) then free_frame (e .& VMM_PHYS_MASK);; mret true else mret false)
     (λ b v', if b : bool then failure v'
              else cloning PS (add P (vpath va)) (add P (vpath va)) v' ∧
                   fa_avail (vm_pmm v0) <= fa_avail (vm_pmm v') + 2 + 3 * Z.of_nat (count (add P (vpath va)))) v.
Proof.
  intros Hu HP He C Hav. pose proof (Hpriv va e Hu) as Hsh. pose proof (count_add P va e Hu HP) as Hct.
  pose proof (count_le (add P (vpath va))) as Hcl. pose proof (cl_dst _ _ _ _ C) as Hok.
  assert (has e VMM_PRESENT = true) as Hpr by (destruct Hu as (_ & Hl & _); by eapply leaf_present).
  apply wp_bind. eapply wp_mono; [apply wp_and; [by apply map_page_steps|apply map_page_avail, Hok]|].
  intros rc v' [[(-> & G & Hwhy)|(-> & v1 & pt & G & Hw & _ & ->)] Hav']; simpl.
  - pose proof (grow_step _ _ _ _ _ _ C Hsh G) as C'. destruct (user_frame_held va e Hu) as [Hf Hrc].
    pose proof (cl_page _ _ _ _ C' va e Hu) as Hrcv. rewrite add_eq in Hrcv.
    unfold free_frame, on_pmm. repeat wp_step.
    eapply wp_mono; [apply fa_free_spec; [apply C'|destruct Hf; lia|lia]|]. intros [] s' (Hfa & Hupd & _).
    apply wp_ret. split.
    + exists PS, P. eapply (count_step _ _ _ P _ _ va e); [exact C'|done|done|exact Hupd| |].
      * rewrite HP, Hrcv. lia.
      * intros q Hq. by rewrite add_ne.
    + assert (fa_avail (vm_pmm v') = 0); [|lia]. destruct Hwhy as [?|(pd & Hw & Hh)]; [done|exfalso].
      rewrite (cl_huge _ _ _ _ C' [pml4_idx va; pdpt_idx va] pd (pd_idx va)) in Hh; [done|done| |done].
      split; [apply tables_path_valid|]. split; [simpl; lia|exact Hsh].
  - pose proof (grow_step _ _ _ _ _ _ C Hsh G) as C'. rewrite (cow_entry_mapped e Hpr) in *.
    split; [by eapply copy_step|]. cbn [set_mem vm_pmm] in Hav' |- *. lia.
Qed.

Lemma under_path q vb : length q = 4%nat → under q (vpath vb) = bool_decide (vpath vb = q).
Proof.
  intros Hl. unfold under. apply bool_decide_ext. split; [|by intros ->].
  intros [k Hk]. rewrite Hk. destruct k as [|a k]; [by rewrite app_nil_r|].
  apply (f_equal length) in Hk. rewrite length_app in Hk. simpl in Hk. lia.
Qed.

Lemma clone_pte_steps P v i j k l pt :
  position [i; j; k] → 0 <= l < 512 → walk m0 src [i; j; k] = Some pt →
  (∀ q, [i; j; k; l] `prefix_of` q → P q = false) → progress P v →
  wp (clone_pte dst pt i j k l) (λ b v',
    if b : bool then failure v' else progress (λ q, P q || under [i; j; k; l] q) v') v.
Proof.
  intros Hp Hl Hw HP [C Hav].
  assert (position [i; j; k; l]) as Hp4 by (apply (position_snoc [i; j; k]); [done|simpl; lia|done]).
  pose proof Hp4 as (Hv & _ & Hsh). apply Forall_cons in Hv as [Hi [Hj [Hk _]%Forall_cons]%Forall_cons].
  destruct (make_virt_roundtrip i j k l Hi Hj Hk Hl) as (E4 & E3 & E2 & E1 & _ & Htop).
  set (va := make_virt i j k l) in *.
  assert (0 <= va < USER_SPACE_TOP) as Hva.
  { split; [|apply Htop; simpl in Hsh; apply orb_false_iff in Hsh as [? _]; b2p; lia].
    unfold va. rewrite make_virt_sum by done. lia. }
  assert (tables_path va = [i; j; k]) as Htp by (unfold tables_path; congruence).
  assert (vpath va = [i; j; k; l]) as Hvp by (unfold vpath; rewrite Htp, E1; done).
  assert (walk (vm_mem v) src (tables_path va) = Some pt) as Hwv.
  { rewrite Htp, (cl_walk _ _ _ _ C); [done|apply Hp|simpl; lia]. }
  pose proof (fault_entry _ _ _ _ _ (proj2 (cl_src _ _ _ _ C)) Hwv) as Hleaf. rewrite E1 in Hleaf.
  rewrite (cl_leaf _ _ _ _ C va Hva), Hvp, HP in Hleaf by done.
  unfold clone_pte. unfold load at 1. apply wp_bind, wp_gets.
  pose proof (pte_range (vm_mem v) pt l) as He. set (e := pte (vm_mem v) pt l) in *.
  change (VMM_PRESENT .| VMM_USER) with USER_PRESENT.
  destruct (has_all e USER_PRESENT) eqn:Ha; cbn [negb].
  2: { apply wp_ret. eapply progress_ext; [..|by split].
       - intros q Hq. by rewrite Hq.
       - intros vb e' Hu. cbv beta. rewrite (under_path [i; j; k; l] vb eq_refl), bool_decide_false; [by rewrite orb_false_r|].
         intros Hb. destruct Hu as (_ & Hlb & Hub). rewrite <- Hvp in Hb. apply vpath_vpage in Hb.
         rewrite (vleaf_vpage _ _ _ _ Hb), Hleaf in Hlb. rewrite user_present_bits in Ha.
         destruct (has e VMM_PRESENT) eqn:E; [|done]. injection Hlb as <-.
         rewrite <- has_present, <- has_user, E, Hub in Ha. done. }
  rewrite user_present_bits in Ha. apply andb_true_iff in Ha as [H0 H2].
  rewrite <- has_present in H0. rewrite <- has_user in H2. rewrite H0 in Hleaf.
  assert (user_page v0 src va e) as Hu by done.
  assert (P (vpath va) = false) as HPq by (rewrite Hvp; by apply HP).
  destruct (user_frame_held va e Hu) as [Hf Hrc]. pose proof (cl_page _ _ _ _ C va e Hu) as Hrcv. rewrite HPq in Hrcv.
  pose proof (Hmax va e Hu) as Hlt. cbv zeta. unfold ref_frame, on_pmm. repeat wp_step.
  eapply wp_mono; [apply fa_ref_spec; [apply C|destruct Hf; lia|lia]|]. intros [] s' (Hfa & Hupd & Havs).
  assert (cloning P P (add P (vpath va)) (set_pmm s' v)) as C1.
  { eapply (count_step _ _ _ (add P (vpath va)) _ _ va e); [exact C|done|done|exact Hupd| |].
    - rewrite add_eq. lia.
    - intros q Hq. by rewrite add_ne. }
  assert (∀ w, cloning (add P (vpath va)) P (add P (vpath va)) w → vm_pmm w = s' →
    wp (rc ← vmm_map_page dst va (e .& VMM_PHYS_MASK) (cow_flags e);
        if negb (rc =? 0) then free_frame (e .& VMM_PHYS_MASK);; mret true else mret false)
      (λ b v', if b : bool then failure v' else progress (λ q, P q || under [i; j; k; l] q) v') w) as Hmap.
  { intros w Cw Hpm. eapply wp_mono; [apply (clone_page _ P w va e Hu HPq He Cw); rewrite Hpm; lia|].
    intros [] v' H; [exact H|]. destruct H as [C' Hav']. eapply progress_ext; [..|split; [exact C'|exact Hav']].
    - intros q. unfold add. rewrite Hvp. intros [Hq|Hq]%orb_true_iff; [by rewrite Hq|].
      apply bool_decide_eq_true in Hq as ->. unfold under. by rewrite bool_decide_true, orb_true_r.
    - intros vb e' _. unfold add. by rewrite (under_path [i; j; k; l] vb eq_refl), Hvp. }
  unfold store. destruct (has (e .& ~64 VMM_PHYS_MASK) VMM_WRITE) eqn:Ew.
  - apply wp_bind, wp_bind, wp_modify, wp_ret.
    assert (cow_flags e = (e .& ~64 VMM_PHYS_MASK .& ~64 VMM_WRITE) .| VMM_COW) as Ef
      by (unfold cow_flags; cbv zeta; by rewrite Ew).
    rewrite <- Ef. fold (cow_entry e). apply Hmap; [|done].
    pose proof (cow_step _ _ _ _ va e pt C1 Hu) as C2. rewrite E1, Htp in C2. by apply C2.
  - apply wp_bind, wp_ret. assert (cow_flags e = e .& ~64 VMM_PHYS_MASK) as Ef by (unfold cow_flags; cbv zeta; by rewrite Ew).
    rewrite <- Ef. apply Hmap; [|done]. apply (cow_skip _ _ _ _ va e C1 Hu). by apply cow_entry_readonly.
Qed.

(** ** The levels above *)

Lemma user_page_walk va e q : user_page v0 src va e → q `prefix_of` tables_path va → walk m0 src q ≠ None.
Proof.
  intros (_ & Hl & _) [k Hk] Hn. unfold vleaf, leaf in Hl. fold (tables_path va) in Hl.
  rewrite Hk, walk_app, Hn in Hl. repeat case_match; done.
Qed.

(** Below an entry that leads to no table there is no user page. *)
Lemma progress_skip P v p i : (length p <= 2)%nat → walk m0 src (p ++ [i]) = None →
  progress P v → progress (λ q, P q || under (p ++ [i]) q) v.
Proof.
  intros Hl Hn. apply progress_ext; [intros q Hq; by rewrite Hq|]. intros va e Hu. cbv beta. unfold under.
  rewrite bool_decide_false; [by rewrite orb_false_r|]. intros Hpre.
  apply (user_page_walk va e (p ++ [i]) Hu); [|done]. destruct Hpre as [k Hk].
  destruct k as [|a k _] using rev_ind.
  - apply (f_equal length) in Hk. rewrite !length_app in Hk. simpl in Hk. lia.
  - unfold vpath in Hk. rewrite app_assoc in Hk. apply app_inj_tail in Hk as [Hk _]. by exists k.
Qed.

Lemma progress_shared P v i j : shared_path [i; j] = true →
  progress P v → progress (λ q, P q || under [i; j] q) v.
Proof.
  intros Hsh. apply progress_ext; [intros q Hq; by rewrite Hq|]. intros va e Hu. cbv beta. unfold under.
  rewrite bool_decide_false; [by rewrite orb_false_r|]. intros Hpre. pose proof (Hpriv va e Hu) as Hp.
  assert ([i; j] `prefix_of` tables_path va) as Hpre'.
  { destruct Hpre as [k Hk]. unfold vpath, tables_path in Hk. cbn [app] in Hk. injection Hk as <- <- _. by exists [pd_idx va]. }
  by rewrite (shared_path_prefix [i; j] (tables_path va)) in Hp.
Qed.

Lemma entry_walk P v p t i : progress P v → valid_path (p ++ [i]) → (length p <= 2)%nat → walk m0 src p = Some t →
  walk m0 src (p ++ [i]) = next (pte (vm_mem v) t i).
Proof.
  intros [C _] Hv Hl Hw. pose proof Hv as [Hvp _]%valid_path_app.
  rewrite <- (cl_walk _ _ _ _ C (p ++ [i]) Hv) by (rewrite length_app; simpl; lia).
  rewrite walk_snoc, (cl_walk _ _ _ _ C p), Hw by (done || lia). done.
Qed.

Lemma pages_loop P v p (n : nat) body :
  Z.of_nat n <= 512 → (∀ q, p `prefix_of` q → P q = false) → progress P v →
  (∀ i Q w, 0 <= i < Z.of_nat n → (∀ q, p ++ [i] `prefix_of` q → Q q = false) → progress Q w →
     wp (body i) (λ b w', if b : bool then failure w' else progress (λ q, Q q || under (p ++ [i]) q) w') w) →
  wp (for_anyM n 0 body) (λ b v', if b : bool then failure v' else progress (λ q, P q || below p (Z.of_nat n) q) v') v.
Proof.
  intros Hn HP Hpr Hbody.
  apply (wp_for_any (λ i w, progress (λ q, P q || below p i q) w) failure); [| | |done].
  - eapply progress_ext; [..|exact Hpr]; [intros q Hq; by rewrite Hq|].
    intros va e _. cbv beta. rewrite below_zero by apply vpath_valid. by rewrite orb_false_r.
  - intros i w Hi Hpi. eapply wp_mono; [apply (Hbody i (λ q, P q || below p i q) w); [lia| |exact Hpi]|].
    + intros q [k ->]. cbv beta. rewrite HP.
      2: { exists ([i] ++ k). by rewrite app_assoc. }
      rewrite <- app_assoc, below_app. simpl. apply Z.ltb_irrefl.
    + intros [] w' H; [exact H|]. eapply progress_ext; [..|exact H].
      * intros q. by rewrite under_snoc, orb_assoc.
      * intros va e _. cbv beta. by rewrite under_snoc, orb_assoc.
  - intros w H. exact H.
Qed.

(** The positions below an entry, and the entry. *)
Lemma progress_under P v s : (length s <= 3)%nat →
  progress (λ q, P q || below s 512 q) v → progress (λ q, P q || under s q) v.
Proof.
  intros Hl. apply progress_ext.
  - intros q [Hq|(j & q' & -> & _)%below_true]%orb_true_iff; [by rewrite Hq|].
    unfold under. rewrite bool_decide_true, orb_true_r by (by eexists). done.
  - intros va e _. cbv beta. f_equal. rewrite under_split by apply vpath_valid.
    rewrite bool_decide_false, orb_false_r; [done|]. intros E. apply (f_equal length) in E. simpl in E. lia.
Qed.

Lemma clone_pd_entry_steps P v i j k pd :
  position [i; j; k] → walk m0 src [i; j] = Some pd →
  (∀ q, [i; j; k] `prefix_of` q → P q = false) → progress P v →
  wp (clone_pd_entry dst pd i j k) (λ b v',
    if b : bool then failure v' else progress (λ q, P q || under [i; j; k] q) v') v.
Proof.
  intros Hp Hw HP Hpr. pose proof Hp as (Hv & _ & Hsh).
  pose proof (entry_walk P v [i; j] pd k Hpr Hv (le_n 2) Hw) as Hwk. simpl app in Hwk.
  unfold clone_pd_entry. unfold load at 1. apply wp_bind, wp_gets. set (e := pte (vm_mem v) pd k) in *.
  destruct (has e VMM_PRESENT) eqn:E0; cbn [negb].
  2: { apply wp_ret. apply (progress_skip P v [i; j] k); [simpl; lia| |done]. rewrite (next_absent e E0) in Hwk. done. }
  destruct (has e VMM_HUGE) eqn:E7.
  - assert (walk m0 src [i; j; k] = None) as Hn by (rewrite Hwk; unfold next; by rewrite E7, andb_false_r).
    apply wp_ret. assert (has e VMM_USER = false) as ->; [|by apply (progress_skip P v [i; j] k); [simpl; lia|..]].
    destruct (has e VMM_USER) eqn:Eu; [exfalso|done]. destruct Hpr as [C _].
    assert (position [i; j; k; 0]) as Hp4 by (apply (position_snoc [i; j; k]); [done|simpl; lia|lia]).
    destruct (position_va _ Hp4 eq_refl) as (va & Hva & Hvp). unfold vpath, tables_path in Hvp.
    injection Hvp as E4 E3 E2 E1.
    assert (vleaf (vm_mem v) src va = Some (true, e)) as Hl.
    { unfold vleaf, leaf. rewrite E4, E3, E2, (cl_walk _ _ _ _ C [i; j; k]), Hn by (done || (simpl; lia)).
      rewrite (cl_walk _ _ _ _ C [i; j]), Hw; [fold e; by rewrite E0|by apply (valid_path_app [i; j] [k]) in Hv as [? _]|simpl; lia]. }
    rewrite (cl_leaf _ _ _ _ C va Hva) in Hl.
    assert (vleaf m0 src va = Some (true, e)) as Hl0.
    { destruct (P _); [|done]. destruct (vleaf m0 src va) as [[[] e']|]; simpl in Hl; [done| |done].
      by destruct (has e' VMM_USER). }
    by pose proof (so_small _ _ Hs va true e Hva Hl0 Eu).
  - rewrite (next_intro e E0 E7) in Hwk.
    eapply wp_mono; [apply (pages_loop P v [i; j; k] 512); [lia|done|done|]|].
    + intros l Q w Hl HQ Hprw. by apply clone_pte_steps.
    + intros [] v' H; [exact H|]. by apply progress_under; [simpl; lia|].
Qed.

Lemma clone_pdpt_entry_steps P v i j pdpt :
  0 <= i < 256 → 0 <= j < 512 → walk m0 src [i] = Some pdpt →
  (∀ q, [i; j] `prefix_of` q → P q = false) → progress P v →
  wp (clone_pdpt_entry dst pdpt i j) (λ b v',
    if b : bool then failure v' else progress (λ q, P q || under [i; j] q) v') v.
Proof.
  intros Hi Hj Hw HP Hpr. unfold clone_pdpt_entry. destruct ((i =? 0) && (j =? 0)) eqn:E0.
  { apply wp_ret. apply progress_shared; [|done]. simpl. by rewrite E0, orb_true_r. }
  assert (position [i; j]) as Hp.
  { split; [apply (valid_path_app [i] [j]); rewrite !valid_path_one; lia|]. split; [simpl; lia|]. simpl.
    rewrite (proj2 (Z.leb_gt 256 i)) by lia. exact E0. }
  pose proof Hp as (Hv & _ & _). pose proof (entry_walk P v [i] pdpt j Hpr Hv ltac:(simpl; lia) Hw) as Hwj.
  simpl app in Hwj. unfold load at 1. apply wp_bind, wp_gets. set (e := pte (vm_mem v) pdpt j) in *.
  destruct (has e VMM_PRESENT) eqn:Ep; cbn [negb].
  2: { apply wp_ret. apply (progress_skip P v [i] j); [simpl; lia| |done]. rewrite (next_absent e Ep) in Hwj. done. }
  assert (has e VMM_HUGE = false) as E7.
  { destruct Hpr as [C _]. apply (pt_nohuge _ _ _ (proj2 (cl_src _ _ _ _ C)) [i] pdpt j); [|simpl; lia| |done|done].
    - by apply (valid_path_app [i] [j]) in Hv as [? _].
    - rewrite (cl_walk _ _ _ _ C); [done|by apply (valid_path_app [i] [j]) in Hv as [? _]|simpl; lia]. }
  rewrite E7. rewrite (next_intro e Ep E7) in Hwj.
  eapply wp_mono; [apply (pages_loop P v [i; j] 512); [lia|done|done|]|].
  - intros k Q w Hk HQ Hprw. apply clone_pd_entry_steps; [|done..].
    apply (position_snoc [i; j]); [done|simpl; lia|lia].
  - intros [] v' H; [exact H|]. by apply progress_under; [simpl; lia|].
Qed.

Lemma clone_pml4_entry_steps P v i :
  0 <= i < 256 → (∀ q, [i] `prefix_of` q → P q = false) → progress P v →
  wp (clone_pml4_entry dst src i) (λ b v',
    if b : bool then failure v' else progress (λ q, P q || under [i] q) v') v.
Proof.
  intros Hi HP Hpr. unfold clone_pml4_entry.
  assert (valid_path [i]) as Hv by (apply valid_path_one; lia).
  pose proof (entry_walk P v [] src i Hpr Hv ltac:(simpl; lia) eq_refl) as Hwi. simpl app in Hwi.
  unfold load at 1. apply wp_bind, wp_gets. set (e := pte (vm_mem v) src i) in *.
  destruct (has e VMM_PRESENT) eqn:Ep; cbn [negb].
  2: { apply wp_ret. apply (progress_skip P v [] i); [simpl; lia| |done]. rewrite (next_absent e Ep) in Hwi. done. }
  assert (has e VMM_HUGE = false) as E7.
  { destruct Hpr as [C _].
    apply (pt_nohuge _ _ _ (proj2 (cl_src _ _ _ _ C)) [] src i); [constructor|simpl; lia|done|lia|done]. }
  rewrite (next_intro e Ep E7) in Hwi.
  eapply wp_mono; [apply (pages_loop P v [i] 512); [lia|done|done|]|].
  - intros j Q w Hj HQ Hprw. apply clone_pdpt_entry_steps; [done|lia|done..].
  - intros [] v' H; [exact H|]. by apply progress_under; [simpl; lia|].
Qed.

Lemma clone_loop v : progress (λ _, false) v →
  wp (for_anyM 256 0 (clone_pml4_entry dst src)) (λ b v',
    if b : bool then failure v' else cloning (λ _, true) (λ _, true) (λ _, true) v') v.
Proof.
  intros Hpr. eapply wp_mono; [apply (pages_loop (λ _, false) v [] 256); [lia|done|done|]|].
  - intros i Q w Hi HQ Hprw. apply clone_pml4_entry_steps; [lia|done..].
  - intros [] v' H; [exact H|]. destruct H as [C _]. eapply cloning_ext; [|exact C].
    intros va e Hu. assert (below [] (Z.of_nat 256) (vpath va) = true) as Hb; [|cbv beta; by rewrite Hb].
    pose proof (Hpriv va e Hu) as Hsh. unfold vpath, tables_path in Hsh |- *. cbn [app below shared_path] in Hsh |- *.
    apply orb_false_iff in Hsh as [? _]. b2p. apply Z.ltb_lt. lia.
Qed.

End Clone.

(** ** The start: a new address space *)

Section Start.
Context {S : Type} `{FA : FrameAllocator S}.
Implicit Types v : vm S.
Abbreviation rc_of v := (fa_rc (vm_pmm v)).
Context (v0 v1 : vm S) (src dst low : Z) (Hs : space_ok v0 src).
Context (Hlow : has (pte (vm_mem v0) src 0) VMM_PRESENT = true).
Context (B : built v0 v1 [(dst, space_pml4 v0 src low); (low, space_pdpt v0 src)]) (Hcr : vm_cr3 v1 = vm_cr3 v0).

Lemma private_table q t : valid_path q → (length q <= 3)%nat → shared_path q = false →
  walk (vm_mem v1) dst q = Some t → (q = [] ∧ t = dst) ∨ (q = [0] ∧ t = low).
Proof.
  intros Hv Hl Hsh. rewrite (space_walk v0 v1 src dst low (so_root _ _ Hs) Hlow B q Hv Hl), Hsh.
  destruct q as [|i [|j q]]; [intros [= ->]; by left| |done].
  destruct (Z.eqb_spec i 0) as [->|]; [|done]. intros [= ->]. by right.
Qed.

Lemma clone_start : cloning v0 src dst (λ _, false) (λ _, false) (λ _, false) v1.
Proof.
  pose proof (so_root _ _ Hs) as Hok.
  destruct (space_frames v0 v1 src dst low B) as (Hd & Hlf & Hne & Hd0 & Hl0 & Hd1 & Hl1 & _ & _).
  destruct (built_root _ _ _ _ B Hok) as (Hok1 & Hleaf & Hwalk).
  assert (∀ f, f ∉ [dst; low] → rc_of v1 f = rc_of v0 f) as Hrc by (intros f Hf; by apply (built_rc _ _ _ B)).
  assert (∀ f, 0 < rc_of v0 f → rc_of v1 f = rc_of v0 f) as Hheld.
  { intros f Hf. apply Hrc. by apply (built_held _ _ _ _ B). }
  assert (∀ f, 0 <= rc_of v0 f) as Hnn by (intros f; apply (fa_rc_range (vm_pmm v0)), Hok).
  constructor.
  - exact Hok1.
  - split; [apply B|]. exact (space_wf v0 v1 src dst low Hok Hlow B).
  - exact Hcr.
  - exact Hwalk.
  - intros va _. apply Hleaf.
  - intros q Hv Hl Hsh. by rewrite (space_walk v0 v1 src dst low Hok Hlow B q Hv Hl), Hsh.
  - intros q t Hv Hl Hsh Hw. by destruct (private_table q t Hv Hl Hsh Hw) as [[_ ->]|[_ ->]].
  - intros va _ Hsh. by rewrite (space_leaf v0 v1 src dst low Hok Hlow B), Hsh.
  - intros q t i Hl Hp Hw. destruct (position_table q i Hp) as ((Hv & _ & Hsh) & Hl3 & _).
    destruct (private_table q t Hv Hl3 Hsh Hw) as [[-> _]|[-> _]]; done.
  - intros va e Hu. rewrite Z.add_0_r. apply Hheld. by apply (so_frame _ _ Hs va e).
  - intros f. destruct (decide (f ∈ [dst; low])) as [Hin|Hni]; [|by rewrite Hrc].
    apply elem_of_cons in Hin as [->|Hin%list_elem_of_singleton]; [lia|subst; lia].
  - intros f _ H0. apply Hheld. pose proof (Hnn f). lia.
  - intros f H0. destruct (decide (f ∈ [dst; low])) as [Hin|Hni]; [right|left; rewrite Hrc; done].
    apply elem_of_cons in Hin as [->|Hin%list_elem_of_singleton]; [|subst].
    + exists []. split; [|split; [simpl; lia|done]]. split; [constructor|]. split; [simpl; lia|done].
    + exists [0]. assert (position [0]) as Hp by (split; [by apply valid_path_one|]; split; [simpl; lia|done]).
      split; [done|]. split; [simpl; lia|].
      by rewrite (space_walk v0 v1 src dst low Hok Hlow B [0] (proj1 Hp) ltac:(simpl; lia)).
  - intros b. destruct (decide (page_range dst b)) as [|Hb]; [right; left; by exists dst|].
    destruct (decide (page_range low b)) as [|Hb']; [right; left; by exists low|]. left.
    apply (built_mem _ _ _ B). intros c Hc. simpl in Hc.
    apply elem_of_cons in Hc as [->|Hc%list_elem_of_singleton]; [done|by subst].
Qed.

End Start.
