(* ===== verification/SpaceProps.v ===== *)
(** * Address spaces: theorems about destruction and clones *)

From Stdlib Require Import ZArith Lia.
From S2P Require Import Prelude Memory Frames Pmm PmmInv PmmProps Vmm VmmInv VmmOps VmmBuild VmmSpace VmmCow VmmProps.
From S2P Require Import Uaccess UaccessInv UaccessWrite Kbd Vfs Sched Usermem UsermemInv UsermemProps.
From S2P Require Import SpaceDestroy SpaceClone.
Import StringC.

Lemma leaf_range m r va h e : vleaf m r va = Some (h, e) → 0 <= e < 2^64.
Proof. unfold vleaf, leaf. intros H. repeat case_match; simplify_eq; apply pte_range. Qed.

Section Cloned.
Context {S : Type} `{FA : FrameAllocator S}.
Implicit Types v : vm S.
Abbreviation rc_of v := (fa_rc (vm_pmm v)).

(** ** Parent and child after some pages *)

Section State.
Context (v0 v : vm S) (src dst : Z) (PS P : list Z → bool) (Hs : space_ok v0 src).
Context (Hpriv : ∀ va e, user_page v0 src va e → shared_path (tables_path va) = false).
Context (C : cloning v0 src dst PS P P v).
Abbreviation m0 := (vm_mem v0).

Lemma src_page va e : user_page v src va e →
  ∃ e0, user_page v0 src va e0 ∧ e = if PS (vpath va) then cow_entry e0 else e0.
Proof.
  intros (Hva & Hl & Hu). rewrite (cl_leaf _ _ _ _ _ _ _ C va Hva) in Hl.
  destruct (vleaf m0 src va) as [[[] e0]|] eqn:E0; cbn [cow_leaf] in Hl; [by case_match| |by case_match].
  destruct (has e0 VMM_USER) eqn:Eu.
  - exists e0. split; [done|]. destruct (PS _); congruence.
  - assert (e = e0) as -> by (by destruct (PS _); simplify_eq). congruence.
Qed.

Lemma page_src va e0 : user_page v0 src va e0 → user_page v src va (if PS (vpath va) then cow_entry e0 else e0).
Proof.
  intros (Hva & Hl & Hu). pose proof (leaf_range _ _ _ _ _ Hl) as He. split; [done|].
  rewrite (cl_leaf _ _ _ _ _ _ _ C va Hva), Hl. cbn [cow_leaf]. rewrite Hu.
  destruct (PS _); [|done]. by rewrite cow_entry_user.
Qed.

Lemma entry_frame (b : bool) e0 : 0 <= e0 < 2^64 →
  (if b then cow_entry e0 else e0) .& VMM_PHYS_MASK = e0 .& VMM_PHYS_MASK.
Proof. intros He. destruct b; [by apply shared_entry_phys|done]. Qed.

Lemma page_range_of va e0 : user_page v0 src va e0 → 0 <= e0 < 2^64.
Proof. intros (_ & Hl & _). by eapply leaf_range. Qed.

Lemma src_space : space_ok v src.
Proof.
  constructor.
  - apply C.
  - intros va h e Hva Hl Hu. rewrite (cl_leaf _ _ _ _ _ _ _ C va Hva) in Hl.
    destruct (vleaf m0 src va) as [[h0 e0]|] eqn:E0; [|by case_match].
    destruct h0; [|by cbn [cow_leaf] in Hl; repeat case_match; simplify_eq].
    assert (Some (true, e0) = Some (h, e)) as [= <- <-] by (by destruct (PS _)).
    by apply (so_small _ _ Hs va true e0).
  - intros va e (e0 & Hu & ->)%src_page. rewrite entry_frame by (by eapply page_range_of).
    destruct (so_frame _ _ Hs va e0 Hu) as (H0 & Hrc & Hno). split; [done|].
    pose proof (cl_ge _ _ _ _ _ _ _ C (e0 .& VMM_PHYS_MASK)). split; [lia|].
    intros q Hv Hl. rewrite (cl_walk _ _ _ _ _ _ _ C) by done. by apply Hno.
  - intros va vb e e' (e0 & Hu & ->)%src_page (e1 & Hu' & ->)%src_page.
    rewrite !entry_frame by (by eapply page_range_of). by apply (so_inj _ _ Hs).
Qed.

(** The part the child shares is translated by the same tables. *)
Lemma shared_leaf va : shared_path (tables_path va) = true → vleaf (vm_mem v) dst va = vleaf (vm_mem v) src va.
Proof.
  intros Hsh. pose proof (tables_path_valid va) as Hv.
  assert (valid_path [pml4_idx va; pdpt_idx va]) as Hv2.
  { eapply valid_path_prefix; [|exact Hv]. by exists [pd_idx va]. }
  unfold vleaf, leaf. fold (tables_path va).
  rewrite (cl_shared _ _ _ _ _ _ _ C (tables_path va)), (cl_walk _ _ _ _ _ _ _ C (tables_path va)) by (done || simpl; lia).
  rewrite (cl_shared _ _ _ _ _ _ _ C [pml4_idx va; pdpt_idx va]), (cl_walk _ _ _ _ _ _ _ C [pml4_idx va; pdpt_idx va])
    by (done || simpl; lia). done.
Qed.

Lemma dst_page va e : user_page v dst va e → ∃ e0, user_page v0 src va e0 ∧ P (vpath va) = true ∧ e = cow_entry e0.
Proof.
  intros (Hva & Hl & Hu). destruct (shared_path (tables_path va)) eqn:Hsh.
  - exfalso. rewrite (shared_leaf va Hsh) in Hl.
    destruct (src_page va e) as (e0 & Hu0 & _); [done|]. by rewrite (Hpriv va e0 Hu0) in Hsh.
  - rewrite (cl_copy _ _ _ _ _ _ _ C va Hva Hsh) in Hl. destruct (P _) eqn:EP; [|done].
    destruct (vleaf m0 src va) as [[[] e0]|] eqn:E0; cbn [copy_leaf] in Hl; [done| |done].
    destruct (has e0 VMM_USER) eqn:Eu; [|done]. injection Hl as <-. by exists e0.
Qed.

Lemma page_dst va e0 : user_page v0 src va e0 → P (vpath va) = true → user_page v dst va (cow_entry e0).
Proof.
  intros Hu HP. pose proof (Hpriv va e0 Hu) as Hsh. pose proof (page_range_of va e0 Hu) as He.
  destruct Hu as (Hva & Hl & Hu). split; [done|].
  rewrite (cl_copy _ _ _ _ _ _ _ C va Hva Hsh), HP, Hl. cbn [copy_leaf]. rewrite Hu. by rewrite cow_entry_user.
Qed.

Lemma dst_leaf va h e : 0 <= va < USER_SPACE_TOP → vleaf (vm_mem v) dst va = Some (h, e) → has e VMM_USER = true → h = false.
Proof.
  intros Hva Hl Hu. destruct (shared_path (tables_path va)) eqn:Hsh.
  - rewrite (shared_leaf va Hsh) in Hl. by apply (so_small _ _ src_space va h e).
  - rewrite (cl_copy _ _ _ _ _ _ _ C va Hva Hsh) in Hl. destruct (P _); [|done].
    destruct (vleaf m0 src va) as [[[] e0]|]; cbn [copy_leaf] in Hl; [done| |done].
    by destruct (has e0 VMM_USER); simplify_eq.
Qed.

Lemma dst_space : space_ok v dst.
Proof.
  constructor.
  - apply C.
  - apply dst_leaf.
  - intros va e (e0 & Hu & HP & ->)%dst_page. rewrite shared_entry_phys by (by eapply page_range_of).
    destruct (so_frame _ _ Hs va e0 Hu) as (H0 & Hrc & Hno). split; [done|].
    pose proof (cl_ge _ _ _ _ _ _ _ C (e0 .& VMM_PHYS_MASK)). split; [lia|].
    intros q Hv Hl Hw. destruct (shared_path q) eqn:E.
    + rewrite (cl_shared _ _ _ _ _ _ _ C q) in Hw by done. by apply (Hno q).
    + destruct (cl_private _ _ _ _ _ _ _ C q _ Hv Hl E Hw). lia.
  - intros va vb e e' (e0 & Hu & _ & ->)%dst_page (e1 & Hu' & _ & ->)%dst_page.
    rewrite !shared_entry_phys by (by eapply page_range_of). by apply (so_inj _ _ Hs).
Qed.

Lemma dst_no_huge : no_huge v dst.
Proof.
  intros va h e Hsh Hl.
  assert (position (vpath va)) as Hp.
  { split; [apply vpath_valid|]. split; [simpl; lia|]. exact Hsh. }
  destruct (position_va _ Hp eq_refl) as (vb & Hvb & E). apply vpath_vpage in E.
  rewrite (vleaf_vpage _ _ _ _ (eq_sym E)) in Hl.
  rewrite (cl_copy _ _ _ _ _ _ _ C vb Hvb) in Hl.
  - destruct (P _); [|done]. destruct (vleaf m0 src vb) as [[[] e0]|]; cbn [copy_leaf] in Hl; [done| |done].
    by destruct (has e0 VMM_USER); simplify_eq.
  - apply vpage_paths in E as [-> _]. exact Hsh.
Qed.

(** A frame the child holds is a new table or a page of the parent. *)
Lemma dst_holder q f : position q → holder (vm_mem v) dst q = Some f →
  ((length q <= 3)%nat ∧ rc_of v0 f = 0 ∧ rc_of v f = 1) ∨
  (length q = 4%nat ∧ ∃ va e0, user_page v0 src va e0 ∧ f = e0 .& VMM_PHYS_MASK ∧ rc_of v f = rc_of v0 f + 1).
Proof.
  intros Hq Hh. pose proof Hq as (Hv & Hl & Hsh). destruct (decide (length q = 4%nat)) as [Hl4|Hl4].
  - right. split; [done|].
    destruct (holder_user v dst dst_space q f Hq Hl4 Hh) as (va & e & Hva & Hu & ->).
    destruct (dst_page va e Hu) as (e0 & Hu0 & HP & ->). exists va, e0. split; [done|].
    rewrite shared_entry_phys by (by eapply page_range_of). split; [done|].
    by rewrite (cl_page _ _ _ _ _ _ _ C va e0 Hu0), HP.
  - left. split; [lia|]. rewrite holder_table in Hh by lia. apply (cl_private _ _ _ _ _ _ _ C q f); (done || lia).
Qed.

Lemma apart_dst_src : apart v dst src.
Proof.
  constructor.
  - intros q t Hv Hl Hw (p & Hp & Hh). rewrite (cl_walk _ _ _ _ _ _ _ C) in Hw by done.
    destruct (pt_tables _ _ _ (proj2 (so_root _ _ Hs)) q t Hv Hl Hw) as [_ Hrc].
    destruct (dst_holder p t Hp Hh) as [(_ & H0 & _)|(_ & va & e0 & Hu & -> & _)]; [lia|].
    destruct (so_frame _ _ Hs va e0 Hu) as (_ & _ & Hno). by apply (Hno q).
  - intros va e q (e0 & Hu & ->)%src_page Hq Hh. rewrite entry_frame in * by (by eapply page_range_of).
    destruct (so_frame _ _ Hs va e0 Hu) as (_ & Hrc & _).
    destruct (dst_holder q _ Hq Hh) as [(_ & H0 & _)|(Hl & _ & _ & _ & _ & Hrc')]; [lia|]. split; [done|lia].
Qed.

(** Pages keep their bytes. *)
Lemma page_bytes_kept va e0 b : user_page v0 src va e0 → page_range (e0 .& VMM_PHYS_MASK) b →
  read8 (vm_mem v) b = read8 m0 b.
Proof.
  intros Hu Hb. pose proof (so_frame _ _ Hs va e0 Hu) as Hown.
  pose proof (own_is_frame v0 src _ (so_root _ _ Hs) Hown) as Hf. destruct Hown as (_ & Hrc & Hno).
  destruct (cl_mem _ _ _ _ _ _ _ C b) as [?|[(g & Hg & H0 & Hb')|(q & t & (Hv & _) & Hl & Hw & Hb')]]; [done|exfalso..].
  - rewrite (frames_disjoint _ g b Hf Hg Hb Hb') in Hrc. lia.
  - destruct (pt_tables _ _ _ (proj2 (so_root _ _ Hs)) q t Hv) as [Ht _]; [lia|done|].
    apply (Hno q Hv); [lia|]. by rewrite (frames_disjoint _ t b Hf Ht Hb Hb').
Qed.

Lemma bytes_kept va e0 r e : user_page v0 src va e0 → root_ok v r → user_page v r va e →
  e .& VMM_PHYS_MASK = e0 .& VMM_PHYS_MASK → ubyte (vm_mem v) r va = ubyte m0 src va.
Proof.
  intros Hu Hok Hu' He. unfold ubyte. rewrite (user_page_physical v r va e Hok Hu'), He.
  rewrite (user_page_physical v0 src va e0 (so_root _ _ Hs) Hu).
  apply (page_bytes_kept va e0); [done|]. unfold page_range. pose proof (Z.mod_pos_bound va PAGE_SIZE ltac:(done)). lia.
Qed.

(** Permissions, as the program sees them. *)
Lemma entry_permissions (b : bool) e0 : 0 <= e0 < 2^64 → let e := if b then cow_entry e0 else e0 in
  has e VMM_WRITE || has e VMM_COW = has e0 VMM_WRITE || has e0 VMM_COW.
Proof.
  intros He. destruct b; [|done]. cbv zeta. rewrite cow_entry_write. destruct (has e0 VMM_WRITE) eqn:E.
  - by rewrite (cow_entry_cow e0 E).
  - rewrite cow_entry_readonly; [done|done|]. rewrite has_write in *. by rewrite flags_bit.
Qed.

Lemma page_writable w r va e : root_ok w r → user_page w r va e →
  user_ok (vm_mem w) r va = true ∧ writable (vm_mem w) r va = has e VMM_WRITE || has e VMM_COW ∧
  has (vmm_get_flags (vm_mem w) r va) VMM_WRITE = has e VMM_WRITE.
Proof.
  intros [_ Hwf] (_ & Hl & Hu). unfold user_ok, writable. rewrite (get_flags_leaf _ _ _ Hwf), Hl. cbn [leaf_flags].
  rewrite user_present_bits, !has_write, !has_cow, !flags_bit by lia.
  rewrite <- has_present, <- has_user, (leaf_present _ _ _ _ _ Hl), Hu. done.
Qed.

(** A third space: no table of it is written, nothing of it is given back. *)
Section Third.
Context (r' : Z) (Hs' : space_ok v0 r') (Ha : apart v0 src r').

Lemma third_bytes f b : is_frame f → 0 < rc_of v0 f → page_range f b →
  (∀ q, position q → (length q <= 3)%nat → holder m0 src q ≠ Some f) → read8 (vm_mem v) b = read8 m0 b.
Proof.
  intros Hf Hrc Hb Hno.
  destruct (cl_mem _ _ _ _ _ _ _ C b) as [?|[(g & Hg & H0 & Hb')|(q & t & Hq & Hl & Hw & Hb')]]; [done|exfalso..].
  - rewrite (frames_disjoint f g b Hf Hg Hb Hb') in Hrc. lia.
  - pose proof Hq as (Hv & _). destruct (pt_tables _ _ _ (proj2 (so_root _ _ Hs)) q t Hv) as [Ht _]; [lia|done|].
    apply (Hno q Hq); [lia|]. rewrite holder_table, Hw by lia. by rewrite (frames_disjoint f t b Hf Ht Hb Hb').
Qed.

Lemma third_untouched : untouched v0 v r'.
Proof.
  constructor.
  - apply (cl_src _ _ _ _ _ _ _ C).
  - intros q t Hv Hl Hw. destruct (pt_tables _ _ _ (proj2 (so_root _ _ Hs')) q t Hv Hl Hw) as [Ht Hrc].
    pose proof (cl_ge _ _ _ _ _ _ _ C t). split; [lia|]. intros b Hb. apply (third_bytes t b Ht Hrc Hb).
    intros p Hp _ Hh. apply (ap_table _ _ _ Ha q t Hv Hl Hw). by exists p.
  - intros va e Hu. pose proof (so_frame _ _ Hs' va e Hu) as Hown.
    pose proof (own_is_frame v0 r' _ (so_root _ _ Hs') Hown) as Hf. destruct Hown as (_ & Hrc & _).
    pose proof (cl_ge _ _ _ _ _ _ _ C (e .& VMM_PHYS_MASK)). split; [lia|]. intros b Hb.
    apply (third_bytes _ b Hf Hrc Hb). intros q Hq Hl Hh. destruct (ap_page _ _ _ Ha va e q Hu Hq Hh). lia.
Qed.

(** A user page of the parent is held at its position. *)
Lemma user_page_holds va e0 : user_page v0 src va e0 → holds v0 src (e0 .& VMM_PHYS_MASK).
Proof.
  intros Hu. pose proof (Hpriv va e0 Hu) as Hsh. exists (vpath va). split.
  - split; [apply vpath_valid|]. split; [simpl; lia|exact Hsh].
  - by apply user_page_holder.
Qed.

Lemma third_apart : apart v dst r'.
Proof.
  pose proof third_untouched as Hun.
  constructor.
  - intros q t Hv Hl Hw (p & Hp & Hh).
    rewrite (same_entries_walk _ _ _ _ (untouched_entries v0 v r' Hun)) in Hw by (done || lia).
    destruct (pt_tables _ _ _ (proj2 (so_root _ _ Hs')) q t Hv Hl Hw) as [Ht Hrc].
    destruct (dst_holder p t Hp Hh) as [(_ & H0 & _)|(_ & va & e0 & Hu & -> & _)]; [lia|].
    by apply (ap_table _ _ _ Ha q _ Hv Hl Hw), (user_page_holds va).
  - intros va e q Hu%(untouched_page v0 v r' Hun) Hq Hh.
    destruct (so_frame _ _ Hs' va e Hu) as (_ & Hrc & _).
    destruct (dst_holder q _ Hq Hh) as [(_ & H0 & _)|(Hl & _ & _ & _ & _ & Hrc')]; [lia|]. split; [done|lia].
Qed.
End Third.

(** After a failed clone the child is destroyed and every count is what it was. *)
Lemma counts_restored v' : destroyed v dst v' → ∀ f, rc_of v' f = rc_of v0 f.
Proof.
  intros (_ & _ & Hheld & Hrc & _) f. destruct (decide (rc_of v' f = rc_of v0 f)) as [|Hne]; [done|exfalso].
  assert (¬ holds v dst f) as Hno.
  { intros Hh. apply Hne. rewrite (Hheld f Hh). destruct Hh as (q & Hq & Hf).
    destruct (dst_holder q f Hq Hf) as [(_ & H0 & H1)|(_ & _ & _ & _ & _ & H1)]; lia. }
  rewrite (Hrc f Hno) in Hne. destruct (decide (rc_of v0 f = 0)) as [H0|H0].
  - destruct (cl_free _ _ _ _ _ _ _ C f H0) as [?|(q & Hq & Hl & Hw)]; [lia|].
    apply Hno. exists q. by rewrite holder_table.
  - apply Hne, (cl_rc _ _ _ _ _ _ _ C); [|done]. intros va e Hu <-. apply Hne.
    rewrite (cl_page _ _ _ _ _ _ _ C va e Hu). destruct (P (vpath va)) eqn:EP; [|lia]. exfalso. apply Hno.
    pose proof (page_dst va e Hu EP) as Hu'. pose proof (Hpriv va e Hu) as Hsh.
    exists (vpath va). split; [split; [apply vpath_valid|]; split; [simpl; lia|exact Hsh]|].
    rewrite <- (shared_entry_phys e (page_range_of va e Hu)).
    apply user_page_holder; [apply dst_space|done].
Qed.
End State.
End Cloned.

(** ** What a program sees *)

Section View.
Context {S : Type} `{FA : FrameAllocator S}.
Implicit Types v : vm S.
Abbreviation rc_of v := (fa_rc (vm_pmm v)).

(** In [v'] space [r'] has the pages, permissions and bytes of space [r] in [v]. *)
Definition same_view (v v' : vm S) (r r' : Z) : Prop :=
  ∀ va, 0 <= va < USER_SPACE_TOP →
    user_ok (vm_mem v') r' va = user_ok (vm_mem v) r va ∧
    writable (vm_mem v') r' va = writable (vm_mem v) r va ∧
    (user_ok (vm_mem v) r va = true → ubyte (vm_mem v') r' va = ubyte (vm_mem v) r va).

(** No user page can be written without a fault. *)
Definition read_only (v : vm S) (r : Z) : Prop :=
  ∀ va, 0 <= va < USER_SPACE_TOP → user_ok (vm_mem v) r va = true →
    has (vmm_get_flags (vm_mem v) r va) VMM_WRITE = false.

Lemma same_view_refl v r : same_view v v r r.
Proof. by intros va _. Qed.

Lemma same_view_trans v1 v2 v3 r1 r2 r3 : same_view v1 v2 r1 r2 → same_view v2 v3 r2 r3 → same_view v1 v3 r1 r3.
Proof.
  intros H12 H23 va Hva. destruct (H12 va Hva) as (U & W & B), (H23 va Hva) as (U' & W' & B').
  rewrite U', W'. split; [done|]. split; [done|]. intros Hok. rewrite B' by congruence. by apply B.
Qed.

(** Pages that correspond, one by one. *)
Lemma same_view_pages v v' r r' : space_ok v r → space_ok v' r' →
  (∀ va e', user_page v' r' va e' → ∃ e, user_page v r va e) →
  (∀ va e, user_page v r va e → ∃ e', user_page v' r' va e' ∧
     has e' VMM_WRITE || has e' VMM_COW = has e VMM_WRITE || has e VMM_COW ∧
     ubyte (vm_mem v') r' va = ubyte (vm_mem v) r va) →
  same_view v v' r r'.
Proof.
  intros Hs Hs' Hback Hfwd va Hva. destruct (user_ok (vm_mem v) r va) eqn:E.
  - apply (user_ok_iff v r va Hs Hva) in E as [e Hu]. destruct (Hfwd va e Hu) as (e' & Hu' & Hw & Hb).
    destruct (page_writable v r va e (so_root _ _ Hs) Hu) as (_ & -> & _).
    by destruct (page_writable v' r' va e' (so_root _ _ Hs') Hu') as (-> & -> & _).
  - destruct (user_ok (vm_mem v') r' va) eqn:E'.
    + apply (user_ok_iff v' r' va Hs' Hva) in E' as [e' Hu']. destruct (Hback va e' Hu') as [e Hu].
      destruct (page_writable v r va e (so_root _ _ Hs) Hu) as (Hok & _). congruence.
    + unfold writable. cbv zeta. unfold user_ok in E, E'. rewrite E, E'. done.
Qed.

Lemma intact_view v v' r : space_ok v r → intact v v' r → same_view v v' r r.
Proof.
  intros Hs (Hs' & Hl & Hb) va Hva. unfold user_ok, writable.
  rewrite (get_flags_leaf _ _ _ (proj2 (so_root _ _ Hs'))), (get_flags_leaf _ _ _ (proj2 (so_root _ _ Hs))), Hl.
  split; [done|]. split; [done|]. intros Hok. apply Hb; [done|]. unfold user_ok.
  by rewrite (get_flags_leaf _ _ _ (proj2 (so_root _ _ Hs))).
Qed.

Lemma intact_trans v1 v2 v3 r : space_ok v1 r → intact v1 v2 r → intact v2 v3 r → intact v1 v3 r.
Proof.
  intros Hs (Hs2 & Hl2 & Hb2) (Hs3 & Hl3 & Hb3). split; [done|]. split; [intros va; by rewrite Hl3|].
  intros va Hva Hok. rewrite Hb3; [by apply Hb2|done|].
  by rewrite (leaf_user_ok r v1 v2 va (so_root _ _ Hs) (so_root _ _ Hs2)).
Qed.

Section Views.
Context (v0 v : vm S) (src dst : Z) (PS P : list Z → bool) (Hs : space_ok v0 src).
Context (Hpriv : ∀ va e, user_page v0 src va e → shared_path (tables_path va) = false).
Context (C : cloning v0 src dst PS P P v).

Lemma view_src : same_view v0 v src src.
Proof.
  pose proof (src_space v0 v src dst PS P Hs C) as Hs'.
  apply same_view_pages; [done|done| |].
  - intros va e (e0 & Hu & _)%(src_page v0 v src dst PS P C). eauto.
  - intros va e Hu. pose proof (page_src v0 v src dst PS P C va e Hu) as Hu'.
    pose proof (page_range_of v0 src va e Hu) as He. eexists. split; [exact Hu'|].
    split; [by apply (entry_permissions (PS (vpath va)))|].
    apply (bytes_kept v0 v src dst PS P Hs C va e src _ Hu (so_root _ _ Hs') Hu'). by apply entry_frame.
Qed.

Lemma view_dst : (∀ q, P q = true) → same_view v0 v src dst.
Proof.
  intros HP. pose proof (dst_space v0 v src dst PS P Hs Hpriv C) as Hs'.
  apply same_view_pages; [done|done| |].
  - intros va e (e0 & Hu & _)%(dst_page v0 v src dst PS P Hpriv C). eauto.
  - intros va e Hu. pose proof (page_dst v0 v src dst PS P Hpriv C va e Hu (HP _)) as Hu'.
    pose proof (page_range_of v0 src va e Hu) as He. eexists. split; [exact Hu'|].
    split; [exact (entry_permissions true e He)|].
    apply (bytes_kept v0 v src dst PS P Hs C va e dst _ Hu (so_root _ _ Hs') Hu'). by apply shared_entry_phys.
Qed.

Lemma read_only_src : (∀ q, PS q = true) → read_only v src.
Proof.
  intros HP va Hva Hok. pose proof (src_space v0 v src dst PS P Hs C) as Hs'.
  apply (user_ok_iff v src va Hs' Hva) in Hok as [e Hu].
  destruct (page_writable v src va e (so_root _ _ Hs') Hu) as (_ & _ & ->).
  apply (src_page v0 v src dst PS P C) in Hu as (e0 & _ & ->). rewrite HP. apply cow_entry_write.
Qed.

Lemma read_only_dst : read_only v dst.
Proof.
  intros va Hva Hok. pose proof (dst_space v0 v src dst PS P Hs Hpriv C) as Hs'.
  apply (user_ok_iff v dst va Hs' Hva) in Hok as [e Hu].
  destruct (page_writable v dst va e (so_root _ _ Hs') Hu) as (_ & _ & ->).
  apply (dst_page v0 v src dst PS P Hpriv C) in Hu as (e0 & _ & _ & ->). apply cow_entry_write.
Qed.
End Views.
End View.

(** ** Theorems *)

Section SpaceProps.
Context {S : Type} `{FA : FrameAllocator S}.
Implicit Types v : vm S.
Abbreviation rc_of v := (fa_rc (vm_pmm v)).

(** C24: Destroying an address space gives back the root, every table and the frame of every
    user page of it, each exactly once; no other count changes, and every space apart
    from it keeps its translations and its bytes. *)
Theorem vmm_destroy_user_address_space_correct v r :
  space_ok v r → no_huge v r →
  wp (vmm_destroy_user_address_space r) (λ _ v',
    fa_wf (vm_pmm v') ∧ vm_cr3 v' = vm_cr3 v ∧
    (∀ f, holds v r f → rc_of v' f = rc_of v f - 1) ∧
    (∀ f, ¬ holds v r f → rc_of v' f = rc_of v f) ∧
    (∀ r', space_ok v r' → apart v r r' → intact v v' r')) v.
Proof.
  intros Hs Hnh. eapply wp_mono; [by apply destroy_steps|]. intros [] v' Hd.
  pose proof Hd as (Hfa & Hcr & Hheld & Hrc & _). split_and!; try done.
  intros r' Hs' Ha. by apply (destroyed_intact v v' r r').
Qed.

(** The outcome of a clone of the current space: the parent [src] keeps its view; on
    success the child has the same view in frames counted once more. *)
Record cloned (v v' : vm S) (src dst : Z) : Prop := {
  cd_space : space_ok v' dst;
  cd_huge : no_huge v' dst;
  cd_apart : apart v' dst src;
  cd_view : same_view v v' src dst;
  cd_parent : read_only v' src;
  cd_child : read_only v' dst;
  cd_count va e : user_page v src va e → rc_of v' (e .& VMM_PHYS_MASK) = rc_of v (e .& VMM_PHYS_MASK) + 1;
}.

Definition clone_result (v : vm S) (pages : list Z) (dst : Z) (v' : vm S) : Prop :=
  let src := vmm_current_pml4 v in
  vm_cr3 v' = vm_cr3 v ∧ space_ok v' src ∧ same_view v v' src src ∧
  (∀ r', space_ok v r' → apart v src r' → intact v v' r') ∧
  if dst =? 0 then fa_avail (vm_pmm v) <= 2 + 3 * len pages ∧ (∀ f, rc_of v' f = rc_of v f)
  else cloned v v' src dst.

Section CloneSteps.
Context (v : vm S) (pages : list Z).
Abbreviation src := (vmm_current_pml4 v).
Context (Hs : space_ok v src) (Hlow : has (pte (vm_mem v) src 0) VMM_PRESENT = true).
Context (Hpriv : ∀ va e, user_page v src va e → shared_path (tables_path va) = false).
Context (Hpages : ∀ va e, user_page v src va e → ∃ vb, vb ∈ pages ∧ vpage vb = vpage va).
Context (Hmax : ∀ va e, user_page v src va e → rc_of v (e .& VMM_PHYS_MASK) < 65535).

Lemma clone_failed v1 dst PS P v2 :
  cloning v src dst PS P P v1 → destroyed v1 dst v2 → fa_avail (vm_pmm v) <= 2 + 3 * len pages →
  clone_result v pages 0 v2.
Proof.
  intros C Hd Hav.
  pose proof (src_space v v1 src dst PS P Hs C) as Hs1.
  pose proof (dst_space v v1 src dst PS P Hs Hpriv C) as Hd1.
  pose proof (apart_dst_src v v1 src dst PS P Hs Hpriv C) as Ha.
  pose proof (destroyed_intact v1 v2 dst src Hd1 Hs1 Ha Hd) as Hi.
  split; [destruct Hd as (_ & -> & _); apply C|]. split; [apply Hi|]. split.
  { eapply same_view_trans; [by eapply view_src|]. by apply intact_view. }
  split; [|split; [done|by eapply counts_restored]].
  intros r' Hs' Ha'. pose proof (third_untouched v v1 src dst PS P Hs C r' Hs' Ha') as Hun.
  pose proof (untouched_intact v v1 r' Hs' Hun) as Hi1.
  pose proof (third_apart v v1 src dst PS P Hs Hpriv C r' Hs' Ha') as Ha1.
  eapply intact_trans; [done|exact Hi1|]. by apply (destroyed_intact v1 v2 dst r'); [|apply Hi1|..].
Qed.

Lemma clone_done v1 dst : dst ≠ 0 → cloning v src dst (λ _, true) (λ _, true) (λ _, true) v1 →
  clone_result v pages dst v1.
Proof.
  intros Hd C. pose proof (src_space v v1 src dst _ _ Hs C) as Hs1.
  split; [apply C|]. split; [done|]. split; [by eapply view_src|]. split.
  - intros r' Hs' Ha'. apply untouched_intact; [done|]. by apply (third_untouched v v1 src dst _ _ Hs C).
  - rewrite (proj2 (Z.eqb_neq dst 0) Hd). constructor.
    + exact (dst_space v v1 src dst _ _ Hs Hpriv C).
    + exact (dst_no_huge v v1 src dst _ _ C).
    + exact (apart_dst_src v v1 src dst _ _ Hs Hpriv C).
    + by apply (view_dst v v1 src dst _ _ Hs Hpriv C).
    + by apply (read_only_src v v1 src dst _ _ Hs C).
    + exact (read_only_dst v v1 src dst _ _ Hs Hpriv C).
    + intros va e Hu. exact (cl_page _ _ _ _ _ _ _ C va e Hu).
Qed.

(** No frame for the root or its first table: nothing the machine holds has changed. *)
Lemma clone_refused v1 : vm_cr3 v1 = vm_cr3 v → fa_avail (vm_pmm v) < 2 → fa_wf (vm_pmm v1) →
  (∀ x, rc_of v1 x = rc_of v x) →
  (∀ x b, is_frame x → 0 < rc_of v x → page_range x b → read8 (vm_mem v1) b = read8 (vm_mem v) b) →
  clone_result v pages 0 v1.
Proof.
  intros Hcr Hav Hfa Hrc Hm.
  assert (∀ r', space_ok v r' → intact v v1 r') as Hi.
  { intros r' Hs'. apply untouched_intact; [done|]. constructor; [done| |].
    - intros q t Hv Hl Hw. destruct (pt_tables _ _ _ (proj2 (so_root _ _ Hs')) q t Hv Hl Hw) as [Ht H0].
      rewrite Hrc. split; [done|]. intros b. by apply Hm.
    - intros va e Hu. pose proof (so_frame _ _ Hs' va e Hu) as Hown. rewrite Hrc. split; [apply Hown|].
      intros b. apply Hm; [by eapply own_is_frame; [apply Hs'|]|apply Hown]. }
  split; [done|]. split; [by apply Hi|]. split; [by apply intact_view, Hi|]. split; [auto|].
  split; [lia|done].
Qed.

Lemma clone_steps : wp (vmm_clone_user_address_space src) (λ dst v',
  (dst = 0 ∧ clone_result v pages 0 v') ∨
  (dst ≠ 0 ∧ cloning v src dst (λ _, true) (λ _, true) (λ _, true) v')) v.
Proof.
  assert (is_frame src) as Hsf.
  { by apply (pt_tables _ _ _ (proj2 (so_root _ _ Hs)) []); [constructor|simpl; lia|]. }
  unfold vmm_clone_user_address_space. rewrite (proj2 (Z.eqb_neq src 0)) by (destruct Hsf; lia).
  apply wp_bind. eapply wp_mono; [apply create_address_space_steps; [apply Hs|done]|].
  intros dst v1 (Hcr & [(-> & Hav & Hfa & _ & Hrc & Hm)|(low & B)]).
  { rewrite Z.eqb_refl. apply wp_ret. left. split; [done|]. by apply clone_refused. }
  assert (is_frame dst) as Hdf by (by apply (space_frames v v1 src dst low B)).
  assert (dst ≠ 0) as Hd0 by (destruct Hdf; lia). rewrite (proj2 (Z.eqb_neq dst 0) Hd0).
  pose proof (clone_start v v1 src dst low Hs Hlow B Hcr) as C1.
  apply wp_bind. eapply wp_mono; [apply (clone_loop v src dst Hs Hpriv pages Hpages Hmax)|].
  { split; [done|]. rewrite (built_avail _ _ _ B). simpl length. lia. }
  intros [] v2 H; [|apply wp_ret; by right]. destruct H as ((PS & P & C) & Hav).
  apply wp_bind. eapply wp_mono; [apply destroy_steps; eauto using dst_space, dst_no_huge|].
  intros [] v3 Hd. apply wp_ret. left. split; [done|]. by eapply clone_failed.
Qed.
End CloneSteps.

(** C3: Cloning the current address space copies on write: parent and child see the pages,
    permissions and bytes the parent had, no user page of either is writable without a
    fault, every user frame counts one holder more, and the child can be destroyed
    without the parent noticing.  A failure means that fewer frames than two and three
    for each page were free; then every count is what it was and the parent's view too. *)
Theorem vmm_clone_user_address_space_correct v pages :
  let src := vmm_current_pml4 v in
  space_ok v src → has (pte (vm_mem v) src 0) VMM_PRESENT = true →
  (∀ va e, user_page v src va e → shared_path (tables_path va) = false) →
  (∀ va e, user_page v src va e → ∃ vb, vb ∈ pages ∧ vpage vb = vpage va) →
  (∀ va e, user_page v src va e → rc_of v (e .& VMM_PHYS_MASK) < 65535) →
  wp (vmm_clone_user_address_space src) (λ dst v',
    vm_cr3 v' = vm_cr3 v ∧ space_ok v' src ∧ same_view v v' src src ∧
    (∀ r', space_ok v r' → apart v src r' → intact v v' r') ∧
    if dst =? 0 then fa_avail (vm_pmm v) <= 2 + 3 * len pages ∧ (∀ f, rc_of v' f = rc_of v f)
    else cloned v v' src dst) v.
Proof.
  intros src Hs Hlow Hpriv Hpages Hmax. eapply wp_mono; [by apply clone_steps|].
  intros dst v' [[-> H]|[Hd C]]; [exact H|]. by apply (clone_done v pages).
Qed.

(** A clone that is destroyed leaves the counts and the parent's view as they were. *)
Theorem clone_destroy_roundtrip v pages :
  let src := vmm_current_pml4 v in
  space_ok v src → has (pte (vm_mem v) src 0) VMM_PRESENT = true →
  (∀ va e, user_page v src va e → shared_path (tables_path va) = false) →
  (∀ va e, user_page v src va e → ∃ vb, vb ∈ pages ∧ vpage vb = vpage va) →
  (∀ va e, user_page v src va e → rc_of v (e .& VMM_PHYS_MASK) < 65535) →
  2 + 3 * len pages < fa_avail (vm_pmm v) →
  wp (dst ← vmm_clone_user_address_space src; vmm_destroy_user_address_space dst) (λ _ v',
    (∀ f, rc_of v' f = rc_of v f) ∧ space_ok v' src ∧ same_view v v' src src) v.
Proof.
  intros src Hs Hlow Hpriv Hpages Hmax Hav. apply wp_bind. eapply wp_mono; [by apply clone_steps|].
  intros dst v1 [[-> (_ & _ & _ & _ & Hf & _)]|[Hd C]]; [lia|].
  pose proof (dst_space v v1 src dst _ _ Hs Hpriv C) as Hd1.
  eapply wp_mono; [apply destroy_steps; eauto using dst_no_huge|]. intros [] v2 Hdd.
  pose proof (src_space v v1 src dst _ _ Hs C) as Hs1.
  destruct (destroyed_intact v1 v2 dst src Hd1 Hs1 (apart_dst_src v v1 src dst _ _ Hs Hpriv C) Hdd) as (Hs2 & Hrest).
  split; [by eapply counts_restored|]. split; [done|].
  eapply same_view_trans; [by eapply view_src|]. by apply intact_view.
Qed.
End SpaceProps.

(** ** Concrete runs *)

Definition w_pages : list Z := [0x50000000; 0x50001000].

Lemma w_pages_in va : in_pages 0x50000000 2 va = true → ∃ vb, vb ∈ w_pages ∧ vpage vb = vpage va.
Proof.
  unfold in_pages. rewrite in_block_true. change (0x50000000 / PAGE_SIZE) with 0x50000. intros H.
  assert (vpage va = 0x50000 ∨ vpage va = 0x50001) as [E|E] by lia; rewrite E; [exists 0x50000000|exists 0x50001000];
    (split; [unfold w_pages; set_solver|reflexivity]).
Qed.

(** Outside the two pages the space has what it shares with the kernel. *)
Lemma mmap_vm_other va : in_pages 0x50000000 2 va = false →
  vleaf (vm_mem mmap_vm) space_root va = vleaf (vm_mem space_vm) space_root va.
Proof.
  intros E. destruct mmap_vm_zero as (_ & _ & _ & H & _). rewrite (H va E).
  change (vm_mem user_vm) with (vm_mem (set_cr3 space_root space_vm)). by destruct space_vm.
Qed.

Lemma mmap_vm_pages va e : user_page mmap_vm space_root va e → ∃ vb, vb ∈ w_pages ∧ vpage vb = vpage va.
Proof.
  intros (_ & Hl & Hu). destruct (in_pages 0x50000000 2 va) eqn:E; [exact (w_pages_in va E)|].
  rewrite (mmap_vm_other va E) in Hl. rewrite (space_no_user _ _ _ Hl) in Hu. discriminate Hu.
Qed.

Definition w_leaf_ok (l : option (bool * Z)) : bool :=
  match l with
  | Some (h, e) => negb h && (fa_rc (vm_pmm mmap_vm) (e .& VMM_PHYS_MASK) =? 1)
  | None => false
  end.

Lemma w_pages_leaf vb : vb ∈ w_pages →
  shared_path (tables_path vb) = false ∧ w_leaf_ok (vleaf (vm_mem mmap_vm) space_root vb) = true.
Proof.
  unfold w_pages. intros [->|[->|H%not_elem_of_nil]%elem_of_cons]%elem_of_cons; [..|destruct H];
    (split; vm_compute; reflexivity).
Qed.

Lemma mmap_vm_leaf va e : user_page mmap_vm space_root va e →
  shared_path (tables_path va) = false ∧ fa_rc (vm_pmm mmap_vm) (e .& VMM_PHYS_MASK) = 1.
Proof.
  intros Hu. destruct (mmap_vm_pages va e Hu) as (vb & Hin & Hv). destruct Hu as (_ & Hl & _).
  destruct (w_pages_leaf vb Hin) as [Hsh Hok]. rewrite (vleaf_vpage (vm_mem mmap_vm) space_root vb va Hv), Hl in Hok.
  apply vpage_paths in Hv as [<- _]. split; [exact Hsh|]. unfold w_leaf_ok in Hok.
  apply andb_true_iff in Hok as [_ Hok]. exact (proj1 (Z.eqb_eq _ _) Hok).
Qed.

Lemma mmap_vm_no_huge : no_huge mmap_vm space_root.
Proof.
  intros va h e Hsh Hl. destruct (in_pages 0x50000000 2 va) eqn:E.
  - destruct (w_pages_in va E) as (vb & Hin & Hv). destruct (w_pages_leaf vb Hin) as [_ Hok].
    rewrite (vleaf_vpage (vm_mem mmap_vm) space_root vb va Hv), Hl in Hok. unfold w_leaf_ok in Hok.
    apply andb_true_iff in Hok as [Hok _]. destruct h; [discriminate Hok|reflexivity].
  - exfalso. rewrite (mmap_vm_other va E) in Hl.
    destruct space_vm_built as [low B], boot_vm_space as [K1 K2]. rewrite boot_vm_current in *.
    rewrite (space_leaf boot_vm space_vm (kernel_pml4 boot_vm) space_root low K1 K2 B), Hsh in Hl. discriminate Hl.
Qed.

(** The space with its two pages is destroyed: the root and both frames are free. *)
Abbreviation destroy_run := (vmm_destroy_user_address_space space_root).
Definition destroyed_vm : vm pmm_state := run destroy_run mmap_vm.
Lemma destroyed_vm_run (Q : () → vm pmm_state → Prop) :
  wp destroy_run Q mmap_vm → Q (result destroy_run mmap_vm tt) destroyed_vm.
Proof. unfold destroyed_vm. exact (run_wp destroy_run Q mmap_vm tt). Qed.
#[global] Opaque destroyed_vm.

Lemma space_root_held : fa_rc (vm_pmm mmap_vm) space_root = 1.
Proof. vm_compute. reflexivity. Qed.

Lemma vmm_destroy_user_address_space_correct_witness :
  fa_rc (vm_pmm mmap_vm) space_root = 1 ∧ fa_rc (vm_pmm destroyed_vm) space_root = 0.
Proof.
  split; [exact space_root_held|].
  destruct (destroyed_vm_run _ (vmm_destroy_user_address_space_correct mmap_vm space_root
    (proj1 mmap_vm_space) mmap_vm_no_huge)) as (_ & _ & H & _).
  rewrite H, space_root_held; [reflexivity|]. exists []. exact (root_held mmap_vm space_root).
Defined.

(** The same space cloned. *)
Abbreviation clone_run := (vmm_clone_user_address_space (vmm_current_pml4 mmap_vm)).
Definition clone_vm : vm pmm_state := run clone_run mmap_vm.
Definition child_root : Z := result clone_run mmap_vm 0.
Lemma clone_vm_run (Q : Z → vm pmm_state → Prop) : wp clone_run Q mmap_vm → Q child_root clone_vm.
Proof. unfold clone_vm, child_root. exact (run_wp clone_run Q mmap_vm 0). Qed.
Lemma child_root_ok : (child_root =? 0) = false.
Proof. vm_compute. reflexivity. Qed.
Lemma mmap_vm_low : has (pte (vm_mem mmap_vm) (vmm_current_pml4 mmap_vm) 0) VMM_PRESENT = true.
Proof. vm_compute. reflexivity. Qed.
Lemma mmap_vm_avail : (2 + 3 * len w_pages <? fa_avail (vm_pmm mmap_vm)) = true.
Proof. vm_compute. reflexivity. Qed.
#[global] Opaque clone_vm child_root.

Lemma mmap_vm_cloneable : let src := vmm_current_pml4 mmap_vm in
  (∀ va e, user_page mmap_vm src va e → shared_path (tables_path va) = false) ∧
  (∀ va e, user_page mmap_vm src va e → ∃ vb, vb ∈ w_pages ∧ vpage vb = vpage va) ∧
  (∀ va e, user_page mmap_vm src va e → fa_rc (vm_pmm mmap_vm) (e .& VMM_PHYS_MASK) < 65535).
Proof.
  cbv zeta. rewrite (proj2 mmap_vm_space). split; [intros va e Hu; apply (mmap_vm_leaf va e Hu)|].
  split; [exact mmap_vm_pages|]. intros va e Hu. destruct (mmap_vm_leaf va e Hu) as [_ ->]. lia.
Qed.

Lemma vmm_clone_user_address_space_correct_witness :
  cloned mmap_vm clone_vm (vmm_current_pml4 mmap_vm) child_root.
Proof.
  destruct mmap_vm_cloneable as (H1 & H2 & H3).
  pose proof (clone_vm_run _ (vmm_clone_user_address_space_correct mmap_vm w_pages mmap_vm_current mmap_vm_low H1 H2 H3))
    as (_ & _ & _ & _ & H).
  rewrite child_root_ok in H. exact H.
Defined.

Abbreviation roundtrip_run := (dst ← clone_run; vmm_destroy_user_address_space dst).
Lemma clone_destroy_roundtrip_witness :
  same_view mmap_vm (run roundtrip_run mmap_vm) (vmm_current_pml4 mmap_vm) (vmm_current_pml4 mmap_vm).
Proof.
  destruct mmap_vm_cloneable as (H1 & H2 & H3). pose proof mmap_vm_avail as Hav. apply Z.ltb_lt in Hav.
  exact (proj2 (proj2 (run_wp roundtrip_run _ mmap_vm tt
    (clone_destroy_roundtrip mmap_vm w_pages mmap_vm_current mmap_vm_low H1 H2 H3 Hav)))).
Defined.
