(* ===== verification/Isolation.v ===== *)
(** * Address spaces: copy-on-write isolates them

    Two spaces may have a frame in common, but then neither can write it: the first
    write goes to a private copy.  Whatever one of them writes, through the kernel or
    after a page fault, the other keeps its translations and its bytes. *)

From Stdlib Require Import ZArith Lia.
From S2P Require Import Prelude Memory Frames Pmm PmmInv PmmProps Vmm VmmInv VmmOps VmmBuild VmmSpace VmmCow VmmProps.
From S2P Require Import Uaccess UaccessInv UaccessWrite UaccessProps Kbd Vfs Sched Usermem UsermemInv UsermemProps.
From S2P Require Import SpaceDestroy SpaceClone SpaceProps.
Import StringC.

Section Isolation.
Context {S : Type} `{FA : FrameAllocator S}.
Implicit Types v : vm S.
Abbreviation rc_of v := (fa_rc (vm_pmm v)).

(** [a] holds no table of [b]; a frame they share is counted for both and is not
    writable in [a]; the user pages of [a] are in the part it does not share. *)
Record isolated (v : vm S) (a b : Z) : Prop := {
  is_apart : apart v a b;
  is_own va e vb e' : user_page v a va e → has e VMM_WRITE = true → user_page v b vb e' →
    e' .& VMM_PHYS_MASK ≠ e .& VMM_PHYS_MASK;
  is_private va e : user_page v a va e → shared_path (tables_path va) = false;
}.

Section Pair.
Context (v : vm S) (a b : Z) (Ha : space_ok v a) (Hb : space_ok v b) (Hi : isolated v a b).

Lemma page_at va e : user_page v a va e → holder (vm_mem v) a (vpath va) = Some (e .& VMM_PHYS_MASK) ∧ position (vpath va).
Proof.
  intros Hu. pose proof (is_private _ _ _ Hi va e Hu) as Hsh.
  split; [|split; [apply vpath_valid|]; split; [simpl; lia|exact Hsh]].
  by apply user_page_holder.
Qed.

Lemma page_held va e : user_page v a va e → holds v a (e .& VMM_PHYS_MASK).
Proof. intros Hu. exists (vpath va). destruct (page_at va e Hu). done. Qed.

(** The page table behind a page of [a] is nothing of [b]. *)
Lemma leaf_table_position va e : user_page v a va e → position (tables_path va).
Proof.
  intros Hu. destruct (page_at va e Hu) as [_ Hp]. eapply position_prefix; [|exact Hp]. by exists [pt_idx va].
Qed.

Lemma leaf_table_apart va e pt : user_page v a va e → walk (vm_mem v) a (tables_path va) = Some pt →
  (∀ q, valid_path q → (length q <= 3)%nat → walk (vm_mem v) b q ≠ Some pt) ∧
  (∀ vb e', user_page v b vb e' → e' .& VMM_PHYS_MASK ≠ pt).
Proof.
  intros Hu Hw. pose proof (leaf_table_position va e Hu) as Hp.
  assert (holder (vm_mem v) a (tables_path va) = Some pt) as Hh by (rewrite holder_table; [done|simpl; lia]).
  split.
  - intros q Hv Hl Hw'. apply (ap_table _ _ _ (is_apart _ _ _ Hi) q pt Hv Hl Hw'). by exists (tables_path va).
  - intros vb e' Hu' <-. destruct (ap_page _ _ _ (is_apart _ _ _ Hi) vb e' _ Hu' Hp Hh) as [Hl _]. by simpl in Hl.
Qed.

(** A frame of [b], a table or a page. *)
Definition of_space (f : Z) : Prop :=
  (∃ q, valid_path q ∧ (length q <= 3)%nat ∧ walk (vm_mem v) b q = Some f) ∨
  (∃ vb e', user_page v b vb e' ∧ e' .& VMM_PHYS_MASK = f).

Lemma of_space_frame f : of_space f → is_frame f ∧ 0 < rc_of v f.
Proof.
  intros [(q & Hv & Hl & Hw)|(vb & e' & Hu & <-)].
  - by apply (pt_tables _ _ _ (proj2 (so_root _ _ Hb)) q f).
  - pose proof (so_frame _ _ Hb vb e' Hu) as Ho. split; [by eapply own_is_frame; [apply Hb|]|apply Ho].
Qed.

Lemma untouched_frames v' : fa_wf (vm_pmm v') →
  (∀ f, of_space f → 0 < rc_of v' f ∧ ∀ x, page_range f x → read8 (vm_mem v') x = read8 (vm_mem v) x) →
  untouched v v' b.
Proof.
  intros Hfa H. constructor; [done| |].
  - intros q t Hv Hl Hw. apply H. left. eauto.
  - intros va e Hu. apply H. right. eauto.
Qed.

(** *** A write into a page [a] may write *)

Section Write.
Context (va e : Z) (Hp : user_page v a va e) (Hw : has e VMM_WRITE = true).
Context (l : list Z) (Hl : va mod PAGE_SIZE + len l <= PAGE_SIZE).
Abbreviation f := (e .& VMM_PHYS_MASK).
Abbreviation v' := (set_mem (store_bytes (vm_mem v) (f + va mod PAGE_SIZE) l) v).

Lemma written_untouched : untouched v v' b.
Proof.
  apply untouched_frames; [apply Ha|]. intros g Hg. destruct (of_space_frame g Hg) as [Hgf Hrc]. split; [done|].
  intros x Hx. apply (write_in_frame v va e l Hl). intros Hx'.
  pose proof (own_is_frame v a _ (so_root _ _ Ha) (so_frame _ _ Ha va e Hp)) as Hf.
  pose proof (frames_disjoint f g x Hf Hgf Hx' Hx) as Heq. rewrite <- Heq in Hg.
  destruct Hg as [(q & Hv & Hlq & Hwq)|(vb & e' & Hu & He)].
  - apply (ap_table _ _ _ (is_apart _ _ _ Hi) q f Hv Hlq Hwq). by apply (page_held va).
  - by apply (is_own _ _ _ Hi va e vb e').
Qed.

Lemma written_page vb eb : user_page v' a vb eb ↔ user_page v a vb eb.
Proof. unfold user_page. by rewrite (write_leaf v a va e Ha Hp l Hl). Qed.

Lemma written_holder q g : position q → holder (vm_mem v') a q = Some g → holder (vm_mem v) a q = Some g.
Proof.
  intros Hq. pose proof Hq as (Hv & Hlq & Hsh). pose proof (write_space v a va e Ha Hp l Hl) as Ha'.
  destruct (decide (length q = 4%nat)) as [H4|H4].
  - intros Hh. destruct (holder_user v' a Ha' q g Hq H4 Hh) as (vb & eb & <- & Hu%written_page & ->).
    by apply user_page_holder.
  - rewrite !holder_table by lia.
    rewrite (same_entries_walk _ _ _ _ (write_keeps_entries v a va e Ha Hp l Hl)); [done|done|lia].
Qed.

Lemma written_isolated : isolated v' a b.
Proof.
  pose proof written_untouched as Hun.
  constructor.
  - constructor.
    + intros q t Hv Hlq Hwq (p & Hpp & Hh%written_holder); [|done].
      rewrite (same_entries_walk _ _ _ _ (untouched_entries v v' b Hun)) in Hwq by (done || lia).
      apply (ap_table _ _ _ (is_apart _ _ _ Hi) q t Hv Hlq Hwq). by exists p.
    + intros vb eb q Hu%(untouched_page v v' b Hun) Hq Hh%written_holder; [|done].
      by apply (ap_page _ _ _ (is_apart _ _ _ Hi) vb eb q).
  - intros vb eb vc ec Hu%written_page Hwb Hu'%(untouched_page v v' b Hun). by apply (is_own _ _ _ Hi vb eb vc ec).
  - intros vb eb Hu%written_page. by apply (is_private _ _ _ Hi vb eb).
Qed.

Lemma written_back : isolated v b a → isolated v' b a.
Proof.
  intros Hj. pose proof written_untouched as Hun. constructor.
  - constructor.
    + intros q t Hv Hlq Hwq (p & Hpp & Hh%(untouched_holder v v' b Hb Hun)); [|done].
      rewrite (same_entries_walk _ _ _ _ (write_keeps_entries v a va e Ha Hp l Hl)) in Hwq by (done || lia).
      apply (ap_table _ _ _ (is_apart _ _ _ Hj) q t Hv Hlq Hwq). by exists p.
    + intros vb eb q Hu%written_page Hq Hh%(untouched_holder v v' b Hb Hun); [|done].
      by apply (ap_page _ _ _ (is_apart _ _ _ Hj) vb eb q).
  - intros vb eb vc ec Hu%(untouched_page v v' b Hun) Hwb Hu'%written_page. by apply (is_own _ _ _ Hj vb eb vc ec).
  - intros vb eb Hu%(untouched_page v v' b Hun). by apply (is_private _ _ _ Hj vb eb).
Qed.
End Write.

(** *** A copy-on-write fault of [a] *)

Section Fault.
Context (v' : vm S) (va e f' : Z) (Hcur : vmm_current_pml4 v = a).
Abbreviation old := (e .& VMM_PHYS_MASK).
Context (Hp : user_page v a va e) (Hall : has_all e (VMM_PRESENT .| VMM_USER .| VMM_COW) = true).
Context (Hm : page_moved v v' va e f').
Context (Hrc : if rc_of v old =? 1 then f' = old ∧ vm_pmm v' = vm_pmm v
  else rc_of v f' = 0 ∧ ∀ x, rc_of v' x = if x =? f' then 1 else if x =? old then rc_of v old - 1 else rc_of v x).

(** The new frame is nothing of [b]. *)
Lemma new_frame_apart : ¬ of_space f' ∨ f' = old.
Proof.
  destruct (Z.eqb_spec (rc_of v old) 1) as [E|E]; [by right; apply Hrc|]. left. intros [_ H]%of_space_frame.
  destruct Hrc. lia.
Qed.

Lemma fault_held x : 0 < rc_of v x → 0 < rc_of v' x.
Proof.
  intros Hx. destruct (so_frame _ _ Ha va e Hp) as (_ & Hold & _). destruct (Z.eqb_spec (rc_of v old) 1) as [E|E].
  - destruct Hrc as [_ ->]. done.
  - destruct Hrc as [_ ->]. repeat case_if; subst; lia.
Qed.

Lemma fault_untouched : untouched v v' b.
Proof.
  apply untouched_frames; [apply Hm|]. intros g Hg. destruct (of_space_frame g Hg) as [Hgf Hgrc].
  split; [by apply fault_held|]. intros x Hx. pose proof (moved_frame _ _ _ _ _ Hm) as Hf'.
  destruct (moved_mem _ _ _ _ _ Hm x) as [?|[Hx'|(pt & Hw & Hx')]]; [done| |exfalso].
  - pose proof (frames_disjoint f' g x Hf' Hgf Hx' Hx) as Heq. rewrite <- Heq in Hg, Hx.
    destruct new_frame_apart as [?|Hold]; [done|]. rewrite Hold in Hx.
    replace x with (old + (x - old)) by lia. apply (moved_old _ _ _ _ _ Hm). unfold page_range in Hx. lia.
  - rewrite Hcur in Hw. destruct (leaf_table_apart va e pt Hp Hw) as [Ht Hpg].
    assert (is_frame pt) as Hpt.
    { apply (pt_tables _ _ _ (proj2 (so_root _ _ Ha)) (tables_path va)); [apply tables_path_valid|simpl; lia|done]. }
    pose proof (frames_disjoint pt g x Hpt Hgf Hx' Hx) as Heq. rewrite <- Heq in Hg.
    destruct Hg as [(q & Hv & Hl & Hwq)|(vb & e' & Hu & He)]; [by apply (Ht q)|by apply (Hpg vb e')].
Qed.

Lemma fault_page vb eb : user_page v' a vb eb →
  (vpage vb = vpage va ∧ eb = f' .| cow_resolved e) ∨ (vpage vb ≠ vpage va ∧ user_page v a vb eb).
Proof.
  rewrite <- Hcur at 1. intros [_ H]%(resolve_page v v' va e f' Hall Hm).
  destruct (Z.eqb_spec (vpage vb) (vpage va)); [by left|]. rewrite Hcur in H. by right.
Qed.

Lemma fault_space : space_ok v' a.
Proof. pose proof (resolve_space v v' va e f') as H. rewrite Hcur in H. by apply H. Qed.

(** What [a] holds afterwards: what it held, or the new frame. *)
Lemma fault_holder q g : position q → holder (vm_mem v') a q = Some g →
  (q ≠ vpath va ∧ holder (vm_mem v) a q = Some g) ∨ (q = vpath va ∧ g = f').
Proof.
  intros Hq Hh. pose proof Hq as (Hv & Hl & Hsh). destruct (decide (length q = 4%nat)) as [H4|H4].
  - destruct (holder_user v' a fault_space q g Hq H4 Hh) as (vb & eb & <- & Hu & ->).
    destruct (fault_page vb eb Hu) as [[Hv' ->]|[Hv' Hu']].
    + right. split; [by apply vpath_vpage|]. apply cow_entry_phys, Hm.
    + left. split; [by intros ?%vpath_vpage|]. by apply user_page_holder.
  - left. split; [intros ->; by apply H4|]. rewrite holder_table in Hh |- * by lia.
    rewrite <- Hcur in Hh |- *. rewrite (moved_walk _ _ _ _ _ Hm) in Hh; [done|done|lia].
Qed.

Lemma new_frame_of_space : of_space f' → f' = old ∧ rc_of v old = 1.
Proof.
  intros [_ H]%of_space_frame. destruct (Z.eqb_spec (rc_of v old) 1) as [E|E]; [by destruct Hrc|]. destruct Hrc. lia.
Qed.

Lemma fault_own vb eb : user_page v b vb eb → eb .& VMM_PHYS_MASK ≠ f'.
Proof.
  intros Hu He. destruct new_frame_of_space as [Hf H1]; [right; eauto|].
  destruct (page_at va e Hp) as [Hh Hpos]. rewrite Hf in He. rewrite <- He in Hh.
  destruct (ap_page _ _ _ (is_apart _ _ _ Hi) vb eb _ Hu Hpos Hh) as [_ H2]. rewrite He in H2. lia.
Qed.

Lemma fault_count g q : position q → q ≠ vpath va → holder (vm_mem v) a q = Some g → g ≠ f' → rc_of v' g = rc_of v g.
Proof.
  intros Hq Hne Hh Hg. destruct (Z.eqb_spec (rc_of v old) 1) as [E|E]; [by destruct Hrc as [_ ->]|].
  destruct Hrc as [_ ->]. rewrite (proj2 (Z.eqb_neq g f')) by done.
  destruct (Z.eqb_spec g old) as [->|]; [|done]. destruct Hne. destruct (page_at va e Hp) as [Hh' Hpos].
  by apply (holder_inj v a Ha q (vpath va) old).
Qed.

(** [b] does not hold the new frame; nor is it another page of [a]. *)
Lemma new_frame_held q : position q → holder (vm_mem v) b q ≠ Some f'.
Proof.
  intros Hq Hh. pose proof Hq as (Hv & Hl & _). destruct (decide (length q = 4%nat)) as [H4|H4].
  - destruct (holder_user v b Hb q f' Hq H4 Hh) as (vb & eb & _ & Hu & Hf). by apply (fault_own vb eb Hu).
  - rewrite holder_table in Hh by lia. destruct new_frame_of_space as [Hf _]; [left; exists q; repeat split; (done || lia)|].
    rewrite Hf in Hh. apply (ap_table _ _ _ (is_apart _ _ _ Hi) q old); [done|lia|done|]. by apply (page_held va).
Qed.

Lemma fault_other vb eb : user_page v a vb eb → vpage vb ≠ vpage va → eb .& VMM_PHYS_MASK ≠ f'.
Proof.
  intros Hu Hv He. destruct (Z.eqb_spec (rc_of v old) 1) as [E|E].
  - apply Hv, (so_inj _ _ Ha vb va eb e Hu Hp). destruct Hrc as [Hf _]. by rewrite He.
  - destruct Hrc as [Hf _], (so_frame _ _ Ha vb eb Hu) as (_ & H0 & _). rewrite He in H0. lia.
Qed.

Lemma fault_isolated : isolated v' a b.
Proof.
  pose proof fault_untouched as Hun. constructor.
  - constructor.
    + intros q t Hv Hl Hw (p & Hpp & Hh). rewrite (same_entries_walk _ _ _ _ (untouched_entries v v' b Hun)) in Hw by (done || lia).
      destruct (fault_holder p t Hpp Hh) as [[_ Hh']|[-> ->]].
      * apply (ap_table _ _ _ (is_apart _ _ _ Hi) q t Hv Hl Hw). by exists p.
      * destruct new_frame_of_space as [Hf H1]; [left; eauto|]. rewrite Hf in Hw.
        apply (ap_table _ _ _ (is_apart _ _ _ Hi) q old Hv Hl Hw). by apply (page_held va).
    + intros vb eb q Hu%(untouched_page v v' b Hun) Hq Hh.
      destruct (fault_holder q _ Hq Hh) as [[Hne Hh']|[-> Hf]]; [|by destruct (fault_own vb eb Hu)].
      destruct (ap_page _ _ _ (is_apart _ _ _ Hi) vb eb q Hu Hq Hh') as [Hl H2]. split; [done|].
      rewrite (fault_count _ q); [done..|by apply (fault_own vb eb)].
  - intros vb eb vc ec Hu Hw Hu'%(untouched_page v v' b Hun). destruct (fault_page vb eb Hu) as [[_ ->]|[_ Hu0]].
    + rewrite (cow_entry_phys f' e (moved_frame _ _ _ _ _ Hm)). by apply (fault_own vc ec).
    + by apply (is_own _ _ _ Hi vb eb vc ec).
  - intros vb eb Hu. destruct (fault_page vb eb Hu) as [[Hv _]|[_ Hu0]].
    + apply vpage_paths in Hv as [-> _]. by apply (is_private _ _ _ Hi va e).
    + by apply (is_private _ _ _ Hi vb eb).
Qed.

Lemma fault_back : isolated v b a → isolated v' b a.
Proof.
  intros Hj. pose proof fault_untouched as Hun. constructor.
  - constructor.
    + intros q t Hv Hl Hw (p & Hpp & Hh%(untouched_holder v v' b Hb Hun)); [|done].
      rewrite <- Hcur in Hw. rewrite (moved_walk _ _ _ _ _ Hm), Hcur in Hw by done.
      apply (ap_table _ _ _ (is_apart _ _ _ Hj) q t Hv Hl Hw). by exists p.
    + intros vb eb q Hu Hq Hh%(untouched_holder v v' b Hb Hun); [|done].
      destruct (fault_page vb eb Hu) as [[_ ->]|[Hv Hu0]].
      * exfalso. rewrite (cow_entry_phys f' e (moved_frame _ _ _ _ _ Hm)) in Hh.
        by apply (new_frame_held q).
      * destruct (ap_page _ _ _ (is_apart _ _ _ Hj) vb eb q Hu0 Hq Hh) as [Hl H2]. split; [done|].
        destruct (page_at vb eb Hu0) as [Hh0 Hpos].
        rewrite (fault_count _ (vpath vb)); [done|done|by intros ?%vpath_vpage|done|]. by apply (fault_other vb).
  - intros vb eb vc ec Hu%(untouched_page v v' b Hun) Hw Hu'. destruct (fault_page vc ec Hu') as [[_ ->]|[_ Hu0]].
    + rewrite (cow_entry_phys f' e (moved_frame _ _ _ _ _ Hm)). intros He. symmetry in He. by apply (fault_own vb eb).
    + by apply (is_own _ _ _ Hj vb eb vc ec).
  - intros vb eb Hu%(untouched_page v v' b Hun). by apply (is_private _ _ _ Hj vb eb).
Qed.
End Fault.
End Pair.

(** ** Writes through the kernel *)

(** Two spaces in order that are isolated from each other. *)
Record pair_ok (v : vm S) (a b : Z) : Prop := {
  po_left : space_ok v a;
  po_right : space_ok v b;
  po_apart : isolated v a b;
  po_back : isolated v b a;
}.

Lemma pair_sym v a b : pair_ok v a b → pair_ok v b a.
Proof. by intros []. Qed.

(** A step of [a] that leaves [b] alone. *)
Definition step_of (a b : Z) (v v' : vm S) : Prop :=
  pair_ok v' a b ∧ vm_cr3 v' = vm_cr3 v ∧ intact v v' b.

Lemma step_refl a b v : pair_ok v a b → step_of a b v v.
Proof. intros P. split; [done|]. split; [done|]. split; [apply P|done]. Qed.

Lemma step_trans a b v1 v2 v3 : pair_ok v1 a b → step_of a b v1 v2 → step_of a b v2 v3 → step_of a b v1 v3.
Proof.
  intros P (_ & Hc2 & Hi2) (P3 & Hc3 & Hi3). split; [done|]. split; [congruence|].
  eapply intact_trans; [apply P|done..].
Qed.

Lemma write_step v a b va e l : pair_ok v a b → user_page v a va e → has e VMM_WRITE = true →
  va mod PAGE_SIZE + len l <= PAGE_SIZE →
  step_of a b v (set_mem (store_bytes (vm_mem v) (e .& VMM_PHYS_MASK + va mod PAGE_SIZE) l) v).
Proof.
  intros [Ha Hb Hi Hj] Hp Hw Hl. pose proof (written_untouched v a b Ha Hb Hi va e Hp Hw l Hl) as Hun.
  split; [|split; [done|by apply untouched_intact]]. constructor.
  - by apply (write_space v a va e).
  - by apply (untouched_space v _ b).
  - by apply (written_isolated v a b Ha Hb Hi va e).
  - by apply (written_back v a b Ha Hb Hi va e).
Qed.

Lemma fault_step v v' a b va : vmm_current_pml4 v = a → pair_ok v a b → resolved v v' va → step_of a b v v'.
Proof.
  intros Hcur [Ha Hb Hi Hj] (e & f' & Hp & Hall & Hm & Hrc). rewrite Hcur in Hp. cbv zeta in Hrc.
  pose proof (fault_untouched v a b Ha Hb Hi v' va e f' Hcur Hp Hm Hrc) as Hun.
  split; [|split; [apply Hm|by apply untouched_intact]]. constructor.
  - by apply (fault_space v a Ha v' va e f').
  - by apply (untouched_space v _ b).
  - by apply (fault_isolated v a b Ha Hb Hi v' va e f').
  - by apply (fault_back v a b Ha Hb Hi v' va e f').
Qed.

Lemma copy_loop_step a b user n buf : user_range user n → ∀ fuel v done,
  vmm_current_pml4 v = a → pair_ok v a b → 0 <= done <= n → n - done <= Z.of_nat fuel →
  wp (copy_loop fuel user done n true buf) (λ _ v', step_of a b v v') v.
Proof.
  intros [Hu Htop]. induction fuel as [|f IH]; intros v done Hr P Hd Hf; cbn [copy_loop].
  { rewrite (proj2 (Z.ltb_ge done n)) by lia. by apply wp_ret, step_refl. }
  destruct (done <? n) eqn:E; b2p; [|by apply wp_ret, step_refl].
  pose proof (po_left _ _ _ P) as Hs. apply wp_bind. rewrite <- Hr in Hs.
  eapply wp_mono; [apply page_for_write; [exact Hs|lia]|]. rewrite Hr in Hs |- *.
  intros [phys|] v1 (_ & _ & _ & Hcase); [|destruct Hcase as [-> _]; by apply wp_ret, step_refl].
  destruct Hcase as (_ & e & Hp & -> & Hw & Hstep).
  assert (step_of a b v v1) as St1.
  { destruct Hstep as [->|Hres]; [by apply step_refl|by eapply fault_step]. }
  change (PAGE_SIZE - 1) with (2^12 - 1). rewrite land_low_mod by done. change (2^12) with PAGE_SIZE.
  set (k := MIN (PAGE_SIZE - (user + done) mod PAGE_SIZE) (n - done)).
  assert (0 < k <= n - done ∧ k <= PAGE_SIZE - (user + done) mod PAGE_SIZE) as [Hk Hkp].
  { unfold k, MIN. case_if; page_lia. }
  assert ((user + done) mod PAGE_SIZE + len (slice buf done k) <= PAGE_SIZE) as Hlp.
  { unfold slice. rewrite length_take. lia. }
  pose proof (write_step v1 a b (user + done) e _ (proj1 St1) Hp Hw Hlp) as St2.
  repeat wp_step. eapply wp_mono; [apply (IH _ (done + k)); [|apply St2|lia|lia]|].
  - destruct St1 as (_ & Hc1 & _). unfold vmm_current_pml4 in *. simpl. by rewrite Hc1.
  - intros res v' St3. eapply step_trans; [exact P|exact St1|]. by eapply step_trans; [apply St1|..].
Qed.

Lemma copy_to_user_step v a b user src n : vmm_current_pml4 v = a → pair_ok v a b → 0 <= user →
  wp (copy_to_user user src n) (λ _ v', step_of a b v v') v.
Proof.
  intros Hr P Hu. unfold copy_to_user, copy_user_bytes. apply wp_bind.
  destruct (n =? 0) eqn:E0; [repeat wp_step; by apply step_refl|].
  destruct (_ || _) eqn:E; [repeat wp_step; by apply step_refl|]. b2p.
  destruct (decide (n < 0)) as [Hneg|].
  - replace (Z.to_nat n) with O by lia. cbn [copy_loop]. rewrite (proj2 (Z.ltb_ge 0 n)) by lia.
    repeat wp_step. by apply step_refl.
  - eapply wp_mono; [apply (copy_loop_step a b); [split; lia|done|done|lia|lia]|]. intros res v' Hv. by apply wp_ret.
Qed.

(** ** Parent and child *)

Section Cloned.
Context (v0 v : vm S) (src dst : Z) (Hs : space_ok v0 src).
Context (Hpriv : ∀ va e, user_page v0 src va e → shared_path (tables_path va) = false).
Abbreviation all := (λ _ : list Z, true).
Context (C : cloning v0 src dst all all all v).

(** What the parent holds it held before the clone. *)
Lemma src_holder q f : position q → holder (vm_mem v) src q = Some f →
  0 < rc_of v0 f ∧ ((length q <= 3)%nat ∧ walk (vm_mem v0) src q = Some f ∨
    length q = 4%nat ∧ ∃ va e0, user_page v0 src va e0 ∧ f = e0 .& VMM_PHYS_MASK).
Proof.
  intros Hq Hh. pose proof Hq as (Hv & Hl & _). destruct (decide (length q = 4%nat)) as [H4|H4].
  - destruct (holder_user v src (src_space v0 v src dst _ _ Hs C) q f Hq H4 Hh) as (va & e & _ & Hu & ->).
    destruct (src_page v0 v src dst _ _ C va e Hu) as (e0 & Hu0 & ->). cbv beta iota.
    rewrite (shared_entry_phys e0 (page_range_of v0 src va e0 Hu0)).
    split; [apply (so_frame _ _ Hs va e0 Hu0)|]. right. eauto.
  - rewrite holder_table, (cl_walk _ _ _ _ _ _ _ C) in Hh by (done || lia).
    split; [by apply (pt_tables _ _ _ (proj2 (so_root _ _ Hs)) q f); [|lia|]|]. left. split; [lia|done].
Qed.

Lemma apart_src_dst : apart v src dst.
Proof.
  constructor.
  - intros q t Hv Hl Hw (p & Hp & Hh). destruct (src_holder p t Hp Hh) as [Hrc Hcase].
    destruct (shared_path q) eqn:E; [|destruct (cl_private _ _ _ _ _ _ _ C q t Hv Hl E Hw); lia].
    rewrite (cl_shared _ _ _ _ _ _ _ C q Hv Hl E) in Hw. destruct Hcase as [[Hlp Hwp]|(_ & va & e0 & Hu & ->)].
    + destruct Hp as (Hvp & _ & Hsh).
      rewrite (pt_inj _ _ _ (proj2 (so_root _ _ Hs)) p q t Hvp Hv Hlp Hl Hwp Hw) in Hsh. congruence.
    + destruct (so_frame _ _ Hs va e0 Hu) as (_ & _ & Hno). by apply (Hno q).
  - intros va e q Hu Hq Hh. destruct (dst_page v0 v src dst _ _ Hpriv C va e Hu) as (e0 & Hu0 & _ & ->).
    rewrite (shared_entry_phys e0 (page_range_of v0 src va e0 Hu0)) in *.
    destruct (src_holder q _ Hq Hh) as [Hrc Hcase]. destruct Hcase as [[Hl Hw]|[Hl _]].
    + destruct (so_frame _ _ Hs va e0 Hu0) as (_ & _ & Hno), Hq as (Hv & _). by destruct (Hno q Hv Hl).
    + split; [done|]. rewrite (cl_page _ _ _ _ _ _ _ C va e0 Hu0). cbv beta iota. lia.
Qed.

Lemma cloned_pair : pair_ok v src dst.
Proof.
  constructor.
  - by eapply src_space.
  - exact (dst_space v0 v src dst _ _ Hs Hpriv C).
  - constructor; [apply apart_src_dst| |].
    + intros va e vb e' Hu Hw. destruct (src_page v0 v src dst _ _ C va e Hu) as (e0 & _ & ->).
      cbv beta iota in Hw. by rewrite cow_entry_write in Hw.
    + intros va e Hu. destruct (src_page v0 v src dst _ _ C va e Hu) as (e0 & Hu0 & _). by apply (Hpriv va e0).
  - constructor; [exact (apart_dst_src v0 v src dst _ _ Hs Hpriv C)| |].
    + intros va e vb e' Hu Hw. destruct (dst_page v0 v src dst _ _ Hpriv C va e Hu) as (e0 & _ & _ & ->).
      by rewrite cow_entry_write in Hw.
    + intros va e Hu. destruct (dst_page v0 v src dst _ _ Hpriv C va e Hu) as (e0 & Hu0 & _). by apply (Hpriv va e0).
Qed.
End Cloned.

(** Writes of programs, each in the space that is loaded for it. *)
Definition write_in (w : Z * Z * list Z) : M (vm S) Z :=
  let '(space, user, bytes) := w in vmm_switch space;; copy_to_user user bytes (len bytes).

Fixpoint writes (ws : list (Z * Z * list Z)) : M (vm S) () :=
  match ws with
  | [] => mret ()
  | w :: ws' => write_in w;; writes ws'
  end.

Definition writes_of (a b : Z) (ws : list (Z * Z * list Z)) : Prop :=
  Forall (λ w, (w.1.1 = a ∨ w.1.1 = b) ∧ 0 <= w.1.2) ws.

Lemma space_switch v r c : space_ok v r → space_ok (set_cr3 c v) r.
Proof. intros [Hr ? ? ?]. by constructor. Qed.

Lemma pair_switch v a b c : pair_ok v a b → pair_ok (set_cr3 c v) a b.
Proof.
  assert (∀ a b, isolated v a b → isolated (set_cr3 c v) a b) as H.
  { intros ? ? [[H1 H2] H3 H4]. constructor; [constructor; [exact H1|exact H2]|exact H3|exact H4]. }
  intros [Ha Hb Hi Hj]. constructor; [by apply space_switch|by apply space_switch|auto|auto].
Qed.

Lemma root_current v r : space_ok v r → vmm_current_pml4 (set_cr3 r v) = r.
Proof.
  intros Hs. apply frame_page_aligned. by apply (pt_tables _ _ _ (proj2 (so_root _ _ Hs)) []); [constructor|simpl; lia|].
Qed.

(** A space nobody writes in is intact after all writes. *)
Lemma writes_steps a b ws v : pair_ok v a b → writes_of a b ws →
  wp (writes ws) (λ _ v', pair_ok v' a b ∧
    (Forall (λ w, w.1.1 ≠ a) ws → intact v v' a) ∧ (Forall (λ w, w.1.1 ≠ b) ws → intact v v' b)) v.
Proof.
  intros P Hws. revert v P. induction Hws as [|[[r user] bytes] ws [Hr Hu] Hws IH]; intros v P; cbn [writes].
  { apply wp_ret. split; [done|]. split; intros _; split; (apply P || done). }
  assert (space_ok v r) as Hsr by (destruct P, Hr as [Hr|Hr]; simpl in Hr; by subst).
  assert (∃ o, pair_ok (set_cr3 r v) r o ∧
    ((r = a ∧ o = b) ∨ (r = b ∧ o = a))) as (o & Po & Hro).
  { simpl in Hr. destruct Hr as [->| ->]; [exists b|exists a]; (split; [|auto]).
    - by apply pair_switch.
    - by apply pair_switch, pair_sym. }
  apply wp_bind. unfold write_in, vmm_switch. repeat wp_step.
  eapply wp_mono; [apply (copy_to_user_step _ r o); [by apply root_current|done|done]|].
  intros rc v1 (P1 & _ & Hi1).
  assert (intact v v1 o) as Hio by exact Hi1.
  assert (pair_ok v1 a b) as P1' by (destruct Hro as [[-> ->]|[-> ->]]; [done|by apply pair_sym]).
  eapply wp_mono; [by apply IH|]. intros [] v2 (P2 & Ha2 & Hb2). split; [done|].
  assert (space_ok v a ∧ space_ok v b) as [Hsa Hsb] by (destruct P; done).
  split; intros [Hne Hrest]%Forall_cons; simpl in Hne.
  - destruct Hro as [[-> _]|[_ ->]]; [done|]. eapply intact_trans; [done|exact Hio|auto].
  - destruct Hro as [[_ ->]|[-> _]]; [|done]. eapply intact_trans; [done|exact Hio|auto].
Qed.

(** C4: After a fork, whatever parent and child write, in any order, they stay isolated
    from each other; and a child whose parent alone writes sees the memory of the
    moment of the fork, as does a parent whose child alone writes. *)
Theorem fork_isolation v (pages : list Z) (mk : Z → list (Z * Z * list Z)) :
  let src := vmm_current_pml4 v in
  space_ok v src → has (pte (vm_mem v) src 0) VMM_PRESENT = true →
  (∀ va e, user_page v src va e → shared_path (tables_path va) = false) →
  (∀ va e, user_page v src va e → ∃ vb, vb ∈ pages ∧ vpage vb = vpage va) →
  (∀ va e, user_page v src va e → rc_of v (e .& VMM_PHYS_MASK) < 65535) →
  (∀ dst, dst ≠ 0 → writes_of src dst (mk dst)) →
  wp (dst ← vmm_clone_user_address_space src; (if dst =? 0 then mret () else writes (mk dst));; mret dst) (λ dst v',
    dst ≠ 0 → pair_ok v' src dst ∧
      (Forall (λ w, w.1.1 ≠ src) (mk dst) → same_view v v' src src) ∧
      (Forall (λ w, w.1.1 ≠ dst) (mk dst) → same_view v v' src dst)) v.
Proof.
  intros src Hs Hlow Hpriv Hpages Hmax Hmk. apply wp_bind. eapply wp_mono; [by apply clone_steps|].
  intros dst v1 [[-> _]|[Hd C]]; [by repeat wp_step|]. rewrite (proj2 (Z.eqb_neq dst 0) Hd).
  pose proof (cloned_pair v v1 src dst Hs Hpriv C) as P. apply wp_bind.
  eapply wp_mono; [by apply (writes_steps src dst); [|apply Hmk]|].
  intros [] v2 (P2 & Hsrc & Hdst). apply wp_ret. intros _. split; [done|]. split; intros Hno.
  - eapply same_view_trans; [by eapply view_src|]. apply intact_view; [apply P|auto].
  - eapply same_view_trans; [by apply (view_dst v v1 src dst _ _ Hs Hpriv C)|]. apply intact_view; [apply P|auto].
Qed.
End Isolation.

(** ** A concrete run: the parent writes after the fork *)

Definition w_writes (dst : Z) : list (Z * Z * list Z) := [(vmm_current_pml4 mmap_vm, 0x50000ffe, w_bytes)].

Abbreviation fork_write_run :=
  (dst ← vmm_clone_user_address_space (vmm_current_pml4 mmap_vm);
   (if dst =? 0 then mret () else writes (w_writes dst));; mret dst).
Definition forked_vm : vm pmm_state := run fork_write_run mmap_vm.
Definition forked_root : Z := result fork_write_run mmap_vm 0.

Lemma forked_run (Q : Z → vm pmm_state → Prop) : wp fork_write_run Q mmap_vm → Q forked_root forked_vm.
Proof. unfold forked_root, forked_vm. exact (run_wp fork_write_run Q mmap_vm 0). Qed.

Lemma forked_root_other :
  (forked_root =? 0) = false ∧ (vmm_current_pml4 mmap_vm =? forked_root) = false ∧
  ubyte (vm_mem forked_vm) (vmm_current_pml4 mmap_vm) 0x50000fff = 2 ∧
  ubyte (vm_mem forked_vm) forked_root 0x50000fff = 0.
Proof. vm_compute. split_and!; reflexivity. Qed.
#[global] Opaque forked_root forked_vm.

Lemma fork_isolation_witness : same_view mmap_vm forked_vm (vmm_current_pml4 mmap_vm) forked_root.
Proof.
  destruct mmap_vm_cloneable as (H1 & H2 & H3), forked_root_other as (Hr & Hne & _).
  assert (∀ dst, dst ≠ 0 → writes_of (vmm_current_pml4 mmap_vm) dst (w_writes dst)) as Hw.
  { intros dst _. constructor; [|constructor]. split; [left; reflexivity|]. cbn [fst snd]. lia. }
  pose proof (forked_run _ (fork_isolation mmap_vm w_pages w_writes mmap_vm_current mmap_vm_low H1 H2 H3 Hw)) as H.
  cbv beta in H. apply Z.eqb_neq in Hr, Hne. destruct (H Hr) as (_ & _ & Hd). apply Hd.
  constructor; [exact Hne|constructor].
Defined.
