(* ===== verification/ForkProps.v ===== *)
(** * Fork: page tables and tasks together *)

From Stdlib Require Import ZArith Lia.
From S2P Require Import Prelude Memory Frames Pmm PmmInv PmmProps Vmm VmmInv VmmOps VmmBuild VmmSpace VmmCow VmmProps.
From S2P Require Import Uaccess UaccessInv UaccessWrite UaccessProps Kbd Vfs Path Exec Sched SchedInv SchedOps SchedProps.
From S2P Require Import Usermem UsermemInv UsermemProps Elf ElfProps Syscall SyscallProps.
From S2P Require Import SpaceDestroy SpaceClone SpaceProps Isolation.
Import StringC.

Section Fork.
Context {S : Type} `{FA : FrameAllocator S} (new_task : kernel S → option (nat * Z)).
Implicit Types k : kernel S.
Abbreviation rc_of k := (fa_rc (vm_pmm (k_vm k))).

(** The current space can be cloned: its user pages, among [pages], are outside the
    shared part and have room for one more reference. *)
Definition cloneable (v : vm S) (pages : list Z) : Prop :=
  let src := vmm_current_pml4 v in
  space_ok v src ∧ has (pte (vm_mem v) src 0) VMM_PRESENT = true ∧
  (∀ va e, user_page v src va e → shared_path (tables_path va) = false) ∧
  (∀ va e, user_page v src va e → ∃ vb, vb ∈ pages ∧ vpage vb = vpage va) ∧
  (∀ va e, user_page v src va e → fa_rc (vm_pmm v) (e .& VMM_PHYS_MASK) < 65535).

(** C5: The system call fork: on success the parent gets the child's pid, and the child is
    the next task of the ring, ready, with the parent's files, directory and layout and
    with 0 in rax; both see the parent's memory, isolated from each other.  Without
    memory the call is -ENOMEM, no task is added, every reference count is as before
    and the parent's memory too. *)
Theorem sys_fork_correct k l1 c l2 t i stack frame pages :
  sched_ok (k_sched k) (l1 ++ c :: l2) c → tasks (k_sched k) !! c = Some t → t_user_mode t = true →
  vmm_current_pml4 (k_vm k) = t_cr3 t → cloneable (k_vm k) pages →
  new_task k = Some (i, stack) → tasks (k_sched k) !! i = None →
  1 < next_pid (k_sched k) → len (l1 ++ c :: l2) + 1 < 2^32 →
  wp (sys_fork_impl new_task frame) (λ ret k',
    k_fs k' = k_fs k ∧ k_keys k' = k_keys k ∧ k_out k' = k_out k ∧
    space_ok (k_vm k') (t_cr3 t) ∧ same_view (k_vm k) (k_vm k') (t_cr3 t) (t_cr3 t) ∧
    ((ret = - ENOMEM ∧ k_sched k' = k_sched k ∧ (∀ f, rc_of k' f = rc_of k f) ∧
      fa_avail (vm_pmm (k_vm k)) <= 2 + 3 * len pages) ∨
     (ret = next_pid (k_sched k) ∧ sched_ok (k_sched k') (l1 ++ c :: i :: l2) c ∧
      ∃ child, tasks (k_sched k') !! i = Some child ∧
        t_pid child = ret ∧ t_state child = TASK_READY ∧ t_parent child = Some c ∧
        t_layout child = t_layout t ∧ t_cwd child = t_cwd t ∧ t_files child = t_files t ∧
        ks_frame (t_kstack child) = Some (with_rax 0 frame) ∧
        same_view (k_vm k) (k_vm k') (t_cr3 t) (t_cr3 child) ∧
        pair_ok (k_vm k') (t_cr3 t) (t_cr3 child)))) k.
Proof.
  intros Hok Ht Hum Hcur (Hs & Hlow & Hpriv & Hpages & Hmax) Hnew Hfresh Hpid Hlen.
  assert (current k = Some (c, t)) as Hc.
  { unfold current. replace (current_task (k_sched k)) with (Some c) by (symmetry; apply Hok). simpl. by rewrite Ht. }
  pose proof (fork_steps (k_sched k) l1 c l2 i stack) as Hfork.
  unfold sys_fork_impl. repeat wp_step. rewrite Hc, Hum. cbn [negb]. repeat wp_step. rewrite Hnew.
  apply wp_bind. unfold in_vm. apply wp_zoom. rewrite <- Hcur. eapply wp_mono; [by apply clone_steps|].
  intros dst v1 [[-> (_ & Hs1 & Hv1 & _ & Hav & Hrc)]|[Hd C]].
  - rewrite Z.eqb_refl. repeat wp_step. unfold task_fork_from_frame. cbn [k_sched set_vm].
    replace (current_task (k_sched k)) with (Some c) by (symmetry; apply Hok).
    cbn [mbind option_bind]. rewrite Ht, Hum. cbn [negb]. repeat wp_step.
    split; [done|]. split; [done|]. split; [done|]. split; [by apply space_switch|]. split; [exact Hv1|]. left.
    split; [done|]. split; [done|]. split; [exact Hrc|exact Hav].
  - rewrite (proj2 (Z.eqb_neq dst 0) Hd). repeat wp_step. cbn [k_sched set_vm].
    specialize (Hfork dst frame Hok (ex_intro _ t (conj Ht Hum)) Hfresh Hpid Hlen).
    destruct (task_fork_from_frame _ _ _ _) as [ret s'].
    destruct Hfork as (-> & Hok' & cur & child & Ht' & Hch & Hpid' & Hst & Hpar & Hcr & Hlay & Hcwd & Hfiles & _ & Hfr & _).
    rewrite Ht in Ht'. injection Ht' as <-. repeat wp_step. cbn [k_fs k_keys k_out k_vm k_sched set_sched set_vm].
    pose proof (cloned_pair (k_vm k) v1 _ dst Hs Hpriv C) as P.
    split; [done|]. split; [done|]. split; [done|]. split; [by apply space_switch, P|].
    split; [by eapply (view_src (k_vm k) v1)|]. right. split; [done|]. split; [done|].
    exists child. rewrite Hcr. split_and!; try done; [|by apply pair_switch].
    by apply (view_dst (k_vm k) v1 _ dst _ _ Hs Hpriv C).
Qed.
End Fork.

(** ** Concrete run: init forks on the machine with two mapped pages *)

Lemma boot_init cr3 stack1 stack2 fn l name : let s := boot_sched cr3 stack1 stack2 fn l name in
  (λ t, (t_cr3 t, t_user_mode t)) <$> tasks s !! 0%nat = Some (ld_cr3 l, true) ∧
  tasks s !! 2%nat = None ∧ next_pid s = 3.
Proof. vm_compute. split_and!; reflexivity. Qed.

Definition init_sched (cr3 : Z) : sched :=
  boot_sched 0 0x120000 0x130000 0 (Loaded cr3 0x40000000 0x40002000) (chars "init").
Definition init_kernel : kernel pmm_state := Kernel mmap_vm (init_sched space_root) (Vfs ∅ 0 0 no_files) [] [].
Definition init_new (k : kernel pmm_state) : option (nat * Z) := Some (2%nat, 0x140000).

Lemma init_task_of cr3 : ∃ t, tasks (init_sched cr3) !! 0%nat = Some t ∧ t_user_mode t = true ∧ t_cr3 t = cr3.
Proof.
  destruct (boot_init 0 0x120000 0x130000 0 (Loaded cr3 0x40000000 0x40002000) (chars "init")) as (H & _).
  apply field_some in H as (t & Ht & [= Hc Hu]). exists t. split; [exact Ht|]. split; [exact Hu|exact Hc].
Qed.

Lemma init_sched_facts cr3 :
  sched_ok (init_sched cr3) ([] ++ 0%nat :: [1%nat]) 0 ∧ tasks (init_sched cr3) !! 2%nat = None ∧
  1 < next_pid (init_sched cr3).
Proof.
  unfold init_sched. split; [exact (boot_sched_ok 0 0x120000 0x130000 0 _ _)|].
  destruct (boot_init 0 0x120000 0x130000 0 (Loaded cr3 0x40000000 0x40002000) (chars "init")) as (_ & H2 & H3).
  split; [exact H2|]. rewrite H3. lia.
Qed.

Lemma mmap_vm_clone_ok : cloneable mmap_vm w_pages.
Proof.
  destruct mmap_vm_cloneable as (H1 & H2 & H3).
  split; [exact mmap_vm_current|]. split; [exact mmap_vm_low|]. split; [exact H1|]. split; [exact H2|exact H3].
Qed.

Lemma sys_fork_correct_witness :
  wp (sys_fork_impl init_new (call_frame SYS_FORK 0 0 0)) (λ ret k',
    ret = 3 ∧ ∃ child, tasks (k_sched k') !! 2%nat = Some child ∧
      same_view mmap_vm (k_vm k') space_root (t_cr3 child)) init_kernel.
Proof.
  destruct (init_task_of space_root) as (t & Ht & Hu & Hc), (init_sched_facts space_root) as (Hok & Hfresh & Hpid).
  assert (vmm_current_pml4 (k_vm init_kernel) = t_cr3 t) as Hcur by (rewrite Hc; exact (proj2 mmap_vm_space)).
  eapply wp_mono.
  - apply (sys_fork_correct init_new init_kernel [] 0%nat [1%nat] t 2%nat 0x140000 (call_frame SYS_FORK 0 0 0) w_pages
      Hok Ht Hu Hcur mmap_vm_clone_ok eq_refl Hfresh Hpid). simpl. lia.
  - intros ret k' (_ & _ & _ & _ & _ & [(_ & _ & _ & Hav)|(Hret & _ & child & Hch & _ & _ & _ & _ & _ & _ & _ & Hview & _)]).
    + exfalso. pose proof mmap_vm_avail as H. apply Z.ltb_lt in H. apply (Z.lt_irrefl (fa_avail (vm_pmm mmap_vm))).
      eapply Z.le_lt_trans; [exact Hav|exact H].
    + split.
      * rewrite Hret. exact (proj2 (proj2 (boot_init 0 0x120000 0x130000 0 (Loaded space_root 0x40000000 0x40002000) (chars "init")))).
      * exists child. split; [exact Hch|]. rewrite Hc in Hview. exact Hview.
Defined.
