(* ===== verification/Console.v ===== *)
(** * Console output: [drivers/char/vga.c], [drivers/char/serial.c], [lib/kprintf.c]

    The screen is the memory of the VGA text mode, 25 rows of 80 cells; the serial
    port is the sequence of answers its status register will give and the bytes sent.
    [kprintf] turns a format and its arguments into characters, each of which goes to
    both devices. *)

From Stdlib Require Import ZArith Lia.
From S2P Require Import Prelude Memory Kbd.

(** ** The screen *)

Definition VGA_WIDTH : Z := 80.
Definition VGA_HEIGHT : Z := 25.
Definition VGA_BLACK : Z := 0.
Definition VGA_RED : Z := 4.
Definition VGA_LIGHT_GREY : Z := 7.
Definition VGA_DARK_GREY : Z := 8.
Definition VGA_LIGHT_BLUE : Z := 9.
Definition VGA_LIGHT_GREEN : Z := 10.
Definition VGA_LIGHT_CYAN : Z := 11.
Definition VGA_LIGHT_RED : Z := 12.
Definition VGA_YELLOW : Z := 14.
Definition VGA_WHITE : Z := 15.

Record vga := Vga { vga_row : Z; vga_col : Z; vga_color : Z; vga_buf : array }.

Definition set_pos (row col : Z) (v : vga) : vga := Vga row col (vga_color v) (vga_buf v).
Definition set_buf (b : array) (v : vga) : vga := Vga (vga_row v) (vga_col v) (vga_color v) b.

Definition vga_entry (c color : Z) : Z := u8 c .| Z.shiftl color 8.

Definition vga_set_color (fg bg : Z) (v : vga) : vga :=
  Vga (vga_row v) (vga_col v) (u8 (Z.shiftl (bg .& 0xF) 4) .| (fg .& 0xF)) (vga_buf v).

Definition put_cell (i e : Z) (v : vga) : vga := set_buf (arr_set (vga_buf v) i e) v.

Definition vga_clear (v : vga) : vga :=
  let v := for_range 0 VGA_HEIGHT (λ y, for_range 0 VGA_WIDTH (λ x v,
             put_cell (y * VGA_WIDTH + x) (vga_entry 32 (vga_color v)) v)) v in
  set_pos 0 0 v.

Definition vga_init : vga → vga := vga_clear.

(** The two loops of [vga_scroll]. *)
Definition rows_up (v : vga) : vga :=
  for_range 0 (VGA_HEIGHT - 1) (λ y, for_range 0 VGA_WIDTH (λ x v,
    put_cell (y * VGA_WIDTH + x) (arr_get (vga_buf v) ((y + 1) * VGA_WIDTH + x)) v)) v.
Definition blank_last (v : vga) : vga :=
  for_range 0 VGA_WIDTH (λ x v, put_cell ((VGA_HEIGHT - 1) * VGA_WIDTH + x) (vga_entry 32 (vga_color v)) v) v.

Definition vga_scroll (v : vga) : vga :=
  let v := blank_last (rows_up v) in set_pos (VGA_HEIGHT - 1) (vga_col v) v.

(** [if (++vga_row >= VGA_HEIGHT) vga_scroll();] *)
Definition next_row (v : vga) : vga :=
  let v := set_pos (vga_row v + 1) (vga_col v) v in
  if VGA_HEIGHT <=? vga_row v then vga_scroll v else v.

Definition vga_putchar (c : Z) (v : vga) : vga :=
  if c =? 10 then next_row (set_pos (vga_row v) 0 v)
  else if c =? 13 then set_pos (vga_row v) 0 v
  else if c =? 9 then
    let v := set_pos (vga_row v) (Z.land (vga_col v + 8) (Z.lnot 7)) v in
    if VGA_WIDTH <=? vga_col v then next_row (set_pos (vga_row v) 0 v) else v
  else
    let v := put_cell (vga_row v * VGA_WIDTH + vga_col v) (vga_entry c (vga_color v)) v in
    let v := set_pos (vga_row v) (vga_col v + 1) v in
    if VGA_WIDTH <=? vga_col v then next_row (set_pos (vga_row v) 0 v) else v.

Definition vga_puts (s : list Z) (v : vga) : vga := foldl (λ v c, vga_putchar c v) v s.

(** ** The serial port *)

Definition COM1_BASE : Z := 0x3F8.
Definition LSR_TX_EMPTY : Z := 0x20.

(** The port writes of [serial_init], in order. *)
Definition serial_init : list (Z * Z) :=
  [(COM1_BASE + 1, 0x00); (COM1_BASE + 3, 0x80); (COM1_BASE + 0, 0x03); (COM1_BASE + 1, 0x00);
   (COM1_BASE + 3, 0x03); (COM1_BASE + 2, 0xC7); (COM1_BASE + 4, 0x0B)].

(** The line status the port will show at each reading, and the bytes it was sent. *)
Record uart := Uart { uart_lsr : list Z; uart_sent : list Z }.

Definition serial_ready (lsr : Z) : bool := negb (lsr .& LSR_TX_EMPTY =? 0).

(** [while (!serial_ready());] then the byte; [None]: never ready. *)
Fixpoint send_loop (lsr : list Z) (c : Z) (sent : list Z) : option uart :=
  match lsr with
  | [] => None
  | st :: lsr' => if serial_ready st then Some (Uart lsr' (sent ++ [u8 c])) else send_loop lsr' c sent
  end.
Definition serial_send (c : Z) (u : uart) : option uart := send_loop (uart_lsr u) c (uart_sent u).

Definition serial_putchar (c : Z) (u : uart) : option uart :=
  if c =? 10 then u ← serial_send 13 u; serial_send c u else serial_send c u.

Fixpoint serial_puts (s : list Z) (u : uart) : option uart :=
  match s with [] => Some u | c :: s' => u ← serial_putchar c u; serial_puts s' u end.

(** ** [kprintf] *)

Record console := Console { con_vga : vga; con_uart : uart }.

Definition kputchar (c : Z) : M console () :=
  modify_opt (λ s, u ← serial_putchar c (con_uart s); Some (Console (vga_putchar c (con_vga s)) u)).

Fixpoint kputs (s : list Z) : M console () :=
  match s with [] => mret () | c :: s' => kputchar c;; kputs s' end.

Definition digit (upper : bool) (d : Z) : Z := if d <? 10 then 48 + d else (if upper then 65 else 97) + (d - 10).

(** The digits that go into [buf], last digit first; [buf] has room for [fuel]. *)
Fixpoint digits_rev (fuel : nat) (n base : Z) (upper : bool) : list Z :=
  match fuel with
  | O => []
  | S f => if 0 <? n then digit upper (n mod base) :: digits_rev f (n / base) base upper else []
  end.

Definition BUF_SIZE : nat := 64.

(** The characters [print_uint] passes to [kputchar]. *)
Definition print_uint (n base : Z) (upper : bool) (width pad : Z) : list Z :=
  let buf := if n =? 0 then [48] else digits_rev BUF_SIZE n base upper in
  replicate (Z.to_nat (width - Z.of_nat (length buf))) pad ++ rev buf.

Definition print_int (n width pad : Z) : list Z :=
  if n <? 0 then
    let width := if 0 <? width then width - 1 else width in
    45 :: print_uint (u64 (u64 (- (n + 1)) + 1)) 10 false width pad
  else print_uint (u64 n) 10 false width pad.

(** An argument: an integer or pointer value, or a string ([None]: a null pointer). *)
Inductive arg := ArgInt (z : Z) | ArgStr (s : option (list Z)).

Definition va_int (args : list arg) : option (Z * list arg) :=
  match args with ArgInt z :: args' => Some (z, args') | _ => None end.
Definition va_str (args : list arg) : option (option (list Z) * list arg) :=
  match args with ArgStr s :: args' => Some (s, args') | _ => None end.

Definition null_text : list Z := chars "(null)".

(** [va_arg(ap, unsigned long)] or [(uint64_t)va_arg(ap, unsigned int)] *)
Definition va_unsigned (lng : bool) (z : Z) : Z := if lng then u64 z else u32 z.

(** One specifier; [None]: the arguments do not match it, which C leaves undefined. *)
Definition convert (pad width : Z) (lng : bool) (c : Z) (args : list arg) : option (list Z * list arg) :=
  if (c =? 100) || (c =? 105) then
    '(z, args) ← va_int args; Some (print_int (if lng then s64 (u64 z) else s32 (u32 z)) width pad, args)
  else if c =? 117 then '(z, args) ← va_int args; Some (print_uint (va_unsigned lng z) 10 false width pad, args)
  else if c =? 120 then '(z, args) ← va_int args; Some (print_uint (va_unsigned lng z) 16 false width pad, args)
  else if c =? 88 then '(z, args) ← va_int args; Some (print_uint (va_unsigned lng z) 16 true width pad, args)
  else if c =? 112 then '(z, args) ← va_int args; Some (chars "0x" ++ print_uint (u64 z) 16 false 16 48, args)
  else if c =? 115 then '(s, args) ← va_str args; Some (default null_text s, args)
  else if c =? 99 then '(z, args) ← va_int args; Some ([u8 z], args)
  else if c =? 37 then Some ([37], args)
  else Some ([37; c], args).

Definition is_digit (c : Z) : bool := (48 <=? c) && (c <=? 57).

(** The loop over the digits of the width. *)
Fixpoint parse_width (w : Z) (fmt : list Z) : Z * list Z :=
  match fmt with
  | c :: fmt' => if is_digit c then parse_width (w * 10 + (c - 48)) fmt' else (w, fmt)
  | [] => (w, [])
  end.

Definition eat (c : Z) (fmt : list Z) : bool * list Z :=
  match fmt with x :: fmt' => if x =? c then (true, fmt') else (false, fmt) | [] => (false, []) end.

(** The text of the format behind [fmt] characters; a format that ends inside a
    conversion is read past its terminator ([None]). *)
Fixpoint format (fuel : nat) (fmt : list Z) (args : list arg) : option (list Z) :=
  match fuel with
  | O => Some []
  | S f =>
      match fmt with
      | [] => Some []
      | c :: fmt =>
          if negb (c =? 37) then l ← format f fmt args; Some (c :: l)
          else
            let '(zero, fmt) := eat 48 fmt in
            let pad := if zero then 48 else 32 in
            let '(width, fmt) := parse_width 0 fmt in
            let '(lng, fmt) := eat 108 fmt in
            match fmt with
            | [] => None
            | c :: fmt =>
                '(out, args) ← convert pad width lng c args;
                l ← format f fmt args; Some (out ++ l)
            end
      end
  end.
Definition kprintf_text (fmt : list Z) (args : list arg) : option (list Z) := format (length fmt) fmt args.

Definition kprintf (fmt : string) (args : list arg) : M console () :=
  match kprintf_text (chars fmt) args with
  | Some l => kputs l
  | None => panic "undefined"
  end.
