(* ===== verification/ConsoleProps.v ===== *)
(** * Console output: properties *)

From Stdlib Require Import ZArith Lia.
From S2P Require Import Prelude Memory Kbd Console.

(** ** Numbers *)

(** The value of a numeral. *)
Definition undigit (c : Z) : Z := if c <=? 57 then c - 48 else if 97 <=? c then c - 87 else c - 55.
Definition value (base : Z) (ds : list Z) : Z := foldl (λ v c, v * base + undigit c) 0 ds.

Lemma undigit_digit upper d : 0 <= d < 16 → undigit (digit upper d) = d.
Proof. intros H. unfold undigit, digit. destruct upper; repeat case_if; lia. Qed.

Lemma value_snoc base ds c : value base (ds ++ [c]) = value base ds * base + undigit c.
Proof. unfold value. by rewrite foldl_app. Qed.

Lemma digit_nonzero upper d : 0 < d < 16 → digit upper d ≠ 48.
Proof. intros H. unfold digit. destruct upper; repeat case_if; lia. Qed.

Section Digits.
Context (base : Z) (upper : bool) (Hbase : 2 <= base <= 16).

Lemma digits_rev_value fuel : ∀ n, 0 <= n < base ^ Z.of_nat fuel →
  value base (rev (digits_rev fuel n base upper)) = n.
Proof.
  induction fuel as [|f IH]; intros n Hn; cbn [digits_rev].
  { simpl in Hn. assert (n = 0) as -> by lia. done. }
  case_if; [|assert (n = 0) as -> by lia; done]. cbn [rev]. rewrite value_snoc, undigit_digit.
  - rewrite Nat2Z.inj_succ, Z.pow_succ_r in Hn by lia. rewrite IH.
    + pose proof (Z.div_mod n base ltac:(lia)). lia.
    + split; [apply Z.div_pos; lia|]. apply Z.div_lt_upper_bound; lia.
  - pose proof (Z.mod_pos_bound n base ltac:(lia)). lia.
Qed.

Lemma digits_rev_length fuel : ∀ n, (length (digits_rev fuel n base upper) <= fuel)%nat.
Proof. induction fuel as [|f IH]; intros n; cbn [digits_rev]; [done|]. case_if; simpl; [|lia]. specialize (IH (n / base)). lia. Qed.

(** The last digit stored is the first of the numeral, and not zero. *)
Lemma digits_rev_head fuel : ∀ n, 0 < n < base ^ Z.of_nat fuel →
  ∃ d ds, rev (digits_rev fuel n base upper) = d :: ds ∧ d ≠ 48.
Proof.
  induction fuel as [|f IH]; intros n Hn; cbn [digits_rev]; [simpl in Hn; lia|].
  rewrite (proj2 (Z.ltb_lt 0 n)) by lia. cbn [rev].
  rewrite Nat2Z.inj_succ, Z.pow_succ_r in Hn by lia.
  destruct (decide (n / base = 0)) as [E|E].
  - rewrite E. assert (digits_rev f 0 base upper = []) as -> by (by destruct f).
    exists (digit upper (n mod base)), []. split; [done|]. apply digit_nonzero.
    pose proof (Z.mod_pos_bound n base ltac:(lia)). pose proof (Z.div_mod n base ltac:(lia)). rewrite E in *. lia.
  - destruct (IH (n / base)) as (d & ds & -> & Hd).
    + split; [|apply Z.div_lt_upper_bound; lia]. pose proof (Z.div_pos n base ltac:(lia) ltac:(lia)). lia.
    + by exists d, (ds ++ [digit upper (n mod base)]).
Qed.

Lemma pow_buf : 2 ^ 64 <= base ^ Z.of_nat BUF_SIZE.
Proof. unfold BUF_SIZE. apply Z.pow_le_mono_l. lia. Qed.

(** print_uint prints a numeral whose value is the number, without leading zeros,
    padded on the left to the width; its digits fit the buffer. *)
Lemma print_uint_steps n width pad : 0 <= n < 2^64 →
  ∃ ds, print_uint n base upper width pad = replicate (Z.to_nat (width - Z.of_nat (length ds))) pad ++ ds ∧
    value base ds = n ∧ (1 <= length ds <= BUF_SIZE)%nat ∧ (n ≠ 0 → head ds ≠ Some 48).
Proof.
  intros Hn. pose proof pow_buf as Hpow. unfold print_uint.
  exists (if n =? 0 then [48] else rev (digits_rev BUF_SIZE n base upper)). destruct (Z.eqb_spec n 0) as [->|Hne].
  - split; [done|]. split; [done|]. split; [unfold BUF_SIZE; simpl; lia|done].
  - rewrite length_rev. split; [done|]. split; [apply digits_rev_value; lia|].
    destruct (digits_rev_head BUF_SIZE n) as (d & ds & E & Hd); [lia|].
    split; [|intros _; rewrite E; by intros [= ->]]. split; [|apply digits_rev_length].
    rewrite <- length_rev, E. simpl. lia.
Qed.
End Digits.

(** The text of a number under %d, %u or %x reads back as the number: digits of the
    base with no leading zero, padded on the left to the width, and never more than the
    64 bytes of the buffer. *)
Theorem print_uint_correct (n base width pad : Z) (upper : bool) :
  2 <= base <= 16 → 0 <= n < 2^64 →
  ∃ ds, print_uint n base upper width pad = replicate (Z.to_nat (width - Z.of_nat (length ds))) pad ++ ds ∧
    value base ds = n ∧ (1 <= length ds <= BUF_SIZE)%nat ∧ (n ≠ 0 → head ds ≠ Some 48).
Proof. intros Hb. by apply print_uint_steps. Qed.

Lemma print_uint_correct_witness :
  print_uint 0xBEEF 16 false 8 48 = chars "0000beef" ∧
  ∃ ds, print_uint 0xBEEF 16 false 8 48 = replicate (Z.to_nat (8 - Z.of_nat (length ds))) 48 ++ ds ∧ value 16 ds = 0xBEEF.
Proof.
  split; [reflexivity|].
  destruct (print_uint_correct 0xBEEF 16 8 48 false ltac:(lia) ltac:(lia)) as (ds & E & Hv & _). eauto.
Defined.

(** Signed numbers: a minus sign, then the magnitude, in what is left of the width. *)
Lemma print_int_steps n width pad : - 2^63 <= n < 2^63 →
  ∃ ds, print_int n width pad =
    (if n <? 0 then [45] else []) ++
      replicate (Z.to_nat ((if (n <? 0) && (0 <? width) then width - 1 else width) - Z.of_nat (length ds))) pad ++ ds ∧
    value 10 ds = Z.abs n.
Proof.
  intros Hn. unfold print_int. case_if.
  - rewrite (u64_small (- (n + 1))), u64_small by lia.
    destruct (print_uint_steps 10 false ltac:(lia) (- (n + 1) + 1) (if 0 <? width then width - 1 else width) pad)
      as (ds & -> & Hv & _); [lia|]. exists ds. split; [done|]. lia.
  - rewrite u64_small by lia. destruct (print_uint_steps 10 false ltac:(lia) n width pad) as (ds & -> & Hv & _); [lia|].
    exists ds. split; [done|]. lia.
Qed.

(** ** Formats *)

(** A format as the programmer means it: characters and conversions. *)
Inductive piece := Lit (c : Z) | Conv (zero : bool) (width : Z) (lng : bool) (c : Z).

Definition width_text (w : Z) : list Z := if w =? 0 then [] else print_uint w 10 false 0 32.

Definition piece_text (p : piece) : list Z :=
  match p with
  | Lit c => [c]
  | Conv zero w lng c => 37 :: (if zero then [48] else []) ++ width_text w ++ (if lng then [108] else []) ++ [c]
  end.
Definition pieces_text (ps : list piece) : list Z := mjoin (piece_text <$> ps).

Definition piece_ok (p : piece) : Prop :=
  match p with
  | Lit c => c ≠ 37
  | Conv zero w lng c => 0 <= w < 2^31 ∧ is_digit c = false ∧ (lng = false → c ≠ 108)
  end.

(** What the pieces print, one after the other. *)
Fixpoint render (ps : list piece) (args : list arg) : option (list Z) :=
  match ps with
  | [] => Some []
  | Lit c :: ps' => l ← render ps' args; Some (c :: l)
  | Conv zero w lng c :: ps' =>
      '(out, args) ← convert (if zero then 48 else 32) w lng c args;
      l ← render ps' args; Some (out ++ l)
  end.

Lemma digits10_rev upper fuel : ∀ n, Forall (λ c, is_digit c = true) (digits_rev fuel n 10 upper).
Proof.
  induction fuel as [|f IH]; intros n; cbn [digits_rev]; [constructor|]. case_if; constructor; [|apply IH].
  pose proof (Z.mod_pos_bound n 10 ltac:(lia)). unfold digit, is_digit. rewrite (proj2 (Z.ltb_lt _ _)) by lia.
  apply andb_true_iff. rewrite !Z.leb_le. lia.
Qed.

Lemma width_digits w : Forall (λ c, is_digit c = true) (width_text w).
Proof.
  unfold width_text, print_uint. destruct (w =? 0); [constructor|].
  apply Forall_app. split; [|apply Forall_rev, digits10_rev].
  replace (Z.to_nat _) with O by lia. constructor.
Qed.

Lemma width_value w : 0 <= w < 2^31 → value 10 (width_text w) = w ∧ head (width_text w) ≠ Some 48.
Proof.
  intros Hw. unfold width_text. destruct (Z.eqb_spec w 0) as [->|Hne]; [done|].
  destruct (print_uint_steps 10 false ltac:(lia) w 0 32) as (ds & -> & Hv & Hl & Hd); [lia|].
  replace (Z.to_nat _) with O by lia. simpl. auto.
Qed.

Definition not_digit (fmt : list Z) : Prop := match fmt with c :: _ => is_digit c = false | [] => True end.

Lemma parse_width_app ds : ∀ w rest, Forall (λ c, is_digit c = true) ds → not_digit rest →
  parse_width w (ds ++ rest) = (foldl (λ v c, v * 10 + undigit c) w ds, rest).
Proof.
  induction ds as [|c ds IH]; intros w rest Hds Hr; cbn [app parse_width foldl].
  - destruct rest as [|c rest]; [done|]. cbn [parse_width]. simpl in Hr. by rewrite Hr.
  - apply Forall_cons in Hds as [Hc Hds]. rewrite Hc, IH by done. do 3 f_equal. unfold undigit. f_equal.
    unfold is_digit in Hc. b2p. by rewrite (proj2 (Z.leb_le c 57)).
Qed.

Lemma eat_same c fmt : eat c (c :: fmt) = (true, fmt).
Proof. simpl. by rewrite Z.eqb_refl. Qed.

Lemma eat_other c fmt : head fmt ≠ Some c → eat c fmt = (false, fmt).
Proof. destruct fmt as [|x fmt]; [done|]. simpl. intros H. rewrite (proj2 (Z.eqb_neq x c)); [done|congruence]. Qed.

(** What the parser makes of the text of a conversion. *)
Lemma parse_conv zero w lng c rest : piece_ok (Conv zero w lng c) →
  let fmt := (if zero then [48] else []) ++ width_text w ++ (if lng then [108] else []) ++ [c] ++ rest in
  ∃ fmt', eat 48 fmt = (zero, fmt') ∧ parse_width 0 fmt' = (w, (if lng then [108] else []) ++ [c] ++ rest) ∧
    eat 108 ((if lng then [108] else []) ++ [c] ++ rest) = (lng, c :: rest).
Proof.
  intros (Hw & Hc & Hl) fmt. destruct (width_value w Hw) as [Hv Hh].
  assert (not_digit ((if lng then [108] else []) ++ [c] ++ rest)) as Hnd by (by destruct lng).
  exists (width_text w ++ (if lng then [108] else []) ++ [c] ++ rest). split; [|split].
  - unfold fmt. destruct zero; [apply eat_same|]. apply eat_other. cbn [app].
    destruct (width_text w) as [|d ds]; [|by simpl in *].
    destruct lng; simpl; [done|]. intros [= ->]. done.
  - rewrite parse_width_app by (apply width_digits || done). fold (value 10 (width_text w)). by rewrite Hv.
  - destruct lng; [apply eat_same|]. apply eat_other. simpl. intros [= ->]. by apply Hl.
Qed.

Lemma pieces_cons p ps : pieces_text (p :: ps) = piece_text p ++ pieces_text ps.
Proof. done. Qed.

Lemma format_pieces ps : ∀ fuel args, Forall piece_ok ps → (length (pieces_text ps) <= fuel)%nat →
  format fuel (pieces_text ps) args = render ps args.
Proof.
  induction ps as [|p ps IH]; intros fuel args Hok Hf; [by destruct fuel|].
  apply Forall_cons in Hok as [Hp Hok]. rewrite pieces_cons in *. rewrite length_app in Hf. destruct p as [c|zero w lng c]; cbn [piece_text render] in *.
  - destruct fuel as [|f]; [simpl in Hf; lia|]. cbn [app format]. simpl in Hp.
    rewrite (proj2 (Z.eqb_neq c 37)) by done. cbn [negb]. rewrite IH; [done|done|cbn [length] in Hf; lia].
  - destruct fuel as [|f]; [simpl in Hf; lia|]. cbn [app format]. rewrite Z.eqb_refl. cbn [negb].
    rewrite <- !app_assoc. destruct (parse_conv zero w lng c (pieces_text ps) Hp) as (fmt' & -> & -> & ->).
    destruct (convert _ _ _ _ _) as [[out args']|]; [|done]. cbn [mbind option_bind].
    rewrite IH; [done|done|]. cbn [length] in Hf. lia.
Qed.



(** A format that ends inside a conversion runs past its terminator; a minus flag is not
    parsed, so the text after it is printed and the argument stays. *)
Example kprintf_trailing_percent : kprintf_text (chars "100%") [] = None.
Proof. reflexivity. Qed.
Example kprintf_minus_flag : kprintf_text (chars "  %-20s") [ArgStr (Some (chars "etc"))] = Some (chars "  %-20s").
Proof. reflexivity. Qed.
(** The sign comes before the padding. *)
Example kprintf_sign_before_spaces : kprintf_text (chars "%5d") [ArgInt (-5)] = Some (chars "-   5").
Proof. reflexivity. Qed.

(** ** The screen as a window

    The text written so far stands on a sheet of 80 columns without end; the screen
    shows 25 rows of it, the last of them at the latest below the cursor. *)

Record sheet := Sheet { sh_cell : Z → Z → Z; sh_top : Z; sh_row : Z; sh_col : Z }.

Definition sheet_newline (blank : Z) (s : sheet) : sheet :=
  let row := sh_row s + 1 in
  if VGA_HEIGHT <=? row - sh_top s
  then Sheet (λ y x, if y =? row then blank else sh_cell s y x) (sh_top s + 1) row 0
  else Sheet (sh_cell s) (sh_top s) row 0.

Definition sheet_move (blank col : Z) (s : sheet) : sheet :=
  if VGA_WIDTH <=? col then sheet_newline blank s else Sheet (sh_cell s) (sh_top s) (sh_row s) col.

Definition sheet_put (color c : Z) (s : sheet) : sheet :=
  let blank := vga_entry 32 color in
  if c =? 10 then sheet_newline blank s
  else if c =? 13 then Sheet (sh_cell s) (sh_top s) (sh_row s) 0
  else if c =? 9 then sheet_move blank ((sh_col s / 8 + 1) * 8) s
  else sheet_move blank (sh_col s + 1)
         (Sheet (λ y x, if (y =? sh_row s) && (x =? sh_col s) then vga_entry c color else sh_cell s y x)
            (sh_top s) (sh_row s) (sh_col s)).

Definition cell (v : vga) (y x : Z) : Z := arr_get (vga_buf v) (y * VGA_WIDTH + x).

Record shows (v : vga) (s : sheet) : Prop := {
  sw_row : vga_row v = sh_row s - sh_top s;
  sw_col : vga_col v = sh_col s;
  sw_in : 0 <= vga_row v < VGA_HEIGHT ∧ 0 <= vga_col v < VGA_WIDTH;
  sw_cell y x : 0 <= y < VGA_HEIGHT → 0 <= x < VGA_WIDTH → cell v y x = sh_cell s (sh_top s + y) x;
}.

(** Memory outside the 2000 cells of the screen. *)
Definition outside (i : Z) : Prop := i < 0 ∨ VGA_HEIGHT * VGA_WIDTH <= i.

(** [w] is [v] with other contents. *)
Definition redrawn (v w : vga) (f : Z → Z) : Prop :=
  vga_row w = vga_row v ∧ vga_col w = vga_col v ∧ vga_color w = vga_color v ∧
  ∀ i, arr_get (vga_buf w) i = f i.

Lemma put_cell_redrawn v w f i e : redrawn v w f → redrawn v (put_cell i e w) (λ j, if i =? j then e else f j).
Proof.
  intros (Hr & Hc & Hk & Hf). split_and!; [done..|]. intros j. simpl. rewrite arr_get_set. case_if; [done|apply Hf].
Qed.

Lemma redrawn_ext v w f g : redrawn v w f → (∀ i, f i = g i) → redrawn v w g.
Proof. intros (Hr & Hc & Hk & Hf) H. split_and!; [done..|]. intros i. by rewrite Hf. Qed.

(** Cells [lo] to [hi] of a row are filled in one loop. *)
Lemma row_loop v k n body (f : Z → Z → Z) : 0 <= n →
  (∀ x w, 0 <= x < n → redrawn v w (f (k + x)) → redrawn v (body x w) (f (k + x + 1))) →
  ∀ w, redrawn v w (f k) → redrawn v (for_range 0 n body w) (f (k + n)).
Proof.
  intros Hn Hbody w Hw.
  apply (for_range_ind (λ x w, redrawn v w (f (k + x)))); [lia|by rewrite Z.add_0_r|].
  intros x u Hx Hu. rewrite Z.add_assoc. by apply Hbody.
Qed.

(** After [b] cells the loop of vga_scroll has moved them up by one row. *)
Definition shifted (v : vga) (b i : Z) : Z :=
  if (0 <=? i) && (i <? b) then arr_get (vga_buf v) (i + VGA_WIDTH) else arr_get (vga_buf v) i.

Definition blanked (v : vga) (b i : Z) : Z :=
  if (24 * VGA_WIDTH <=? i) && (i <? b) then vga_entry 32 (vga_color v) else shifted v (24 * VGA_WIDTH) i.

Ltac bcase := repeat match goal with
  | |- context [?a <=? ?b] => destruct (Z.leb_spec a b)
  | |- context [?a <? ?b] => destruct (Z.ltb_spec a b)
  | |- context [?a =? ?b] => destruct (Z.eqb_spec a b)
  end; cbn [andb orb negb].

Lemma rows_up_cells v : redrawn v (rows_up v) (shifted v (24 * VGA_WIDTH)).
Proof.
  unfold rows_up. apply (for_range_ind (λ y w, redrawn v w (shifted v (y * VGA_WIDTH)))); [done| |].
  - split_and!; [done..|]. intros i. unfold shifted. bcase; (lia || done).
  - intros y u Hy Hu. replace ((y + 1) * VGA_WIDTH) with (y * VGA_WIDTH + VGA_WIDTH) by lia.
    apply (row_loop v (y * VGA_WIDTH) VGA_WIDTH _ (shifted v)); [done| |done].
    intros x t Hx Ht. eapply redrawn_ext; [by apply put_cell_redrawn|]. intros i.
    destruct Ht as (_ & _ & _ & Ht). rewrite Ht. unfold shifted, VGA_WIDTH, VGA_HEIGHT in *. bcase; try lia; try done.
    subst. f_equal. lia.
Qed.

Lemma blank_last_cells v w : redrawn v w (shifted v (24 * VGA_WIDTH)) →
  redrawn v (blank_last w) (blanked v (VGA_HEIGHT * VGA_WIDTH)).
Proof.
  intros H1. unfold blank_last.
  change (VGA_HEIGHT * VGA_WIDTH) with (24 * VGA_WIDTH + VGA_WIDTH).
  apply (row_loop v (24 * VGA_WIDTH) VGA_WIDTH _ (blanked v)); [done| |].
  - intros x t Hx Ht. eapply redrawn_ext; [by apply put_cell_redrawn|]. intros i.
    destruct Ht as (_ & _ & -> & _). unfold blanked, shifted, VGA_WIDTH, VGA_HEIGHT in *. bcase; (lia || done).
  - eapply redrawn_ext; [exact H1|]. intros i. unfold blanked. bcase; (lia || done).
Qed.

Lemma vga_scroll_cells v : let w := vga_scroll v in
  vga_row w = VGA_HEIGHT - 1 ∧ vga_col w = vga_col v ∧ vga_color w = vga_color v ∧
  ∀ i, arr_get (vga_buf w) i = blanked v (VGA_HEIGHT * VGA_WIDTH) i.
Proof.
  destruct (blank_last_cells v _ (rows_up_cells v)) as (Hr & Hc & Hk & Hf). unfold vga_scroll.
  destruct (blank_last (rows_up v)) as [r c k b]. cbn in *. by rewrite Hc.
Qed.
#[global] Opaque rows_up blank_last.

(** One row further down. *)
Lemma next_row_shows v s : shows v s →
  shows (next_row (set_pos (vga_row v) 0 v)) (sheet_newline (vga_entry 32 (vga_color v)) s) ∧
  vga_color (next_row (set_pos (vga_row v) 0 v)) = vga_color v ∧
  ∀ i, outside i → arr_get (vga_buf (next_row (set_pos (vga_row v) 0 v))) i = arr_get (vga_buf v) i.
Proof.
  intros [Hr Hc [Hin _] Hcell]. unfold next_row, sheet_newline. cbn [set_pos vga_row vga_col vga_color vga_buf].
  replace (sh_row s + 1 - sh_top s) with (vga_row v + 1) by lia. destruct (Z.leb_spec VGA_HEIGHT (vga_row v + 1)) as [H|H].
  - set (u := set_pos _ _ _). destruct (vga_scroll_cells u) as (Hr' & Hc' & Hk & Hf).
    cbn [u set_pos vga_row vga_col vga_color vga_buf] in *. split; [|split; [exact Hk|]].
    + constructor; cbn [sh_row sh_top sh_col sh_cell].
      * rewrite Hr'. unfold VGA_HEIGHT in *. lia.
      * exact Hc'.
      * rewrite Hr', Hc'. unfold VGA_HEIGHT, VGA_WIDTH. lia.
      * intros y x Hy Hx. unfold cell. rewrite Hf. unfold blanked, shifted, VGA_WIDTH, VGA_HEIGHT in *.
        cbn [vga_color vga_buf u set_pos]. bcase; try lia; try done.
        replace (y * 80 + x + 80) with ((y + 1) * 80 + x) by lia. fold (cell v (y + 1) x).
        unfold cell, VGA_WIDTH in Hcell. unfold cell, VGA_WIDTH. rewrite Hcell by lia. f_equal. lia.
    + intros i Hi. rewrite Hf. unfold outside, blanked, shifted, VGA_WIDTH, VGA_HEIGHT in *. bcase; (lia || done).
  - split; [|done]. constructor; cbn [sh_row sh_top sh_col sh_cell set_pos vga_row vga_col]; [lia|done| |exact Hcell].
    unfold VGA_WIDTH. lia.
Qed.

(** The cursor moves to column [col], or to the next row. *)
Lemma move_shows v s col : shows v s → 0 <= col →
  let w := if VGA_WIDTH <=? col then next_row (set_pos (vga_row v) 0 (set_pos (vga_row v) col v))
           else set_pos (vga_row v) col v in
  shows w (sheet_move (vga_entry 32 (vga_color v)) col s) ∧ vga_color w = vga_color v ∧
  ∀ i, outside i → arr_get (vga_buf w) i = arr_get (vga_buf v) i.
Proof.
  intros Hs Hcol. cbv zeta. unfold sheet_move. destruct (Z.leb_spec VGA_WIDTH col) as [H|H].
  - exact (next_row_shows v s Hs).
  - destruct Hs as [Hr Hc [Hin _] Hcell]. split; [|done].
    constructor; cbn [set_pos vga_row vga_col sh_row sh_top sh_col sh_cell]; [done|done| |exact Hcell]. lia.
Qed.

Lemma tab_stop col : 0 <= col → Z.land (col + 8) (Z.lnot 7) = (col / 8 + 1) * 8.
Proof.
  intros H. change (Z.lnot 7) with (Z.lnot (Z.ones 3)). rewrite <- Z.ldiff_land, Z.ldiff_ones_r by lia.
  rewrite Z.shiftl_mul_pow2, Z.shiftr_div_pow2 by lia. change (2^3) with 8.
  replace (col + 8) with (col + 1 * 8) by lia. by rewrite Z.div_add by lia.
Qed.

Lemma putchar_shows c v s : shows v s →
  shows (vga_putchar c v) (sheet_put (vga_color v) c s) ∧ vga_color (vga_putchar c v) = vga_color v ∧
  ∀ i, outside i → arr_get (vga_buf (vga_putchar c v)) i = arr_get (vga_buf v) i.
Proof.
  intros Hs. pose proof Hs as [Hr Hc [Hin Hinc] Hcell]. unfold vga_putchar, sheet_put.
  destruct (c =? 10); [exact (next_row_shows v s Hs)|]. destruct (c =? 13).
  { split; [|done]. constructor; cbn [set_pos vga_row vga_col sh_row sh_top sh_col sh_cell]; [done|done| |exact Hcell].
    unfold VGA_WIDTH. lia. }
  destruct (c =? 9).
  { rewrite <- Hc, <- tab_stop by lia. apply (move_shows v s); [done|]. rewrite tab_stop by lia.
    pose proof (Z.div_pos (vga_col v) 8). lia. }
  set (e := vga_entry c (vga_color v)). set (w := put_cell _ e v). cbv zeta.
  change (vga_row v) with (vga_row w). change (vga_col v) with (vga_col w). change (vga_color v) with (vga_color w).
  rewrite <- Hc. change (vga_col v) with (vga_col w).
  destruct (move_shows w (Sheet (λ y x, if (y =? sh_row s) && (x =? vga_col w) then e else sh_cell s y x)
      (sh_top s) (sh_row s) (vga_col w)) (vga_col w + 1)) as (Hsh & Hk & Hout).
  - constructor; cbn [sh_row sh_top sh_col sh_cell]; [exact Hr|reflexivity|exact (conj Hin Hinc)|].
    intros y x Hy Hx. unfold cell, w. cbn [put_cell set_buf vga_buf].
    rewrite arr_get_set. specialize (Hcell y x Hy Hx). unfold cell in Hcell. cbn [put_cell set_buf vga_col].
    unfold VGA_WIDTH, VGA_HEIGHT in *. bcase; try lia; done.
  - simpl. lia.
  - split; [exact Hsh|]. split; [exact Hk|]. intros i Hi. rewrite Hout by done. unfold w. cbn [put_cell set_buf vga_buf].
    rewrite arr_get_set. unfold outside, VGA_WIDTH, VGA_HEIGHT in *. bcase; (lia || done).
Qed.

(** C18: Whatever is printed, the screen shows the last 25 rows of the sheet it was written
    on: characters, line and carriage returns, tabs, the wrap at the end of a line and
    scrolling all act on the sheet.  The cursor stays on the screen and no memory outside
    the 2000 cells is written. *)
Theorem vga_refines_sheet (l : list Z) (v : vga) (s : sheet) :
  shows v s →
  shows (vga_puts l v) (foldl (λ s c, sheet_put (vga_color v) c s) s l) ∧
  ∀ i, outside i → arr_get (vga_buf (vga_puts l v)) i = arr_get (vga_buf v) i.
Proof.
  revert v s. induction l as [|c l IH]; intros v s Hs; [done|].
  destruct (putchar_shows c v s Hs) as (Hs' & Hk & Hout). cbn [vga_puts foldl].
  destruct (IH _ _ Hs') as [H1 H2]. rewrite Hk in H1. split; [exact H1|].
  intros i Hi. rewrite <- (Hout i Hi). exact (H2 i Hi).
Qed.

Definition w_vga : vga := Vga 24 77 7 (arr_fill 0x720).
Definition w_sheet : sheet := Sheet (λ _ _, 0x720) 100 124 77.

Lemma vga_refines_sheet_witness :
  shows w_vga w_sheet ∧
  shows (vga_puts (chars "abcd") w_vga) (foldl (λ s c, sheet_put 7 c s) w_sheet (chars "abcd")).
Proof.
  assert (shows w_vga w_sheet) as H by (constructor; [done|done|simpl; unfold VGA_HEIGHT, VGA_WIDTH; lia|done]).
  split; [exact H|]. exact (proj1 (vga_refines_sheet (chars "abcd") w_vga w_sheet H)).
Defined.

(** A backspace is a character like any other on this screen: it is stored and the
    cursor moves right. *)
Lemma vga_backspace_advances (v : vga) : vga_col v + 1 < VGA_WIDTH →
  vga_col (vga_putchar 8 v) = vga_col v + 1 ∧ cell (vga_putchar 8 v) (vga_row v) (vga_col v) = vga_entry 8 (vga_color v).
Proof.
  intros H. unfold vga_putchar. simpl. rewrite (proj2 (Z.leb_gt _ _)) by done. split; [done|].
  unfold cell. simpl. by rewrite arr_get_set_eq.
Qed.

(** ** Both devices *)

Definition crlf (c : Z) : list Z := if c =? 10 then [13; 10] else [u8 c].

(** The port is ready at each of the next [n] readings. *)
Definition ready_for (n : nat) (u : uart) : Prop := (n <= length (uart_lsr u))%nat ∧ Forall (λ st, serial_ready st = true) (uart_lsr u).

Lemma send_ready n c u : ready_for (S n) u →
  ∃ u', serial_send c u = Some u' ∧ uart_sent u' = uart_sent u ++ [u8 c] ∧ ready_for n u'.
Proof.
  intros [Hl Hr]. unfold serial_send. destruct (uart_lsr u) as [|st lsr]; [simpl in Hl; lia|].
  apply Forall_cons in Hr as [Hst Hr]. cbn [send_loop]. rewrite Hst. eexists. split; [done|]. split; [done|].
  split; [simpl in Hl; simpl; lia|done].
Qed.

Lemma kputs_steps l : ∀ s, ready_for (2 * length l) (con_uart s) →
  wp (kputs l) (λ _ s', con_vga s' = vga_puts l (con_vga s) ∧
    uart_sent (con_uart s') = uart_sent (con_uart s) ++ mjoin (crlf <$> l)) s.
Proof.
  induction l as [|c l IH]; intros s Hr; cbn [kputs].
  { apply wp_ret. split; [done|]. by rewrite app_nil_r. }
  assert (∃ u', serial_putchar c (con_uart s) = Some u' ∧ uart_sent u' = uart_sent (con_uart s) ++ crlf c ∧
    ready_for (2 * length l) u') as (u' & E & Hs & Hr').
  { replace (2 * length (c :: l))%nat with (S (S (2 * length l))) in Hr by (simpl; lia).
    unfold serial_putchar, crlf. destruct (Z.eqb_spec c 10) as [->|].
    - destruct (send_ready _ 13 _ Hr) as (u1 & -> & H1 & Hr1). cbn [mbind option_bind].
      destruct (send_ready _ 10 _ Hr1) as (u2 & -> & H2 & Hr2). exists u2. split; [done|]. split; [|done].
      rewrite H2, H1, <- app_assoc. done.
    - destruct (send_ready _ c _ Hr) as (u1 & -> & H1 & [Hl1 Hr1]). exists u1. split; [done|]. split; [done|].
      split; [lia|done]. }
  apply wp_bind. unfold kputchar, modify_opt, wp at 1. rewrite E. cbn [mbind option_bind].
  eapply wp_mono; [apply IH; exact Hr'|]. intros [] s' [H1 H2]. cbn [con_vga con_uart] in *. split; [exact H1|].
  rewrite H2, Hs, <- app_assoc. done.
Qed.

(** kprintf with a serial port that is ready: the text appears on the screen and is
    sent over the serial line, there with every line feed after a carriage return. *)
Theorem kprintf_both_devices (fmt : string) (args : list arg) (l : list Z) (s : console) :
  kprintf_text (chars fmt) args = Some l → ready_for (2 * length l) (con_uart s) →
  wp (kprintf fmt args) (λ _ s', con_vga s' = vga_puts l (con_vga s) ∧
    uart_sent (con_uart s') = uart_sent (con_uart s) ++ mjoin (crlf <$> l)) s.
Proof. intros E Hr. unfold kprintf. rewrite E. by apply kputs_steps. Qed.

Lemma kprintf_both_devices_witness :
  wp (kprintf "n=%d" [ArgInt (-3)]) (λ _ s', uart_sent (con_uart s') = chars "n=-3") (Console w_vga (Uart (replicate 8 0x60) [])).
Proof.
  eapply wp_mono; [apply (kprintf_both_devices _ _ (chars "n=-3")); [reflexivity|split; [vm_compute; lia|repeat constructor]]|].
  intros [] s' [_ H]. exact H.
Defined.
