(* ===== verification/Power.v ===== *)
(** * ACPI power management ([kernel/power/power.c])

    The tables are read from physical memory as the firmware left them; a pointer to
    a table is its address, 0 a null pointer.  What kprintf prints is the second
    component of a result; port writes of the shutdown are a list in their order. *)

From Stdlib Require Import ZArith Lia.
From S2P Require Import Prelude Memory Pmm Kbd Console.

Definition ACPI_PM1_CNT_SCI_EN : Z := 0x0001.
Definition ACPI_PM1_CNT_SLP_EN : Z := 0x2000.
Definition ACPI_PM1_CNT_SLP_SHIFT : Z := 10.
Definition MB2_TAG_ACPI_OLD : Z := 14.
Definition MB2_TAG_ACPI_NEW : Z := 15.

(** Fields of the packed structs [acpi_rsdp_t], [acpi_sdt_header_t], [acpi_fadt_t]. *)
Definition rsdp_revision (m : mem) (p : Z) : Z := read8 m (p + 15).
Definition rsdp_rsdt_addr (m : mem) (p : Z) : Z := read32 m (p + 16).
Definition rsdp_xsdt_addr (m : mem) (p : Z) : Z := read64 m (p + 24).
Definition sdt_length (m : mem) (p : Z) : Z := read32 m (p + 4).
Definition SDT_SIZE : Z := 36.
Definition fadt_dsdt (m : mem) (p : Z) : Z := read32 m (p + 40).
Definition fadt_smi_cmd (m : mem) (p : Z) : Z := read32 m (p + 48).
Definition fadt_acpi_enable (m : mem) (p : Z) : Z := read8 m (p + 52).
Definition fadt_pm1a_cnt_blk (m : mem) (p : Z) : Z := read32 m (p + 64).
Definition fadt_pm1b_cnt_blk (m : mem) (p : Z) : Z := read32 m (p + 68).
(** [rsdp_paddr] of [hvm_start_info_t] *)
Definition si_rsdp_paddr (m : mem) (si : Z) : Z := read64 m (si + 32).

Record power_state := Power {
  pw_available : bool;
  pw_pm1a_cnt : Z;
  pw_pm1b_cnt : Z;
  pw_slp_typ_a : Z;
  pw_slp_typ_b : Z;
  pw_smi_cmd : Z;
  pw_acpi_enable : Z;
}.
Definition power_zero : power_state := Power false 0 0 0 0 0 0.

(** [sig] is a literal; its bytes are compared with those at [a]. *)
Fixpoint sig_eq (m : mem) (a : Z) (sig : list Z) : bool :=
  match sig with
  | [] => true
  | c :: sig' => if negb (read8 m a =? c) then false else sig_eq m (a + 1) sig'
  end.

Fixpoint sum_loop (n : nat) (m : mem) (p sum : Z) : Z :=
  match n with
  | O => sum
  | S n' => sum_loop n' m (p + 1) (u8 (sum + read8 m p))
  end.
Definition checksum_ok (m : mem) (data length : Z) : bool := sum_loop (Z.to_nat length) m data 0 =? 0.

(** ** The [_S5_] package *)

Definition aml_pkg_len_size (first : Z) : Z := (Z.shiftr first 6 .& 0x03) + 1.

Definition aml_read_pkg_len (m : mem) (p : Z) : Z :=
  let first := read8 m p in
  let bytes := aml_pkg_len_size first in
  if bytes =? 1 then first .& 0x3F
  else for_range 1 bytes (λ i value, value .| u32 (Z.shiftl (read8 m (p + i)) (4 + (i - 1) * 8))) (first .& 0x0F).

(** The value and the place behind it; [None] is false. *)
Definition aml_read_int (m : mem) (p end_ : Z) : option (Z * Z) :=
  if end_ <=? p then None
  else
    let op := read8 m p in
    let p := p + 1 in
    if op =? 0x00 then Some (0, p)
    else if op =? 0x01 then Some (1, p)
    else if op =? 0x0A then if end_ <=? p then None else Some (read8 m p, p + 1)
    else if op =? 0x0B then if end_ <? p + 2 then None else Some (read8 m p, p + 2)
    else Some (op, p).

(** The body of the loop at offset [i]; [None] is [continue]. *)
Definition s5_at (m : mem) (aml length i : Z) : option (Z * Z) :=
  if negb (read8 m (aml + i) =? 95) || negb (read8 m (aml + i + 1) =? 83) ||
     negb (read8 m (aml + i + 2) =? 53) || negb (read8 m (aml + i + 3) =? 95) then None
  else
    let p := aml + i + 4 in
    let end_ := aml + length in
    if (end_ <=? p) || negb (read8 m p =? 0x12) then None
    else
      let p := p + 1 in
      if end_ <=? p then None
      else
        let pkg_bytes := aml_pkg_len_size (read8 m p) in
        let pkg_len := aml_read_pkg_len m p in
        let p := p + pkg_bytes in
        if end_ <=? p then None
        else
          let p := p + 1 in
          let pkg_end := p + pkg_len in
          let pkg_end := if end_ <? pkg_end then end_ else pkg_end in
          match aml_read_int m p pkg_end with
          | None => None
          | Some (a, p) =>
              match aml_read_int m p pkg_end with
              | None => Some (a, a)
              | Some (b, _) => Some (a, b)
              end
          end.

Fixpoint s5_loop (n : nat) (m : mem) (aml length i : Z) : option (Z * Z) :=
  match n with
  | O => None
  | S n' =>
      if u32 (i + 8) <? length then
        match s5_at m aml length i with
        | Some r => Some r
        | None => s5_loop n' m aml length (i + 1)
        end
      else None
  end.

(** The two sleep types; the bound on the loop is the length. *)
Definition acpi_parse_s5_package (m : mem) (aml length : Z) : option (Z * Z) :=
  if (aml =? 0) || (length <? 8) then None else s5_loop (Z.to_nat length) m aml length 0.

(** ** Finding the tables *)

(** The address of the RSDP, 0 for NULL; [None]: the walk over the tags does not end. *)
Fixpoint find_rsdp_loop (fuel : nat) (m : mem) (p end_ : Z) : option Z :=
  if p <? end_ then
    match fuel with
    | O => None
    | S f =>
        if tag_type m p =? MB2_TAG_END then Some 0
        else if (tag_type m p =? MB2_TAG_ACPI_OLD) || (tag_type m p =? MB2_TAG_ACPI_NEW) then Some (p + 8)
        else find_rsdp_loop f m (p + ALIGN_UP32 (tag_size m p) 8) end_
    end
  else Some 0.
Definition find_rsdp_mb2 (m : mem) (info_phys : Z) : option Z :=
  find_rsdp_loop (tag_fuel (info_phys + 8) (info_phys + info_total_size m info_phys)) m (info_phys + 8)
    (info_phys + info_total_size m info_phys).

Definition find_rsdp_pvh (m : mem) (info_phys : Z) : Z :=
  if negb (info_phys =? 0) && (si_magic m info_phys =? HVM_START_MAGIC) && negb (si_rsdp_paddr m info_phys =? 0)
  then si_rsdp_paddr m info_phys else 0.

(** [entry i]: the pointer in slot [i] of the table. *)
Fixpoint find_entry (n : nat) (m : mem) (entry : Z → Z) (sig : list Z) (i : Z) : Z :=
  match n with
  | O => 0
  | S n' =>
      let h := entry i in
      if negb (h =? 0) && sig_eq m h sig then h else find_entry n' m entry sig (i + 1)
  end.

(** The subtraction is of type [size_t], the count a [uint32_t]. *)
Definition find_table_rsdt (m : mem) (rsdt : Z) (sig : list Z) : Z :=
  if (rsdt =? 0) || negb (sig_eq m rsdt (chars "RSDT")) then 0
  else
    let count := u32 (u64 (sdt_length m rsdt - SDT_SIZE) / 4) in
    find_entry (Z.to_nat count) m (λ i, read32 m (rsdt + SDT_SIZE + 4 * i)) sig 0.

Definition find_table_xsdt (m : mem) (xsdt : Z) (sig : list Z) : Z :=
  if (xsdt =? 0) || negb (sig_eq m xsdt (chars "XSDT")) then 0
  else
    let count := u32 (u64 (sdt_length m xsdt - SDT_SIZE) / 8) in
    find_entry (Z.to_nat count) m (λ i, read64 m (xsdt + SDT_SIZE + 8 * i)) sig 0.

(** ** Initialisation and shutdown *)

Definition say (fmt : string) (args : list arg) : list Z := default [] (kprintf_text (chars fmt) args).

(** [\n] *)
Definition nl : string := String (Ascii.ascii_of_nat 10) EmptyString.

(** The FADT: through the XSDT when there is one, else through the RSDT. *)
Definition find_fadt (m : mem) (rsdp : Z) : Z :=
  let fadt_h := if (2 <=? rsdp_revision m rsdp) && negb (rsdp_xsdt_addr m rsdp =? 0)
                then find_table_xsdt m (rsdp_xsdt_addr m rsdp) (chars "FACP") else 0 in
  if (fadt_h =? 0) && negb (rsdp_rsdt_addr m rsdp =? 0)
  then find_table_rsdt m (rsdp_rsdt_addr m rsdp) (chars "FACP") else fadt_h.

Definition power_init (m : mem) (boot_magic boot_info_phys : Z) : option (power_state * list Z) :=
  rsdp ← (if boot_magic =? MB2_BOOTLOADER_MAGIC then find_rsdp_mb2 m boot_info_phys
          else Some (find_rsdp_pvh m boot_info_phys));
  if (rsdp =? 0) || negb (sig_eq m rsdp (chars "RSD PTR ")) || negb (checksum_ok m rsdp 20) then
    Some (power_zero, say ("[boot] Power: ACPI RSDP not found" +:+ nl) [])
  else
    let fadt := find_fadt m rsdp in
    if (fadt =? 0) || negb (checksum_ok m fadt (sdt_length m fadt)) then
      Some (power_zero, say ("[boot] Power: ACPI FADT not found" +:+ nl) [])
    else
      let dsdt := fadt_dsdt m fadt in
      if (dsdt =? 0) || negb (sig_eq m dsdt (chars "DSDT")) then
        Some (power_zero, say ("[boot] Power: ACPI DSDT not found" +:+ nl) [])
      else
        let aml := dsdt + SDT_SIZE in
        let aml_len := u32 (sdt_length m dsdt - SDT_SIZE) in
        match acpi_parse_s5_package m aml aml_len with
        | None => Some (power_zero, say ("[boot] Power: ACPI _S5_ package not found" +:+ nl) [])
        | Some (slp_typ_a, slp_typ_b) =>
            let st := Power (negb (fadt_pm1a_cnt_blk m fadt =? 0)) (u16 (fadt_pm1a_cnt_blk m fadt))
                        (u16 (fadt_pm1b_cnt_blk m fadt)) slp_typ_a slp_typ_b (fadt_smi_cmd m fadt)
                        (fadt_acpi_enable m fadt) in
            Some (st, if pw_available st
                      then say ("[boot] Power: ACPI S5 ready (PM1a=0x%x type=%u)" +:+ nl)
                             [ArgInt (pw_pm1a_cnt st); ArgInt (pw_slp_typ_a st)]
                      else say ("[boot] Power: ACPI S5 unavailable" +:+ nl) [])
        end.

Definition power_has_acpi_shutdown (st : power_state) : bool := pw_available st.

Inductive io := Outb (port v : Z) | Outw (port v : Z) | Say (text : list Z).

Definition sleep_value (slp_typ : Z) : Z :=
  u16 (Z.shiftl slp_typ ACPI_PM1_CNT_SLP_SHIFT .| ACPI_PM1_CNT_SLP_EN).

(** The port writes and messages before the processor halts; [inw] answers the one read. *)
Definition power_shutdown (inw : Z → Z) (st : power_state) : list io :=
  [Say (say ("Shutting down..." +:+ nl) [])] ++
  (if pw_available st then
     (if negb (pw_smi_cmd st =? 0) && negb (pw_acpi_enable st =? 0) &&
         (inw (pw_pm1a_cnt st) .& ACPI_PM1_CNT_SCI_EN =? 0)
      then Outb (u16 (pw_smi_cmd st)) (pw_acpi_enable st) :: replicate (Z.to_nat 100000) (Outb 0x80 0)
      else []) ++
     [Outw (pw_pm1a_cnt st) (sleep_value (pw_slp_typ_a st))] ++
     (if negb (pw_pm1b_cnt st =? 0) then [Outw (pw_pm1b_cnt st) (sleep_value (pw_slp_typ_b st))] else [])
   else []) ++
  [Outw 0x604 0x2000; Outw 0xB004 0x2000; Outw 0x4004 0x3400;
   Say (say ("Power-off request failed; halting CPU." +:+ nl) [])].
