(* ===== verification/PowerProps.v ===== *)
(** * ACPI power management: properties *)

From Stdlib Require Import ZArith Lia.
From S2P Require Import Prelude Memory Pmm Kbd Console Power.
Import StringC.

(** Two memories with the same bytes from [lo] up to [hi]. *)
Definition agree (m m' : mem) (lo hi : Z) : Prop := ∀ b, lo <= b < hi → read8 m b = read8 m' b.

Lemma for_range_ext {A} lo hi (f g : Z → A → A) a : (∀ i x, lo <= i < hi → f i x = g i x) →
  for_range lo hi f a = for_range lo hi g a.
Proof.
  unfold for_range. intros H. remember (Z.to_nat (hi - lo)) as n eqn:Hn. revert lo a H Hn.
  induction n as [|n IH]; intros lo a H Hn; [done|]. cbn [for_up]. rewrite H by lia. apply IH; [|lia].
  intros i x Hi. apply H. lia.
Qed.

(** ** Reading inside the table *)

Lemma pkg_len_size_range first : 1 <= aml_pkg_len_size first <= 4.
Proof.
  unfold aml_pkg_len_size. change 0x03 with (2^2 - 1). rewrite land_low_mod by lia.
  pose proof (Z.mod_pos_bound (Z.shiftr first 6) (2^2) ltac:(lia)). lia.
Qed.

Lemma read_pkg_len_agree m m' p : agree m m' p (p + 4) → aml_read_pkg_len m p = aml_read_pkg_len m' p.
Proof.
  intros H. unfold aml_read_pkg_len. rewrite (H p) by lia. case_if; [done|]. apply for_range_ext.
  intros i x Hi. pose proof (pkg_len_size_range (read8 m' p)). rewrite (H (p + i)) by lia. done.
Qed.

Lemma read_int_agree m m' p end_ : agree m m' p end_ → aml_read_int m p end_ = aml_read_int m' p end_.
Proof.
  intros H. unfold aml_read_int. destruct (Z.leb_spec end_ p); [done|]. cbv zeta. rewrite (H p) by lia.
  repeat case_if; try done; by rewrite (H (p + 1)) by lia.
Qed.

Lemma read_int_moves m p end_ v p' : aml_read_int m p end_ = Some (v, p') → p < p'.
Proof. unfold aml_read_int. intros H. repeat case_match; simplify_eq; lia. Qed.

Section Parse.
Context (aml length : Z) (Hlen : 0 <= length < 2^32).

Lemma s5_at_agree m m' i : agree m m' aml (aml + length) → 0 <= i → i + 8 < length →
  s5_at m aml length i = s5_at m' aml length i.
Proof.
  intros H Hi Hl. unfold s5_at. cbv zeta.
  rewrite (H (aml + i)), (H (aml + i + 1)), (H (aml + i + 2)), (H (aml + i + 3)), (H (aml + i + 4)) by lia.
  destruct (_ || _); [done|]. destruct (_ || _); [done|].
  destruct (Z.leb_spec (aml + length) (aml + i + 4 + 1)); [done|].
  rewrite (H (aml + i + 4 + 1)), (read_pkg_len_agree m m') by (lia || intros b Hb; apply H; lia).
  pose proof (pkg_len_size_range (read8 m' (aml + i + 4 + 1))) as Hs.
  set (p := aml + i + 4 + 1 + aml_pkg_len_size _) in *. destruct (Z.leb_spec (aml + length) p); [done|].
  set (pe := if _ <? _ then _ else _).
  assert (pe <= aml + length) as Hpe by (unfold pe; case_if; lia).
  rewrite (read_int_agree m m') by (intros b Hb; apply H; lia).
  destruct (aml_read_int m' (p + 1) pe) as [[a p']|] eqn:E; [|done]. apply read_int_moves in E.
  rewrite (read_int_agree m m') by (intros b Hb; apply H; lia). done.
Qed.

Lemma s5_loop_agree m m' n : agree m m' aml (aml + length) → ∀ i, 0 <= i → i + 8 <= length →
  s5_loop n m aml length i = s5_loop n m' aml length i.
Proof.
  intros H. induction n as [|n IH]; intros i Hi Hl; cbn [s5_loop]; [done|]. rewrite u32_small by lia.
  case_if; [|done]. rewrite (s5_at_agree m m' i) by (done || lia). case_match; [done|]. apply IH; lia.
Qed.

(** The first offset at which the package is found. *)
Lemma s5_loop_first m r j : s5_at m aml length j = Some r → j + 8 < length →
  ∀ n i, 0 <= i <= j → j - i < Z.of_nat n → (∀ k, i <= k < j → s5_at m aml length k = None) →
  s5_loop n m aml length i = Some r.
Proof.
  intros Hj Hl. induction n as [|n IH]; intros i Hi Hn Hno; [lia|]. cbn [s5_loop].
  rewrite u32_small by lia. rewrite (proj2 (Z.ltb_lt _ _)) by lia.
  destruct (decide (i = j)) as [->|Hne]; [by rewrite Hj|]. rewrite Hno by lia.
  apply IH; [lia|lia|]. intros k Hk. apply Hno. lia.
Qed.
End Parse.



(** ** Decoding what was encoded *)

(** The bytes of a list are in memory from [a] on. *)
Definition has_bytes (m : mem) (a : Z) (l : list Z) : Prop :=
  ∀ i c, l !! i = Some c → read8 m (a + Z.of_nat i) = c.

Lemma has_bytes_app m a l1 l2 : has_bytes m a (l1 ++ l2) ↔ has_bytes m a l1 ∧ has_bytes m (a + len l1) l2.
Proof.
  split.
  - intros H. split; intros i c Hi.
    + apply H. by apply lookup_app_l_Some.
    + rewrite <- Z.add_assoc, <- Nat2Z.inj_add. apply H. rewrite lookup_app_r by lia. by replace (length l1 + i - length l1)%nat with i by lia.
  - intros [H1 H2] i c Hi. apply lookup_app_Some in Hi as [Hi|[Hl Hi]]; [by apply H1|].
    apply H2 in Hi. rewrite <- Hi. f_equal. lia.
Qed.

Lemma has_bytes_cons m a c l : has_bytes m a (c :: l) ↔ read8 m a = c ∧ has_bytes m (a + 1) l.
Proof.
  change (c :: l) with ([c] ++ l). rewrite has_bytes_app. split; intros [H1 H2]; split; try done.
  - specialize (H1 0%nat c eq_refl). by rewrite Z.add_0_r in H1.
  - intros [|i] x Hx; [|done]. injection Hx as <-. by rewrite Z.add_0_r.
Qed.

(** How AML writes a small integer; of a word the parser takes the low byte. *)
Inductive aml_int : Z → list Z → Prop :=
  | aml_zero : aml_int 0 [0x00]
  | aml_one : aml_int 1 [0x01]
  | aml_byte v : aml_int v [0x0A; v]
  | aml_word v hi : aml_int v [0x0B; v; hi].

Lemma read_int_encoded m p end_ v enc : aml_int v enc → has_bytes m p enc → p + len enc <= end_ →
  aml_read_int m p end_ = Some (v, p + len enc).
Proof.
  intros Hv Hb He. unfold aml_read_int.
  destruct Hv; apply has_bytes_cons in Hb as [Hop Hb]; cbn [length] in *;
    rewrite (proj2 (Z.leb_gt _ _)) by lia; rewrite Hop; cbn; try done;
    apply has_bytes_cons in Hb as [Hv Hb]; rewrite Hv.
  - rewrite (proj2 (Z.leb_gt _ _)) by lia. do 2 f_equal. lia.
  - rewrite (proj2 (Z.ltb_ge _ _)) by lia. do 2 f_equal. lia.
Qed.

Definition s5_name : list Z := chars "_S5_".
Definition s5_package (pkg_len count : Z) (ea eb : list Z) : list Z := s5_name ++ [0x12; pkg_len; count] ++ ea ++ eb.

Lemma s5_at_encoded m aml length i pkg_len count a b ea eb :
  aml_int a ea → aml_int b eb → 0 <= pkg_len < 64 → len ea + len eb <= pkg_len →
  has_bytes m (aml + i) (s5_package pkg_len count ea eb) → i + len (s5_package pkg_len count ea eb) <= length → 0 <= i →
  s5_at m aml length i = Some (a, b).
Proof.
  intros Ha Hb Hp Hfit H Hl Hi. unfold s5_package, s5_name in *.
  assert (1 <= len ea ∧ 1 <= len eb) as [Hla Hlb] by (by split; [destruct Ha|destruct Hb]; simpl; lia).
  rewrite !length_app in Hl. change (Datatypes.length (chars "_S5_")) with 4%nat in Hl. cbn [Datatypes.length] in Hl.
  apply has_bytes_app in H as [Hn H]. change (len (chars "_S5_")) with 4 in H.
  change (chars "_S5_") with [95; 83; 53; 95] in Hn. rewrite !has_bytes_cons in Hn.
  destruct Hn as (H0 & H1 & H2 & H3 & _).
  apply has_bytes_app in H as [Hh H]. rewrite !has_bytes_cons in Hh. destruct Hh as (H4 & H5 & _).
  change (len [18; pkg_len; count]) with 3 in H. apply has_bytes_app in H as [Hea Heb].
  assert (aml_pkg_len_size pkg_len = 1) as Hsz.
  { unfold aml_pkg_len_size. rewrite Z.shiftr_div_pow2, Z.div_small by lia. done. }
  assert (aml_read_pkg_len m (aml + i + 4 + 1) = pkg_len) as Hpl.
  { unfold aml_read_pkg_len. cbv zeta. rewrite H5, Hsz. cbn [Z.eqb Pos.eqb]. change 0x3F with (2^6 - 1).
    rewrite land_low_mod, Z.mod_small by lia. done. }
  unfold s5_at. cbv zeta.
  replace (aml + i + 1 + 1) with (aml + i + 2) in * by lia. replace (aml + i + 2 + 1) with (aml + i + 3) in * by lia.
  rewrite H0, H1, H2, H3, H4, H5, Hsz, Hpl. cbn [Z.eqb Pos.eqb negb orb].
  rewrite !(proj2 (Z.leb_gt (aml + length) _)) by lia. cbn [orb].
  replace (aml + i + 4 + 1 + 1 + 1) with (aml + i + 4 + 3) by lia.
  set (pe := if _ <? _ then _ else _).
  assert (aml + i + 4 + 3 + len ea + len eb <= pe) as Hpe by (unfold pe; case_if; lia).
  rewrite (read_int_encoded m (aml + i + 4 + 3) pe a ea Ha Hea ltac:(lia)).
  rewrite (read_int_encoded m (aml + i + 4 + 3 + len ea) pe b eb Hb Heb ltac:(lia)). done.
Qed.

(** Before the package the name does not occur with a package behind it. *)
Lemma s5_absent m aml length k : 0 <= k → k + 8 < length →
  sig_eq m (aml + k) (s5_name ++ [0x12]) = false → s5_at m aml length k = None.
Proof.
  intros Hk Hl H. unfold s5_at. cbv zeta. rewrite (proj2 (Z.leb_gt (aml + length) (aml + k + 4))) by lia.
  change (s5_name ++ [0x12]) with [95; 83; 53; 95; 18] in H. cbn [sig_eq] in H.
  replace (aml + k + 1 + 1) with (aml + k + 2) in H by lia. replace (aml + k + 2 + 1) with (aml + k + 3) in H by lia.
  replace (aml + k + 3 + 1) with (aml + k + 4) in H by lia.
  repeat (destruct (read8 m _ =? _); cbn [negb orb] in *; [|done]). done.
Qed.

Lemma acpi_parse_s5_steps (m : mem) (aml a b pkg_len count : Z) (pre ea eb post : list Z) :
  let table := pre ++ s5_package pkg_len count ea eb ++ post in
  0 < aml → len table < 2^32 → has_bytes m aml table →
  aml_int a ea → aml_int b eb → 0 <= pkg_len < 64 → len ea + len eb <= pkg_len →
  (∀ k, 0 <= k < len pre → sig_eq m (aml + k) (s5_name ++ [0x12]) = false) →
  acpi_parse_s5_package m aml (len table) = Some (a, b).
Proof.
  intros table Haml Hlen Hb Ha Hb' Hp Hfit Hno. subst table.
  assert (9 <= len (s5_package pkg_len count ea eb)) as Hpk.
  { unfold s5_package. rewrite !length_app. change (length s5_name) with 4%nat. cbn [length].
    assert (1 <= len ea ∧ 1 <= len eb) as [? ?] by (by split; [destruct Ha|destruct Hb']; simpl; lia). lia. }
  rewrite !length_app in *. apply has_bytes_app in Hb as [_ Hb]. apply has_bytes_app in Hb as [Hb _].
  unfold acpi_parse_s5_package. rewrite (proj2 (Z.eqb_neq aml 0)), (proj2 (Z.ltb_ge _ 8)) by lia. cbn [orb].
  match goal with |- s5_loop _ _ _ ?n _ = _ => apply (s5_loop_first aml n ltac:(lia) m (a, b) (len pre)) end;
    [|lia|lia|lia|].
  - apply (s5_at_encoded m aml _ (len pre) pkg_len count a b ea eb); (done || lia).
  - intros k Hk. apply s5_absent; [lia|lia|]. apply Hno. lia.
Qed.

(** The parser decodes what the firmware encoded: a table whose first _S5_ package
    holds the two sleep types, each as ZeroOp, OneOp, a byte or a word, gives these
    types, whatever precedes and follows the package. *)
Theorem acpi_parse_s5_decodes (m : mem) (aml a b pkg_len count : Z) (pre ea eb post : list Z) :
  let table := pre ++ s5_package pkg_len count ea eb ++ post in
  0 < aml → len table < 2^32 → has_bytes m aml table →
  aml_int a ea → aml_int b eb → 0 <= pkg_len < 64 → len ea + len eb <= pkg_len →
  (∀ k, 0 <= k < len pre → sig_eq m (aml + k) (s5_name ++ [0x12]) = false) →
  acpi_parse_s5_package m aml (len table) = Some (a, b).
Proof. apply acpi_parse_s5_steps. Qed.

(** A check of [has_bytes] by evaluation, and memories built from blocks of bytes. *)
Lemma has_bytes_check l : ∀ m a, sig_eq m a l = true → has_bytes m a l.
Proof.
  induction l as [|c l IH]; intros m a H; [by intros i c|]. cbn [sig_eq] in H. destruct (Z.eqb_spec (read8 m a) c); [|done].
  apply has_bytes_cons. split; [done|]. by apply IH.
Qed.

Definition place (m : mem) (b : Z * list Z) : mem := store_bytes m b.1 b.2.

(** The table of the host test. *)
Definition w_aml : list Z := chars "xx" ++ s5_package 0x0A 0x04 [0x0A; 5] [0x0A; 5] ++ [0; 0].
Definition w_acpi : mem := place (arr_fill 0) (0x1000, w_aml).

Lemma acpi_parse_s5_decodes_witness : acpi_parse_s5_package w_acpi 0x1000 (len w_aml) = Some (5, 5).
Proof.
  unfold w_aml. apply (acpi_parse_s5_decodes w_acpi 0x1000 5 5 0x0A 0x04 (chars "xx") [0x0A; 5] [0x0A; 5] [0; 0]).
  - lia.
  - vm_compute. reflexivity.
  - change (chars "xx" ++ s5_package 0x0A 0x04 [0x0A; 5] [0x0A; 5] ++ [0; 0]) with w_aml.
    apply has_bytes_check. vm_compute. reflexivity.
  - constructor.
  - constructor.
  - lia.
  - simpl. lia.
  - intros k Hk. assert (k = 0 ∨ k = 1) as [->| ->] by (simpl in Hk; lia); vm_compute; reflexivity.
Defined.

(** ** Finding a table *)

(** The search stops at the first slot that points to a table of that name. *)
Lemma find_entry_first m entry sig j : entry j ≠ 0 → sig_eq m (entry j) sig = true →
  ∀ n i, i <= j < i + Z.of_nat n → (∀ k, i <= k < j → entry k = 0 ∨ sig_eq m (entry k) sig = false) →
  find_entry n m entry sig i = entry j.
Proof.
  intros Hj Hs. induction n as [|n IH]; intros i Hi Hno; [lia|]. cbn [find_entry]. cbv zeta.
  destruct (decide (i = j)) as [->|Hne].
  - by rewrite (proj2 (Z.eqb_neq _ _) Hj), Hs.
  - assert (negb (entry i =? 0) && sig_eq m (entry i) sig = false) as ->.
    { destruct (Hno i) as [->| ->]; [lia|done|apply andb_false_r]. }
    apply IH; [lia|]. intros k Hk. apply Hno. lia.
Qed.

Lemma find_entry_none m entry sig n i :
  (∀ k, i <= k < i + Z.of_nat n → entry k = 0 ∨ sig_eq m (entry k) sig = false) → find_entry n m entry sig i = 0.
Proof.
  revert i. induction n as [|n IH]; intros i H; [done|]. cbn [find_entry]. cbv zeta.
  assert (negb (entry i =? 0) && sig_eq m (entry i) sig = false) as ->.
  { destruct (H i) as [->| ->]; [lia|done|apply andb_false_r]. }
  apply IH. intros k Hk. apply H. lia.
Qed.

(** A root table of [n] slots whose slot [j] is the first that names [sig]. *)
Record rsdt_has (m : mem) (rsdt n j : Z) (sig : list Z) (table : Z) : Prop := {
  rh_addr : rsdt ≠ 0;
  rh_sig : sig_eq m rsdt (chars "RSDT") = true;
  rh_len : sdt_length m rsdt = SDT_SIZE + 4 * n;
  rh_slot : 0 <= j < n;
  rh_entry : read32 m (rsdt + SDT_SIZE + 4 * j) = table;
  rh_table : table ≠ 0;
  rh_name : sig_eq m table sig = true;
  rh_first k : 0 <= k < j → let h := read32 m (rsdt + SDT_SIZE + 4 * k) in h = 0 ∨ sig_eq m h sig = false;
}.

Lemma rsdt_found m rsdt n j sig table : rsdt_has m rsdt n j sig table → find_table_rsdt m rsdt sig = table.
Proof.
  intros []. unfold find_table_rsdt. rewrite (proj2 (Z.eqb_neq _ _)), rh_sig0 by done. cbn [negb orb].
  pose proof (read32_range m (rsdt + 4)) as Hr. fold (sdt_length m rsdt) in Hr.
  rewrite rh_len0 in *. unfold SDT_SIZE in *. replace (36 + 4 * n - 36) with (n * 4) by lia.
  rewrite u64_small, Z.div_mul, u32_small by lia. rewrite (find_entry_first _ _ _ j); [done|congruence|congruence|lia|done].
Qed.

(** ** The walk over the boot loader's tags *)

Lemma align32_range s : 0 <= s < 2^32 → 0 <= ALIGN_UP32 s 8 ∧ (1 <= s <= 2^32 - 8 → s <= ALIGN_UP32 s 8).
Proof.
  intros Hs. unfold ALIGN_UP32. change (u32 (Z.lnot (8 - 1))) with (2^32 - 8).
  pose proof (u32_range (s + 8 - 1)) as Hr. split; [apply Z.land_nonneg; left; lia|].
  intros H. rewrite u32_small by lia.
  assert (∀ x, 0 <= x < 2^32 → x .& (2^32 - 8) = x / 8 * 8) as Hland.
  { intros x Hx. replace (2^32 - 8) with (Z.ldiff (Z.ones 32) (Z.ones 3)) by reflexivity.
    rewrite Z.ldiff_land, Z.land_assoc, Z.land_ones, (Z.mod_small x) by lia.
    rewrite <- Z.ldiff_land, Z.ldiff_ones_r, Z.shiftl_mul_pow2, Z.shiftr_div_pow2 by lia. done. }
  rewrite Hland by lia.
  pose proof (Z.div_mod (s + 8 - 1) 8 ltac:(lia)). pose proof (Z.mod_pos_bound (s + 8 - 1) 8 ltac:(lia)). lia.
Qed.

Lemma find_rsdp_ends m end_ : (∀ p, 1 <= tag_size m p <= 2^32 - 8) →
  ∀ fuel p, end_ - p < Z.of_nat fuel → ∃ r, find_rsdp_loop fuel m p end_ = Some r.
Proof.
  intros Hsz. induction fuel as [|f IH]; intros p Hf; cbn [find_rsdp_loop].
  { rewrite (proj2 (Z.ltb_ge _ _)) by lia. eauto. }
  case_if; [|eauto]. repeat (case_if; [eauto|]). apply IH.
  destruct (align32_range (tag_size m p) (read32_range m (p + 4))) as [_ Hal]. specialize (Hal (Hsz p)). pose proof (Hsz p). lia.
Qed.

(** A tag of size 0 keeps the walk where it is. *)
Lemma find_rsdp_stuck m p end_ : p < end_ → tag_size m p = 0 →
  tag_type m p ≠ MB2_TAG_END → tag_type m p ≠ MB2_TAG_ACPI_OLD → tag_type m p ≠ MB2_TAG_ACPI_NEW →
  ∀ fuel, find_rsdp_loop fuel m p end_ = None.
Proof.
  intros Hp Hs H0 H1 H2. induction fuel as [|f IH]; cbn [find_rsdp_loop]; rewrite (proj2 (Z.ltb_lt _ _)) by done; [done|].
  rewrite !(proj2 (Z.eqb_neq _ _)) by done. cbn [orb]. rewrite Hs. change (ALIGN_UP32 0 8) with 0. by rewrite Z.add_0_r.
Qed.

(** ** From the tables to the power switch *)

(** For a sleep type of three bits the control word holds it in bits 10 to 12, with
    the sleep enable bit and nothing else. *)
Lemma sleep_value_small typ : 0 <= typ < 8 → sleep_value typ = typ * 2^10 + 2^13.
Proof.
  intros H. unfold sleep_value, ACPI_PM1_CNT_SLP_SHIFT, ACPI_PM1_CNT_SLP_EN. rewrite Z.shiftl_mul_pow2 by lia.
  rewrite Z.lor_comm. change 0x2000 with (2^13). rewrite (lor_add_low _ _ 13) by (done || lia).
  rewrite u16_small by lia. lia.
Qed.

(** The firmware's tables, reached from a PVH start-info structure through the RSDT:
    the FADT is in slot [j], the DSDT has the _S5_ package [table] in its body. *)
Record acpi_machine (m : mem) (info fadt pm1a n j : Z) (table : list Z) : Prop := {
  am_info : info ≠ 0;
  am_magic : si_magic m info = HVM_START_MAGIC;
  am_rsdp : si_rsdp_paddr m info ≠ 0;
  am_sig : sig_eq m (si_rsdp_paddr m info) (chars "RSD PTR ") = true;
  am_sum : checksum_ok m (si_rsdp_paddr m info) 20 = true;
  am_old : rsdp_revision m (si_rsdp_paddr m info) < 2;
  am_rsdt : rsdt_has m (rsdp_rsdt_addr m (si_rsdp_paddr m info)) n j (chars "FACP") fadt;
  am_fsum : checksum_ok m fadt (sdt_length m fadt) = true;
  am_pm1a : fadt_pm1a_cnt_blk m fadt = pm1a;
  am_port : 0 < pm1a < 2^16;
  am_dsdt : fadt_dsdt m fadt ≠ 0;
  am_dsig : sig_eq m (fadt_dsdt m fadt) (chars "DSDT") = true;
  am_len : sdt_length m (fadt_dsdt m fadt) = SDT_SIZE + len table;
  am_table : has_bytes m (fadt_dsdt m fadt + SDT_SIZE) table;
}.

Lemma find_fadt_rsdt m rsdp n j fadt : rsdp_revision m rsdp < 2 →
  rsdt_has m (rsdp_rsdt_addr m rsdp) n j (chars "FACP") fadt → find_fadt m rsdp = fadt.
Proof.
  intros Hr Hh. unfold find_fadt. rewrite (proj2 (Z.leb_gt _ _)) by done. cbn [andb negb Z.eqb].
  rewrite (proj2 (Z.eqb_neq _ _)) by apply Hh. cbn [negb andb]. by eapply rsdt_found.
Qed.

(** C33: On a machine whose tables are in order, power_init reads the sleep types of the
    _S5_ package and the control port of the FADT, and a shutdown writes to that port
    the word that enters the soft-off state, before it tries the ports of emulators. *)
Theorem acpi_power_off (m : mem) (magic info fadt pm1a n j a b pkg_len count : Z) (pre ea eb post : list Z) :
  let table := pre ++ s5_package pkg_len count ea eb ++ post in
  acpi_machine m info fadt pm1a n j table → magic ≠ MB2_BOOTLOADER_MAGIC →
  aml_int a ea → aml_int b eb → 0 <= a < 8 → 0 <= pkg_len < 64 → len ea + len eb <= pkg_len →
  (∀ k, 0 <= k < len pre → sig_eq m (fadt_dsdt m fadt + SDT_SIZE + k) (s5_name ++ [0x12]) = false) →
  ∃ st text, power_init m magic info = Some (st, text) ∧ power_has_acpi_shutdown st = true ∧
    pw_slp_typ_a st = a ∧ pw_slp_typ_b st = b ∧
    ∀ inw, ∃ l1 l2, power_shutdown inw st = l1 ++ Outw pm1a (a * 2^10 + 2^13) :: l2 ++ [Outw 0x604 0x2000;
        Outw 0xB004 0x2000; Outw 0x4004 0x3400; Say (say ("Power-off request failed; halting CPU." +:+ nl) [])] ∧
      Forall (λ e, match e with Outw _ _ => False | _ => True end) l1.
Proof.
  intros table A Hm Ha Hb Ha8 Hp Hfit Hno. destruct A.
  assert (0 <= fadt_dsdt m fadt) as Hd by (apply (read32_range m (fadt + 40))).
  pose proof (read32_range m (fadt_dsdt m fadt + 4)) as Hlen. fold (sdt_length m (fadt_dsdt m fadt)) in Hlen.
  pose proof (acpi_parse_s5_steps m (fadt_dsdt m fadt + SDT_SIZE) a b pkg_len count pre ea eb post) as Hparse.
  fold table in Hparse. rewrite am_len0 in Hlen. unfold SDT_SIZE in *.
  specialize (Hparse ltac:(lia) ltac:(lia) am_table0 Ha Hb Hp Hfit Hno).
  set (st := Power true pm1a (u16 (fadt_pm1b_cnt_blk m fadt)) a b (fadt_smi_cmd m fadt) (fadt_acpi_enable m fadt)).
  exists st. eexists. split.
  - unfold power_init. rewrite (proj2 (Z.eqb_neq magic _)) by done. cbn [mbind option_bind].
    unfold find_rsdp_pvh. rewrite (proj2 (Z.eqb_neq info 0)), am_magic0, Z.eqb_refl, (proj2 (Z.eqb_neq _ 0) am_rsdp0) by done.
    cbn [negb andb]. rewrite (proj2 (Z.eqb_neq _ 0) am_rsdp0), am_sig0, am_sum0. cbn [negb orb].
    rewrite (find_fadt_rsdt m _ n j fadt am_old0 am_rsdt0), am_fsum0, (proj2 (Z.eqb_neq _ 0)) by apply am_rsdt0.
    cbn [negb orb]. cbv zeta. rewrite (proj2 (Z.eqb_neq _ 0) am_dsdt0), am_dsig0. cbn [negb orb].
    unfold SDT_SIZE. rewrite am_len0. replace (36 + len table - 36) with (len table) by lia. rewrite (u32_small (len table)) by lia.
    rewrite Hparse, am_pm1a0, (proj2 (Z.eqb_neq pm1a 0)), (u16_small pm1a) by lia. reflexivity.
  - split; [done|]. split; [done|]. split; [done|]. intros inw. unfold power_shutdown. cbn [pw_available st].
    rewrite sleep_value_small by done. cbn [pw_pm1a_cnt pw_pm1b_cnt pw_slp_typ_a pw_slp_typ_b st].
    set (A := if _ && _ && _ then _ else _). set (B := if negb _ then _ else _).
    exists ([Say (say ("Shutting down..." +:+ nl) [])] ++ A), B. split; [by rewrite <- !app_assoc|].
    constructor; [done|]. unfold A. case_match; [|constructor]. constructor; [done|]. by apply Forall_replicate.
Qed.

(** A machine with tables of the least size: PM1a control at port 0xB004, type 5. *)
Definition w_machine : mem := foldl place (arr_fill 0)
  [(0x500, to_le 4 HVM_START_MAGIC); (0x520, to_le 8 0x600);
   (0x600, chars "RSD PTR " ++ [218]); (0x610, to_le 4 0x700);
   (0x700, chars "RSDT" ++ to_le 4 40); (0x724, to_le 4 0x800);
   (0x800, chars "FACP" ++ to_le 4 72 ++ [0; 225]); (0x828, to_le 4 0x900); (0x840, to_le 4 0xB004);
   (0x900, chars "DSDT" ++ to_le 4 (36 + len w_aml)); (0x924, w_aml)].

Lemma w_rsdt_ok : rsdt_has w_machine 0x700 1 0 (chars "FACP") 0x800.
Proof. constructor; [discriminate|by vm_compute|by vm_compute|lia|by vm_compute|discriminate|by vm_compute|]. intros k Hk. lia. Qed.

Lemma w_machine_ok : acpi_machine w_machine 0x500 0x800 0xB004 1 0 w_aml.
Proof.
  assert (si_rsdp_paddr w_machine 0x500 = 0x600) as Hp by (vm_compute; reflexivity).
  assert (rsdp_rsdt_addr w_machine 0x600 = 0x700) as Hr by (vm_compute; reflexivity).
  assert (fadt_dsdt w_machine 0x800 = 0x900) as Hd by (vm_compute; reflexivity).
  constructor; rewrite ?Hp, ?Hr, ?Hd; [discriminate| | |..].
  2: discriminate. 5: exact w_rsdt_ok. 7: lia. 7: discriminate.
  all: first [apply has_bytes_check; vm_compute; reflexivity | vm_compute; reflexivity].
Qed.

Lemma acpi_power_off_witness :
  ∃ st text, power_init w_machine HVM_START_MAGIC 0x500 = Some (st, text) ∧ power_has_acpi_shutdown st = true.
Proof.
  assert (∀ k, 0 <= k < len (chars "xx") →
    sig_eq w_machine (fadt_dsdt w_machine 0x800 + SDT_SIZE + k) (s5_name ++ [0x12]) = false) as Hno.
  { intros k Hk. assert (k = 0 ∨ k = 1) as [->| ->] by (simpl in Hk; lia); vm_compute; reflexivity. }
  destruct (acpi_power_off w_machine HVM_START_MAGIC 0x500 0x800 0xB004 1 0 5 5 0x0A 0x04 (chars "xx")
    [0x0A; 5] [0x0A; 5] [0; 0] w_machine_ok ltac:(discriminate) (aml_byte 5) (aml_byte 5)
    ltac:(lia) ltac:(lia) ltac:(simpl; lia) Hno) as (st & text & H1 & H2 & _). eauto.
Defined.

(** A package of one element: the byte behind the package is taken for the second
    sleep type, since the end is counted from behind the element count. *)
Example s5_one_element :
  acpi_parse_s5_package (place (arr_fill 0) (0x1000, s5_name ++ [0x12; 0x04; 0x01; 0x0A; 5; 0x14; 0; 0])) 0x1000 12 = Some (5, 0x14).
Proof. vm_compute. reflexivity. Qed.

(** A DSDT shorter than its header: the length of the code wraps around. *)
Example dsdt_length_wraps : u32 (8 - SDT_SIZE) = 2^32 - 28.
Proof. reflexivity. Qed.
