(* ===== verification/User.v ===== *)
(** * User programs: the library [user/lib/ulib.c], [cat], [echo], [ls], [ps] and the
    shell [sh.c].

    A program is an interaction tree over the system calls of ulib: each call is an
    event whose answer is what the program sees of it, the value of rax and the bytes
    the kernel stored in the buffer the program passed. Loops that wait for the kernel
    are [ITree.iter] loops, so nothing bounds the number of calls. A C string is the
    list of its characters; the line buffer of the shell, which it cuts up in place,
    is the list of its bytes with their terminator. *)

From ITree Require Import ITree.
From S2P Require Import Prelude Memory Kbd Sched.
Import StringC.

(** ** System calls as events *)

Variant sysE : Type → Type :=
| SysRead (fd count : Z) : sysE (Z * list Z)
| SysWrite (fd : Z) (data : list Z) : sysE Z
| SysOpen (path : list Z) : sysE Z
| SysClose (fd : Z) : sysE Z
| SysGetpid : sysE Z
| SysFork : sysE Z
| SysExecve (path : list Z) (argv envp : list (list Z)) : sysE Z
| SysExit (code : Z) : sysE Z
| SysWaitpid (pid options : Z) : sysE (Z * Z)
| SysSchedYield : sysE Z
| SysReaddir (path : list Z) (idx : Z) : sysE (Z * (list Z * Z))
| SysProcinfo (idx : Z) : sysE (Z * task_info)
| SysChdir (path : list Z) : sysE Z
| SysGetcwd (size : Z) : sysE (Z * list Z)
| SysCreat (path : list Z) : sysE Z
| SysDup2 (oldfd newfd : Z) : sysE Z.

Abbreviation prog := (itree sysE).
#[export] Instance prog_ret : MRet prog := λ A a, ITreeDefinition.Ret a.
#[export] Instance prog_bind : MBind prog := λ A B k t, ITree.bind t k.

(** The wrappers: the event, and the number in rax. *)
Definition sys_read (fd count : Z) : prog (Z * list Z) := ITree.trigger (SysRead fd count).
Definition sys_write (fd : Z) (data : list Z) : prog Z := ITree.trigger (SysWrite fd data).
Definition sys_open (path : list Z) : prog Z := ITree.trigger (SysOpen path).
Definition sys_close (fd : Z) : prog Z := ITree.trigger (SysClose fd).
Definition sys_getpid : prog Z := ITree.trigger SysGetpid.
Definition sys_fork : prog Z := ITree.trigger SysFork.
Definition sys_execve (path : list Z) (argv envp : list (list Z)) : prog Z :=
  ITree.trigger (SysExecve path argv envp).
Definition sys_exit {A} (code : Z) : prog A := _ ← ITree.trigger (SysExit code); ITree.spin.
Definition sys_waitpid (pid options : Z) : prog (Z * Z) := ITree.trigger (SysWaitpid pid options).
Definition sys_sched_yield : prog Z := ITree.trigger SysSchedYield.
Definition sys_readdir (path : list Z) (idx : Z) : prog (Z * (list Z * Z)) := ITree.trigger (SysReaddir path idx).
Definition sys_procinfo (idx : Z) : prog (Z * task_info) := ITree.trigger (SysProcinfo idx).
Definition sys_chdir (path : list Z) : prog Z := ITree.trigger (SysChdir path).
Definition sys_getcwd (size : Z) : prog (Z * list Z) := ITree.trigger (SysGetcwd size).
Definition sys_creat (path : list Z) : prog Z := ITree.trigger (SysCreat path).
Definition sys_dup2 (oldfd newfd : Z) : prog Z := ITree.trigger (SysDup2 oldfd newfd).

Definition call_number {T} (e : sysE T) : Z :=
  match e with
  | SysRead _ _ => 0 | SysWrite _ _ => 1 | SysOpen _ => 2 | SysClose _ => 3
  | SysSchedYield => 24 | SysGetpid => 39 | SysFork => 57 | SysExecve _ _ _ => 59 | SysExit _ => 60
  | SysWaitpid _ _ => 61 | SysReaddir _ _ => 78 | SysProcinfo _ => 79 | SysChdir _ => 80
  | SysGetcwd _ => 81 | SysCreat _ => 82 | SysDup2 _ _ => 83
  end.

(** ** ulib *)

Fixpoint u_strcmp (a b : list Z) : Z :=
  match a, b with
  | c :: a', d :: b' => if c =? d then u_strcmp a' b' else u8 c - u8 d
  | c :: _, [] => u8 c
  | [], d :: _ => - u8 d
  | [], [] => 0
  end.

Fixpoint u_strncmp (n : nat) (a b : list Z) : Z :=
  match n, a, b with
  | O, _, _ => 0
  | S n', c :: a', d :: b' => if c =? d then u_strncmp n' a' b' else u8 c - u8 d
  | S _, c :: _, [] => u8 c
  | S _, [], d :: _ => - u8 d
  | S _, [], [] => 0
  end.

(** [u_strlen] of the bytes of a buffer. *)
Fixpoint u_strlen (s : list Z) : nat :=
  match s with
  | [] => 0
  | c :: s' => if c =? 0 then 0 else S (u_strlen s')
  end.

Definition u_write_str (fd : Z) (s : list Z) : prog () := _ ← sys_write fd s; mret tt.
Definition u_write_char (fd c : Z) : prog () := _ ← sys_write fd [c]; mret tt.

(** The digits of [value] in [buf], lowest first; [n] is the room left in it. *)
Fixpoint uint_digits (n : nat) (value : Z) : list Z :=
  match n with
  | O => []
  | S n' => if value =? 0 then [] else 48 + value mod 10 :: uint_digits n' (value / 10)
  end.

Fixpoint write_chars (fd : Z) (s : list Z) : prog () :=
  match s with
  | [] => mret tt
  | c :: s' => _ ← u_write_char fd c; write_chars fd s'
  end.

Definition u_write_uint (fd value : Z) : prog () :=
  if value =? 0 then u_write_char fd 48
  else write_chars fd (reverse (uint_digits 10 value)).

(** ** cat, echo, ls, ps *)

Definition newline : Z := 10.

Definition cat_fd (fd : Z) (label : list Z) : prog Z :=
  ITree.iter (λ _ : (),
    r ← sys_read fd 96;
    if r.1 <? 0 then
      _ ← u_write_str 2 (chars "cat: read failed: ");
      _ ← u_write_str 2 label;
      _ ← u_write_char 2 newline;
      mret (inr 1)
    else if r.1 =? 0 then mret (inr 0)
    else _ ← sys_write 1 (take (Z.to_nat r.1) r.2); mret (inl tt)) tt.

Definition cat_one (path : list Z) : prog Z :=
  fd ← sys_open path;
  if fd <? 0 then
    _ ← u_write_str 2 (chars "cat: open failed: ");
    _ ← u_write_str 2 path;
    _ ← u_write_char 2 newline;
    mret 1
  else
    rc ← cat_fd (s32 fd) path;
    _ ← sys_close (s32 fd);
    mret rc.

Fixpoint cat_loop (paths : list (list Z)) (rc : Z) : prog Z :=
  match paths with
  | [] => mret rc
  | path :: paths' => r ← cat_one path; cat_loop paths' (if negb (r =? 0) then 1 else rc)
  end.

Definition cat_main (argv : list (list Z)) : prog Z :=
  match argv with
  | [] | [_] => cat_fd 0 (chars "stdin")
  | _ :: paths => cat_loop paths 0
  end.

Fixpoint echo_loop (first : bool) (args : list (list Z)) : prog () :=
  match args with
  | [] => mret tt
  | a :: args' =>
      _ ← (if first then mret tt else u_write_char 1 32);
      _ ← u_write_str 1 a;
      echo_loop false args'
  end.
Definition echo_main (argv : list (list Z)) : prog Z :=
  _ ← echo_loop true (tail argv);
  _ ← u_write_char 1 newline;
  mret 0.

(** The loop counter is a [uint32_t], [seen] an [int]. *)
Definition list_path (path : list Z) : prog Z :=
  seen ← ITree.iter (λ st : Z * Z,
    let '(i, seen) := st in
    r ← sys_readdir path i;
    if r.1 <? 0 then mret (inr seen)
    else
      _ ← u_write_str 1 (chars (if r.2.2 =? 1 then "d " else "- "));
      _ ← u_write_str 1 r.2.1;
      _ ← u_write_char 1 newline;
      mret (inl (u32 (i + 1), seen + 1))) (0, 0);
  if seen =? 0 then
    _ ← u_write_str 2 (chars "ls: cannot read: ");
    _ ← u_write_str 2 path;
    _ ← u_write_char 2 newline;
    mret 1
  else mret 0.

Definition ls_main (argv : list (list Z)) : prog Z :=
  list_path (match argv with _ :: path :: _ => path | _ => chars "." end).

Definition state_name (state : Z) : list Z :=
  chars (if state =? 0 then "ready" else if state =? 1 then "run" else if state =? 2 then "block"
         else if state =? 3 then "dead" else "?").

Definition ps_main : prog Z :=
  _ ← u_write_str 1 (chars "PID PPID STATE MODE TICKS NAME" ++ [newline]);
  seen ← ITree.iter (λ st : Z * Z,
    let '(i, seen) := st in
    r ← sys_procinfo i;
    if r.1 <? 0 then mret (inr seen)
    else
      let info := r.2 in
      _ ← u_write_uint 1 (ti_pid info);
      _ ← u_write_char 1 32;
      _ ← u_write_uint 1 (ti_ppid info);
      _ ← u_write_char 1 32;
      _ ← u_write_str 1 (state_name (ti_state info));
      _ ← u_write_char 1 32;
      _ ← u_write_str 1 (chars (if negb (ti_user_mode info =? 0) then "user " else "kern "));
      _ ← u_write_uint 1 (u32 (ti_ticks info));
      _ ← u_write_char 1 32;
      _ ← u_write_str 1 (ti_name info);
      _ ← u_write_char 1 newline;
      mret (inl (u32 (i + 1), seen + 1))) (0, 0);
  mret (if 0 <? seen then 0 else 1).
