(* ===== verification/UserSem.v ===== *)
(** * Running a user program

    A handler answers the calls of a program and moves the world on, or does not come
    back ([None]: the task is replaced, has exited, or waits for ever). [pwp h P Q t w]
    says that [t], started in [w], either returns with [Q] of its result and the world
    it leaves, or stops in a call that satisfies [P] and from which it never returns;
    it is inductive, so a program that loops for ever satisfies no such statement. *)

From Paco Require Import paco.
From ITree Require Import ITree Axioms Eq.Shallow Eq.Eqit.
From S2P Require Import Prelude User.

Definition handler (W : Type) : Type := ∀ T, sysE T → W → option (T * W).

Section Run.
Context {W : Type} (h : handler W).

Inductive pwp {A} (P : ∀ T, sysE T → W → Prop) (Q : A → W → Prop) : prog A → W → Prop :=
| pwp_ret_ t w a : observe t = RetF a → Q a w → pwp P Q t w
| pwp_tau_ t t' w : observe t = TauF t' → pwp P Q t' w → pwp P Q t w
| pwp_vis_ T t (e : sysE T) k w x w' : observe t = VisF e k → h T e w = Some (x, w') → pwp P Q (k x) w' → pwp P Q t w
| pwp_stop_ T t (e : sysE T) k w : observe t = VisF e k → h T e w = None → P T e w → pwp P Q t w.

(** The program does not stop in a call. *)
Definition never : ∀ T, sysE T → W → Prop := λ _ _ _, False.
Abbreviation runs := (pwp never).

(** An interpreter for concrete runs: [inl] the value, [inr] the call it stopped in. *)
Fixpoint prun {A} (fuel : nat) (t : prog A) (w : W) : option ((A + {T : Type & sysE T}) * W) :=
  match fuel with
  | O => None
  | S fuel' =>
      match observe t with
      | RetF a => Some (inl a, w)
      | TauF t' => prun fuel' t' w
      | VisF e k => match h _ e w with Some (x, w') => prun fuel' (k x) w' | None => Some (inr (existT _ e), w) end
      end
  end.

Context {A : Type}.
Implicit Types (P : ∀ T, sysE T → W → Prop) (Q : A → W → Prop).

(** A proof of [pwp] is a run: with enough fuel the interpreter ends where it says. *)
Lemma pwp_adequate P Q t w : pwp P Q t w →
  ∃ fuel r w', prun fuel t w = Some (r, w') ∧ match r with inl a => Q a w' | inr (existT T e) => P T e w' end.
Proof.
  induction 1 as [t w a Ho HQ|t t' w Ho _ (f & r & w' & Hr & Hp)|T t e k w x w1 Ho Hh _ (f & r & w' & Hr & Hp)|T t e k w Ho Hh HP].
  - exists 1%nat, (inl a), w. cbn. by rewrite Ho.
  - exists (S f), r, w'. cbn. by rewrite Ho.
  - exists (S f), r, w'. cbn. by rewrite Ho, Hh.
  - exists 1%nat, (inr (existT T e)), w. cbn. by rewrite Ho, Hh.
Qed.

Lemma prun_pwp P Q fuel : ∀ t w r w', prun fuel t w = Some (r, w') →
  match r with inl a => Q a w' | inr (existT T e) => P T e w' end → pwp P Q t w.
Proof.
  induction fuel as [|f IH]; intros t w r w' Hr Hp; [done|]. cbn in Hr. destruct (observe t) eqn:Ho.
  - simplify_eq. by eapply pwp_ret_.
  - eapply pwp_tau_; [done|]. by eapply IH.
  - destruct (h _ e w) as [[x w1]|] eqn:Hh; simplify_eq; [|by eapply pwp_stop_].
    eapply pwp_vis_; [done|done|]. by eapply IH.
Qed.

Lemma pwp_mono P P' Q Q' t w : pwp P Q t w → (∀ a w', Q a w' → Q' a w') →
  (∀ T (e : sysE T) w', P T e w' → P' T e w') → pwp P' Q' t w.
Proof.
  intros H HQ HP. induction H; [eapply pwp_ret_|eapply pwp_tau_|eapply pwp_vis_|eapply pwp_stop_]; eauto.
Qed.

Lemma pwp_observe P Q t t' w : observe t = observe t' → pwp P Q t w → pwp P Q t' w.
Proof.
  intros E H. destruct H; [eapply pwp_ret_|eapply pwp_tau_|eapply pwp_vis_|eapply pwp_stop_]; try done; by rewrite <- E.
Qed.

Lemma pwp_ret P Q a w : Q a w → pwp P Q (mret a) w.
Proof. intros. by eapply pwp_ret_. Qed.

Lemma pwp_call {B} P Q (e : sysE B) (k : B → prog A) x w w' : h B e w = Some (x, w') → pwp P Q (k x) w' →
  pwp P Q (ITree.trigger e ≫= k) w.
Proof.
  intros Hh Hk. unfold mbind, prog_bind. eapply (pwp_vis_ _ _ B _ e (λ x, ITree.bind (ITreeDefinition.Ret x) k)); [done|done|].
  by apply (pwp_observe _ _ (k x)).
Qed.

Lemma pwp_last P Q (e : sysE A) x w w' : h A e w = Some (x, w') → Q x w' → pwp P Q (ITree.trigger e) w.
Proof. intros. eapply pwp_vis_; [done|done|]. by eapply pwp_ret_. Qed.

Lemma pwp_stop {B} P Q (e : sysE B) (k : B → prog A) w : h B e w = None → P B e w → pwp P Q (ITree.trigger e ≫= k) w.
Proof.
  intros. unfold mbind, prog_bind. by eapply (pwp_stop_ _ _ B _ e (λ x, ITree.bind (ITreeDefinition.Ret x) k)).
Qed.

Lemma pwp_bind {B} P (R : B → W → Prop) Q (t : prog B) (k : B → prog A) w :
  pwp P R t w → (∀ b w', R b w' → pwp P Q (k b) w') → pwp P Q (t ≫= k) w.
Proof.
  unfold mbind, prog_bind. intros H Hk.
  induction H as [t w a Ho HQ|t t' w Ho _ IH|T t e k' w x w1 Ho Hh _ IH|T t e k' w Ho Hh HP].
  - apply (pwp_observe _ _ (k a)); [by rewrite observe_bind, Ho|by apply Hk].
  - eapply (pwp_tau_ _ _ _ (ITree.bind t' k)); [by rewrite observe_bind, Ho|exact IH].
  - eapply (pwp_vis_ _ _ T _ e (λ x, ITree.bind (k' x) k)); [by rewrite observe_bind, Ho|done|exact IH].
  - eapply (pwp_stop_ _ _ T _ e (λ x, ITree.bind (k' x) k)); [by rewrite observe_bind, Ho|done|done].
Qed.

(** One round of a loop. *)
Lemma pwp_iter {I} P Q (body : I → prog (I + A)) i w :
  pwp P (λ r w', match r with inl j => pwp P Q (ITree.iter body j) w' | inr a => Q a w' end) (body i) w →
  pwp P Q (ITree.iter body i) w.
Proof.
  intros H.
  assert (pwp P Q (ITree.bind (body i) (λ r, match r with inl j => Tau (ITree.iter body j) | inr a => ITreeDefinition.Ret a end)) w) as Hb.
  { eapply (pwp_bind P _ Q); [exact H|]. intros [j|a] w' HR; [|by eapply pwp_ret_]. by eapply pwp_tau_. }
  by eapply pwp_observe; [|exact Hb].
Qed.

(** Programs that make the same calls in the same order run alike. *)
Lemma pwp_eutt P Q t w : pwp P Q t w → ∀ t', eutt eq t t' → pwp P Q t' w.
Proof.
  induction 1 as [t w a Ho HQ|t t1 w Ho _ IH|T t e k w x w1 Ho Hh _ IH|T t e k w Ho Hh HP]; intros t' E.
  2: { apply IH. rewrite <- E. symmetry. rewrite (itree_eta t), Ho. apply tau_eutt. }
  all: punfold E; unfold eqit_ in E; rewrite Ho in E; remember (observe t') as ot2 eqn:Eo; revert t' Eo.
  - remember (RetF a) as ot1 eqn:E1. induction E; intros t' Eo; inversion E1; subst; [by eapply pwp_ret_|].
    eapply pwp_tau_; [done|]. by apply IHE.
  - remember (VisF e k) as ot1 eqn:E1. induction E as [| |u e0 k1 k2 REL| |ot1 t2 CHECK REL IHE]; intros t' Eo; inversion E1.
    + ddestruction. subst. eapply pwp_vis_; [by rewrite <- Eo|done|]. apply IH. by destruct (REL x).
    + subst. eapply pwp_tau_; [done|]. by apply IHE.
  - remember (VisF e k) as ot1 eqn:E1. induction E as [| |u e0 k1 k2 REL| |ot1 t2 CHECK REL IHE]; intros t' Eo; inversion E1.
    + ddestruction. subst. eapply pwp_stop_; [by rewrite <- Eo|done|done].
    + subst. eapply pwp_tau_; [done|]. by apply IHE.
Qed.

End Run.

Arguments never {W} T e w /.
Abbreviation runs h := (pwp h never).
