(* ===== verification/Sh.v ===== *)
(** * The user shell [user/sh.c]: line input, words, redirections, commands. *)

From ITree Require Import ITree.
From S2P Require Import Prelude Memory Kbd Sched User.
Import StringC.

Definition LINE_MAX : Z := 128.
Definition ARG_MAX : nat := 12.

Record command_io := CommandIo { io_input : option (list Z); io_output : option (list Z) }.

(** ** Cutting up a line

    The line is the buffer's bytes; a pointer into it is an index. A byte behind the
    buffer reads as the terminator. *)

Definition at_ (s : list Z) (p : nat) : Z := default 0 (s !! p).

Definition is_blank (c : Z) : bool := (c =? 32) || (c =? 9).

Fixpoint blanks (s : list Z) : nat :=
  match s with
  | [] => 0
  | c :: s' => if is_blank c then S (blanks s') else 0
  end.
Definition skip_spaces (s : list Z) (p : nat) : nat := (p + blanks (drop p s))%nat.

Definition is_trimmed (c : Z) : bool := (c =? 32) || (c =? 9) || (c =? 10) || (c =? 13).
Fixpoint trim_loop (n : nat) (s : list Z) : list Z :=
  match n with
  | O => s
  | S n' => if is_trimmed (at_ s n') then trim_loop n' (<[n' := 0]> s) else s
  end.
Definition trim_tail (s : list Z) : list Z := trim_loop (u_strlen s) s.

(** The characters up to the next blank or the end. *)
Fixpoint word_length (s : list Z) : nat :=
  match s with
  | [] => 0
  | c :: s' => if (c =? 0) || is_blank c then 0 else S (word_length s')
  end.
Definition word_end (s : list Z) (p : nat) : nat := (p + word_length (drop p s))%nat.

(** [slots] is [ARG_MAX - 1 - argc]; the result is the buffer and [argv]. *)
Fixpoint split_loop (slots : nat) (s : list Z) (p : nat) : list Z * list nat :=
  match slots with
  | O => (s, [])
  | S slots' =>
      if at_ s p =? 0 then (s, [])
      else
        let q := word_end s p in
        if at_ s q =? 0 then (s, [p])
        else
          let s' := <[q := 0]> s in
          let '(s'', argv) := split_loop slots' s' (skip_spaces s' (S q)) in
          (s'', p :: argv)
  end.
Definition split_args (line : list Z) : list Z * list nat :=
  split_loop (ARG_MAX - 1) line (skip_spaces line 0).

(** The string an entry of [argv] points to. *)
Definition string_at (s : list Z) (p : nat) : list Z := take (u_strlen (drop p s)) (drop p s).

(** ** Redirections

    [argv] is the array with its NULL entry, compacted in place: [dst] is the number of
    entries kept so far. [None] is the missing target. *)

Definition argv_array (args : list (list Z)) : list (option (list Z)) :=
  (Some <$> args) ++ replicate (ARG_MAX - length args) None.
Definition argv_at (argv : list (option (list Z))) (i : nat) : option (list Z) := mjoin (argv !! i).

Fixpoint redir_loop (fuel : nat) (argv : list (option (list Z))) (i dst : nat) (io : command_io) :
    option (list (option (list Z)) * nat * command_io) :=
  match fuel with
  | O => None
  | S fuel' =>
      match argv_at argv i with
      | None => Some (<[dst := None]> argv, dst, io)
      | Some a =>
          if (u_strcmp a (chars "<") =? 0) || (u_strcmp a (chars ">") =? 0) then
            match argv_at argv (S i) with
            | None => None
            | Some target =>
                redir_loop fuel' argv (S (S i)) dst
                  (if default 0 (a !! 0%nat) =? 60 then CommandIo (Some target) (io_output io)
                   else CommandIo (io_input io) (Some target))
            end
          else redir_loop fuel' (<[dst := Some a]> argv) (S i) (S dst) io
      end
  end.

Definition parse_redirections (argv : list (option (list Z))) :
    prog (option (list (option (list Z)) * nat * command_io)) :=
  match redir_loop (length argv) argv 0 0 (CommandIo None None) with
  | None => _ ← u_write_str 1 (chars "sh: missing redirection target" ++ [newline]); mret None
  | r => mret r
  end.

(** The arguments before the NULL entry. *)
Fixpoint args_of (argv : list (option (list Z))) : list (list Z) :=
  match argv with
  | Some a :: argv' => a :: args_of argv'
  | _ => []
  end.

(** ** Reading a line

    The state of the loop is the characters in the buffer; the result is the return
    value and the buffer's string. *)

Definition erase_text : list Z := [8; 32; 8].

(** The part of the body after the read, [r] being its answer. *)
Definition read_line_char (buf : list Z) (r : Z * list Z) : prog (list Z + Z * list Z) :=
  if r.1 <? 0 then mret (inr (-1, buf))
  else if r.1 =? 0 then mret (inl buf)
  else
    let c := default 0 (r.2 !! 0%nat) in
    let c := if c =? 13 then newline else c in
    if (c =? 8) || (c =? 127) then
      match buf with
      | [] => mret (inl buf)
      | _ => _ ← u_write_str 1 erase_text; mret (inl (removelast buf))
      end
    else
      _ ← u_write_char 1 c;
      if c =? newline then mret (inr (len buf, buf)) else mret (inl (buf ++ [c])).
Definition read_line_body (cap : Z) (buf : list Z) : prog (list Z + Z * list Z) :=
  if len buf + 1 <? cap then sys_read 0 1 ≫= read_line_char buf
  else _ ← u_write_str 1 [newline]; mret (inr (len buf, buf)).
Definition read_line (cap : Z) : prog (Z * list Z) := ITree.iter (read_line_body cap) [].

(** ** Running a program *)

Definition say_name (msg name : list Z) : prog () :=
  _ ← u_write_str 2 msg;
  _ ← u_write_str 2 name;
  u_write_char 2 newline.

Definition setup_input (io : command_io) : prog Z :=
  match io_input io with
  | None => mret 0
  | Some path =>
      fd ← sys_open path;
      if fd <? 0 then _ ← say_name (chars "sh: cannot open input: ") path; mret 1
      else
        r ← sys_dup2 (s32 fd) 0;
        if r <? 0 then
          _ ← u_write_str 2 (chars "sh: dup2 input failed" ++ [newline]);
          _ ← sys_close (s32 fd);
          mret 1
        else _ ← (if negb (fd =? 0) then sys_close (s32 fd) else mret 0); mret 0
  end.

Definition setup_output (io : command_io) : prog Z :=
  match io_output io with
  | None => mret 0
  | Some path =>
      fd ← sys_creat path;
      if fd <? 0 then _ ← say_name (chars "sh: cannot create output: ") path; mret 1
      else
        r ← sys_dup2 (s32 fd) 1;
        if r <? 0 then
          _ ← u_write_str 2 (chars "sh: dup2 output failed" ++ [newline]);
          _ ← sys_close (s32 fd);
          mret 1
        else _ ← (if negb (fd =? 1) then sys_close (s32 fd) else mret 0); mret 0
  end.

Definition setup_child_io (io : command_io) : prog Z :=
  r ← setup_input io;
  if negb (r =? 0) then mret r else setup_output io.

(** [path_buf] holds 64 bytes. *)
Fixpoint copy_name (name : list Z) (off : nat) : list Z :=
  match name with
  | [] => []
  | c :: name' => if (S off <? 64)%nat then c :: copy_name name' (S off) else []
  end.
Definition program_path (name : list Z) : list Z :=
  if negb (default 0 (name !! 0%nat) =? 47) then chars "/bin/" ++ copy_name name 5 else name.

Definition child_env : list (list Z) := [chars "PATH=/bin"].

(** What the child does after the fork. *)
Definition child_main (path : list Z) (argv : list (list Z)) (io : command_io) : prog Z :=
  r ← setup_child_io io;
  if negb (r =? 0) then sys_exit 126
  else
    _ ← sys_execve path argv child_env;
    _ ← u_write_str 2 (chars "exec: not found: ");
    _ ← u_write_str 2 path;
    _ ← u_write_str 2 [newline];
    sys_exit 127.

Definition run_external_with_io (argv : list (list Z)) (io : command_io) : prog Z :=
  let path := program_path (default [] (argv !! 0%nat)) in
  let child_argv := take (ARG_MAX - 1) argv in
  pid ← sys_fork;
  if pid <? 0 then _ ← u_write_str 1 (chars "exec: fork failed" ++ [newline]); mret 1
  else if pid =? 0 then child_main path child_argv io
  else
    w ← sys_waitpid (s32 pid) 0;
    if negb (w.1 =? pid) then _ ← u_write_str 1 (chars "exec: wait failed" ++ [newline]); mret 1
    else mret (Z.land (Z.shiftr (s32 w.2) 8) 0xff).

(** ** Commands *)

Definition streq (a : list Z) (b : string) : bool := u_strcmp a (chars b) =? 0.

Definition cmd_help : prog Z :=
  _ ← u_write_str 1 (chars "builtins: help cd pwd pid exec exit" ++ [newline]);
  _ ← u_write_str 1 (chars "commands: echo ls cat ps smoke init sh" ++ [newline]);
  _ ← u_write_str 1 (chars "redirection: cmd > file, cmd < file" ++ [newline]);
  mret 0.

Definition cmd_cd (args : list (list Z)) : prog Z :=
  let path := match args with _ :: p :: _ => p | _ => chars "/" end in
  r ← sys_chdir path;
  if r <? 0 then
    _ ← u_write_str 1 (chars "cd: no such directory: ");
    _ ← u_write_str 1 path;
    _ ← u_write_char 1 newline;
    mret 1
  else mret 0.

Definition cmd_pwd : prog Z :=
  r ← sys_getcwd 128;
  if r.1 <? 0 then _ ← u_write_str 1 (chars "pwd: failed" ++ [newline]); mret 1
  else
    _ ← u_write_str 1 r.2;
    _ ← u_write_char 1 newline;
    mret 0.

Definition cmd_pid : prog Z :=
  pid ← sys_getpid;
  _ ← u_write_uint 1 (u32 pid);
  _ ← u_write_char 1 newline;
  mret 0.

Definition run_args (args : list (list Z)) (io : command_io) : prog Z :=
  match args with
  | [] => mret 0
  | name :: rest =>
      if streq name "help" then cmd_help
      else if streq name "cd" then cmd_cd args
      else if streq name "pwd" then cmd_pwd
      else if streq name "pid" then cmd_pid
      else if streq name "exec" then
        match rest with
        | [] => _ ← u_write_str 1 (chars "exec: missing path" ++ [newline]); mret 1
        | _ => run_external_with_io rest io
        end
      else if streq name "exit" then mret (-1)
      else run_external_with_io args io
  end.

(** [line] is the buffer's bytes. *)
Definition run_command (line : list Z) : prog Z :=
  let '(s, argv) := split_args (trim_tail line) in
  match argv with
  | [] => mret 0
  | _ =>
      r ← parse_redirections (argv_array (string_at s <$> argv));
      match r with
      | None => mret 1
      | Some (argv', _, io) => run_args (args_of argv') io
      end
  end.

Definition prompt : list Z := chars "lithium$ ".

Definition run_smoke_line (line : list Z) : prog Z :=
  _ ← u_write_str 1 prompt;
  _ ← u_write_str 1 line;
  _ ← u_write_char 1 newline;
  run_command (take (Z.to_nat LINE_MAX - 1) line ++ [0]).

(** [if (step != 0) return 1;] *)
Definition or_fail (step : prog Z) (rest : prog Z) : prog Z :=
  rc ← step; if negb (rc =? 0) then mret 1 else rest.

Definition start_text (what : string) : prog () :=
  _ ← u_write_str 1 (chars what);
  pid ← sys_getpid;
  _ ← u_write_uint 1 (u32 pid);
  u_write_str 1 [newline].

Definition smoke_main : prog Z :=
  _ ← start_text "[user] sh starting pid=";
  or_fail (run_smoke_line (chars "echo hello from user sh")) (
  or_fail (run_smoke_line (chars "ls /")) (
  _ ← u_write_str 1 (chars "lithium$ cd /etc" ++ [newline]);
  or_fail (sys_chdir (chars "/etc")) (
  or_fail (run_smoke_line (chars "cat hostname")) (
  _ ← u_write_str 1 (chars "lithium$ cd /" ++ [newline]);
  or_fail (sys_chdir (chars "/")) (
  or_fail (run_smoke_line (chars "echo redirected from sh > /tmp/redir")) (
  or_fail (run_smoke_line (chars "cat < /tmp/redir")) (
  or_fail (run_smoke_line (chars "cat /etc/motd")) (
  or_fail (run_smoke_line (chars "ps")) (
  _ ← u_write_str 1 (chars "[user] sh smoke OK" ++ [newline]);
  mret 0))))))))).

Definition interactive_body (_ : ()) : prog (() + Z) :=
  _ ← u_write_str 1 prompt;
  l ← read_line LINE_MAX;
  if l.1 <? 0 then mret (inr 1)
  else
    rc ← run_command (l.2 ++ [0]);
    mret (if rc <? 0 then inr 0 else inl tt).

Definition interactive_main : prog Z :=
  _ ← start_text "[user] interactive sh ready pid=";
  ITree.iter interactive_body tt.

Definition sh_main (argv : list (list Z)) : prog Z :=
  match argv with
  | _ :: a :: _ => if streq a "--smoke" then smoke_main else interactive_main
  | _ => interactive_main
  end.
