(* ===== verification/ShParse.v ===== *)
(** * How the shell understands a line: words, redirections, commands. *)

From ITree Require Import ITree ITreeFacts.
From S2P Require Import Prelude Memory Kbd Sched User UserSem Sh.
Import StringC.

(** ** Strings *)

Definition is_byte (c : Z) : Prop := 0 <= c < 256.
Definition text (l : list Z) : Prop := Forall (λ c, 0 < c < 256) l.

Lemma u_strcmp_eq a : ∀ b, text a → text b → (u_strcmp a b =? 0) = bool_decide (a = b).
Proof.
  induction a as [|c a IH]; intros [|d b] Ha Hb; cbn [u_strcmp]; unfold text in *; decompose_Forall_hyps.
  - done.
  - rewrite u8_small by lia. rewrite (proj2 (Z.eqb_neq _ _)) by lia. done.
  - rewrite u8_small by lia. rewrite (proj2 (Z.eqb_neq _ _)) by lia. done.
  - destruct (Z.eqb_spec c d) as [->|Hne].
    + rewrite IH by done. apply bool_decide_ext. naive_solver.
    + rewrite !u8_small by lia. rewrite (proj2 (Z.eqb_neq _ _)) by lia. symmetry. apply bool_decide_eq_false. naive_solver.
Qed.

Lemma text_nonzero l : text l → Forall (λ c, c ≠ 0) l.
Proof. intros H. eapply Forall_impl; [exact H|]. cbn. lia. Qed.

Lemma u_strlen_text l r : Forall (λ c, c ≠ 0) l → u_strlen (l ++ 0 :: r) = length l.
Proof. induction 1; cbn; [done|]. rewrite (proj2 (Z.eqb_neq _ _)) by done. by f_equal. Qed.

Lemma string_at_text s p l r : drop p s = l ++ 0 :: r → Forall (λ c, c ≠ 0) l → string_at s p = l.
Proof. intros E Hl. unfold string_at. rewrite E, u_strlen_text by done. by rewrite take_app_length. Qed.

Lemma at_drop s p : at_ s p = default 0 (drop p s !! 0%nat).
Proof. unfold at_. rewrite lookup_drop. by rewrite Nat.add_0_r. Qed.

Lemma drop_in_split {B} (s : list B) p l r : drop p s = l ++ r → drop (p + length l) s = r.
Proof. intros E. rewrite <- drop_drop, E. apply drop_app_length. Qed.

Lemma drop_next {B} (s : list B) p c r : drop p s = c :: r → drop (S p) s = r.
Proof. intros E. replace (S p) with (p + length [c])%nat by (cbn; lia). by apply drop_in_split. Qed.

Lemma take_insert_snoc {B} (s : list B) n k x : take n s = k → (n < length s)%nat → take (S n) (<[n := x]> s) = k ++ [x].
Proof. intros <- H. rewrite (take_S_r _ _ x) by (apply list_lookup_insert_eq; lia). by rewrite take_insert_ge by lia. Qed.

Lemma take_shorter {B} n m (s s' : list B) : take n s = take n s' → (m <= n)%nat → take m s = take m s'.
Proof. intros E H. apply (f_equal (take m)) in E. by rewrite !take_take, !Nat.min_l in E by lia. Qed.

(** Two buffers that agree up to behind a word. *)
Lemma drop_same_front {B} (s s' : list B) p w c r : drop p s = w ++ c :: r →
  take (p + length w + 1) s' = take (p + length w + 1) s → drop p s' = w ++ c :: drop (p + length w + 1) s'.
Proof.
  intros E H. rewrite <- (take_drop (length w + 1) (drop p s')), drop_drop, Nat.add_assoc.
  rewrite take_drop_commute, Nat.add_assoc, H, <- Nat.add_assoc, <- take_drop_commute, E.
  change (w ++ c :: r) with (w ++ [c] ++ r). rewrite app_assoc.
  rewrite take_app_length' by (rewrite length_app; cbn; lia). by rewrite <- app_assoc.
Qed.

(** ** Words *)

Definition blank (c : Z) : Prop := is_blank c = true.
Definition solid (c : Z) : Prop := is_blank c = false.

(** The words of a line, [cur] being the part of a word already read. *)
Fixpoint words_from (cur : list Z) (l : list Z) : list (list Z) :=
  match l with
  | [] => match cur with [] => [] | _ => [cur] end
  | c :: l' =>
      if is_blank c then match cur with [] => words_from [] l' | _ => cur :: words_from [] l' end
      else words_from (cur ++ [c]) l'
  end.
Definition words (l : list Z) : list (list Z) := words_from [] l.

Lemma words_from_solid w : ∀ cur l, Forall solid w → words_from cur (w ++ l) = words_from (cur ++ w) l.
Proof.
  induction w as [|c w IH]; intros cur l H; [by rewrite app_nil_r|]. apply Forall_cons in H as [Hc H]. cbn.
  unfold solid in Hc. rewrite Hc, IH by done. by rewrite <- app_assoc.
Qed.

Lemma words_blanks l : words (drop (blanks l) l) = words l.
Proof. induction l as [|c l IH]; cbn; [done|]. destruct (is_blank c) eqn:E; cbn; rewrite ?E; done. Qed.

Lemma words_word w l : w ≠ [] → Forall solid w → words (w ++ l) = match l with [] => [w] | c :: l' => if is_blank c then w :: words l' else words (w ++ l) end.
Proof.
  intros Hw Hs. unfold words at 1. rewrite words_from_solid by done. cbn [app]. destruct l as [|c l]; cbn; [by destruct w|].
  destruct (is_blank c) eqn:E; [by destruct w|]. unfold words. rewrite words_from_solid by done. cbn. by rewrite E.
Qed.

(** A line that does not start with a blank is a word and a rest that does. *)
Lemma word_span l : ∃ w r, l = w ++ r ∧ Forall solid w ∧ (r = [] ∨ ∃ b r', r = b :: r' ∧ blank b).
Proof.
  induction l as [|c l (w & r & -> & Hw & Hr)]; [by exists [], []; eauto|].
  destruct (is_blank c) eqn:E; [exists [], (c :: w ++ r); cbn; naive_solver|].
  exists (c :: w), r. repeat split; [|done]. by constructor.
Qed.

Lemma word_length_word w r : Forall solid w → Forall (λ c, c ≠ 0) w →
  (r = [] ∨ ∃ c r', r = c :: r' ∧ (c = 0 ∨ blank c)) → word_length (w ++ r) = length w.
Proof.
  induction w as [|c w IH]; intros Hs Hz Hr; cbn.
  - destruct Hr as [->|(c & r' & -> & [->|Hc])]; cbn; [done|done|]. unfold blank in Hc. rewrite Hc. by rewrite orb_true_r.
  - apply Forall_cons in Hs as [Hc Hs], Hz as [Hc0 Hz]. unfold solid in Hc. rewrite Hc, (proj2 (Z.eqb_neq c 0)) by done.
    cbn. by rewrite IH.
Qed.

Lemma blanks_text l r : Forall (λ c, c ≠ 0) l → blanks (l ++ 0 :: r) = blanks l ∧ (blanks l <= length l)%nat.
Proof. induction 1 as [|c l _ _ IH]; cbn; [done|]. destruct (is_blank c); lia. Qed.

Lemma drop_blanks_head l : drop (blanks l) l = [] ∨ ∃ c l', drop (blanks l) l = c :: l' ∧ solid c.
Proof. induction l as [|c l IH]; cbn; [by left|]. destruct (is_blank c) eqn:E; [done|]. right. by exists c, l. Qed.

Lemma skip_spaces_text s p l r : drop p s = l ++ 0 :: r → Forall (λ c, c ≠ 0) l →
  drop (skip_spaces s p) s = drop (blanks l) l ++ 0 :: r.
Proof.
  intros E Hl. unfold skip_spaces. destruct (blanks_text l r Hl) as [Hb Hle].
  rewrite <- drop_drop, E, Hb. by rewrite drop_app_le by done.
Qed.

(** One word: its end, the byte there, and what follows it. *)
Lemma word_end_text s p w rest r : drop p s = (w ++ rest) ++ 0 :: r → Forall solid w → Forall (λ c, c ≠ 0) w →
  (rest = [] ∨ ∃ b r', rest = b :: r' ∧ blank b) →
  word_end s p = (p + length w)%nat ∧ drop (p + length w) s = rest ++ 0 :: r.
Proof.
  intros E Hs Hz Hr. rewrite <- app_assoc in E. split; [|by apply drop_in_split].
  unfold word_end. rewrite E, word_length_word; [done|done|done|].
  right. destruct Hr as [->|(b & r' & -> & Hb)]; cbn; eauto.
Qed.

(** Ending the word with a terminator leaves the word in front and the rest behind. *)
Lemma cut_word s p w b r' r : drop p s = (w ++ b :: r') ++ 0 :: r →
  let s1 := <[(p + length w)%nat := 0]> s in
  drop p s1 = w ++ 0 :: r' ++ 0 :: r ∧ drop (S (p + length w)) s1 = r' ++ 0 :: r ∧ take p s1 = take p s.
Proof.
  intros E s1. pose proof (f_equal length E) as El. rewrite length_drop, !length_app in El. cbn in El.
  assert (drop p s1 = w ++ 0 :: r' ++ 0 :: r) as E1.
  { unfold s1. rewrite drop_insert_ge by lia. replace (p + length w - p)%nat with (length w) by lia.
    rewrite E, <- app_assoc. rewrite insert_app_r_alt by lia. by rewrite Nat.sub_diag. }
  split; [done|]. split; [|unfold s1; by rewrite take_insert_ge by lia].
  replace (S (p + length w)) with (p + length (w ++ [0%Z]))%nat by (rewrite length_app; cbn; lia).
  apply drop_in_split. by rewrite E1, <- app_assoc.
Qed.

(** What [split_loop] does to the line from [p] on: the words that fit, and nothing
    before [p] changes. *)
Lemma split_loop_words slots : ∀ s p l r s' argv,
  drop p s = l ++ 0 :: r → Forall (λ c, c ≠ 0) l → (l = [] ∨ ∃ c l', l = c :: l' ∧ solid c) →
  split_loop slots s p = (s', argv) →
  string_at s' <$> argv = take slots (words l) ∧ take p s' = take p s ∧ length s' = length s.
Proof.
  induction slots as [|slots IH]; intros s p l r s' argv E Hz Hh Hs; cbn [split_loop] in Hs; [by simplify_eq|].
  rewrite (at_drop s p), E in Hs. destruct Hh as [->|(c & l' & Hl & Hc)]; [by cbn in Hs; simplify_eq|].
  destruct (word_span l) as (w & rest & -> & Hw & Hrest). apply Forall_app in Hz as [Hzw Hzr].
  destruct w as [|c' w].
  { destruct Hrest as [->|(b & r' & -> & Hb)]; [done|]. cbn in Hl. unfold blank, solid in *. congruence. }
  cbn in Hl. assert (c' = c) as -> by congruence. set (u := c :: w) in *.
  destruct (word_end_text s p u rest r E Hw Hzw Hrest) as [Hq Hd].
  rewrite Hq, (at_drop s (p + length u)), Hd in Hs. change (default 0 (((u ++ rest) ++ 0 :: r) !! 0%nat)) with c in Hs.
  rewrite (proj2 (Z.eqb_neq c 0)) in Hs by (by inversion Hzw).
  rewrite (words_word u rest) by done. destruct Hrest as [->|(b & r' & -> & Hb)].
  { cbn in Hs. simplify_eq. rewrite app_nil_r in E. cbn [fmap list_fmap take]. rewrite (string_at_text s' p u r) by done. by destruct slots. }
  change (default 0 (((b :: r') ++ 0 :: r) !! 0%nat)) with b in Hs. apply Forall_cons in Hzr as [Hb0 Hzr]. rewrite (proj2 (Z.eqb_neq b 0)) in Hs by done.
  destruct (cut_word s p u b r' r E) as (Ew & E1 & Etk). set (s1 := <[(p + length u)%nat := 0]> s) in *.
  destruct (split_loop slots s1 (skip_spaces s1 (S (p + length u)))) as [s2 argv2] eqn:Hrec. simplify_eq.
  destruct (IH _ _ _ _ _ _ (skip_spaces_text s1 _ r' r E1 Hzr) (Forall_drop _ _ _ Hzr) (drop_blanks_head r') Hrec) as (Hw2 & Ht2 & Hl2).
  rewrite words_blanks in Hw2. unfold blank in Hb. rewrite Hb. cbn [fmap list_fmap take]. rewrite Hw2.
  assert (take (p + length u + 1) s' = take (p + length u + 1) s1) as Htk.
  { apply (take_shorter (skip_spaces s1 (S (p + length u)))); [done|]. unfold skip_spaces. lia. }
  split; [f_equal|split; [|by rewrite Hl2; apply length_insert]].
  - apply (string_at_text s' p u (drop (p + length u + 1) s')); [|done].
    by apply (drop_same_front s1 s' p u 0 (r' ++ 0 :: r)).
  - rewrite <- Etk. apply (take_shorter (p + length u + 1)); [done|lia].
Qed.

Lemma split_args_loop line : split_args line = split_loop (ARG_MAX - 1) line (skip_spaces line 0).
Proof. reflexivity. Qed.

Lemma split_args_words l r s argv : Forall (λ c, c ≠ 0) l → split_args (l ++ 0 :: r) = (s, argv) →
  string_at s <$> argv = take (ARG_MAX - 1) (words l).
Proof.
  intros Hl Hs. rewrite split_args_loop in Hs. rewrite <- (words_blanks l).
  eapply (split_loop_words _ _ _ _ r); [|by apply Forall_drop|apply drop_blanks_head|exact Hs].
  by apply skip_spaces_text.
Qed.

(** Printing words with single blanks between them and cutting the line up again. *)
Definition unwords (ws : list (list Z)) : list Z := foldr (λ w l, w ++ 32 :: l) [] ws.

Lemma words_unwords ws : Forall (λ w, w ≠ [] ∧ Forall solid w) ws → words (unwords ws) = ws.
Proof. induction 1 as [|w ws [Hn Hs] _ IH]; [done|]. cbn [unwords foldr]. rewrite words_word by done. cbn. by rewrite <- IH at 2. Qed.

(** ** Trimming *)

Fixpoint trim_front (l : list Z) : list Z :=
  match l with
  | [] => []
  | c :: l' => if is_trimmed c then trim_front l' else l
  end.
Definition strip (l : list Z) : list Z := reverse (trim_front (reverse l)).

Lemma trim_front_suffix l : ∃ pre, l = pre ++ trim_front l.
Proof.
  induction l as [|c l [pre IH]]; [by exists []|]. cbn. destruct (is_trimmed c); [|by exists []].
  exists (c :: pre). cbn. by rewrite <- IH.
Qed.

Lemma strip_prefix l : ∃ suf, l = strip l ++ suf.
Proof.
  destruct (trim_front_suffix (reverse l)) as [pre E]. exists (reverse pre).
  unfold strip. rewrite <- reverse_app, <- E. by rewrite reverse_involutive.
Qed.

Lemma strip_Forall (P : Z → Prop) l : Forall P l → Forall P (strip l).
Proof. intros H. destruct (strip_prefix l) as [suf E]. rewrite E in H. by apply Forall_app in H as [? _]. Qed.

Lemma trim_loop_strip l : ∀ r, ∃ r', trim_loop (length l) (l ++ 0 :: r) = strip l ++ 0 :: r'.
Proof.
  induction l as [|c l IH] using rev_ind; intros r; [by exists r|]. rewrite length_app, Nat.add_1_r. cbn [trim_loop].
  assert (at_ ((l ++ [c]) ++ 0 :: r) (length l) = c) as ->.
  { unfold at_. rewrite <- app_assoc, lookup_app_r, Nat.sub_diag by done. done. }
  unfold strip. rewrite reverse_snoc. cbn [trim_front]. destruct (is_trimmed c) eqn:E.
  - rewrite <- app_assoc, insert_app_r_alt, Nat.sub_diag by done. cbn. apply IH.
  - exists r. rewrite (reverse_cons (reverse l)), reverse_involutive. done.
Qed.

Lemma trim_tail_strip l r : Forall (λ c, c ≠ 0) l → ∃ r', trim_tail (l ++ 0 :: r) = strip l ++ 0 :: r'.
Proof. intros Hl. unfold trim_tail. rewrite u_strlen_text by done. apply trim_loop_strip. Qed.

(** ** Redirections *)

Definition is_redir (a : list Z) : bool := bool_decide (a = chars "<") || bool_decide (a = chars ">").

(** The arguments that stay, and the last target of either direction. *)
Fixpoint redirs (args : list (list Z)) (io : command_io) : option (list (list Z) * command_io) :=
  match args with
  | [] => Some ([], io)
  | a :: rest =>
      if is_redir a then
        match rest with
        | [] => None
        | target :: rest' =>
            redirs rest' (if bool_decide (a = chars "<") then CommandIo (Some target) (io_output io)
                          else CommandIo (io_input io) (Some target))
        end
      else '(l, io') ← redirs rest io; Some (a :: l, io')
  end.

Lemma redir_test a : text a →
  ((u_strcmp a (chars "<") =? 0) || (u_strcmp a (chars ">") =? 0)) = is_redir a ∧
  (is_redir a = true → (default 0 (a !! 0%nat) =? 60) = bool_decide (a = chars "<")).
Proof.
  intros Ha. assert (∀ s, s = chars "<" ∨ s = chars ">" → text s) as Ht.
  { intros s [->| ->]; repeat constructor. }
  unfold is_redir. rewrite !u_strcmp_eq by (try done; apply Ht; eauto). split; [done|].
  intros [->%bool_decide_eq_true| ->%bool_decide_eq_true]%orb_true_iff; done.
Qed.

Lemma args_of_take argv kept : args_of ((Some <$> kept) ++ None :: argv) = kept.
Proof. induction kept as [|a kept IH]; cbn; [done|]. by f_equal. Qed.

Lemma argv_at_drop argv i : argv_at argv i = mjoin (drop i argv !! 0%nat).
Proof. unfold argv_at. by rewrite lookup_drop, Nat.add_0_r. Qed.

Lemma redir_loop_correct fuel : ∀ rest kept i argv nones io,
  take (length kept) argv = Some <$> kept → drop i argv = (Some <$> rest) ++ None :: nones → (length kept <= i)%nat →
  (length rest < fuel)%nat → Forall text rest →
  match redirs rest io with
  | None => redir_loop fuel argv i (length kept) io = None
  | Some (l, io') => ∃ argv' n, redir_loop fuel argv i (length kept) io = Some (argv', n, io') ∧ args_of argv' = kept ++ l
  end.
Proof.
  induction fuel as [|f IH]; intros rest kept i argv nones io Hk Hd Hi Hf Ht; [lia|]. cbn [redir_loop].
  pose proof (f_equal length Hd) as Hlen. rewrite length_drop, length_app, length_fmap in Hlen. cbn in Hlen.
  rewrite argv_at_drop, Hd. destruct rest as [|a rest]; cbn [redirs].
  { cbn [fmap list_fmap app lookup list_lookup mjoin option_join]. eexists _, _. split; [done|]. rewrite app_nil_r.
    rewrite insert_take_drop by lia. rewrite Hk. apply args_of_take. }
  change (mjoin (((Some <$> (a :: rest)) ++ None :: nones) !! 0%nat)) with (Some a). cbv iota beta.
  apply Forall_cons in Ht as [Ha Ht]. destruct (redir_test a Ha) as [-> Hop]. apply drop_next in Hd.
  destruct (is_redir a) eqn:Er.
  - rewrite Hop by done. rewrite argv_at_drop, Hd. destruct rest as [|target rest]; [done|].
    change (mjoin (((Some <$> (target :: rest)) ++ None :: nones) !! 0%nat)) with (Some target). cbv iota beta.
    apply Forall_cons in Ht as [_ Ht]. apply drop_next in Hd. apply (IH rest kept _ _ nones); [done|done|lia|cbn in *; lia|done].
  - specialize (IH rest (kept ++ [a]) (S i) (<[length kept := Some a]> argv) nones io).
    rewrite length_app, Nat.add_1_r, drop_insert_lt, fmap_app in IH by lia.
    specialize (IH (take_insert_snoc _ _ _ _ Hk ltac:(lia)) Hd ltac:(lia) ltac:(cbn in *; lia) Ht).
    destruct (redirs rest io) as [[l io']|]; cbn; [|done].
    destruct IH as (argv' & n & -> & Ho). exists argv', n. by rewrite Ho, <- app_assoc.
Qed.

(** ** A command line *)

(** The arguments and redirections of a line; [None] when a target is missing. *)
Definition understand (l : list Z) : option (list (list Z) * command_io) :=
  redirs (take (ARG_MAX - 1) (words (strip l))) (CommandIo None None).

Definition missing_target : prog Z :=
  _ ← u_write_str 1 (chars "sh: missing redirection target" ++ [newline]); mret 1.

Lemma words_from_text l : ∀ cur, text cur → text l → Forall text (words_from cur l).
Proof.
  induction l as [|c l IH]; intros cur Hc Hl; cbn.
  - destruct cur; [constructor|by apply Forall_singleton].
  - apply Forall_cons in Hl as [H Hl]. destruct (is_blank c).
    + destruct cur; [by apply IH|]. constructor; [done|]. apply IH; [constructor|done].
    + apply IH; [|done]. apply Forall_app. split; [done|by apply Forall_singleton].
Qed.

Lemma parse_array args : Forall text args → (length args < ARG_MAX)%nat →
  match redirs args (CommandIo None None) with
  | None => redir_loop (length (argv_array args)) (argv_array args) 0 0 (CommandIo None None) = None
  | Some (l, io) => ∃ argv' n,
      redir_loop (length (argv_array args)) (argv_array args) 0 0 (CommandIo None None) = Some (argv', n, io) ∧ args_of argv' = l
  end.
Proof.
  intros Ht Hn. unfold argv_array. rewrite length_app, length_fmap, length_replicate.
  destruct (ARG_MAX - length args)%nat as [|k] eqn:Ek; [lia|].
  apply (redir_loop_correct _ args [] 0 _ (replicate k None)); [done|done|done|lia|done].
Qed.

(** C14: A line in the buffer is run as its words, at most eleven, less its redirections:
    the routine that cuts up the buffer and compacts the array in place makes the same
    calls as the reference. *)
Theorem run_command_understands (l r : list Z) : text l →
  eutt eq (run_command (l ++ 0 :: r))
    (match understand l with Some (args, io) => run_args args io | None => missing_target end).
Proof.
  intros Hl. unfold run_command. destruct (trim_tail_strip l r (text_nonzero _ Hl)) as [r' ->].
  destruct (split_args (strip l ++ 0 :: r')) as [s argv] eqn:Hs.
  pose proof (split_args_words _ _ _ _ (strip_Forall _ _ (text_nonzero _ Hl)) Hs) as Hw.
  unfold understand. rewrite <- Hw. destruct argv as [|p argv]; [reflexivity|]. set (args := string_at s <$> p :: argv) in *.
  assert (Forall text args) as Hta.
  { rewrite Hw. apply Forall_take, words_from_text; [constructor|by apply strip_Forall]. }
  assert (length args < ARG_MAX)%nat as Hn by (rewrite Hw, length_take; unfold ARG_MAX; lia).
  unfold parse_redirections. pose proof (parse_array args Hta Hn) as Hp. unfold mbind, prog_bind, mret, prog_ret.
  destruct (redirs args (CommandIo None None)) as [[l' io]|].
  - destruct Hp as (argv' & n & -> & <-). by rewrite bind_ret_l.
  - rewrite Hp, bind_bind. unfold missing_target, mbind, prog_bind, mret, prog_ret.
    apply eutt_clo_bind with (UU := eq); [reflexivity|]. intros [] [] _. by rewrite bind_ret_l.
Qed.

Lemma run_command_understands_witness :
  eutt eq (run_command (chars " echo hi	there > /tmp/f " ++ 0 :: chars "old"))
    (run_args [chars "echo"; chars "hi"; chars "there"] (CommandIo None (Some (chars "/tmp/f")))).
Proof.
  assert (understand (chars " echo hi	there > /tmp/f ") =
    Some ([chars "echo"; chars "hi"; chars "there"], CommandIo None (Some (chars "/tmp/f")))) as E by (vm_compute; reflexivity).
  pose proof (run_command_understands (chars " echo hi	there > /tmp/f ") (chars "old") ltac:(by repeat constructor)) as H.
  rewrite E in H. exact H.
Defined.
