(* ===== verification/ShProps.v ===== *)
(** * The shell at work: typing a line, running a program, a session. *)

From ITree Require Import ITree ITreeFacts.
From S2P Require Import Prelude Memory Kbd Sched User UserSem Sh ShParse.
Import StringC.

(** ** A terminal

    What the shell needs of descriptors 0, 1 and 2 while they are not redirected: a
    read of one byte takes the next key, a write of up to a page appends to the screen. *)

Definition bytes (l : list Z) : Prop := Forall is_byte l.

Class Terminal {W : Type} (h : handler W) (ok : W → Prop) (keys screen : W → list Z) : Prop := {
  term_read w c ks : ok w → keys w = c :: ks → is_byte c →
    ∃ w', h _ (SysRead 0 1) w = Some ((1, [c]), w') ∧ ok w' ∧ keys w' = ks ∧ screen w' = screen w;
  term_write w fd l : ok w → fd = 1 ∨ fd = 2 → bytes l → 0 < len l <= 4096 →
    ∃ r w', h _ (SysWrite fd l) w = Some (r, w') ∧ ok w' ∧ keys w' = keys w ∧ screen w' = screen w ++ l;
}.

(** The line the keys spell, and what the shell echoes for them. *)
Definition is_erase (c : Z) : bool := (c =? 8) || (c =? 127).
Definition is_enter (c : Z) : bool := (c =? 10) || (c =? 13).
Definition press (buf : list Z) (c : Z) : list Z := if is_erase c then removelast buf else buf ++ [c].
Definition spelled (ks : list Z) : list Z := foldl press [] ks.
Fixpoint echo (buf ks : list Z) : list Z :=
  match ks with
  | [] => []
  | c :: ks' => (if is_erase c then match buf with [] => [] | _ => erase_text end else [c]) ++ echo (press buf c) ks'
  end.

Section Terminal.
Context {W : Type} (h : handler W) (ok : W → Prop) (keys screen : W → list Z).
Context `{T : !Terminal h ok keys screen}.

(** The world after input and output on the terminal. *)
Definition shows (w : W) (ks out : list Z) (w' : W) : Prop := ok w' ∧ keys w' = ks ∧ screen w' = screen w ++ out.

Lemma shows_trans w1 ks1 o1 w2 ks2 o2 w3 : shows w1 ks1 o1 w2 → shows w2 ks2 o2 w3 → shows w1 ks2 (o1 ++ o2) w3.
Proof. intros (? & ? & E1) (? & ? & E2). repeat split; [done..|]. by rewrite E2, E1, app_assoc. Qed.

Lemma write_str_shows {A} P Q fd l (k : () → prog A) w : ok w → fd = 1 ∨ fd = 2 → bytes l → 0 < len l <= 4096 →
  (∀ w', shows w (keys w) l w' → pwp h P Q (k tt) w') → pwp h P Q (u_write_str fd l ≫= k) w.
Proof.
  intros Hok Hfd Hb Hl Hk. destruct (term_write w fd l Hok Hfd Hb Hl) as (r & w' & Hh & Hok' & Hks & Hs).
  apply (pwp_bind h P (λ _ w', shows w (keys w) l w') Q); [|by intros [] w1; apply Hk].
  eapply pwp_call; [exact Hh|]. apply pwp_ret. by split_and!.
Qed.

Lemma write_char_shows {A} P Q fd c (k : () → prog A) w : ok w → fd = 1 ∨ fd = 2 → is_byte c →
  (∀ w', shows w (keys w) [c] w' → pwp h P Q (k tt) w') → pwp h P Q (u_write_char fd c ≫= k) w.
Proof. intros. apply (write_str_shows P Q fd [c]); [done|done|by apply Forall_singleton|done|done]. Qed.

Lemma read_key {A} P Q (k : Z * list Z → prog A) c ks w : ok w → keys w = c :: ks → is_byte c →
  (∀ w', shows w ks [] w' → pwp h P Q (k (1, [c])) w') → pwp h P Q (sys_read 0 1 ≫= k) w.
Proof.
  intros Hok Hks Hb Hk. destruct (term_read w c ks Hok Hks Hb) as (w' & Hh & Hok' & Hks' & Hs).
  eapply pwp_call; [exact Hh|]. apply Hk. split_and!; [done|done|]. by rewrite app_nil_r.
Qed.

Lemma read_line_room cap buf : len buf + 1 < cap → read_line_body cap buf = (sys_read 0 1 ≫= read_line_char buf).
Proof. intros H. unfold read_line_body. by rewrite (proj2 (Z.ltb_lt _ _)). Qed.
Lemma read_line_no_room cap buf : cap <= len buf + 1 →
  read_line_body cap buf = (_ ← u_write_str 1 [newline]; mret (inr (len buf, buf))).
Proof. intros H. unfold read_line_body. by rewrite (proj2 (Z.ltb_ge _ _)). Qed.

(** One key that does not end the line. *)
Lemma read_line_key P cap Q buf c ks w : ok w → keys w = c :: ks → is_byte c → is_enter c = false → len buf + 1 < cap →
  (∀ w', shows w ks (echo buf [c]) w' → pwp h P Q (ITree.iter (read_line_body cap) (press buf c)) w') →
  pwp h P Q (ITree.iter (read_line_body cap) buf) w.
Proof.
  intros Hok Hks Hby Hne Hcap Hnext. apply pwp_iter. rewrite read_line_room by done.
  apply (read_key _ _ _ c ks); [done|done|done|]. intros w1 Hw1. unfold is_enter in Hne. apply orb_false_iff in Hne as [H10 H13].
  unfold read_line_char. cbn [fst snd lookup list_lookup default]. cbn. rewrite H13.
  unfold press, is_erase in *. cbn [echo] in Hnext. unfold is_erase in Hnext. rewrite app_nil_r in Hnext.
  destruct Hw1 as (H1 & H2 & H3). assert (shows w ks [] w1) as Hw1 by by split_and!.
  destruct ((c =? 8) || (c =? 127)) eqn:He.
  - destruct buf as [|b buf]; [apply pwp_ret; by apply Hnext|].
    apply write_str_shows; [done|by left|by repeat constructor|done|]. intros w2 Hw2. apply pwp_ret. apply Hnext.
    rewrite H2 in Hw2. by eapply (shows_trans w ks [] w1).
  - apply write_char_shows; [done|by left|done|]. intros w2 Hw2. unfold newline. rewrite H10.
    apply pwp_ret. apply Hnext. rewrite H2 in Hw2. by eapply (shows_trans w ks [] w1).
Qed.

Lemma is_enter_byte c : is_enter c = true → is_byte c.
Proof. unfold is_enter, is_byte. intros [?|?]%orb_true_iff; b2p; lia. Qed.

(** The key that ends it. *)
Lemma read_line_enter P cap (Q : Z * list Z → W → Prop) buf c ks w : ok w → keys w = c :: ks → is_byte c → is_enter c = true → len buf + 1 < cap →
  (∀ w', shows w ks [newline] w' → Q (len buf, buf) w') → pwp h P Q (ITree.iter (read_line_body cap) buf) w.
Proof.
  intros Hok Hks Hby Hen Hcap Hnext. apply pwp_iter. rewrite read_line_room by done.
  apply (read_key _ _ _ c ks); [done|done|done|]. intros w1 Hw1. unfold read_line_char. cbn [fst snd lookup list_lookup default]. cbv zeta.
  assert ((if default 0 (Some c) =? 13 then newline else default 0 (Some c)) = newline) as Hc.
  { cbn. unfold is_enter in Hen. apply orb_true_iff in Hen as [->%Z.eqb_eq| ->]; done. }
  cbn. cbn in Hc. rewrite Hc. cbn.
  apply write_char_shows; [apply Hw1|by left|done|]. intros w2 Hw2. apply pwp_ret.
  apply Hnext. destruct Hw1 as (H1 & H2 & H3). rewrite H2 in Hw2. eapply (shows_trans w ks [] w1); [|done]. by split_and!.
Qed.

(** The buffer is full. *)
Lemma read_line_full P cap (Q : Z * list Z → W → Prop) buf w : ok w → cap <= len buf + 1 →
  (∀ w', shows w (keys w) [newline] w' → Q (len buf, buf) w') → pwp h P Q (ITree.iter (read_line_body cap) buf) w.
Proof.
  intros Hok Hcap Hnext. apply pwp_iter. rewrite read_line_no_room by done.
  apply write_str_shows; [done|by left|by repeat constructor|done|]. intros w1 Hw1. apply pwp_ret. by apply Hnext.
Qed.

Lemma echo_app ks1 : ∀ buf ks2, echo buf (ks1 ++ ks2) = echo buf ks1 ++ echo (foldl press buf ks1) ks2.
Proof. induction ks1 as [|c ks1 IH]; intros buf ks2; cbn; [done|]. by rewrite IH, app_assoc. Qed.

(** Keys that leave room in the buffer all the way. *)
Lemma read_line_keys P cap Q ks : ∀ buf w rest, ok w → keys w = ks ++ rest → bytes ks → Forall (λ c, is_enter c = false) ks →
  (∀ n, (n < length ks)%nat → len (foldl press buf (take n ks)) + 1 < cap) →
  (∀ w', shows w rest (echo buf ks) w' → pwp h P Q (ITree.iter (read_line_body cap) (foldl press buf ks)) w') →
  pwp h P Q (ITree.iter (read_line_body cap) buf) w.
Proof.
  induction ks as [|c ks IH]; intros buf w rest Hok Hks Hby Hne Hroom Hnext.
  { apply Hnext. split_and!; [done|done|]. by rewrite app_nil_r. }
  apply Forall_cons in Hne as [Hc Hne], Hby as [Hb Hby]. apply (read_line_key P cap Q buf c (ks ++ rest)); [done|done|done|done| |].
  { apply (Hroom 0%nat). cbn. lia. }
  intros w1 Hw1. apply (IH (press buf c) w1 rest); [apply Hw1|apply Hw1|done|done| |].
  - intros n Hn. apply (Hroom (S n)). cbn. lia.
  - intros w2 Hw2. apply Hnext. change (c :: ks) with ([c] ++ ks). rewrite echo_app. cbn [foldl]. by eapply shows_trans.
Qed.

(** Typing a line: the keys up to Enter, or up to the one that fills the buffer, give
    the line they spell, with the last character taken back by each erase key; the
    screen shows the echo and a new line, and later keys stay unread. *)
Theorem read_line_reads (cap : Z) (w : W) (ks fin rest : list Z) :
  ok w → keys w = ks ++ fin ++ rest → bytes ks → Forall (λ c, is_enter c = false) ks →
  (∀ n, (n < length ks)%nat → len (spelled (take n ks)) + 1 < cap) →
  (∃ c, fin = [c] ∧ is_enter c = true ∧ len (spelled ks) + 1 < cap) ∨ (fin = [] ∧ cap <= len (spelled ks) + 1) →
  runs h (λ r w', r = (len (spelled ks), spelled ks) ∧ ok w' ∧ keys w' = rest ∧
    screen w' = screen w ++ echo [] ks ++ [newline]) (read_line cap) w.
Proof.
  intros Hok Hks Hby Hne Hroom Hfin. unfold read_line. apply (read_line_keys never cap _ ks [] w (fin ++ rest)); [done|done|done|done|done|].
  intros w1 Hw1. destruct Hfin as [(c & -> & Hc & Hcap)|[-> Hcap]].
  - apply (read_line_enter never cap _ _ c rest); [apply Hw1|apply Hw1|by apply is_enter_byte|done|done|].
    intros w2 Hw2. split; [done|]. exact (shows_trans _ _ _ _ _ _ _ Hw1 Hw2).
  - apply (read_line_full never cap); [apply Hw1|done|]. intros w2 Hw2. split; [done|].
    destruct Hw1 as (? & Hk1 & ?). rewrite Hk1 in Hw2. eapply (shows_trans w rest (echo [] ks)); [|done]. by split_and!.
Qed.

End Terminal.
