(* ===== verification/UserProps.v ===== *)
(** * User programs: redirections of a child, copying a file, printing numbers. *)

From ITree Require Import ITree ITreeFacts.
From S2P Require Import Prelude Memory Kbd Sched Console ConsoleProps User UserSem Sh ShParse ShProps.
Import StringC.

(** ** Descriptors

    What the shell's child needs of the kernel between fork and execve. [held] is the
    file of a descriptor; [opens], [creates] and [runnable] say what a path names. *)

(** A descriptor is free for a file to be opened. *)
Definition spare {F} (files : Z → option F) : Prop := ∃ i, 3 <= i < 32 ∧ files i = None.

Class Descriptors {W F : Type} (h : handler W) (ok : W → Prop) (held : W → Z → option F)
    (opens creates : W → list Z → option F) (runnable : W → list Z → Prop) : Prop := {
  desc_open w p : ok w → text p → 0 < len p < 256 → spare (held w) → match opens w p with
    | Some f => ∃ fd w', h _ (SysOpen p) w = Some (fd, w') ∧ ok w' ∧ 3 <= fd < 2^31 ∧ held w fd = None ∧
        (∀ i, held w' i = if i =? fd then Some f else held w i) ∧
        (∀ q, creates w' q = creates w q) ∧ (∀ q, runnable w' q ↔ runnable w q)
    | None => ∃ r w', h _ (SysOpen p) w = Some (r, w') ∧ ok w' ∧ r < 0 ∧ (∀ i, held w' i = held w i)
    end;
  desc_creat w p : ok w → text p → 0 < len p < 256 → spare (held w) → match creates w p with
    | Some f => ∃ fd w', h _ (SysCreat p) w = Some (fd, w') ∧ ok w' ∧ 3 <= fd < 2^31 ∧ held w fd = None ∧
        (∀ i, held w' i = if i =? fd then Some f else held w i) ∧ (∀ q, runnable w' q ↔ runnable w q)
    | None => ∃ r w', h _ (SysCreat p) w = Some (r, w') ∧ ok w' ∧ r < 0 ∧ (∀ i, held w' i = held w i)
    end;
  desc_dup2 w old new f : ok w → held w old = Some f → 3 <= old < 2^31 → 0 <= new <= 1 →
    ∃ w', h _ (SysDup2 old new) w = Some (new, w') ∧ ok w' ∧ (∀ i, held w' i = if i =? new then Some f else held w i) ∧
      (∀ q, creates w' q = creates w q) ∧ (∀ q, runnable w' q ↔ runnable w q);
  desc_close w fd f : ok w → held w fd = Some f → 3 <= fd < 2^31 →
    ∃ r w', h _ (SysClose fd) w = Some (r, w') ∧ ok w' ∧ (∀ i, held w' i = if i =? fd then None else held w i) ∧
      (∀ q, creates w' q = creates w q) ∧ (∀ q, runnable w' q ↔ runnable w q);
  desc_write w l : ok w → bytes l → 0 < len l <= 4096 → ∃ r w', h _ (SysWrite 2 l) w = Some (r, w') ∧ ok w' ∧
    (∀ i, held w' i = held w i);
  desc_exec w p argv envp : ok w → runnable w p → h _ (SysExecve p argv envp) w = None;
  desc_exit w code : ok w → h _ (SysExit code) w = None;
}.

Section Child.
Context {W F : Type} (h : handler W) (ok : W → Prop) (held : W → Z → option F).
Context (opens creates : W → list Z → option F) (runnable : W → list Z → Prop).
Context `{D : !Descriptors h ok held opens creates runnable}.

(** Descriptor [n] is replaced by [o], if there is one. *)
Definition redirect (n : Z) (o : option F) (g : Z → option F) : Z → option F :=
  λ i, match o with Some f => if i =? n then Some f else g i | None => g i end.

Lemma spare_redirect (g g' : Z → option F) n o : 0 <= n <= 2 → (∀ i, g' i = redirect n o g i) → spare g → spare g'.
Proof.
  intros Hn E (i & Hi & Hg). exists i. split; [done|]. rewrite E. unfold redirect. destruct o; [|done].
  by rewrite (proj2 (Z.eqb_neq i n)) by lia.
Qed.

Definition good_path (o : option (list Z)) : Prop := match o with Some p => text p ∧ 0 < len p < 256 | None => True end.

(** Where the child stops. *)
Definition stops_in (path : list Z) (argv : list (list Z)) (files : Z → option F) : ∀ T, sysE T → W → Prop := λ T e w',
  match e with
  | SysExecve p a env => p = path ∧ a = argv ∧ env = child_env ∧ ∀ i, held w' i = files i
  | _ => False
  end.
Definition exits_with (code : Z) (files : Z → option F) : ∀ T, sysE T → W → Prop := λ T e w',
  match e with SysExit c => c = code ∧ ∀ i, held w' i = files i | _ => False end.

Lemma s32_fd fd : 3 <= fd < 2^31 → s32 fd = fd.
Proof. intros. unfold s32. rewrite Z.mod_small by lia. lia. Qed.

Lemma exit_stops {A} code (files : Z → option F) w Q : ok w → (∀ i, held w i = files i) →
  pwp h (exits_with code files) Q (sys_exit (A := A) code) w.
Proof. intros Hok Hi. unfold sys_exit. apply pwp_stop; [by apply desc_exit|]. split; [done|exact Hi]. Qed.

Lemma write_err {A} P Q l (k : () → prog A) w : ok w → bytes l → 0 < len l <= 4096 →
  (∀ w', ok w' → (∀ i, held w' i = held w i) → pwp h P Q (k tt) w') → pwp h P Q (u_write_str 2 l ≫= k) w.
Proof.
  intros Hok Hb Hl Hk. destruct (desc_write w l Hok Hb Hl) as (r & w' & Hh & Hok' & Hi).
  apply (pwp_bind h P (λ _ w1, ok w1 ∧ ∀ i, held w1 i = held w i) Q); [|intros [] w1 []; by apply Hk].
  eapply pwp_call; [exact Hh|]. by apply pwp_ret.
Qed.

Lemma text_bytes l : text l → bytes l.
Proof. intros H. eapply Forall_impl; [exact H|]. unfold is_byte. cbn. lia. Qed.

Lemma say_name_err {A} P Q msg p (k : () → prog A) w : ok w → text msg → 0 < len msg <= 4096 → text p → 0 < len p < 256 →
  (∀ w', ok w' → (∀ i, held w' i = held w i) → pwp h P Q (k tt) w') → pwp h P Q (say_name msg p ≫= k) w.
Proof.
  intros Hok Hm Hl Hp Hlp Hk.
  apply (pwp_bind h P (λ _ w1, ok w1 ∧ ∀ i, held w1 i = held w i) Q); [|intros [] w1 []; by apply Hk].
  unfold say_name. apply write_err; [done|by apply text_bytes|done|]. intros w1 Hok1 H1.
  apply write_err; [done|by apply text_bytes|lia|]. intros w2 Hok2 H2.
  destruct (desc_write w2 [newline] Hok2 ltac:(by repeat constructor) ltac:(done)) as (r & w' & Hh & Hok' & H3).
  eapply pwp_call; [exact Hh|]. apply pwp_ret. split; [done|]. intros i. by rewrite H3, H2, H1.
Qed.

(** One direction: the file is opened on a descriptor of its own, moved to [n] and the
    descriptor closed again. *)
Lemma move_fd P (Q : Z → W → Prop) w w1 fd n f err :
  ok w1 → 3 <= fd < 2^31 → held w fd = None → 0 <= n <= 1 →
  (∀ i, held w1 i = if i =? fd then Some f else held w i) →
  (∀ w', ok w' → (∀ i, held w' i = redirect n (Some f) (held w) i) → (∀ q, creates w' q = creates w1 q) →
     (∀ q, runnable w' q ↔ runnable w1 q) → Q 0 w') →
  pwp h P Q (r ← sys_dup2 (s32 fd) n;
    if r <? 0 then err
    else _ ← (if negb (fd =? n) then sys_close (s32 fd) else mret 0); mret 0) w1.
Proof.
  intros Hok Hfd Hfree Hn Hw1 Hk. rewrite (s32_fd fd Hfd).
  assert (held w1 fd = Some f) as Hf by (rewrite Hw1, Z.eqb_refl; done).
  destruct (desc_dup2 w1 fd n f Hok Hf Hfd Hn) as (w2 & Hd & Hok2 & Hw2 & Hc2 & Hr2).
  assert (held w2 fd = Some f) as Hf2 by (rewrite Hw2; case_if; done).
  destruct (desc_close w2 fd f Hok2 Hf2 Hfd) as (r & w3 & Hcl & Hok3 & Hw3 & Hc3 & Hr3).
  eapply pwp_call; [exact Hd|]. rewrite (proj2 (Z.ltb_ge n 0)), (proj2 (Z.eqb_neq fd n)) by lia. cbn [negb].
  eapply pwp_call; [exact Hcl|]. apply pwp_ret, Hk; [done| | |].
  - intros i. unfold redirect. rewrite Hw3, Hw2, Hw1. destruct (Z.eqb_spec i fd) as [->|]; [|done].
    rewrite (proj2 (Z.eqb_neq fd n)) by lia. done.
  - intros q. by rewrite Hc3, Hc2.
  - intros q. by rewrite Hr3, Hr2.
Qed.

(** The file of an optional path. *)
Definition file_of (names : list Z → option F) (o : option (list Z)) : option F := o ≫= names.

Lemma setup_input_runs P Q io w : ok w → good_path (io_input io) → spare (held w) →
  match io_input io, file_of (opens w) (io_input io) with
  | Some _, None => ∀ w', ok w' → (∀ i, held w' i = held w i) → Q 1 w'
  | _, o => ∀ w', ok w' → (∀ i, held w' i = redirect 0 o (held w) i) → (∀ q, creates w' q = creates w q) →
      (∀ q, runnable w' q ↔ runnable w q) → Q 0 w'
  end → pwp h P Q (setup_input io) w.
Proof.
  intros Hok Hp Hsp HQ. unfold setup_input. destruct (io_input io) as [p|]; [|by apply pwp_ret, HQ].
  destruct Hp as [Ht Hl]. cbn in HQ. pose proof (desc_open w p Hok Ht Hl Hsp) as Hop. destruct (opens w p) as [f|].
  - destruct Hop as (fd & w1 & Hh & Hok1 & Hfd & Hfree & Hw1 & Hc & Hr). eapply pwp_call; [exact Hh|].
    rewrite (proj2 (Z.ltb_ge fd 0)) by lia. eapply (move_fd P Q w w1 fd 0 f); [done|done|done|lia|done|].
    intros w' Hok' Hi Hc' Hr'. apply HQ; [done|done| |].
    + intros q. by rewrite Hc', Hc.
    + intros q. by rewrite Hr', Hr.
  - destruct Hop as (r & w1 & Hh & Hok1 & Hneg & Hi). eapply pwp_call; [exact Hh|]. rewrite (proj2 (Z.ltb_lt r 0)) by done.
    apply say_name_err; [done|by repeat constructor|done|done|done|]. intros w2 Hok2 Hi2. apply pwp_ret. apply HQ; [done|].
    intros i. by rewrite Hi2, Hi.
Qed.

Lemma setup_output_runs P Q io w : ok w → good_path (io_output io) → spare (held w) →
  match io_output io, file_of (creates w) (io_output io) with
  | Some _, None => ∀ w', ok w' → (∀ i, held w' i = held w i) → Q 1 w'
  | _, o => ∀ w', ok w' → (∀ i, held w' i = redirect 1 o (held w) i) → (∀ q, runnable w' q ↔ runnable w q) → Q 0 w'
  end → pwp h P Q (setup_output io) w.
Proof.
  intros Hok Hp Hsp HQ. unfold setup_output. destruct (io_output io) as [p|]; [|by apply pwp_ret, HQ].
  destruct Hp as [Ht Hl]. cbn in HQ. pose proof (desc_creat w p Hok Ht Hl Hsp) as Hop. destruct (creates w p) as [f|].
  - destruct Hop as (fd & w1 & Hh & Hok1 & Hfd & Hfree & Hw1 & Hr). eapply pwp_call; [exact Hh|].
    rewrite (proj2 (Z.ltb_ge fd 0)) by lia. eapply (move_fd P Q w w1 fd 1 f); [done|done|done|lia|done|].
    intros w' Hok' Hi Hc' Hr'. apply HQ; [done|done|].
    intros q. by rewrite Hr', Hr.
  - destruct Hop as (r & w1 & Hh & Hok1 & Hneg & Hi). eapply pwp_call; [exact Hh|]. rewrite (proj2 (Z.ltb_lt r 0)) by done.
    apply say_name_err; [done|by repeat constructor|done|done|done|]. intros w2 Hok2 Hi2. apply pwp_ret. apply HQ; [done|].
    intros i. by rewrite Hi2, Hi.
Qed.

(** Where the child of a command stops: in an exit with 126 when a file of a
    redirection cannot be had, and otherwise in the execve of the program. *)
Definition child_stops (path : list Z) (argv : list (list Z)) (io : command_io) (w : W) : ∀ T, sysE T → W → Prop :=
  match io_input io, file_of (opens w) (io_input io) with
  | Some _, None => exits_with 126 (held w)
  | _, fin =>
      let files := redirect 0 fin (held w) in
      match io_output io, file_of (creates w) (io_output io) with
      | Some _, None => exits_with 126 files
      | _, fout => stops_in path argv (redirect 1 fout files)
      end
  end.

Lemma file_of_ext (f g : list Z → option F) o : (∀ q, f q = g q) → file_of f o = file_of g o.
Proof. intros E. destruct o; cbn; [apply E|done]. Qed.

(** The child of a command reaches its execve with descriptor 0 on the file of [<], 1
    on the file of [>], and every other descriptor as the shell has it: none is left
    open. It does not run the program when one of the files is missing. *)
Lemma child_steps path argv io w : ok w → good_path (io_input io) → good_path (io_output io) → runnable w path → spare (held w) →
  pwp h (child_stops path argv io w) (λ _ _, False) (child_main path argv io) w.
Proof.
  intros Hok Hin Hout Hrun Hsp. remember (child_stops path argv io w) as P eqn:EP. unfold child_main, setup_child_io.
  apply (pwp_bind h P (λ r w', (r = 1 ∧ ∃ files, ok w' ∧ P = exits_with 126 files ∧ ∀ i, held w' i = files i) ∨
    (r = 0 ∧ ∃ files, ok w' ∧ runnable w' path ∧ P = stops_in path argv files ∧ ∀ i, held w' i = files i))).
  2: { intros r w' [(-> & files & Hok' & -> & Hi)|(-> & files & Hok' & Hr & -> & Hi)]; cbn.
       - by apply exit_stops.
       - apply pwp_stop; [by apply desc_exec|]. by split_and!. }
  apply (pwp_bind h P (λ r w', (r = 1 ∧ ∃ files, ok w' ∧ P = exits_with 126 files ∧ ∀ i, held w' i = files i) ∨
    (r = 0 ∧ ok w' ∧ (∀ q, runnable w' q ↔ runnable w q) ∧ (∀ q, creates w' q = creates w q) ∧ spare (held w') ∧ ∃ files,
      (∀ i, held w' i = files i) ∧ P = match io_output io, file_of (creates w) (io_output io) with
        | Some _, None => exits_with 126 files | _, fout => stops_in path argv (redirect 1 fout files) end))).
  - apply setup_input_runs; [done|done|done|]. unfold child_stops in EP.
    destruct (io_input io) as [p|]; [destruct (file_of (opens w) (Some p)) as [f|]|]; intros w' Hok' Hi.
    + intros Hc Hr. right. do 4 (split; [done|]). split; [by eapply (spare_redirect (held w) _ 0)|]. eexists. split; [exact Hi|exact EP].
    + left. split; [done|]. eexists. split; [done|]. split; [exact EP|exact Hi].
    + intros Hc Hr. right. do 4 (split; [done|]). split; [by eapply (spare_redirect (held w) _ 0)|]. eexists. split; [exact Hi|exact EP].
  - clear EP. intros r w' [(-> & H)|(-> & Hok' & Hr & Hc & Hsp' & files & Hi & EP)]; cbn [Z.eqb negb].
    { apply pwp_ret. by left. }
    apply setup_output_runs; [done|done|done|]. rewrite (file_of_ext _ _ _ Hc).
    assert (∀ n o i, redirect n o (held w') i = redirect n o files i) as Hx.
    { intros n o i. unfold redirect. destruct o; rewrite Hi; done. }
    destruct (io_output io) as [p|]; [destruct (file_of (creates w) (Some p)) as [f|]|]; intros w2 Hok2 Hi2.
    + intros Hr2. right. split; [done|]. eexists. split; [done|]. split; [by rewrite Hr2, Hr|]. split; [exact EP|]. intros i. by rewrite Hi2.
    + left. split; [done|]. eexists. split; [done|]. split; [exact EP|]. intros i. by rewrite Hi2, Hi.
    + intros Hr2. right. split; [done|]. eexists. split; [done|]. split; [by rewrite Hr2, Hr|]. split; [exact EP|]. intros i. by rewrite Hi2.
Qed.

(** ** The shell's side *)

(** The shell waits for its child and takes the code the child exited with. *)
Theorem run_external_waits (argv : list (list Z)) (io : command_io) (w w1 w2 : W) (pid code : Z) :
  h _ SysFork w = Some (pid, w1) → 0 < pid < 2^31 →
  h _ (SysWaitpid pid 0) w1 = Some ((pid, Z.shiftl code 8), w2) → 0 <= code < 256 →
  runs h (λ rc w', rc = code ∧ w' = w2) (run_external_with_io argv io) w.
Proof.
  intros Hf Hpid Hw Hc. unfold run_external_with_io. cbv zeta. eapply pwp_call; [exact Hf|].
  rewrite (proj2 (Z.ltb_ge pid 0)), (proj2 (Z.eqb_neq pid 0)) by lia.
  assert (s32 pid = pid) as -> by (unfold s32; rewrite Z.mod_small by lia; lia).
  eapply pwp_call; [exact Hw|]. cbn [fst snd]. rewrite Z.eqb_refl. cbn [negb]. apply pwp_ret. split; [|done].
  rewrite Z.shiftl_mul_pow2 by lia. assert (s32 (code * 2^8) = code * 2^8) as -> by (unfold s32; rewrite Z.mod_small by lia; lia).
  rewrite Z.shiftr_div_pow2, Z.div_mul by lia. change 0xff with (Z.ones 8). rewrite Z.land_ones by lia. apply Z.mod_small. lia.
Qed.

End Child.

(** ** Numbers *)

Lemma uint_digits_rev n m : ∀ v, 0 <= v < 10 ^ Z.of_nat n → v < 10 ^ Z.of_nat m → uint_digits n v = digits_rev m v 10 false.
Proof.
  revert m. induction n as [|n IH]; intros m v Hv Hm; cbn [uint_digits].
  { assert (v = 0) as -> by lia. by destruct m. }
  destruct (Z.eqb_spec v 0) as [->|Hne]; [by destruct m|]. destruct m as [|m]; [cbn in Hm; lia|]. cbn [digits_rev].
  rewrite (proj2 (Z.ltb_lt 0 v)) by lia. pose proof (Z.mod_pos_bound v 10 ltac:(lia)).
  unfold digit. rewrite (proj2 (Z.ltb_lt (v mod 10) 10)) by lia. f_equal.
  rewrite Nat2Z.inj_succ, Z.pow_succ_r in * by lia.
  apply IH; [split; [by apply Z.div_pos; lia|]|]; apply Z.div_lt_upper_bound; lia.
Qed.

Section Numbers.
Context {W : Type} (h : handler W) (ok : W → Prop) (keys screen : W → list Z).
Context `{T : !Terminal h ok keys screen}.

Lemma write_chars_shows P fd l : ∀ w, ok w → fd = 1 ∨ fd = 2 → bytes l →
  pwp h P (λ _ w', shows ok keys screen w (keys w) l w') (write_chars fd l) w.
Proof.
  induction l as [|ch l IH]; intros w Hok Hfd Hb; cbn [write_chars].
  { apply pwp_ret. split_and!; [done|done|]. by rewrite app_nil_r. }
  apply Forall_cons in Hb as [Hc Hb]. apply (write_char_shows h ok keys screen); [done|done|done|]. intros w1 Hw1.
  eapply pwp_mono; [apply IH; [apply Hw1|done|done]| |done]. intros u w2 Hw2.
  rewrite (proj1 (proj2 Hw1)) in Hw2. exact (shows_trans ok keys screen w (keys w) [ch] w1 (keys w) l w2 Hw1 Hw2).
Qed.

(** A number printed by a program is the text the kernel's kprintf has for [%u]: the
    ten places of the buffer are enough for every 32-bit value. *)
Theorem u_write_uint_prints (fd value : Z) (w : W) : ok w → fd = 1 ∨ fd = 2 → 0 <= value < 2^32 →
  runs h (λ _ w', ok w' ∧ keys w' = keys w ∧ screen w' = screen w ++ print_uint value 10 false 0 32) (u_write_uint fd value) w.
Proof.
  intros Hok Hfd Hv. unfold u_write_uint, print_uint. destruct (Z.eqb_spec value 0) as [->|Hne].
  - destruct (term_write w fd [48] Hok Hfd ltac:(by repeat constructor) ltac:(done)) as (r & w' & Hh & H1 & H2 & H3).
    eapply pwp_call; [exact Hh|]. by apply pwp_ret.
  - rewrite <- (uint_digits_rev 10 BUF_SIZE value);
      [|change (10 ^ Z.of_nat 10) with 10000000000; lia|apply Z.lt_trans with (2^32); [lia|reflexivity]].
    replace (Z.to_nat (0 - Z.of_nat (length (uint_digits 10 value)))) with 0%nat by lia. cbn [replicate app].
    assert (bytes (uint_digits 10 value)) as Hb.
    { clear. generalize 10%nat. intros n. revert value. induction n as [|n IH]; intros v; cbn [uint_digits]; [constructor|].
      case_if; constructor; [|apply IH]. pose proof (Z.mod_pos_bound v 10 ltac:(lia)). unfold is_byte. lia. }
    assert (reverse (uint_digits 10 value) = rev (uint_digits 10 value)) as -> by (unfold reverse; by rewrite rev_append_rev, app_nil_r).
    apply write_chars_shows; [done|done|]. by apply Forall_rev.
Qed.
End Numbers.

(** A plain terminal: the keys waiting and the text shown. *)
Definition tty : handler (list Z * list Z) := λ T e w,
  match e in sysE T return option (T * (list Z * list Z)) with
  | SysRead 0 1 => match w.1 with c :: ks => Some ((1, [c]), (ks, w.2)) | [] => None end
  | SysWrite fd l => Some (len l, (w.1, w.2 ++ l))
  | _ => None
  end.

#[export] Instance tty_terminal : Terminal tty (λ _, True) fst snd.
Proof.
  constructor.
  - intros [ks out] c ks' _ E _. cbn in E. subst. by eexists.
  - intros [ks out] fd l _ _ _ _. by eexists _, _.
Qed.

Lemma u_write_uint_prints_witness :
  runs tty (λ _ w', True ∧ w'.1 = [] ∧ w'.2 = chars "pid=" ++ chars "4294967295") (u_write_uint 1 4294967295) ([], chars "pid=").
Proof.
  apply (u_write_uint_prints tty (λ _, True) fst snd 1 4294967295 ([], chars "pid=")); [done|by left|lia].
Defined.
