(* ===== verification/UserKernel.v ===== *)
(** * User programs on the kernel

    The calls of a user program carried out by the kernel model: the program stores
    what it passes in a page of its own, loads the registers as the wrappers of ulib
    do, and enters [syscall_dispatch]; it reads the answer from rax and from the page.
    Calls that leave the program (fork, execve, exit, waitpid, sched_yield) are not
    answered here. The console of the kernel is a terminal in the sense of [Terminal],
    so what is proved of the shell's line input holds on the kernel. *)

From ITree Require Import ITree.
From S2P Require Import Prelude Memory Frames Pmm PmmInv PmmProps Vmm VmmInv VmmOps VmmCow VmmProps Kbd Vfs.
From S2P Require Import Exec Sched Uaccess UaccessInv UaccessWrite UaccessProps Usermem UsermemInv.
From S2P Require Import UsermemProps Syscall SyscallProps User UserSem Sh ShParse ShProps.
Import StringC.

(** A number from its bytes, lowest first. *)
Fixpoint from_le (l : list Z) : Z := match l with [] => 0 | c :: l' => c + 2^8 * from_le l' end.

(** The first string of some bytes. *)
Definition c_string (l : list Z) : list Z := take (u_strlen l) l.

(** [task_info_t] from its bytes. *)
Definition info_of (l : list Z) : task_info :=
  Info (from_le (take 4 l)) (from_le (take 4 (drop 4 l))) (from_le (take 4 (drop 8 l)))
    (from_le (take 4 (drop 12 l))) (from_le (take 8 (drop 16 l))) (c_string (take 32 (drop 24 l))).

Section Buffer.
Context {S : Type} `{FA : FrameAllocator S}.

(** ** Stores in a page of the program's own *)

Lemma private_page (v : vm S) r a e : vmm_current_pml4 v = r → space_ok v r → user_page v r a e →
  has e VMM_WRITE = true → 0 < a →
  user_page_for_copy a true v = Ret (Some (e .& VMM_PHYS_MASK + a mod PAGE_SIZE), v).
Proof.
  intros Hr Hs Hp Hw Ha. pose proof Hp as (Hrange & Hl & Hu). unfold user_page_for_copy.
  rewrite (proj2 (Z.eqb_neq a 0)), (proj2 (Z.leb_gt USER_SPACE_TOP a)) by lia. cbn [orb].
  unfold mbind, M_bind, gets. rewrite Hr. rewrite align_page_flags by page_lia.
  assert (user_ok (vm_mem v) r a = true) as Hok by (apply user_ok_iff; eauto; lia). unfold user_ok in Hok. rewrite Hok. cbn [negb].
  assert (has (vmm_get_flags (vm_mem v) r a) VMM_WRITE = true) as ->.
  { rewrite (get_flags_leaf _ _ _ (proj2 (so_root _ _ Hs))), Hl. cbn [leaf_flags]. rewrite has_write in *. by rewrite flags_bit by lia. }
  cbn [negb andb mret M_ret]. unfold mret, M_ret.
  rewrite (proj2 (Z.eqb_neq _ _)) by (apply present_not_failed, has_all_present; exact Hok).
  by rewrite (user_page_physical v r a e (so_root _ _ Hs) Hp).
Qed.

Lemma private_store (v : vm S) r a e l : vmm_current_pml4 v = r → space_ok v r → user_page v r a e →
  has e VMM_WRITE = true → 0 < a → a mod PAGE_SIZE + len l <= PAGE_SIZE → 
  copy_to_user a l (len l) v = Ret (0, set_mem (store_bytes (vm_mem v) (e .& VMM_PHYS_MASK + a mod PAGE_SIZE) l) v).
Proof.
  intros Hr Hs Hp Hw Ha Hlen. pose proof Hp as (Hrange & _ & _). unfold copy_to_user, copy_user_bytes.
  destruct l as [|c l']; [by destruct v|]. set (l := c :: l') in *.
  rewrite (proj2 (Z.eqb_neq (len l) 0)) by (unfold l; cbn; lia).
  assert (a + len l <= USER_SPACE_TOP) by (revert Hlen Hrange; unfold PAGE_SIZE, USER_SPACE_TOP; page_lia).
  rewrite (proj2 (Z.eqb_neq a 0)), (proj2 (Z.leb_gt USER_SPACE_TOP a)), (proj2 (Z.ltb_ge (USER_SPACE_TOP - a) (len l))) by lia.
  cbn [orb]. assert (∃ f, Z.to_nat (len l) = Datatypes.S f) as [f ->] by (exists (length l'); unfold l; cbn; lia). cbn [copy_loop].
  rewrite (proj2 (Z.ltb_lt 0 (len l))) by (unfold l; cbn; lia). rewrite Z.add_0_r.
  unfold mbind, M_bind. rewrite (private_page v r a e Hr Hs Hp Hw Ha).
  change (PAGE_SIZE - 1) with (2^12 - 1). rewrite land_low_mod by done. change (2^12) with PAGE_SIZE.
  assert (MIN (PAGE_SIZE - a mod PAGE_SIZE) (len l - 0) = len l) as -> by (unfold MIN; case_if; lia).
  unfold modify. assert (slice l 0 (len l) = l) as -> by (unfold slice; cbn [drop]; by rewrite Nat2Z.id, firstn_all).
  destruct f as [|f]; cbn [copy_loop]; rewrite Z.add_0_l, Z.ltb_irrefl; done.
Qed.

(** [buf] is a page the program of [r] can write, [r] is loaded. *)
Record buf_ok (buf r : Z) (v : vm S) : Prop := {
  bo_root : vmm_current_pml4 v = r;
  bo_space : space_ok v r;
  bo_buf : 0 < buf ∧ buf mod PAGE_SIZE = 0;
  bo_page : ∃ e, user_page v r buf e ∧ has e VMM_WRITE = true;
}.

Context (buf r : Z).


Lemma buf_user v (n : Z) a : buf_ok buf r v → 0 < n <= PAGE_SIZE → buf <= a < buf + n →
  0 <= a < USER_SPACE_TOP ∧ user_ok (vm_mem v) r a = true.
Proof.
  intros [_ Hs [Hb0 Hb] (e & Hp & _)] Hl Ha. pose proof Hp as (Hr & _ & _).
  assert (a < USER_SPACE_TOP) as Ht by (revert Hb Hr Ha Hl; unfold PAGE_SIZE, USER_SPACE_TOP; page_lia).
  split; [lia|]. assert (user_ok (vm_mem v) r buf = true) as Hok by (apply user_ok_iff; eauto).
  unfold user_ok in *. rewrite (same_page_flags _ _ a buf); [done|]. revert Hb Ha Hl. unfold PAGE_SIZE. page_lia.
Qed.

Lemma store_in_buf v l : buf_ok buf r v → len l <= PAGE_SIZE → bytes l →
  ∃ v', copy_to_user buf l (len l) v = Ret (0, v') ∧ buf_ok buf r v' ∧
    ubytes (length l) (vm_mem v') (vmm_current_pml4 v') buf = l.
Proof.
  intros Hok Hl Hb. pose proof Hok as [Hr Hs [Hb0 Hbm] (e & Hp & Hw)].
  assert (buf mod PAGE_SIZE + len l <= PAGE_SIZE) as Hfit by lia.
  eexists. split; [by apply (private_store _ r buf e)|].
  set (v' := set_mem _ _). pose proof (write_space _ _ _ _ Hs Hp l Hfit : space_ok v' r) as Hs'.
  assert (user_page v' r buf e) as Hp'.
  { pose proof Hp as (Hu & Hlf & Hus). split; [done|]. split; [|done]. rewrite <- Hlf. exact (write_leaf _ _ _ _ Hs Hp l Hfit buf). }
  split; [by constructor; eauto|].
  apply list_eq_same_length with (length l); [done|by rewrite length_ubytes|]. intros i x y Hi Hx Hy.
  rewrite ubytes_lookup in Hx by done. injection Hx as <-.
  change (vmm_current_pml4 v') with (vmm_current_pml4 v). rewrite Hr.
  destruct (buf_user v (len l) (buf + Z.of_nat i) Hok ltac:(lia) ltac:(lia)) as [Hu Huo].
  pose proof (write_ubyte _ _ _ _ Hs Hp l Hfit (buf + Z.of_nat i) Hu Huo) as E. etrans; [exact E|].
  unfold in_block. rewrite (proj2 (Z.leb_le _ _)), (proj2 (Z.ltb_lt _ _)) by lia. cbn [andb].
  replace (Z.to_nat (buf + Z.of_nat i - buf)) with i by lia. rewrite Hy. cbn. apply u8_small.
  by apply (Forall_lookup_1 _ _ _ _ Hb Hy).
Qed.

End Buffer.

Section Calls.
Context {S : Type} `{FA : FrameAllocator S}.
Context (can_alloc : Z → vfs → bool) (fresh : vfs → array) (stack_tail : list Z).
Context (new_task : kernel S → option (nat * Z)) (exec_alloc : kernel S → bool) (stack_byte : Z) (page : mem).

(** The page the program passes its arguments in: input from its start, output of
    readdir from its middle. *)
Context (buf : Z).
Definition out_area : Z := buf + 2048.

(** What the program stores, and rdi, rsi, rdx, r10. *)
Definition call_setup {T} (e : sysE T) : option (list Z * (Z * Z * Z * Z)) :=
  match e with
  | SysRead fd n => Some ([], (u64 fd, buf, n, 0))
  | SysWrite fd l => Some (l, (u64 fd, buf, len l, 0))
  | SysOpen p => Some (p ++ [0], (buf, 0, 0, 0))
  | SysClose fd => Some ([], (u64 fd, 0, 0, 0))
  | SysGetpid => Some ([], (0, 0, 0, 0))
  | SysReaddir p i => Some (p ++ [0], (buf, i, out_area, out_area + 64))
  | SysProcinfo i => Some ([], (i, buf, 0, 0))
  | SysChdir p => Some (p ++ [0], (buf, 0, 0, 0))
  | SysGetcwd n => Some ([], (buf, n, 0, 0))
  | SysCreat p => Some (p ++ [0], (buf, 0, 0, 0))
  | SysDup2 a b => Some ([], (u64 a, u64 b, 0, 0))
  | SysFork | SysExecve _ _ _ | SysExit _ | SysWaitpid _ _ | SysSchedYield => None
  end.

Definition frame_for (nr : Z) (regs : Z * Z * Z * Z) : syscall_frame :=
  let '(rdi, rsi, rdx, r10) := regs in Frame 0 0 0 0 0 r10 0 0 0 rdi rsi rdx 0 0 nr 0x400100 0x202 0x400fff00.

(** Bytes of the program's memory. *)
Definition loaded (k : kernel S) (n : nat) (a : Z) : list Z :=
  ubytes n (vm_mem (k_vm k)) (vmm_current_pml4 (k_vm k)) a.

Definition call_answer {T} (e : sysE T) (ret : Z) (k : kernel S) : T :=
  match e in sysE T return T with
  | SysRead _ _ => (ret, loaded k (Z.to_nat ret) buf)
  | SysReaddir _ _ => (ret, (c_string (loaded k 64 out_area), from_le (loaded k 4 (out_area + 64))))
  | SysProcinfo _ => (ret, info_of (loaded k 56 buf))
  | SysGetcwd n => (ret, c_string (loaded k (Z.to_nat n) buf))
  | SysWaitpid _ _ => (ret, from_le (loaded k 4 buf))
  | SysWrite _ _ | SysOpen _ | SysClose _ | SysGetpid | SysFork | SysExecve _ _ _ | SysExit _ | SysSchedYield
  | SysChdir _ | SysCreat _ | SysDup2 _ _ => ret
  end.

Definition kernel_calls : handler (kernel S) := λ T e k,
  match call_setup e with
  | None => None
  | Some (data, regs) =>
      match in_vm (copy_to_user buf data (len data)) k with
      | Ret (0, k1) =>
          match syscall_dispatch can_alloc fresh stack_tail new_task exec_alloc stack_byte page
                  (frame_for (call_number e) regs) k1 with
          | Ret ((Returns _, f), k2) => Some (call_answer e (s64 (fr_rax f)) k2, k2)
          | _ => None
          end
      | _ => None
      end
  end.

(** ** The console as a terminal *)

(** The running task [t] has no file on descriptors 0, 1 and 2. *)
Record console_ok (sch : sched) (c : nat) (t : task) (r : Z) (k : kernel S) : Prop := {
  co_sched : k_sched k = sch;
  co_task : current k = Some (c, t);
  co_files fd : 0 <= fd <= 2 → fd_unused (Some (c, t)) fd = true;
  co_buf : buf_ok buf r (k_vm k);
}.

Context (sch : sched) (c : nat) (t : task) (r : Z).
Abbreviation ok := (console_ok sch c t r).

Abbreviation calls := kernel_calls.

(** Entering the kernel with a call that returns [ret]. *)
Lemma calls_return T (e : sysE T) data regs k v' f ret k' : call_setup e = Some (data, regs) →
  copy_to_user buf data (len data) (k_vm k) = Ret (0, v') →
  syscall_table can_alloc fresh stack_tail new_task exec_alloc stack_byte page (call_number e) = Some (plain f) →
  f (frame_for (call_number e) regs) (set_vm v' k) = Ret (ret, k') → - 2^63 <= ret < 2^63 →
  calls T e k = Some (call_answer e ret k', k').
Proof.
  intros Hsu Hst Htab Hf Hret. unfold kernel_calls. rewrite Hsu. unfold in_vm, zoom. rewrite Hst.
  unfold syscall_dispatch. assert (fr_rax (frame_for (call_number e) regs) = call_number e) as -> by (by destruct regs as [[[? ?] ?] ?]).
  rewrite Htab. cbn. unfold plain, mbind, M_bind. rewrite Hf. unfold mret, M_ret. cbn [fr_rax with_rax].
  by rewrite s64_small by done.
Qed.

Lemma set_vm_same (k : kernel S) : set_vm (k_vm k) k = k.
Proof. by destruct k. Qed.

Lemma ok_changed k v ks out : ok k → buf_ok buf r v → ok (Kernel v (k_sched k) (k_fs k) ks out).
Proof. by intros []; constructor. Qed.

(** A write of a task without a file on [fd] goes to the console. *)
Lemma write_to_console k fd l : fd = 1 ∨ fd = 2 → fd_unused (current k) fd = true → buf_ok buf r (k_vm k) →
  bytes l → 0 < len l <= PAGE_SIZE →
  ∃ v', calls _ (SysWrite fd l) k = Some (len l, print l (set_vm v' k)) ∧ buf_ok buf r v'.
Proof.
  intros Hfd Hun Hok Hb Hl. destruct (store_in_buf buf r (k_vm k) l Hok ltac:(lia) Hb) as (v' & Hst & Hok' & Hbytes).
  exists v'. split; [|done].
  eapply (calls_return Z (SysWrite fd l) l _ k v' _ (len l)); [reflexivity|exact Hst|reflexivity| |unfold PAGE_SIZE in *; lia].
  cbn [frame_for call_number fr_rdi fr_rsi fr_rdx].
  assert (s32 (u64 fd) = fd) as -> by (by destruct Hfd as [-> | ->]).
  unfold sys_write_impl. pose proof (bo_buf _ _ _ Hok') as [Hb0 _].
  rewrite (write_loop_console can_alloc fresh fd buf (len l) Hfd (Z.to_nat (len l)) (set_vm v' k) 0); [|..].
  - rewrite Z.sub_0_r, Z.add_0_r, Nat2Z.id. change (k_vm (set_vm v' k)) with v'. by rewrite Hbytes.
  - done.
  - destruct (buf_user buf r v' (len l) (buf + len l - 1) Hok' ltac:(lia) ltac:(lia)) as [? _]. split; lia.
  - intros a Ha. change (k_vm (set_vm v' k)) with v'. rewrite (bo_root _ _ _ Hok'). by apply (buf_user buf r v' (len l) a Hok').
  - lia.
  - lia.
Qed.

Lemma console_write k fd l : ok k → fd = 1 ∨ fd = 2 → bytes l → 0 < len l <= PAGE_SIZE →
  ∃ v', calls _ (SysWrite fd l) k = Some (len l, print l (set_vm v' k)) ∧ ok (print l (set_vm v' k)).
Proof.
  intros Hok Hfd Hb Hl. destruct (write_to_console k fd l Hfd) as (v' & Hc & Hv); [|apply Hok|done|done|].
  - rewrite (co_task _ _ _ _ _ Hok). apply (co_files _ _ _ _ _ Hok). lia.
  - exists v'. split; [done|]. exact (ok_changed k v' _ _ Hok Hv).
Qed.

Lemma console_read k key ks : ok k → k_keys k = key :: ks → is_byte key →
  ∃ v', calls _ (SysRead 0 1) k = Some ((1, [key]), set_vm v' (set_keys ks k)) ∧ ok (set_vm v' (set_keys ks k)).
Proof.
  intros Hok Hks Hb. assert (bytes [key]) as Hbl by by apply Forall_singleton.
  pose proof Hok as [_ Hcur Hfiles Hbuf]. destruct (store_in_buf buf r (k_vm k) [key] Hbuf ltac:(done) Hbl) as (v' & Hst & Hok' & Hbytes).
  destruct (store_in_buf buf r (k_vm k) [] Hbuf ltac:(done) ltac:(constructor)) as (v0 & Hst0 & _ & _).
  assert (v0 = k_vm k) as -> by (change (Ret (0, k_vm k) = Ret (0, v0)) in Hst0; congruence).
  exists v'. split; [|exact (ok_changed k v' _ _ Hok Hok')].
  assert (u64 (buf + 0) = buf) as Hbu.
  { destruct (buf_user buf r (k_vm k) 1 buf Hbuf ltac:(done) ltac:(lia)) as [? _].
    rewrite Z.add_0_r. apply u64_small. unfold USER_SPACE_TOP in *. lia. }
  assert (call_answer (SysRead 0 1) 1 (set_vm v' (set_keys ks k)) = (1, [key])) as Hans.
  { cbn [call_answer]. f_equal. exact Hbytes. }
  rewrite <- Hans. eapply (calls_return _ (SysRead 0 1) [] _ k (k_vm k) _ 1); [reflexivity|exact Hst0|reflexivity| |lia].
  rewrite set_vm_same. cbn [frame_for call_number fr_rdi fr_rsi fr_rdx]. change (s32 (u64 0)) with 0.
  unfold sys_read_impl, mbind, M_bind, gets. rewrite Hcur. rewrite (Hfiles 0) by lia. cbn [Z.eqb andb].
  change (Z.to_nat 1) with 1%nat. cbn [key_loop]. unfold kbd_next, mbind, M_bind, gets. rewrite Hks.
  unfold modify, in_vm, zoom, mret, M_ret. cbn [k_vm set_keys]. rewrite Hbu. change 1 with (len [key]) at 1. rewrite Hst.
  cbn [Z.ltb Z.compare]. by destruct ((key =? 10) || (key =? 13)).
Qed.

#[local] Instance console_terminal : Terminal calls ok k_keys k_out.
Proof.
  constructor.
  - intros k key ks Hok Hks Hb. destruct (console_read k key ks Hok Hks Hb) as (v' & Hc & Hok'). eauto.
  - intros k fd l Hok Hfd Hb Hl. destruct (console_write k fd l Hok Hfd Hb Hl) as (v' & Hc & Hok').
    by eexists _, _.
Qed.

(** C19: The shell reads a line on the kernel: with the keys [ks] and Enter waiting at the
    keyboard, its read_line makes system calls that the kernel answers, returns the
    line the keys spell, leaves the later keys, and the console shows their echo. *)
Theorem shell_reads_on_kernel (k : kernel S) (ks rest : list Z) (enter : Z) :
  ok k → k_keys k = ks ++ enter :: rest → bytes ks → is_enter enter = true → Forall (λ c, is_enter c = false) ks →
  (∀ n, (n <= length ks)%nat → len (spelled (take n ks)) + 1 < LINE_MAX) →
  runs calls (λ res k', res = (len (spelled ks), spelled ks) ∧ ok k' ∧ k_keys k' = rest ∧
    k_out k' = k_out k ++ echo [] ks ++ [newline]) (read_line LINE_MAX) k.
Proof.
  intros Hok Hks Hb He Hne Hroom. apply (read_line_reads calls ok k_keys k_out LINE_MAX k ks [enter] rest); [done|done|done|done| |].
  - intros n Hn. apply Hroom. lia.
  - left. exists enter. split; [done|]. split; [done|]. specialize (Hroom (length ks) ltac:(lia)). by rewrite firstn_all in Hroom.
Qed.

End Calls.

(** ** A concrete kernel *)

Definition w_keys : list Z := chars "lz" ++ [8] ++ chars "s".
Definition w_console : kernel pmm_state := set_keys (w_keys ++ [13; 42]) w_kernel.

Lemma w_page_flags : user_ok (vm_mem mmap_vm) space_root 0x50000000 = true ∧
  has (vmm_get_flags (vm_mem mmap_vm) space_root 0x50000000) VMM_WRITE = true.
Proof. split; vm_compute; reflexivity. Qed.

Lemma w_page : ∃ e, user_page mmap_vm space_root 0x50000000 e ∧ has e VMM_WRITE = true.
Proof.
  destruct w_page_flags as [Hu Hw]. pose proof (proj1 mmap_vm_space) as Hs.
  destruct (proj1 (user_ok_iff mmap_vm space_root 0x50000000 Hs ltac:(unfold USER_SPACE_TOP; lia)) Hu) as [e Hp]. exists e. split; [exact Hp|].
  rewrite (get_flags_leaf _ _ _ (proj2 (so_root _ _ Hs))), (proj1 (proj2 Hp)) in Hw. cbn [leaf_flags] in Hw.
  rewrite has_write in *. rewrite flags_bit in Hw by lia. exact Hw.
Qed.

Lemma w_buf_ok : buf_ok 0x50000000 space_root mmap_vm.
Proof. constructor; [exact (proj2 mmap_vm_space)|exact (proj1 mmap_vm_space)|split; reflexivity|exact w_page]. Qed.

Lemma w_console_ok : console_ok 0x50000000 w_sched 0 w_task space_root w_console.
Proof.
  constructor.
  - reflexivity.
  - reflexivity.
  - intros fd Hfd. assert (fd = 0 ∨ fd = 1 ∨ fd = 2) as [->|[->| ->]] by lia; reflexivity.
  - exact w_buf_ok.
Qed.

Abbreviation w_calls := (kernel_calls (λ _ _, true) (λ _, arr_fill 0) [] (λ _, None) (λ _, true) 0 (arr_fill 0) 0x50000000).

Lemma shell_reads_on_kernel_witness :
  runs w_calls (λ res k', res = (2, chars "ls") ∧ console_ok 0x50000000 w_sched 0 w_task space_root k' ∧
    k_keys k' = [42] ∧ k_out k' = chars "lz" ++ [8; 32; 8] ++ chars "s" ++ [10]) (read_line LINE_MAX) w_console.
Proof.
  apply (shell_reads_on_kernel (λ _ _, true) (λ _, arr_fill 0) [] (λ _, None) (λ _, true) 0 (arr_fill 0) 0x50000000
    w_sched 0 w_task space_root w_console w_keys [42] 13 w_console_ok eq_refl).
  - by repeat constructor.
  - reflexivity.
  - by repeat constructor.
  - intros n Hn. assert (n = 0 ∨ n = 1 ∨ n = 2 ∨ n = 3 ∨ n = 4)%nat as [->|[->|[->|[->| ->]]]] by (cbn in Hn; lia); reflexivity.
Defined.
