(* ===== verification/UserFiles.v ===== *)
(** * Redirections on the kernel

    The kernel model keeps the promises of [Descriptors]: the child of a command gets
    its redirections from open, creat, dup2 and close as the kernel carries them out. *)

From ITree Require Import ITree.
From S2P Require Import Prelude Memory Frames Pmm PmmInv PmmProps Vmm VmmInv VmmOps VmmCow VmmProps Kbd Vfs.
From S2P Require Import VfsInv VfsProps Path PathProps Exec Sched Uaccess UaccessInv UaccessWrite.
From S2P Require Import UaccessProps Usermem UsermemInv UsermemProps Syscall SyscallProps User UserSem Sh.
From S2P Require Import ShParse ShProps UserProps UserKernel.
Import StringC.

Section Files.
Context {S : Type} `{FA : FrameAllocator S}.
Context (can_alloc : Z → vfs → bool) (fresh : vfs → array) (stack_tail : list Z).
Context (new_task : kernel S → option (nat * Z)) (exec_alloc : kernel S → bool) (stack_byte : Z) (page : mem).
Context (buf : Z) (c : nat) (r : Z).
Abbreviation calls := (kernel_calls can_alloc fresh stack_tail new_task exec_alloc stack_byte page buf).

(** Task [c] runs, with a descriptor table of full size, no file on descriptor 2 and
    [buf] as a page of its own. *)
Record program_ok (k : kernel S) : Prop := {
  po_task : ∃ t, current k = Some (c, t) ∧ len (t_files t) = VFS_MAX_FDS ∧ get_file (t_files t) 2 = None;
  po_buf : buf_ok buf r (k_vm k);
}.

Definition files_of (k : kernel S) : list file := match current k with Some (_, t) => t_files t | None => [] end.
Definition cwd_of (k : kernel S) : option (list Z) := match current k with Some (_, t) => Some (t_cwd t) | None => None end.
Definition held (k : kernel S) (fd : Z) : option file := get_file (files_of k) fd.

(** The file a path opens. *)
Definition open_at (fs : vfs) (path : list Z) : option file := i ← vfs_lookup stack_tail fs path; Some (File i 0 true).
Definition opens (k : kernel S) (p : list Z) : option file :=
  match resolve_path (cwd_of k) p VFS_MAX_PATH with
  | inl _ => None
  | inr path => open_at (k_fs k) path
  end.
Definition creates (k : kernel S) (p : list Z) : option file :=
  match resolve_path (cwd_of k) p VFS_MAX_PATH with
  | inl _ => None
  | inr path =>
      let '(rc, fs') := vfs_create_file can_alloc fresh stack_tail path None 0 (k_fs k) in
      if rc =? 0 then open_at fs' path else None
  end.

(** Strings in the page. *)
Lemma string_in_buf (v : vm S) p : buf_ok buf r v → text p → len p < VFS_MAX_PATH →
  ubytes (length (p ++ [0])) (vm_mem v) (vmm_current_pml4 v) buf = p ++ [0] →
  copy_user_string buf VFS_MAX_PATH v = Ret ((0, p), v).
Proof.
  intros Hb Ht Hl Hbytes. pose proof (bo_buf _ _ _ Hb) as [Hb0 _].
  assert (∀ j, (j <= length p)%nat → readable v (buf + Z.of_nat j) = true ∧
    ubyte (vm_mem v) (vmm_current_pml4 v) (buf + Z.of_nat j) = default 0 ((p ++ [0]) !! j)) as Hat.
  { intros j Hj. unfold VFS_MAX_PATH in Hl.
    destruct (buf_user buf r v PAGE_SIZE (buf + Z.of_nat j) Hb ltac:(done) ltac:(unfold PAGE_SIZE; lia)) as [Hu Hok].
    split; [unfold readable; rewrite (bo_root _ _ _ Hb), Hok, bool_decide_eq_true_2 by lia; done|].
    rewrite <- Hbytes. rewrite ubytes_lookup by (rewrite length_app; cbn; lia). done. }
  unfold copy_user_string. change (VFS_MAX_PATH =? 0) with false. cbv iota.
  destruct (buf_user buf r v 1 buf Hb ltac:(done) ltac:(lia)) as [Hbu _].
  destruct (string_loop_steps v buf 256 ltac:(lia) 256 0) as (res & E & Hres); [unfold USER_SPACE_TOP in *; lia|done|intros j Hj; lia|].
  cbv zeta in *. change (Z.to_nat VFS_MAX_PATH) with 256%nat. change [] with (ubytes 0 (vm_mem v) (vmm_current_pml4 v) buf). rewrite E. do 2 f_equal.
  assert (∀ j, text_at v buf j → (j <= length p)%nat) as Hle.
  { intros j Hj. destruct (decide (j <= length p)%nat); [done|]. destruct (Hj (length p) ltac:(lia)) as [_ Hn]. destruct Hn.
    rewrite (proj2 (Hat (length p) ltac:(lia))). by rewrite lookup_app_r, Nat.sub_diag by lia. }
  unfold VFS_MAX_PATH in Hl. destruct Hres as [(j & Hj & Htx & _ & Hz & ->)|[(j & Hj & Htx & Hr & _)|[Htx _]]].
  - pose proof (Hle j Htx) as Hjl. assert (j = length p) as ->.
    { destruct (decide (j = length p)); [done|]. rewrite (proj2 (Hat j Hjl)) in Hz. rewrite lookup_app_l in Hz by lia.
      destruct (lookup_lt_is_Some_2 p j ltac:(lia)) as [x Hx]. rewrite Hx in Hz. cbn in Hz. subst x.
      apply (Forall_lookup_1 _ _ _ _ Ht) in Hx. lia. }
    f_equal. rewrite length_app, ubytes_app in Hbytes. apply app_inj_1 in Hbytes as [? _]; [done|by rewrite length_ubytes].
  - rewrite (proj1 (Hat j (Hle j Htx))) in Hr. done.
  - apply Hle in Htx. lia.
Qed.

Lemma user_path_in_buf k p : buf_ok buf r (k_vm k) → text p → len p < VFS_MAX_PATH → is_Some (current k) →
  ubytes (length (p ++ [0])) (vm_mem (k_vm k)) (vmm_current_pml4 (k_vm k)) buf = p ++ [0] →
  user_path buf k = Ret (resolve_path (cwd_of k) p VFS_MAX_PATH, k).
Proof.
  intros Hb Ht Hl [[i t] Hc] Hbytes. unfold user_path, mbind, M_bind, in_vm, zoom.
  rewrite (string_in_buf (k_vm k) p Hb Ht Hl Hbytes), set_vm_same. cbn [fst snd Z.ltb Z.compare].
  unfold gets, mret, M_ret, cwd_of. by rewrite Hc.
Qed.

(** A new descriptor table for the running task. *)
Definition with_files (fs : list file) (k : kernel S) : kernel S :=
  Kernel (k_vm k) (update_task (set_files fs) c (k_sched k)) (k_fs k) (k_keys k) (k_out k).

Lemma with_files_current fs k t : current k = Some (c, t) → current (with_files fs k) = Some (c, set_files fs t).
Proof.
  unfold current. cbn. destruct (current_task (k_sched k)) as [i|]; [|done]. cbn.
  destruct (tasks (k_sched k) !! i) as [u|] eqn:Eu; [|done]. cbn. intros [= -> ->]. by rewrite lookup_alter_eq, Eu.
Qed.

Lemma with_files_ok fs k : program_ok k → len fs = VFS_MAX_FDS → get_file fs 2 = None →
  program_ok (with_files fs k) ∧ files_of (with_files fs k) = fs ∧ cwd_of (with_files fs k) = cwd_of k.
Proof.
  intros [(t & Ht & _) Hb] Hl H2. pose proof (with_files_current fs k t Ht) as Hc. split; [|split].
  - constructor; [|done]. by exists (set_files fs t).
  - unfold files_of. by rewrite Hc.
  - unfold cwd_of. by rewrite Hc, Ht.
Qed.

(** The effect of a table [fs] with [f] on [fd] (none, for [None]). *)
Definition updated (fd : Z) (o : option file) (files fs : list file) : Prop :=
  len fs = VFS_MAX_FDS ∧ ∀ i, get_file fs i = if i =? fd then o else get_file files i.

Lemma close_updated files fd : len files = VFS_MAX_FDS → 0 <= fd < VFS_MAX_FDS → updated fd None files (vfs_close_in files fd).
Proof.
  intros Hl Hfd. unfold vfs_close_in. rewrite (proj2 (Z.leb_le _ _)), (proj2 (Z.ltb_lt _ _)) by lia. cbn [andb]. split; [by rewrite length_alter|].
  intros i. unfold get_file. destruct ((i <? 0) || (VFS_MAX_FDS <=? i)) eqn:Er; [by case_if|].
  apply orb_false_iff in Er as [Hi0 Hi1]. b2p. destruct (Z.eqb_spec i fd) as [->|Hne].
  - rewrite list_lookup_alter_eq. by destruct (files !! Z.to_nat fd).
  - rewrite list_lookup_alter_ne by lia. done.
Qed.

Lemma insert_updated files fd f : len files = VFS_MAX_FDS → 0 <= fd < VFS_MAX_FDS → f_valid f = true →
  updated fd (Some f) files (<[Z.to_nat fd := f]> files).
Proof.
  intros Hl Hfd Hv. split; [by rewrite length_insert|]. intros i. unfold get_file.
  destruct ((i <? 0) || (VFS_MAX_FDS <=? i)) eqn:Er.
  { destruct (Z.eqb_spec i fd) as [->|]; [|done]. apply orb_true_iff in Er as [?|?]; b2p; lia. }
  apply orb_false_iff in Er as [Hi0 Hi1]. b2p. destruct (Z.eqb_spec i fd) as [->|Hne].
  - rewrite list_lookup_insert_eq by lia. by rewrite Hv.
  - rewrite list_lookup_insert_ne by lia. done.
Qed.

Lemma open_updated fs files path : len files = VFS_MAX_FDS → spare (get_file files) →
  let '(fd, files') := vfs_open_in stack_tail fs files path in
  match open_at fs path with
  | Some f => 3 <= fd < VFS_MAX_FDS ∧ get_file files fd = None ∧ updated fd (Some f) files files'
  | None => fd = -1 ∧ files' = files
  end.
Proof.
  intros Hl (i0 & Hi0 & Hsp). unfold vfs_open_in, open_at. destruct (vfs_lookup stack_tail fs path) as [i|]; cbn; [|done].
  pose proof (first_free_spec (drop 3 files) 3) as H. rewrite length_drop in H.
  destruct (first_free 3 (drop 3 files)) as [fd|]; cbn.
  2: { unfold get_file, VFS_MAX_FDS in *. rewrite (proj2 (Z.ltb_ge _ _)), (proj2 (Z.leb_gt _ _)) in Hsp by lia. cbn in Hsp.
       destruct (lookup_lt_is_Some_2 files (Z.to_nat i0) ltac:(lia)) as [g Hg]. rewrite Hg in Hsp.
       rewrite (H (Z.to_nat (i0 - 3)) g) in Hsp; [done|]. rewrite lookup_drop. rewrite <- Hg. f_equal. lia. }
  destruct H as (Hfd & (f & Hf & Hinv) & _). rewrite lookup_drop in Hf.
  replace (3 + Z.to_nat (fd - 3))%nat with (Z.to_nat fd) in Hf by lia.
  assert (3 <= fd < VFS_MAX_FDS) as Hr by lia. split; [done|]. split.
  - unfold get_file. rewrite Hf, Hinv. by case_if.
  - apply insert_updated; [done|lia|done].
Qed.

(** ** The calls *)

Lemma same_current v (k : kernel S) : current (set_vm v k) = current k.
Proof. done. Qed.

(** A call that passes a path; [K] is the kernel after it. *)
Lemma path_call (e : sysE Z) impl k p ret (K : vm S → kernel S) : program_ok k → text p → 0 < len p < 256 →
  call_setup buf e = Some (p ++ [0], (buf, 0, 0, 0)) →
  syscall_table can_alloc fresh stack_tail new_task exec_alloc stack_byte page (call_number e) = Some (plain (λ f, impl (fr_rdi f))) →
  (∀ k' : kernel S, call_answer buf e ret k' = ret) → - 2^63 <= ret < 2^63 →
  (∀ v', user_path buf (set_vm v' k) = Ret (resolve_path (cwd_of k) p VFS_MAX_PATH, set_vm v' k) →
     impl buf (set_vm v' k) = Ret (ret, K v')) →
  ∃ v', calls _ e k = Some (ret, K v') ∧ buf_ok buf r v'.
Proof.
  intros [(t & Ht & _) Hb] Htx Hl Hsu Htab Hans Hret Himpl.
  assert (bytes (p ++ [0])) as Hby by (apply Forall_app; split; [by apply text_bytes|by repeat constructor]).
  assert (len (p ++ [0]) <= PAGE_SIZE) as Hlen by (rewrite length_app; cbn; unfold PAGE_SIZE; lia).
  destruct (store_in_buf buf r (k_vm k) (p ++ [0]) Hb Hlen Hby) as (v' & Hst & Hok' & Hbytes).
  exists v'. split; [|done]. rewrite <- (Hans (K v')).
  eapply (calls_return _ _ _ _ _ _ _ _ Z e (p ++ [0])); [exact Hsu|exact Hst|exact Htab| |done].
  cbn [frame_for fr_rdi]. apply Himpl.
  apply (user_path_in_buf (set_vm v' k) p); [done|done|unfold VFS_MAX_PATH; lia|by rewrite same_current, Ht|done].
Qed.

(** A call that passes numbers. *)
Lemma number_call (e : sysE Z) impl a b k ret k' : program_ok k → call_setup buf e = Some ([], (a, b, 0, 0)) →
  syscall_table can_alloc fresh stack_tail new_task exec_alloc stack_byte page (call_number e) = Some (plain (λ f, impl (fr_rdi f) (fr_rsi f))) →
  call_answer buf e ret k' = ret → - 2^63 <= ret < 2^63 → impl a b k = Ret (ret, k') →
  calls _ e k = Some (ret, k').
Proof.
  intros [_ Hb] Hsu Htab Hans Hret Himpl. rewrite <- Hans at 1.
  eapply (calls_return _ _ _ _ _ _ _ _ Z e [] _ k (k_vm k)); [exact Hsu|reflexivity|exact Htab| |done]. by rewrite set_vm_same.
Qed.

Lemma set_vm_ok v k : program_ok k → buf_ok buf r v → program_ok (set_vm v k).
Proof. intros [Ht _] Hb. by constructor. Qed.

Lemma resolve_error cwd p e : resolve_path cwd p VFS_MAX_PATH = inl e → e = - EINVAL.
Proof.
  assert (∀ q, normalize_absolute_path q VFS_MAX_PATH = inl e → e = - EINVAL) as Hn.
  { intros q. destruct (decide (head q = Some slash)) as [Hh|Hh].
    - rewrite normalize_walk by done. case_match; congruence.
    - unfold normalize_absolute_path. rewrite (bool_decide_eq_false_2 _ Hh). cbn. congruence. }
  unfold resolve_path. destruct p as [|ch p]; [congruence|]. case_if; [apply Hn|].
  destruct cwd as [d|]; [|congruence]. case_if; [congruence|apply Hn].
Qed.

(** A kernel after the current task's table became [files] and the files [fs]. *)
Lemma opened_ok k t v fs fd o files : program_ok k → current k = Some (c, t) → buf_ok buf r v →
  3 <= fd < VFS_MAX_FDS → updated fd o (t_files t) files →
  let k' := with_files files (set_fs fs (set_vm v k)) in
  program_ok k' ∧ (∀ i, held k' i = if i =? fd then o else held k i) ∧ cwd_of k' = cwd_of k.
Proof.
  intros Hok Hc Hb Hfd [Hlen Hup] k'. pose proof Hok as [(t' & Hc' & Hlf & H2) _]. assert (t' = t) as -> by congruence.
  assert (program_ok (set_fs fs (set_vm v k))) as Hok1 by (constructor; [by exists t|done]).
  destruct (with_files_ok files _ Hok1 Hlen) as (Hok2 & Hf & Hcwd).
  { rewrite Hup. by rewrite (proj2 (Z.eqb_neq 2 fd)) by lia. }
  split; [exact Hok2|]. split; [|exact Hcwd]. intros i. unfold held. unfold k'. rewrite Hf, Hup. unfold files_of. by rewrite Hc.
Qed.

(** The same table again. *)
Lemma same_ok k t v fs : program_ok k → current k = Some (c, t) → buf_ok buf r v →
  let k' := with_files (t_files t) (set_fs fs (set_vm v k)) in program_ok k' ∧ (∀ i, held k' i = held k i).
Proof.
  intros Hok Hc Hb k'. pose proof Hok as [(t' & Hc' & Hlf & H2) _]. assert (t' = t) as -> by congruence.
  assert (program_ok (set_fs fs (set_vm v k))) as Hok1 by (constructor; [by exists t|done]).
  destruct (with_files_ok (t_files t) _ Hok1 Hlf H2) as (Hok2 & Hf & _). split; [exact Hok2|].
  intros i. unfold held, k'. rewrite Hf. unfold files_of. by rewrite Hc.
Qed.

Lemma creates_same k k' : k_fs k' = k_fs k → cwd_of k' = cwd_of k → ∀ q, creates k' q = creates k q.
Proof. intros E1 E2 q. unfold creates. by rewrite E1, E2. Qed.

Lemma kernel_open k p : program_ok k → text p → 0 < len p < 256 → spare (held k) →
  match opens k p with
  | Some f => ∃ fd k', calls _ (SysOpen p) k = Some (fd, k') ∧ program_ok k' ∧ 3 <= fd < 2^31 ∧ held k fd = None ∧
      (∀ i, held k' i = if i =? fd then Some f else held k i) ∧ (∀ q, creates k' q = creates k q) ∧
      k_fs k' = k_fs k ∧ k_out k' = k_out k
  | None => ∃ ret k', calls _ (SysOpen p) k = Some (ret, k') ∧ program_ok k' ∧ ret < 0 ∧ (∀ i, held k' i = held k i)
  end.
Proof.
  intros Hok Ht Hl Hsp. pose proof Hok as [(t & Hc & Hlf & H2) Hb].
  assert (held k = get_file (t_files t)) as Hh by (unfold held, files_of; by rewrite Hc). rewrite Hh in Hsp.
  pose proof (λ ret, path_call (SysOpen p) (sys_open_impl stack_tail) k p ret) as Hcall.
  unfold opens. destruct (resolve_path (cwd_of k) p VFS_MAX_PATH) as [e|path] eqn:Hp.
  { apply resolve_error in Hp as ->. destruct (Hcall (- EINVAL) (λ v, set_vm v k)) as (v' & Hcl & Hb'); try done.
    { intros v' Hup. unfold sys_open_impl, mbind, M_bind. by rewrite Hup. }
    eexists _, _. split; [exact Hcl|]. split; [by apply set_vm_ok|done]. }
  pose proof (open_updated (k_fs k) (t_files t) path Hlf Hsp) as Hop.
  destruct (vfs_open_in stack_tail (k_fs k) (t_files t) path) as [fd files] eqn:Hvo.
  destruct (Hcall fd (λ v, with_files files (set_fs (k_fs k) (set_vm v k)))) as (v' & Hcl & Hb'); try done.
  { destruct (open_at (k_fs k) path); unfold VFS_MAX_FDS in *; lia. }
  { intros v' Hup. unfold sys_open_impl, mbind, M_bind. rewrite Hup. unfold gets. rewrite same_current, Hc. cbn [k_fs set_vm]. by rewrite Hvo. }
  destruct (open_at (k_fs k) path) as [f|].
  - destruct Hop as (Hfd & Hfree & Hup). destruct (opened_ok k t v' (k_fs k) fd (Some f) files Hok Hc Hb' Hfd Hup) as (Hok' & Hi & Hcwd).
    eexists _, _. split; [exact Hcl|]. split; [exact Hok'|]. split; [unfold VFS_MAX_FDS in *; lia|]. split; [by rewrite Hh|]. split; [done|].
    split; [by apply creates_same|done].
  - destruct Hop as [-> ->]. destruct (same_ok k t v' (k_fs k) Hok Hc Hb') as (Hok' & Hi). eexists _, _. split; [exact Hcl|]. done.
Qed.

Lemma kernel_creat k p : program_ok k → text p → 0 < len p < 256 → spare (held k) →
  match creates k p with
  | Some f => ∃ fd k', calls _ (SysCreat p) k = Some (fd, k') ∧ program_ok k' ∧ 3 <= fd < 2^31 ∧ held k fd = None ∧
      (∀ i, held k' i = if i =? fd then Some f else held k i)
  | None => ∃ ret k', calls _ (SysCreat p) k = Some (ret, k') ∧ program_ok k' ∧ ret < 0 ∧ (∀ i, held k' i = held k i)
  end.
Proof.
  intros Hok Ht Hl Hsp. pose proof Hok as [(t & Hc & Hlf & H2) Hb].
  assert (held k = get_file (t_files t)) as Hh by (unfold held, files_of; by rewrite Hc). rewrite Hh in Hsp.
  pose proof (λ ret, path_call (SysCreat p) (sys_creat_impl can_alloc fresh stack_tail) k p ret) as Hcall.
  unfold creates. destruct (resolve_path (cwd_of k) p VFS_MAX_PATH) as [e|path] eqn:Hp.
  { apply resolve_error in Hp as ->. destruct (Hcall (- EINVAL) (λ v, set_vm v k)) as (v' & Hcl & Hb'); try done.
    { intros v' Hup. unfold sys_creat_impl, mbind, M_bind. by rewrite Hup. }
    eexists _, _. split; [exact Hcl|]. split; [by apply set_vm_ok|done]. }
  destruct (vfs_create_file can_alloc fresh stack_tail path None 0 (k_fs k)) as [rc fs'] eqn:Hcr.
  assert (∀ v', user_path buf (set_vm v' k) = Ret (inr path, set_vm v' k) →
    sys_creat_impl can_alloc fresh stack_tail buf (set_vm v' k) =
      if rc =? 0 then let '(fd, files) := vfs_open_in stack_tail fs' (t_files t) path in
        Ret (fd, with_files files (set_fs fs' (set_vm v' k)))
      else Ret (- ENOENT, set_fs fs' (set_vm v' k))) as Hrun.
  { intros v' Hup. unfold sys_creat_impl, mbind, M_bind. rewrite Hup. unfold gets. rewrite same_current, Hc. cbn [k_fs set_vm].
    rewrite Hcr. unfold modify. destruct (rc =? 0); cbn [negb]; [|done]. by destruct (vfs_open_in stack_tail fs' (t_files t) path). }
  destruct (rc =? 0).
  2: { destruct (Hcall (- ENOENT) (λ v, set_fs fs' (set_vm v k))) as (v' & Hcl & Hb'); try done.
       eexists _, _. split; [exact Hcl|]. split; [by constructor; [exists t|]|done]. }
  pose proof (open_updated fs' (t_files t) path Hlf Hsp) as Hop.
  destruct (vfs_open_in stack_tail fs' (t_files t) path) as [fd files] eqn:Hvo.
  destruct (Hcall fd (λ v, with_files files (set_fs fs' (set_vm v k)))) as (v' & Hcl & Hb'); try done.
  { destruct (open_at fs' path); unfold VFS_MAX_FDS in *; lia. }
  destruct (open_at fs' path) as [f|].
  - destruct Hop as (Hfd & Hfree & Hup). destruct (opened_ok k t v' fs' fd (Some f) files Hok Hc Hb' Hfd Hup) as (Hok' & Hi & _).
    eexists _, _. split; [exact Hcl|]. split; [exact Hok'|]. split; [unfold VFS_MAX_FDS in *; lia|]. split; [by rewrite Hh|done].
  - destruct Hop as [-> ->]. destruct (same_ok k t v' fs' Hok Hc Hb') as (Hok' & Hi). eexists _, _. split; [exact Hcl|]. done.
Qed.

Lemma held_range k fd f : held k fd = Some f → 0 <= fd < VFS_MAX_FDS ∧ f_valid f = true ∧ get_file (files_of k) fd = Some f.
Proof.
  unfold held, get_file. intros H. destruct ((fd <? 0) || (VFS_MAX_FDS <=? fd)) eqn:E; [done|].
  apply orb_false_iff in E as [? ?]. b2p. split; [lia|]. split; [|done]. repeat case_match; by simplify_eq.
Qed.

(** A new table with one descriptor other than 2 changed. *)
Lemma moved_ok k t fd o files : program_ok k → current k = Some (c, t) → fd ≠ 2 → updated fd o (t_files t) files →
  let k' := with_files files k in
  program_ok k' ∧ (∀ i, held k' i = if i =? fd then o else held k i) ∧ (∀ q, creates k' q = creates k q).
Proof.
  intros Hok Hc Hfd [Hlen Hup] k'. pose proof Hok as [(t' & Hc' & Hlf & H2) _]. assert (t' = t) as -> by congruence.
  destruct (with_files_ok files k Hok Hlen) as (Hok2 & Hf & Hcwd).
  { rewrite Hup. by rewrite (proj2 (Z.eqb_neq 2 fd)) by lia. }
  split; [exact Hok2|]. split; [|by apply creates_same]. intros i. unfold held, k'. rewrite Hf, Hup. unfold files_of. by rewrite Hc.
Qed.

Lemma fd_register fd : 0 <= fd < 2^31 → s32 (u64 fd) = fd.
Proof. intros H. rewrite u64_small by lia. unfold s32. rewrite Z.mod_small by lia. lia. Qed.

Lemma kernel_dup2 k old new f : program_ok k → held k old = Some f → 3 <= old < 2^31 → 0 <= new <= 1 →
  ∃ k', calls _ (SysDup2 old new) k = Some (new, k') ∧ program_ok k' ∧ (∀ i, held k' i = if i =? new then Some f else held k i) ∧
    (∀ q, creates k' q = creates k q).
Proof.
  intros Hok Hf Ho Hn. pose proof Hok as [(t & Hc & Hlf & H2) Hb]. destruct (held_range k old f Hf) as (Hr & Hv & Hget).
  unfold files_of in Hget. rewrite Hc in Hget.
  assert (updated new (Some f) (t_files t) (<[Z.to_nat new := f]> (t_files t))) as Hup.
  { apply insert_updated; [done|unfold VFS_MAX_FDS in *; lia|done]. }
  destruct (moved_ok k t new (Some f) _ Hok Hc ltac:(lia) Hup) as (Hok' & Hi & Hcr). eexists. split; [|done].
  eapply (number_call (SysDup2 old new) (λ a b, sys_dup2_impl (s32 a) (s32 b)) (u64 old) (u64 new)); try done; [lia|].
  rewrite !fd_register by lia. unfold sys_dup2_impl, mbind, M_bind, gets. rewrite Hc, Hget.
  rewrite (proj2 (Z.ltb_ge new 0)), (proj2 (Z.leb_gt VFS_MAX_FDS new)), (proj2 (Z.eqb_neq old new)) by (unfold VFS_MAX_FDS in *; lia).
  done.
Qed.

Lemma kernel_close k fd f : program_ok k → held k fd = Some f → 3 <= fd < 2^31 →
  ∃ ret k', calls _ (SysClose fd) k = Some (ret, k') ∧ program_ok k' ∧ (∀ i, held k' i = if i =? fd then None else held k i) ∧
    (∀ q, creates k' q = creates k q) ∧ k_out k' = k_out k.
Proof.
  intros Hok Hf Ho. pose proof Hok as [(t & Hc & Hlf & H2) Hb]. destruct (held_range k fd f Hf) as (Hr & Hv & Hget).
  unfold files_of in Hget. rewrite Hc in Hget.
  pose proof (close_updated (t_files t) fd Hlf Hr) as Hup.
  destruct (moved_ok k t fd None _ Hok Hc ltac:(lia) Hup) as (Hok' & Hi & Hcr). eexists 0, _. split; [|done].
  eapply (number_call (SysClose fd) (λ a _, sys_close_impl (s32 a)) (u64 fd) 0); try done.
  rewrite fd_register by lia. unfold sys_close_impl, mbind, M_bind, gets. rewrite Hc, Hget.
  rewrite bool_decide_eq_true_2 by eauto. done.
Qed.

Lemma kernel_write k l : program_ok k → bytes l → 0 < len l <= 4096 →
  ∃ ret k', calls _ (SysWrite 2 l) k = Some (ret, k') ∧ program_ok k' ∧ (∀ i, held k' i = held k i).
Proof.
  intros Hok Hb Hl. pose proof Hok as [(t & Hc & Hlf & H2) Hbuf].
  destruct (write_to_console can_alloc fresh stack_tail new_task exec_alloc stack_byte page buf r k 2 l) as (v' & Hcl & Hb'); try done.
  - by right.
  - unfold fd_unused. rewrite Hc, H2. done.
  - eexists _, _. split; [exact Hcl|]. split; [|done]. constructor; [by exists t|done].
Qed.

#[local] Instance kernel_descriptors : Descriptors calls program_ok held opens creates (λ _ _, True).
Proof.
  constructor.
  - intros k p Hok Ht Hl Hsp. pose proof (kernel_open k p Hok Ht Hl Hsp) as H. destruct (opens k p) as [f|]; [|done].
    destruct H as (fd & k' & H1 & H2 & H3 & H4 & H5 & H6 & _). exists fd, k'. done.
  - intros k p Hok Ht Hl Hsp. pose proof (kernel_creat k p Hok Ht Hl Hsp) as H. destruct (creates k p) as [f|]; [|done].
    destruct H as (fd & k' & H1 & H2 & H3 & H4 & H5). exists fd, k'. done.
  - intros k old new f Hok Hf Ho Hn. destruct (kernel_dup2 k old new f Hok Hf Ho Hn) as (k' & H1 & H2 & H3 & H4). by exists k'.
  - intros k fd f Hok Hf Ho. destruct (kernel_close k fd f Hok Hf Ho) as (ret & k' & H1 & H2 & H3 & H4 & _). by exists ret, k'.
  - intros k l Hok Hb Hl. apply (kernel_write k l Hok Hb Hl).
  - done.
  - done.
Qed.

(** C13: The child of a shell command on the kernel: its open, creat, dup2 and close calls
    put the file of [<] on descriptor 0 and the file of [>] on 1, leave no descriptor
    of theirs open, and the child then stops in the execve of the program; when a file
    cannot be had it exits with 126 instead. *)
Theorem redirections_on_kernel (k : kernel S) (path : list Z) (argv : list (list Z)) (io : command_io) :
  program_ok k → good_path (io_input io) → good_path (io_output io) → spare (held k) →
  pwp calls (child_stops held opens creates path argv io k) (λ _ _, False) (child_main path argv io) k.
Proof. intros Hok Hin Hout Hsp. by apply (child_steps calls program_ok held opens creates (λ _ _, True)). Qed.

End Files.

(** ** A concrete kernel: the file system as it is after boot *)

Definition w_system : kernel pmm_state := set_fs boot_vfs w_kernel.

Lemma w_system_ok : program_ok 0x50000000 0 space_root w_system.
Proof. constructor; [|exact w_buf_ok]. exists w_task. split_and!; reflexivity. Qed.

Lemma w_spare : spare (held w_system).
Proof. exists 3. split; [lia|reflexivity]. Qed.

Abbreviation w_calls := (kernel_calls always zeroed [] (λ _, None) (λ _, true) 0 (arr_fill 0) 0x50000000).

(** [cat < /etc/hostname > /tmp/copy] *)
Lemma redirections_on_kernel_witness :
  pwp w_calls (λ T e k', match e with
      | SysExecve p a _ => p = chars "/bin/cat" ∧ a = [chars "cat"] ∧ held k' 0 = Some (File 6 0 true) ∧
          is_Some (held k' 1) ∧ held k' 3 = None
      | _ => False
      end) (λ _ _, False)
    (child_main (chars "/bin/cat") [chars "cat"] (CommandIo (Some (chars "/etc/hostname")) (Some (chars "/tmp/copy")))) w_system.
Proof.
  eapply (pwp_mono _ _ _ (λ _ _, False)); [|done|].
  - apply (redirections_on_kernel always zeroed [] (λ _, None) (λ _, true) 0 (arr_fill 0) 0x50000000 0 space_root w_system
      (chars "/bin/cat") [chars "cat"]); [exact w_system_ok| | |exact w_spare].
    + split; [by repeat constructor|split; vm_compute; reflexivity].
    + split; [by repeat constructor|split; vm_compute; reflexivity].
  - unfold child_stops. cbn [io_input io_output file_of mbind option_bind].
    assert (opens [] w_system (chars "/etc/hostname") = Some (File 6 0 true)) as -> by (vm_compute; reflexivity).
    assert (is_Some (creates always zeroed [] w_system (chars "/tmp/copy"))) as [f ->] by (vm_compute; eauto).
    intros T e k' H. unfold stops_in in H. destruct e; try done. destruct H as (-> & -> & _ & Hi).
    split_and!; [done|done|by rewrite Hi|rewrite Hi; by eexists|by rewrite Hi].
Defined.
