(* ===== verification/UserCat.v ===== *)
(** * Copying a file to the console: [cat] on the kernel. *)

From ITree Require Import ITree.
From S2P Require Import Prelude Memory Frames Pmm PmmInv PmmProps Vmm VmmInv VmmOps VmmCow VmmProps Kbd Vfs.
From S2P Require Import VfsInv VfsProps Path PathProps Exec Sched Uaccess UaccessInv UaccessWrite.
From S2P Require Import UaccessProps Usermem UsermemInv UsermemProps Syscall SyscallProps User UserSem Sh.
From S2P Require Import ShParse ShProps UserProps UserKernel UserFiles.
Import StringC.

(** ** What cat needs: a descriptor it can read to the end, and an output. *)

Class Stream {W : Type} (h : handler W) (ok : W → Prop) (fd : Z) (rest screen : W → list Z) : Prop := {
  stream_bytes w : ok w → bytes (rest w);
  stream_read w : ok w → let l := take 96 (rest w) in
    ∃ w', h _ (SysRead fd 96) w = Some ((len l, l), w') ∧ ok w' ∧ rest w' = drop 96 (rest w) ∧ screen w' = screen w;
  stream_write w l : ok w → bytes l → 0 < len l <= 4096 →
    ∃ r w', h _ (SysWrite 1 l) w = Some (r, w') ∧ ok w' ∧ rest w' = rest w ∧ screen w' = screen w ++ l;
}.

Section Cat.
Context {W : Type} (h : handler W) (ok : W → Prop) (fd : Z) (rest screen : W → list Z).
Context `{St : !Stream h ok fd rest screen}.

(** cat copies what is left of the stream, whatever its length, and stops. *)
Lemma cat_steps label w : ok w → runs h (λ rc w', rc = 0 ∧ ok w' ∧ rest w' = [] ∧ screen w' = screen w ++ rest w) (cat_fd fd label) w.
Proof.
  remember (length (rest w)) as n eqn:Hn. revert w Hn. induction (lt_wf n) as [n _ IH]. intros w Hn Hok.
  apply pwp_iter. destruct (stream_read w Hok) as (w1 & Hh & Hok1 & Hr1 & Hs1). eapply pwp_call; [exact Hh|]. cbn [fst snd].
  rewrite (proj2 (Z.ltb_ge (len (take 96 (rest w))) 0)) by lia. destruct (rest w) as [|b l] eqn:Er.
  - apply pwp_ret. rewrite Hr1, Hs1, app_nil_r. done.
  - set (chunk := take 96 (b :: l)) in *. assert (0 < len chunk <= 96) as Hc by (unfold chunk; rewrite length_take; cbn [length]; lia).
    rewrite (proj2 (Z.eqb_neq (len chunk) 0)) by lia. rewrite Nat2Z.id, firstn_all.
    assert (bytes chunk) as Hb by (apply Forall_take; rewrite <- Er; by apply stream_bytes).
    destruct (stream_write w1 chunk Hok1 Hb ltac:(lia)) as (r & w2 & Hw & Hok2 & Hr2 & Hs2).
    eapply pwp_call; [exact Hw|]. apply pwp_ret. eapply pwp_mono; [|..].
    { eapply (IH (length (rest w2))); [|reflexivity|exact Hok2]. rewrite Hr2, Hr1, length_drop. rewrite Hn. cbn [length]. lia. }
    2: done. intros rc w' (-> & Hok' & He & Hs). split_and!; [done|done|done|].
    rewrite Hs, Hs2, Hs1, Hr2, Hr1, <- app_assoc. f_equal. apply take_drop.
Qed.

End Cat.

Section Kernel.
Context {S : Type} `{FA : FrameAllocator S}.
Context (can_alloc : Z → vfs → bool) (fresh : vfs → array) (stack_tail : list Z).
Context (new_task : kernel S → option (nat * Z)) (exec_alloc : kernel S → bool) (stack_byte : Z) (page : mem).
Context (buf : Z) (c : nat) (r : Z).
Abbreviation calls := (kernel_calls can_alloc fresh stack_tail new_task exec_alloc stack_byte page buf).

(** Task [c] has the regular file [n] of the file system [fs] open on [fd], and writes
    to descriptor 1 go to the console; [g] are its other descriptors. *)
Context (fs : vfs) (fd : Z) (n : vnode) (g : Z → option file).
Record cat_ok (k : kernel S) : Prop := {
  ca_task : ∃ t f, current k = Some (c, t) ∧ len (t_files t) = VFS_MAX_FDS ∧
    opened (t_files t) fd f ∧ nodes fs !! f_vnode f = Some n ∧ 0 <= f_offset f < 2^31;
  ca_fs : k_fs k = fs;
  ca_file : vn_ops n = tmpfs_file_ops ∧ size_ok n ∧ bytes (contents n);
  ca_fd : fd ≠ 1 ∧ g 1 = None;
  ca_others d : d ≠ fd → held k d = g d;
  ca_buf : buf_ok buf r (k_vm k);
}.

(** What is left to read. *)
Definition left_of (k : kernel S) : list Z :=
  match held k fd with Some f => drop (Z.to_nat (f_offset f)) (contents n) | None => [] end.

Lemma left_opened k t f : current k = Some (c, t) → opened (t_files t) fd f →
  left_of k = drop (Z.to_nat (f_offset f)) (contents n).
Proof. intros Hc Ho. unfold left_of, held, files_of. rewrite Hc. by rewrite (get_file_opened _ _ _ Ho). Qed.

Lemma no_key_read t : is_Some (get_file (t_files t) fd) → (fd =? 0) && fd_unused (Some (c, t)) 0 = false.
Proof.
  intros H. destruct (Z.eqb_spec fd 0) as [E|]; [|done]. cbn [andb fd_unused]. rewrite E in H.
  by rewrite bool_decide_eq_true_2.
Qed.

Lemma get_file_advance m files d : d ≠ fd → 0 <= fd → get_file (advance m fd files) d = get_file files d.
Proof.
  intros H H0. unfold get_file. destruct ((d <? 0) || (VFS_MAX_FDS <=? d)) eqn:E; [done|]. apply orb_false_iff in E as [? _]. b2p.
  by rewrite advance_other by lia.
Qed.

(** The loop of the read call on a file: one chunk holds all that is asked for. *)
Lemma read_loop_file k t l files v' : current k = Some (c, t) → vfs_read_in (k_fs k) (t_files t) fd 96 = (len l, l, files) →
  len l <= 96 → u64 (buf + 0) = buf → copy_to_user buf l (len l) (k_vm k) = Ret (0, v') →
  read_loop (Z.to_nat 96) fd buf 0 96 k = Ret (len l, set_vm v' (with_files c files k)).
Proof.
  intros Hc Hrd Hl Hbu Hst. assert (∃ m, Z.to_nat 96 = Datatypes.S m) as [m ->] by (by exists 95%nat). cbn [read_loop].
  change (0 <? 96) with true. change (MIN CHUNK (96 - 0)) with 96. cbv iota zeta.
  unfold mbind, M_bind, gets. rewrite Hc, Hrd. unfold change_task, modify. rewrite (proj2 (Z.ltb_ge (len l) 0)) by lia.
  destruct (Z.eqb_spec (len l) 0) as [E|E].
  { assert (l = []) as -> by (by destruct l). change (Ret (0, k_vm k) = Ret (0, v')) in Hst. by injection Hst as <-. }
  unfold in_vm, zoom. rewrite Hbu. cbn [k_vm]. rewrite Hst.
  change (0 <? 0) with false. cbv iota. rewrite Z.add_0_l. destruct (len l <? 96) eqn:E96; [done|].
  b2p. assert (len l = 96) as -> by lia. destruct m; done.
Qed.

Lemma cat_read k : cat_ok k → let l := take 96 (left_of k) in
  ∃ k', calls _ (SysRead fd 96) k = Some ((len l, l), k') ∧ cat_ok k' ∧ left_of k' = drop 96 (left_of k) ∧ k_out k' = k_out k.
Proof.
  intros [(t & f & Hc & Hlf & Ho & Hn & Hoff) Hfs (Hops & Hsz & Hby) Hfd Hg Hb] l.
  pose proof (left_opened k t f Hc Ho) as Hleft.
  destruct (vfs_read_in_steps fs (t_files t) fd f n 96 Ho Hn Hops Hsz ltac:(lia) ltac:(lia)) as [Hrd Ho'].
  change (Z.to_nat 96) with 96%nat in *. rewrite <- Hleft in Hrd, Ho'. fold l in Hrd, Ho'.
  set (files := advance (len l) fd (t_files t)) in *.
  assert (len l <= 96) as Hl by (unfold l; rewrite length_take; lia).
  assert (bytes l) as Hbl by (apply Forall_take; rewrite Hleft; by apply Forall_drop).
  destruct (store_in_buf buf r (k_vm k) l Hb ltac:(unfold PAGE_SIZE; lia) Hbl) as (v' & Hst & Hb' & Hbytes).
  set (k' := set_vm v' (with_files c files k)).
  assert (current k' = Some (c, set_files files t)) as Hc' by apply (with_files_current c files k t Hc).
  assert (len l = 96 ∨ l = left_of k) as Hcase.
  { unfold l. destruct (decide (96 <= length (left_of k))%nat) as [Hge|Hlt]; [left; rewrite length_take; lia|right; apply take_ge; lia]. }
  exists k'. split; [|split; [|split; [|done]]].
  - assert (call_answer buf (SysRead fd 96) (len l) k' = (len l, l)) as <-.
    { cbn [call_answer]. f_equal. unfold loaded. rewrite Nat2Z.id. exact Hbytes. }
    eapply (calls_return _ _ _ _ _ _ _ _ _ (SysRead fd 96) [] _ k (k_vm k) _ (len l)); [reflexivity|reflexivity|reflexivity| |lia].
    rewrite set_vm_same. cbn [frame_for call_number fr_rdi fr_rsi fr_rdx].
    pose proof Ho as Ho1. destruct Ho as (Hr & _ & _). rewrite fd_register by (unfold VFS_MAX_FDS in *; lia).
    unfold sys_read_impl, mbind, M_bind, gets. rewrite Hc, no_key_read by (rewrite (get_file_opened _ _ _ Ho1); eauto).
    rewrite <- Hfs in Hrd. apply (read_loop_file k t l files v' Hc Hrd Hl); [|done].
    destruct (buf_user buf r (k_vm k) 1 buf Hb ltac:(done) ltac:(lia)) as [? _].
    rewrite Z.add_0_r. apply u64_small. unfold USER_SPACE_TOP in *. lia.
  - constructor; [|done|done|done| |done].
    + exists (set_files files t), (File (f_vnode f) (f_offset f + len l) true).
      split_and!; [done|cbn; unfold files; by rewrite length_advance|done|done|cbn; lia|]. cbn [f_offset].
      pose proof (size_ok_bound n Hsz). pose proof (contents_length n Hsz) as Hcl. unfold l. rewrite Hleft, length_take, length_drop. lia.
    + intros d Hd. rewrite <- (Hg d Hd). unfold held, files_of. rewrite Hc, Hc'. cbn [t_files set_files]. unfold files.
      apply get_file_advance; [done|apply Ho].
  - rewrite (left_opened k' (set_files files t) _ Hc' Ho'). cbn [f_offset]. rewrite Hleft, drop_drop.
    destruct Hcase as [->|El]; [f_equal; lia|].
    pose proof (f_equal length El) as Hlen. rewrite Hleft, length_drop in Hlen. rewrite !drop_ge by lia. done.
Qed.

Lemma cat_write k l : cat_ok k → bytes l → 0 < len l <= 4096 →
  ∃ ret k', calls _ (SysWrite 1 l) k = Some (ret, k') ∧ cat_ok k' ∧ left_of k' = left_of k ∧ k_out k' = k_out k ++ l.
Proof.
  intros [(t & f & Hc & Hlf & Ho) Hfs Hn [Hfd H1] Hg Hb] Hbl Hl.
  destruct (write_to_console can_alloc fresh stack_tail new_task exec_alloc stack_byte page buf r k 1 l) as (v' & Hcl & Hb'); try done.
  - by left.
  - specialize (Hg 1 (not_eq_sym Hfd)). unfold held, files_of in Hg. rewrite Hc in Hg. unfold fd_unused. by rewrite Hc, Hg, H1.
  - eexists _, _. split; [exact Hcl|]. split; [|done]. constructor; [by exists t, f|done..].
Qed.

#[local] Instance cat_stream : Stream calls cat_ok fd left_of k_out.
Proof.
  constructor.
  - intros k [(t & f & Hc & _ & Ho & _) _ (_ & _ & Hby) _ _ _]. rewrite (left_opened k t f Hc Ho). by apply Forall_drop.
  - exact cat_read.
  - exact cat_write.
Qed.

Lemma cat_fd_prints label k : cat_ok k →
  runs calls (λ rc k', rc = 0 ∧ cat_ok k' ∧ left_of k' = [] ∧ k_out k' = k_out k ++ left_of k) (cat_fd fd label) k.
Proof. apply (cat_steps calls cat_ok fd left_of k_out). Qed.

End Kernel.

Section CatOne.
Context {S : Type} `{FA : FrameAllocator S}.
Context (can_alloc : Z → vfs → bool) (fresh : vfs → array) (stack_tail : list Z).
Context (new_task : kernel S → option (nat * Z)) (exec_alloc : kernel S → bool) (stack_byte : Z) (page : mem).
Context (buf : Z) (c : nat) (r : Z).
Abbreviation calls := (kernel_calls can_alloc fresh stack_tail new_task exec_alloc stack_byte page buf).

(** C8: cat of a regular file on the kernel: the console shows exactly the bytes of the
    file, whatever their number, the call returns 0, and the descriptor it used is
    closed again. *)
Theorem cat_prints_file (k : kernel S) (path : list Z) (i : nat) (n : vnode) :
  program_ok buf c r k → held k 1 = None → text path → 0 < len path < 256 → spare (held k) →
  opens stack_tail k path = Some (File i 0 true) → nodes (k_fs k) !! i = Some n →
  vn_ops n = tmpfs_file_ops → size_ok n → bytes (contents n) →
  runs calls (λ rc k', rc = 0 ∧ program_ok buf c r k' ∧ k_out k' = k_out k ++ contents n ∧ ∀ d, held k' d = held k d)
    (cat_one path) k.
Proof.
  intros Hok H1 Ht Hl Hsp Hop Hn Hops Hsz Hby. unfold cat_one.
  pose proof (kernel_open can_alloc fresh stack_tail new_task exec_alloc stack_byte page buf c r k path Hok Ht Hl Hsp) as Ho.
  rewrite Hop in Ho. destruct Ho as (fd & k1 & Hcl & Hok1 & Hfd & Hfree & Hh1 & _ & Hfs1 & Hout1).
  eapply pwp_call; [exact Hcl|]. rewrite (proj2 (Z.ltb_ge fd 0)), s32_fd by lia.
  assert (held k1 fd = Some (File i 0 true)) as Hf by (rewrite Hh1, Z.eqb_refl; done).
  destruct (held_range k1 fd _ Hf) as (Hr & _ & Hget). pose proof Hok1 as [(t & Hc & Hlf & H2) Hb1].
  unfold files_of in Hget. rewrite Hc in Hget.
  assert (opened (t_files t) fd (File i 0 true)) as Hopened.
  { unfold get_file in Hget. split; [done|]. split; [|done]. revert Hget. repeat case_match; intros; by simplify_eq. }
  assert (cat_ok buf c r (k_fs k) fd n (held k) k1) as Hcat.
  { constructor; [|done|done|split; [lia|done]| |done]; [by exists t, (File i 0 true)|].
    intros d Hd. rewrite Hh1. by rewrite (proj2 (Z.eqb_neq d fd)). }
  eapply pwp_bind; [by apply cat_fd_prints|].
  intros rc k2 (-> & [(t2 & f2 & Hc2 & Hlf2 & Ho2 & _) _ _ _ Hg2 Hb2] & _ & Hout2).
  assert (held k2 fd = Some f2) as Hf2 by (unfold held, files_of; rewrite Hc2; by apply get_file_opened).
  assert (program_ok buf c r k2) as Hok2.
  { constructor; [|done]. exists t2. split_and!; [done|done|]. specialize (Hg2 2 ltac:(lia)). unfold held, files_of in Hg2. rewrite Hc2 in Hg2.
    rewrite Hg2. destruct Hok as [(t0 & Hc0 & _ & H20) _]. by rewrite Hc0. }
  destruct (kernel_close can_alloc fresh stack_tail new_task exec_alloc stack_byte page buf c r k2 fd f2 Hok2 Hf2 Hfd)
    as (ret & k3 & Hcl3 & Hok3 & Hh3 & _ & Hout3).
  eapply pwp_call; [exact Hcl3|]. apply pwp_ret. split; [done|]. split; [done|]. split.
  - rewrite Hout3, Hout2, Hout1. f_equal. unfold left_of. by rewrite Hf.
  - intros d. rewrite Hh3. destruct (Z.eqb_spec d fd) as [->|Hne]; [by rewrite Hfree|by apply Hg2].
Qed.

End CatOne.

Lemma cat_prints_file_witness :
  runs w_calls (λ rc k', rc = 0 ∧ program_ok 0x50000000 0 space_root k' ∧ k_out k' = chars "lithium" ++ [10] ∧
    ∀ d, held k' d = held w_system d) (cat_one (chars "/etc/hostname")) w_system.
Proof.
  apply (cat_prints_file always zeroed [] (λ _, None) (λ _, true) 0 (arr_fill 0) 0x50000000 0 space_root w_system
    (chars "/etc/hostname") 6 (node_at boot_vfs 6) w_system_ok); try (vm_compute; reflexivity).
  - by repeat constructor.
  - split; vm_compute; reflexivity.
  - exact w_spare.
  - vm_compute. repeat split; congruence.
  - vm_compute. repeat constructor; congruence.
Defined.
