(* ===== verification/Cpu.v ===== *)
(** * Processor set-up: descriptor tables, interrupt vectors and lines, timer,
    processor features ([arch/x86_64/cpu], [kernel/timer.c]).

    Descriptors are records with the fields of the packed structures. The two interrupt
    controllers are their mask registers, which their data ports read and write; a
    sequence of port writes is a list. The instructions that load a table are not
    modelled: [gdt_init] and [idt_init] return what they load. *)

From S2P Require Import Prelude Memory Kbd Vmm Frames Console.
Import StringC.

(** ** [gdt.c] *)

Definition GDT_KERNEL_CODE : Z := 0x08.
Definition GDT_KERNEL_DATA : Z := 0x10.
Definition GDT_USER_CODE : Z := 0x18.
Definition GDT_USER_DATA : Z := 0x20.
Definition GDT_TSS : Z := 0x28.
Definition GDT_ENTRY_COUNT : Z := 7.
Definition sizeof_tss : Z := 104.

Record gdt_entry := GdtEntry {
  limit_lo : Z; base_lo : Z; base_mid : Z; access : Z; flags_lim_hi : Z; base_hi : Z;
}.

Definition set_entry (base limit acc flags : Z) : gdt_entry :=
  GdtEntry (u16 (limit .& 0xFFFF)) (u16 (base .& 0xFFFF)) (u8 (Z.shiftr base 16 .& 0xFF)) acc
    (u8 (Z.shiftl (flags .& 0x0F) 4 .| (Z.shiftr limit 16 .& 0x0F))) (u8 (Z.shiftr base 24 .& 0xFF)).

(** The 16-byte descriptor takes two slots: the second holds the upper half of the base
    and a reserved word. *)
Record gdt_sys_entry := GdtSysEntry { sys_low : gdt_entry; base_upper : Z; sys_reserved : Z }.

Definition set_sys_entry (base limit acc : Z) : gdt_sys_entry :=
  GdtSysEntry
    (GdtEntry (u16 (limit .& 0xFFFF)) (u16 (base .& 0xFFFF)) (u8 (Z.shiftr base 16 .& 0xFF)) acc
       (u8 (Z.shiftr limit 16 .& 0x0F)) (u8 (Z.shiftr base 24 .& 0xFF)))
    (u32 (Z.shiftr base 32)) 0.

(** The second slot read as an 8-byte descriptor. *)
Definition upper_slot (e : gdt_sys_entry) : gdt_entry :=
  GdtEntry (u16 (base_upper e)) (u16 (Z.shiftr (base_upper e) 16)) (u8 (sys_reserved e)) (u8 (Z.shiftr (sys_reserved e) 8))
    (u8 (Z.shiftr (sys_reserved e) 16)) (u8 (Z.shiftr (sys_reserved e) 24)).

(** The table, the limit and base of the GDTR, and the selector for the task register;
    [tss] and [gdt] are the addresses of the static objects. *)
Definition gdt_init (tss gdt : Z) : list gdt_entry * (Z * Z) * Z :=
  let sys := set_sys_entry tss (u32 (sizeof_tss - 1)) 0x89 in
  ([set_entry 0 0 0 0; set_entry 0 0xFFFFF 0x9A 0xA; set_entry 0 0xFFFFF 0x92 0xC;
    set_entry 0 0xFFFFF 0xFA 0xA; set_entry 0 0xFFFFF 0xF2 0xC; sys_low sys; upper_slot sys],
   (u16 (GDT_ENTRY_COUNT * 8 - 1), gdt), GDT_TSS).

(** ** [tss.c] *)

Record tss := Tss { rsp0 : Z; iopb : Z }.
Definition tss_init (stack : Z) : tss := Tss stack (u16 sizeof_tss).
Definition tss_set_rsp0 (v : Z) (t : tss) : tss := Tss v (iopb t).

(** ** [idt.c]: gates *)

Definition IDT_INT_GATE : Z := 0x0E.
Definition IDT_TRAP_GATE : Z := 0x0F.
Definition IDT_PRESENT : Z := 0x80.

Record idt_entry := IdtEntry {
  offset_lo : Z; gate_cs : Z; ist : Z; gate_flags : Z; offset_mid : Z; offset_hi : Z; gate_reserved : Z;
}.

Definition idt_set_entry (handler cs flags ist_ : Z) : idt_entry :=
  IdtEntry (u16 (handler .& 0xFFFF)) cs (ist_ .& 0x07) flags (u16 (Z.shiftr handler 16 .& 0xFFFF))
    (u32 (Z.shiftr handler 32)) 0.

Definition idt_gate (isr_table : Z → Z) (i : Z) : idt_entry :=
  let type := if i =? 3 then IDT_TRAP_GATE else IDT_INT_GATE in
  idt_set_entry (isr_table i) GDT_KERNEL_CODE (IDT_PRESENT .| type) 0.

(** ** Interrupt controllers *)

Definition PIC_MASTER_CMD : Z := 0x20.
Definition PIC_MASTER_DATA : Z := 0x21.
Definition PIC_SLAVE_CMD : Z := 0xA0.
Definition PIC_SLAVE_DATA : Z := 0xA1.
Definition PIC_EOI : Z := 0x20.

(** The writes of [pic_remap], without the waits between them. *)
Definition pic_remap : list (Z * Z) :=
  [(PIC_MASTER_CMD, 0x11); (PIC_SLAVE_CMD, 0x11); (PIC_MASTER_DATA, 0x20); (PIC_SLAVE_DATA, 0x28);
   (PIC_MASTER_DATA, 0x04); (PIC_SLAVE_DATA, 0x02); (PIC_MASTER_DATA, 0x01); (PIC_SLAVE_DATA, 0x01);
   (PIC_MASTER_DATA, 0xFF); (PIC_SLAVE_DATA, 0xFF)].

Definition idt_init (isr_table : Z → Z) (idt : Z) : list (Z * Z) * list idt_entry * (Z * Z) :=
  (pic_remap, idt_gate isr_table <$> seqZ 0 256, (u16 (256 * 16 - 1), idt)).

(** The mask registers behind the data ports. *)
Record pic := Pic { master_mask : Z; slave_mask : Z }.
Definition in_master (p : pic) : Z := master_mask p.
Definition in_slave (p : pic) : Z := slave_mask p.
Definition out_master (v : Z) (p : pic) : pic := Pic (u8 v) (slave_mask p).
Definition out_slave (v : Z) (p : pic) : pic := Pic (master_mask p) (u8 v).

(** [~(uint8_t)(1u << n)] is an [int]; the write takes its low byte. *)
Definition irq_mask (irq : Z) (p : pic) : pic :=
  if irq <? 8 then out_master (in_master p .| u8 (Z.shiftl 1 irq)) p
  else out_slave (in_slave p .| u8 (Z.shiftl 1 (irq - 8))) p.

Definition irq_unmask (irq : Z) (p : pic) : pic :=
  if irq <? 8 then out_master (in_master p .& Z.lnot (u8 (Z.shiftl 1 irq))) p
  else
    let p := out_slave (in_slave p .& Z.lnot (u8 (Z.shiftl 1 (irq - 8)))) p in
    out_master (in_master p .& Z.lnot (u8 (Z.shiftl 1 2))) p.

(** ** Dispatch

    [irq_handlers] holds what is registered for a line; an interrupt is the sequence of
    what it causes. *)

Section Dispatch.
Context {S : Type} `{FA : FrameAllocator S} {H : Type}.

Definition handlers : Type := list (option H).
Definition irq_register (irq : Z) (handler : H) (hs : handlers) : option handlers :=
  if irq <? 16 then Some (<[Z.to_nat irq := Some handler]> hs) else None.
Definition irq_unregister (irq : Z) (hs : handlers) : option handlers :=
  if irq <? 16 then Some (<[Z.to_nat irq := None]> hs) else None.

Inductive action := Handler (h : H) (irq : Z) | Eoi (port : Z) | PanicException (vector : Z).

Definition irq_dispatch (irq : Z) (hs : handlers) : list action :=
  if irq <? 16 then match mjoin (hs !! Z.to_nat irq) with Some h => [Handler h irq] | None => [] end else [].

Definition pic_eoi (vector : Z) : list action :=
  (if 40 <=? vector then [Eoi PIC_SLAVE_CMD] else []) ++ [Eoi PIC_MASTER_CMD].

Definition isr_handler (hs : handlers) (vector error_code cr2 : Z) : M (vm S) (list action) :=
  if vector <? 32 then
    if vector =? 14 then
      handled ← vmm_handle_page_fault cr2 error_code;
      if (handled : bool) then mret [] else mret [PanicException vector]
    else mret [PanicException vector]
  else if vector <? 48 then
    let irq := u8 (vector - 32) in
    mret (irq_dispatch irq hs ++ pic_eoi (u8 vector))
  else mret [].

End Dispatch.
Arguments action H : clear implicits.
Arguments handlers H : clear implicits.

(** ** [timer.c] *)

Definition PIT_CH0_DATA : Z := 0x40.
Definition PIT_CMD : Z := 0x43.
Definition PIT_HZ : Z := 1193182.

Record timer := Timer { jiffies : Z; timer_hz : Z }.
Definition timer_irq (t : timer) : timer := Timer (u64 (jiffies t + 1)) (timer_hz t).

(** [None]: division by zero.  [tick] is the handler registered for line 0. *)
Definition timer_init {H : Type} (tick : H) (hz : Z) (t : timer) (hs : handlers H) (p : pic)
  : option (list (Z * Z) * timer * handlers H * pic) :=
  if hz =? 0 then None
  else
    let divisor := PIT_HZ / hz in
    hs ← irq_register 0 tick hs;
    Some ([(PIT_CMD, 0x36); (PIT_CH0_DATA, u8 (divisor .& 0xFF)); (PIT_CH0_DATA, u8 (Z.shiftr divisor 8))],
          Timer (jiffies t) hz, hs, irq_unmask 0 p).

Definition timer_ms (t : timer) : Z := if timer_hz t =? 0 then 0 else u64 (jiffies t * 1000) / timer_hz t.

(** The loop of [timer_sleep_ms]: each [hlt] ends with the next tick. *)
Fixpoint sleep_loop (fuel : nat) (deadline : Z) (t : timer) : option timer :=
  if timer_ms t <? deadline then
    match fuel with O => None | S f => sleep_loop f deadline (timer_irq t) end
  else Some t.
Definition timer_sleep_ms (fuel : nat) (ms : Z) (t : timer) : option timer := sleep_loop fuel (u64 (timer_ms t + ms)) t.

(** ** [cpuid.c] *)

Record regs4 := Regs4 { r_eax : Z; r_ebx : Z; r_ecx : Z; r_edx : Z }.
Record cpuid_features := Features {
  has_apic : bool; has_x2apic : bool; has_sse : bool; has_sse2 : bool; has_avx : bool; has_avx2 : bool;
  has_nx : bool; has_syscall : bool; has_1gb_pages : bool; max_basic : Z; max_extended : Z; vendor : list Z;
}.

(** [(reg >> n) & 1] stored in a [bool]. *)
Definition feature (reg n : Z) : bool := negb (Z.shiftr reg n .& 1 =? 0).

(** The characters before the first zero byte. *)
Fixpoint zstr (s : list Z) : list Z :=
  match s with [] => [] | c :: s' => if c =? 0 then [] else c :: zstr s' end.

(** [cpuid] is the instruction, by leaf. *)
Definition cpuid_init (cpuid : Z → regs4) : cpuid_features :=
  let l0 := cpuid 0 in
  let basic := r_eax l0 in
  let l1 := if 1 <=? basic then cpuid 1 else Regs4 0 0 0 0 in
  let l7 := if 7 <=? basic then cpuid 7 else Regs4 0 0 0 0 in
  let ext := r_eax (cpuid 0x80000000) in
  let e1 := if 0x80000001 <=? ext then cpuid 0x80000001 else Regs4 0 0 0 0 in
  Features (feature (r_edx l1) 9) (feature (r_ecx l1) 21) (feature (r_edx l1) 25) (feature (r_edx l1) 26)
    (feature (r_ecx l1) 28) (feature (r_ebx l7) 5) (feature (r_edx e1) 20) (feature (r_edx e1) 11)
    (feature (r_edx e1) 26) basic ext
    (to_le 4 (r_ebx l0) ++ to_le 4 (r_edx l0) ++ to_le 4 (r_ecx l0)).

Definition flag_text (b : bool) (name : string) : arg := ArgStr (Some (if b then chars name else [])).

(** The text of [cpuid_print_features]. *)
Definition cpuid_print_features (f : cpuid_features) : option (list Z) :=
  a ← kprintf_text (chars "CPU vendor  : %s" ++ [10]) [ArgStr (Some (zstr (vendor f)))];
  b ← kprintf_text (chars "Max leaf    : 0x%08x (ext: 0x%08x)" ++ [10]) [ArgInt (max_basic f); ArgInt (max_extended f)];
  c ← kprintf_text (chars "Features    :%s%s%s%s%s%s%s%s%s" ++ [10])
        [flag_text (has_apic f) " APIC"; flag_text (has_x2apic f) " x2APIC"; flag_text (has_sse f) " SSE";
         flag_text (has_sse2 f) " SSE2"; flag_text (has_avx f) " AVX"; flag_text (has_avx2 f) " AVX2";
         flag_text (has_nx f) " NX"; flag_text (has_syscall f) " SYSCALL"; flag_text (has_1gb_pages f) " 1GB-PG"];
  Some (a ++ b ++ c).
