(* ===== verification/CpuProps.v ===== *)
(** * Processor set-up: properties *)

From S2P Require Import Prelude Memory Kbd Frames Vmm Console Cpu.
Import StringC.

(** ** Descriptors read back

    What the processor reads from the fields of a descriptor. *)

Definition seg_base (e : gdt_entry) : Z := base_lo e + 2^16 * base_mid e + 2^24 * base_hi e.
Definition seg_limit (e : gdt_entry) : Z := limit_lo e + 2^16 * (flags_lim_hi e mod 2^4).
Definition seg_flags (e : gdt_entry) : Z := flags_lim_hi e / 2^4.
Definition sys_base (low high : gdt_entry) : Z := seg_base low + 2^32 * (limit_lo high + 2^16 * base_lo high).
Definition dpl (acc : Z) : Z := acc / 2^5 mod 4.

Lemma field_lo x : u16 (x .& 0xFFFF) = x mod 2^16.
Proof. change 0xFFFF with (2^16 - 1). rewrite land_low_mod by lia. unfold u16. by rewrite Z.mod_mod by lia. Qed.
Lemma field_byte x k : 0 <= k → u8 (Z.shiftr x k .& 0xFF) = x / 2^k mod 2^8.
Proof.
  intros Hk. change 0xFF with (2^8 - 1). rewrite land_low_mod, Z.shiftr_div_pow2 by lia. unfold u8. by rewrite Z.mod_mod by lia.
Qed.

(** Pieces of a number put together again. *)
Lemma split_at x a b : 0 <= a → 0 <= b → x mod 2^(a + b) = x mod 2^a + 2^a * (x / 2^a mod 2^b).
Proof. intros. rewrite Z.pow_add_r by lia. apply Z.rem_mul_r; [lia|]. pose proof (Z.pow_pos_nonneg 2 b). lia. Qed.

Lemma base_pieces x : x mod 2^16 + 2^16 * (x / 2^16 mod 2^8) + 2^24 * (x / 2^24 mod 2^8) = x mod 2^32.
Proof.
  pose proof (split_at x 16 8 ltac:(lia) ltac:(lia)) as H1. pose proof (split_at x 24 8 ltac:(lia) ltac:(lia)) as H2.
  change (16 + 8) with 24 in H1. change (24 + 8) with 32 in H2. lia.
Qed.

Lemma set_entry_reads base limit acc flags : 0 <= base < 2^32 → 0 <= limit < 2^20 → 0 <= flags < 2^4 →
  let e := set_entry base limit acc flags in
  seg_base e = base ∧ seg_limit e = limit ∧ seg_flags e = flags ∧ access e = acc.
Proof.
  intros Hb Hl Hf e. assert (flags_lim_hi e = flags * 2^4 + limit / 2^16) as Hfl.
  { unfold e, set_entry. cbn [flags_lim_hi]. change 0x0F with (2^4 - 1). rewrite !land_low_mod, Z.shiftr_div_pow2 by lia.
    rewrite (Z.mod_small flags) by lia. assert (0 <= limit / 2^16 < 2^4) as Hh.
    { split; [apply Z.div_pos; lia|apply Z.div_lt_upper_bound; lia]. }
    rewrite (Z.mod_small (limit / 2^16)) by lia. rewrite Z.shiftl_mul_pow2 by lia.
    rewrite (lor_add_low _ _ 4) by (try lia; by rewrite Z.mod_mul). apply u8_small. lia. }
  assert (0 <= limit / 2^16 < 2^4) as Hh by (split; [apply Z.div_pos; lia|apply Z.div_lt_upper_bound; lia]).
  split; [|split; [|split; [|done]]].
  - unfold seg_base, e, set_entry. cbn [base_lo base_mid base_hi]. rewrite field_lo, !field_byte by lia.
    rewrite base_pieces. by apply Z.mod_small.
  - unfold seg_limit. rewrite Hfl. unfold e, set_entry. cbn [limit_lo]. rewrite field_lo.
    rewrite (Z.add_comm (flags * 2^4)), Z.mod_add, (Z.mod_small (limit / 2^16)) by lia. pose proof (Z.div_mod limit (2^16) ltac:(lia)). lia.
  - unfold seg_flags. rewrite Hfl, Z.div_add_l, (Z.div_small (limit / 2^16)) by lia. lia.
Qed.

Lemma set_sys_entry_reads base limit acc : 0 <= base < 2^64 → 0 <= limit < 2^20 →
  let e := set_sys_entry base limit acc in
  sys_base (sys_low e) (upper_slot e) = base ∧ seg_limit (sys_low e) = limit ∧ seg_flags (sys_low e) = 0 ∧ access (sys_low e) = acc.
Proof.
  intros Hb Hl e. assert (0 <= limit / 2^16 < 2^4) as Hh by (split; [apply Z.div_pos; lia|apply Z.div_lt_upper_bound; lia]).
  assert (flags_lim_hi (sys_low e) = limit / 2^16) as Hfl.
  { unfold e, set_sys_entry. cbn [sys_low flags_lim_hi]. change 0x0F with (2^4 - 1).
    rewrite land_low_mod, Z.shiftr_div_pow2, (Z.mod_small (limit / 2^16)) by lia. apply u8_small. lia. }
  split; [|split; [|split; [|done]]].
  - unfold sys_base, seg_base, upper_slot, e, set_sys_entry. cbn [sys_low base_upper limit_lo base_lo base_mid base_hi].
    rewrite field_lo, !field_byte, base_pieces by lia. rewrite !Z.shiftr_div_pow2 by lia.
    assert (0 <= base / 2^32 < 2^32) as Hu by (split; [apply Z.div_pos; lia|apply Z.div_lt_upper_bound; lia]).
    rewrite u32_small by lia. unfold u16. set (up := base / 2^32) in *.
    pose proof (split_at up 16 16 ltac:(lia) ltac:(lia)) as Hs. change (16 + 16) with 32 in Hs. rewrite <- Hs, (Z.mod_small up) by lia.
    pose proof (Z.div_mod base (2^32) ltac:(lia)). unfold up. lia.
  - unfold seg_limit. rewrite Hfl. unfold e, set_sys_entry. cbn [sys_low limit_lo]. rewrite field_lo, (Z.mod_small (limit / 2^16)) by lia.
    pose proof (Z.div_mod limit (2^16) ltac:(lia)). lia.
  - unfold seg_flags. rewrite Hfl. by apply Z.div_small.
Qed.

(** ** The segments

    The descriptor of a selector. *)
Definition selected (t : list gdt_entry) (sel : Z) : option gdt_entry := t !! Z.to_nat (sel / 8).

(** A flat segment: base 0, the largest limit, with the given privilege and flags. *)
Definition flat (acc flags : Z) (o : option gdt_entry) : Prop :=
  ∃ e, o = Some e ∧ seg_base e = 0 ∧ seg_limit e = 0xFFFFF ∧ access e = acc ∧ seg_flags e = flags.

(** The selectors the kernel uses name the segments they are meant for: flat 64-bit
    code and flat data for the kernel at privilege 0 and for programs at privilege 3,
    and a task state descriptor that carries the whole 64-bit address of the TSS and
    the last of its bytes; the limit of the GDTR covers the table. *)
Theorem gdt_init_segments (tss gdt : Z) : 0 <= tss < 2^64 →
  let '(t, (limit, base), tr) := gdt_init tss gdt in
  flat 0x9A 0xA (selected t GDT_KERNEL_CODE) ∧ flat 0x92 0xC (selected t GDT_KERNEL_DATA) ∧
  flat 0xFA 0xA (selected t GDT_USER_CODE) ∧ flat 0xF2 0xC (selected t GDT_USER_DATA) ∧
  (dpl 0x9A = 0 ∧ dpl 0x92 = 0 ∧ dpl 0xFA = 3 ∧ dpl 0xF2 = 3) ∧
  (∃ low high, selected t tr = Some low ∧ selected t (tr + 8) = Some high ∧
     sys_base low high = tss ∧ seg_limit low = sizeof_tss - 1 ∧ access low = 0x89) ∧
  limit = 8 * Z.of_nat (length t) - 1 ∧ base = gdt.
Proof.
  intros Ht. unfold gdt_init. cbv zeta iota beta.
  assert (∀ acc flags, 0 <= flags < 2^4 → flat acc flags (Some (set_entry 0 0xFFFFF acc flags))) as Hflat.
  { intros acc flags Hf. destruct (set_entry_reads 0 0xFFFFF acc flags ltac:(lia) ltac:(lia) Hf) as (? & ? & ? & ?). by eexists. }
  split_and!; try done; try (apply Hflat; lia).
  eexists _, _. split; [done|]. split; [done|].
  destruct (set_sys_entry_reads tss (u32 (sizeof_tss - 1)) 0x89 Ht ltac:(done)) as (? & ? & _ & ?). done.
Qed.

Lemma gdt_init_segments_witness :
  let '(t, (limit, base), tr) := gdt_init 0xFFFFFFFF80123450 0x105000 in
  ∃ low high, selected t tr = Some low ∧ selected t (tr + 8) = Some high ∧ sys_base low high = 0xFFFFFFFF80123450.
Proof.
  destruct (gdt_init_segments 0xFFFFFFFF80123450 0x105000 ltac:(lia)) as (_ & _ & _ & _ & _ & (low & high & H1 & H2 & H3 & _) & _).
  by exists low, high.
Defined.

(** ** Gates *)

Definition gate_offset (g : idt_entry) : Z := offset_lo g + 2^16 * offset_mid g + 2^32 * offset_hi g.

Lemma gate_offset_reads h cs fl i : 0 <= h < 2^64 → gate_offset (idt_set_entry h cs fl i) = h.
Proof.
  intros Hh. unfold gate_offset, idt_set_entry. cbn [offset_lo offset_mid offset_hi].
  rewrite field_lo. change 0xFFFF with (2^16 - 1). rewrite land_low_mod, !Z.shiftr_div_pow2 by lia. unfold u16.
  rewrite Z.mod_mod by lia. assert (0 <= h / 2^32 < 2^32) as Hu by (split; [apply Z.div_pos; lia|apply Z.div_lt_upper_bound; lia]).
  rewrite u32_small by done. rewrite <- (split_at h 16 16) by lia. change (16 + 16) with 32. pose proof (Z.div_mod h (2^32) ltac:(lia)). lia.
Qed.

(** Each of the 256 vectors has a gate with the whole address of its stub, entered with
    the kernel's code segment, present and not open to programs; a breakpoint is the
    only one that leaves interrupts on. *)
Theorem idt_init_gates (isr_table : Z → Z) (idt : Z) : (∀ i, 0 <= i < 256 → 0 <= isr_table i < 2^64) →
  let '(_, t, (limit, base)) := idt_init isr_table idt in
  length t = 256%nat ∧ limit = 16 * Z.of_nat (length t) - 1 ∧ base = idt ∧
  ∀ i, 0 <= i < 256 → ∃ g, t !! Z.to_nat i = Some g ∧ gate_offset g = isr_table i ∧ gate_cs g = GDT_KERNEL_CODE ∧
    ist g = 0 ∧ Z.testbit (gate_flags g) 7 = true ∧ dpl (gate_flags g) = 0 ∧
    gate_flags g mod 2^4 = (if i =? 3 then IDT_TRAP_GATE else IDT_INT_GATE).
Proof.
  intros Hh. unfold idt_init. cbv zeta iota beta. rewrite length_fmap, length_seqZ. split; [done|]. split; [done|]. split; [done|].
  intros i Hi. exists (idt_gate isr_table i). split.
  { rewrite list_lookup_fmap, lookup_seqZ_lt by lia. cbn. do 2 f_equal. lia. }
  split; [by apply gate_offset_reads, Hh|]. unfold idt_gate, idt_set_entry. cbn [gate_cs ist gate_flags].
  split; [done|]. split; [done|]. by destruct (i =? 3).
Qed.

Lemma idt_init_gates_witness :
  let '(_, t, _) := idt_init (λ i, 0x101000 + 16 * i) 0x106000 in
  ∃ g, t !! 14%nat = Some g ∧ gate_offset g = 0x1010E0.
Proof.
  destruct (idt_init_gates (λ i, 0x101000 + 16 * i) 0x106000 ltac:(intros; lia)) as (_ & _ & _ & H).
  destruct (H 14 ltac:(lia)) as (g & H1 & H2 & _). by exists g.
Defined.

(** ** Interrupt lines *)

(** Line [i] of the pair of controllers is masked. *)
Definition masked (p : pic) (i : Z) : bool := if i <? 8 then Z.testbit (master_mask p) i else Z.testbit (slave_mask p) (i - 8).

Lemma bit_byte n i : 0 <= n < 8 → 0 <= i → Z.testbit (u8 (Z.shiftl 1 n)) i = (i =? n).
Proof.
  intros Hn Hi. rewrite Z.shiftl_1_l, u8_small; [|split; [lia|apply Z.pow_lt_mono_r; lia]].
  rewrite Z.pow2_bits_eqb by lia. apply Z.eqb_sym.
Qed.

Lemma u8_testbit x i : 0 <= i < 8 → Z.testbit (u8 x) i = Z.testbit x i.
Proof. intros Hi. unfold u8. by rewrite Z.mod_pow2_bits_low by lia. Qed.

Lemma mask_bit x n i : 0 <= n < 8 → 0 <= i < 8 → Z.testbit (u8 (x .| u8 (Z.shiftl 1 n))) i = Z.testbit x i || (i =? n).
Proof. intros. rewrite u8_testbit, Z.lor_spec, bit_byte by lia. done. Qed.

Lemma unmask_bit x n i : 0 <= n < 8 → 0 <= i < 8 →
  Z.testbit (u8 (x .& Z.lnot (u8 (Z.shiftl 1 n)))) i = Z.testbit x i && negb (i =? n).
Proof. intros. rewrite u8_testbit, Z.land_spec, Z.lnot_spec, bit_byte by lia. done. Qed.

(** Masking and unmasking a line change that line only; unmasking a line of the second
    controller also opens the line it is cascaded through. *)
Theorem irq_lines (p : pic) (irq : Z) : 0 <= irq < 16 → ∀ i, 0 <= i < 16 →
  masked (irq_mask irq p) i = masked p i || (i =? irq) ∧
  masked (irq_unmask irq p) i = masked p i && negb (i =? irq) && negb ((8 <=? irq) && (i =? 2)).
Proof.
  intros Hirq i Hi. unfold masked, irq_mask, irq_unmask, out_master, out_slave, in_master, in_slave.
  destruct (Z.ltb_spec irq 8) as [H8|H8]; destruct (Z.ltb_spec i 8) as [I8|I8]; cbn [master_mask slave_mask];
    rewrite ?mask_bit, ?unmask_bit by lia; rewrite ?(proj2 (Z.leb_gt 8 irq)), ?(proj2 (Z.leb_le 8 irq)) by lia.
  - cbn [andb negb]. by rewrite andb_true_r.
  - rewrite (proj2 (Z.eqb_neq i irq)) by lia. cbn. by rewrite orb_false_r, !andb_true_r.
  - rewrite (proj2 (Z.eqb_neq i irq)) by lia. cbn. by rewrite orb_false_r, andb_true_r.
  - rewrite (proj2 (Z.eqb_neq i 2)) by lia. cbn. rewrite andb_true_r. assert ((i - 8 =? irq - 8) = (i =? irq)) as ->; [|done].
    destruct (Z.eqb_spec i irq), (Z.eqb_spec (i - 8) (irq - 8)); lia || done.
Qed.

Lemma irq_lines_witness : masked (irq_unmask 12 (Pic 0xFF 0xFF)) 12 = false ∧ masked (irq_unmask 12 (Pic 0xFF 0xFF)) 2 = false ∧
  masked (irq_unmask 12 (Pic 0xFF 0xFF)) 1 = true.
Proof.
  pose proof (λ i Hi, proj2 (irq_lines (Pic 0xFF 0xFF) 12 ltac:(lia) i Hi)) as H.
  rewrite (H 12 ltac:(lia)), (H 2 ltac:(lia)), (H 1 ltac:(lia)). split_and!; reflexivity.
Defined.

(** ** Interrupts *)

Section Interrupts.
Context {S : Type} `{FA : FrameAllocator S} {H : Type}.

(** A hardware interrupt runs the handler of its line, if there is one, once, and then
    acknowledges it, at the second controller first for its lines; an exception other
    than a page fault that paging resolves stops the kernel; other vectors do nothing. *)
Theorem isr_handler_correct (hs : handlers H) (vector error_code cr2 : Z) (v : vm S) :
  0 <= vector < 256 → length hs = 16%nat →
  if (vector =? 14) then
    ∀ handled v', vmm_handle_page_fault cr2 error_code v = Ret (handled, v') →
      isr_handler hs vector error_code cr2 v = Ret (if handled then [] else [PanicException vector], v')
  else isr_handler hs vector error_code cr2 v = Ret
    (if vector <? 32 then [PanicException vector]
     else if vector <? 48 then
       (match mjoin (hs !! Z.to_nat (vector - 32)) with Some h => [Handler h (vector - 32)] | None => [] end) ++
       (if 8 <=? vector - 32 then [Eoi PIC_SLAVE_CMD; Eoi PIC_MASTER_CMD] else [Eoi PIC_MASTER_CMD])
     else [], v).
Proof.
  intros Hv Hl. unfold isr_handler. destruct (Z.eqb_spec vector 14) as [->|Hne].
  - intros handled v' Hf. cbn [Z.ltb Z.compare Pos.compare Pos.compare_cont]. unfold mbind, M_bind. rewrite Hf. by destruct handled.
  - destruct (Z.ltb_spec vector 32); [done|]. destruct (Z.ltb_spec vector 48); [|done].
    rewrite !u8_small by lia. unfold irq_dispatch, pic_eoi. rewrite (proj2 (Z.ltb_lt (vector - 32) 16)) by lia.
    assert ((40 <=? vector) = (8 <=? vector - 32)) as -> by (destruct (Z.leb_spec 40 vector), (Z.leb_spec 8 (vector - 32)); lia || done).
    by destruct (8 <=? vector - 32).
Qed.
End Interrupts.

(** ** Time *)

Definition ticks (k : nat) (t : timer) : timer := Nat.iter k timer_irq t.

Lemma ticks_jiffies k t : 0 <= jiffies t → jiffies t + Z.of_nat k < 2^64 → ticks k t = Timer (jiffies t + Z.of_nat k) (timer_hz t).
Proof.
  intros H0. induction k as [|k IH]; intros Hk; [destruct t; cbn; f_equal; lia|].
  change (ticks (Datatypes.S k) t) with (timer_irq (ticks k t)). rewrite IH by lia. unfold timer_irq. cbn. rewrite u64_small by lia. f_equal. lia.
Qed.

Lemma sleep_loop_ends d k : ∀ fuel t, (k <= fuel)%nat → d <= timer_ms (ticks k t) →
  ∃ n, (n <= k)%nat ∧ sleep_loop fuel d t = Some (ticks n t) ∧ d <= timer_ms (ticks n t) ∧ ∀ m, (m < n)%nat → timer_ms (ticks m t) < d.
Proof.
  induction k as [|k IH]; intros fuel t Hf Hd.
  - exists 0%nat. cbn in Hd. split; [done|]. destruct fuel; cbn; rewrite (proj2 (Z.ltb_ge _ _)) by done; (split; [done|split; [done|lia]]).
  - destruct (Z.ltb_spec (timer_ms t) d) as [Hlt|Hge].
    2: { exists 0%nat. split; [lia|]. destruct fuel; cbn; rewrite (proj2 (Z.ltb_ge _ _)) by done; (split; [done|split; [done|lia]]). }
    destruct fuel as [|fuel]; [lia|]. assert (∀ m, ticks (Datatypes.S m) t = ticks m (timer_irq t)) as Ht.
    { intros m. unfold ticks. apply Nat.iter_succ_r. }
    rewrite Ht in Hd. destruct (IH fuel (timer_irq t) ltac:(lia) Hd) as (n & Hn & Hs & Hdn & Hm).
    exists (Datatypes.S n). split; [lia|]. cbn [sleep_loop]. rewrite (proj2 (Z.ltb_lt _ _)) by done. rewrite Ht.
    split; [done|]. split; [done|]. intros m Hmn. destruct m as [|m]; [done|]. rewrite Ht. apply Hm. lia.
Qed.

(** A sleep ends with the first tick at which the time asked for has passed, and the
    number of ticks that takes is bounded; the bound on the counter is half a million
    years at 1000 Hz. *)
Theorem timer_sleep_ends (t : timer) (ms : Z) (fuel : nat) :
  let need := (ms + 1) * timer_hz t / 1000 + 1 in
  0 < timer_hz t < 2^32 → 0 <= ms < 2^40 → 0 <= jiffies t → (jiffies t + need) * 1000 < 2^64 → need <= Z.of_nat fuel →
  ∃ n, timer_sleep_ms fuel ms t = Some (ticks n t) ∧ Z.of_nat n <= need ∧
    timer_ms t + ms <= timer_ms (ticks n t) ∧ ∀ m, (m < n)%nat → timer_ms (ticks m t) < timer_ms t + ms.
Proof.
  intros need Hhz Hms Hj Hov Hf. set (hz := timer_hz t) in *.
  assert (0 <= (ms + 1) * hz / 1000) as Hn0 by (apply Z.div_pos; nia).
  assert (∀ k, 0 <= k <= need → timer_ms (Timer (jiffies t + k) hz) = (jiffies t + k) * 1000 / hz) as Hms_at.
  { intros k Hk. unfold timer_ms. cbn. rewrite (proj2 (Z.eqb_neq hz 0)), u64_small by lia. done. }
  assert (timer_ms t = jiffies t * 1000 / hz) as Ht.
  { rewrite <- (Z.add_0_r (jiffies t)), <- (Hms_at 0) by lia. rewrite Z.add_0_r. by destruct t. }
  assert (timer_ms t + ms <= (jiffies t + need) * 1000 / hz) as Hd.
  { rewrite Ht. apply Z.div_le_lower_bound; [lia|].
    pose proof (Z.mul_div_le (jiffies t * 1000) hz ltac:(lia)).
    pose proof (Z.div_mod ((ms + 1) * hz) 1000 ltac:(lia)). pose proof (Z.mod_pos_bound ((ms + 1) * hz) 1000 ltac:(lia)). unfold need. nia. }
  unfold timer_sleep_ms. assert (u64 (timer_ms t + ms) = timer_ms t + ms) as ->.
  { apply u64_small. split; [rewrite Ht; pose proof (Z.div_pos (jiffies t * 1000) hz); lia|].
    eapply Z.le_lt_trans; [exact Hd|]. apply Z.div_lt_upper_bound; nia. }
  destruct (sleep_loop_ends (timer_ms t + ms) (Z.to_nat need) fuel t) as (n & Hn & Hs & Hdn & Hm); [lia| |].
  { rewrite ticks_jiffies, Z2Nat.id by lia. fold hz. by rewrite Hms_at by lia. }
  exists n. split; [done|]. split; [lia|]. done.
Qed.

Lemma timer_sleep_ends_witness : ∃ n, timer_sleep_ms 20 15 (Timer 42 1000) = Some (ticks n (Timer 42 1000)) ∧ Z.of_nat n <= 17.
Proof.
  destruct (timer_sleep_ends (Timer 42 1000) 15 20) as (n & H1 & H2 & _).
  - vm_compute. auto.
  - vm_compute. split; congruence.
  - vm_compute. congruence.
  - vm_compute. reflexivity.
  - vm_compute. congruence.
  - exact (ex_intro _ n (conj H1 H2)).
Defined.
