(* ===== verification/Kout.v ===== *)
(** * What the kernel prints: [kernel/panic.c], [kernel/kassert.c], [heap_stats]

    Output is the sequence of calls on the console: a character for both devices, a
    change of colour, a cleared screen.  [play] is what a sequence does to the
    devices of [Console]. *)

From S2P Require Import Prelude Memory Kbd Vmm Heap Console Cpu.
Import StringC.

Inductive out := Put (c : Z) | Color (fg bg : Z) | Cls.

Definition newline : string := String (Ascii.ascii_of_nat 10) EmptyString.

Definition on_vga (f : vga → vga) (s : console) : console := Console (f (con_vga s)) (con_uart s).
Definition play1 (o : out) : M console () :=
  match o with
  | Put c => kputchar c
  | Color fg bg => modify (on_vga (vga_set_color fg bg))
  | Cls => modify (on_vga vga_clear)
  end.
Fixpoint play (l : list out) : M console () :=
  match l with [] => mret () | o :: l' => play1 o;; play l' end.

(** The characters among them. *)
Definition out_text (l : list out) : list Z := l ≫= λ o, match o with Put c => [c] | _ => [] end.

(** [kprintf]: the arguments fit the format at every call of these files. *)
Definition printed (fmt : string) (args : list arg) : list out :=
  Put <$> default [] (kprintf_text (chars fmt) args).
Definition str (s : string) : arg := ArgStr (Some (chars s)).

(** ** [panic.c]

    Both functions halt the machine after their output. *)

Definition exception_names : list string :=
  ["Divide-by-Zero (#DE)"; "Debug (#DB)"; "Non-Maskable Interrupt"; "Breakpoint (#BP)"; "Overflow (#OF)";
   "Bound Range Exceeded (#BR)"; "Invalid Opcode (#UD)"; "Device Not Available (#NM)"; "Double Fault (#DF)";
   "Coprocessor Segment Overrun"; "Invalid TSS (#TS)"; "Segment Not Present (#NP)"; "Stack Segment Fault (#SS)";
   "General Protection Fault (#GP)"; "Page Fault (#PF)"; "Reserved"; "x87 FP Exception (#MF)";
   "Alignment Check (#AC)"; "Machine Check (#MC)"; "SIMD FP Exception (#XM)"; "Virtualisation Exception (#VE)";
   "Control Protection (#CP)"; "Reserved"; "Reserved"; "Reserved"; "Reserved"; "Reserved"; "Reserved";
   "Hypervisor Injection (#HV)"; "VMM Communication (#VC)"; "Security Exception (#SX)"; "Reserved"]%string.

Definition panic_output (msg : list Z) : list out :=
  [Color VGA_WHITE VGA_RED] ++ printed (newline +:+ "[KERNEL PANIC] %s" +:+ newline) [ArgStr (Some msg)] ++
  printed ("System halted." +:+ newline) [].

(** [interrupt_frame_t] *)
Record interrupt_frame := IFrame {
  if_r15 : Z; if_r14 : Z; if_r13 : Z; if_r12 : Z; if_r11 : Z; if_r10 : Z; if_r9 : Z; if_r8 : Z;
  if_rbp : Z; if_rdi : Z; if_rsi : Z; if_rdx : Z; if_rcx : Z; if_rbx : Z; if_rax : Z;
  if_vector : Z; if_error_code : Z; if_rip : Z; if_cs : Z; if_rflags : Z; if_rsp : Z; if_ss : Z;
}.

Definition panic_rule : string := "======================================================" +:+ newline.
Definition panic_line : string := "------------------------------------------------------" +:+ newline.
Definition bit_set (ec bit : Z) : bool := negb (ec .& bit =? 0).

Definition panic_fault (ec cr2 : Z) : list out :=
  printed ("  Fault addr : 0x%016lx" +:+ newline) [ArgInt cr2] ++
  printed ("  Reason     : %s | %s | %s%s" +:+ newline)
    [str (if bit_set ec 1 then "protection-violation" else "not-present");
     str (if bit_set ec 2 then "write" else "read");
     str (if bit_set ec 4 then "user-mode" else "kernel-mode");
     str (if bit_set ec 16 then " | instruction-fetch" else "")] ++
  printed panic_line [].

Definition panic_exception (f : interrupt_frame) (cr2 : Z) : list out :=
  let name := if if_vector f <? 32 then default ""%string (exception_names !! Z.to_nat (if_vector f))
              else "Unknown Vector"%string in
  [Color VGA_WHITE VGA_RED] ++
  printed newline [] ++
  printed panic_rule [] ++
  printed ("  KERNEL PANIC — Exception #%lu: %s" +:+ newline) [ArgInt (if_vector f); str name] ++
  printed panic_rule [] ++
  (if if_vector f =? 14 then panic_fault (if_error_code f) cr2 else []) ++
  printed ("  Error Code : 0x%016lx" +:+ newline) [ArgInt (if_error_code f)] ++
  printed ("  RIP        : 0x%016lx" +:+ newline) [ArgInt (if_rip f)] ++
  printed ("  CS         : 0x%04lx" +:+ newline) [ArgInt (if_cs f)] ++
  printed ("  RFLAGS     : 0x%016lx" +:+ newline) [ArgInt (if_rflags f)] ++
  printed ("  RSP        : 0x%016lx" +:+ newline) [ArgInt (if_rsp f)] ++
  printed ("  SS         : 0x%04lx" +:+ newline) [ArgInt (if_ss f)] ++
  printed panic_line [] ++
  printed ("  RAX = 0x%016lx   RBX = 0x%016lx" +:+ newline) [ArgInt (if_rax f); ArgInt (if_rbx f)] ++
  printed ("  RCX = 0x%016lx   RDX = 0x%016lx" +:+ newline) [ArgInt (if_rcx f); ArgInt (if_rdx f)] ++
  printed ("  RSI = 0x%016lx   RDI = 0x%016lx" +:+ newline) [ArgInt (if_rsi f); ArgInt (if_rdi f)] ++
  printed ("  RBP = 0x%016lx   R8  = 0x%016lx" +:+ newline) [ArgInt (if_rbp f); ArgInt (if_r8 f)] ++
  printed ("  R9  = 0x%016lx   R10 = 0x%016lx" +:+ newline) [ArgInt (if_r9 f); ArgInt (if_r10 f)] ++
  printed ("  R11 = 0x%016lx   R12 = 0x%016lx" +:+ newline) [ArgInt (if_r11 f); ArgInt (if_r12 f)] ++
  printed ("  R13 = 0x%016lx   R14 = 0x%016lx" +:+ newline) [ArgInt (if_r13 f); ArgInt (if_r14 f)] ++
  printed ("  R15 = 0x%016lx" +:+ newline) [ArgInt (if_r15 f)] ++
  printed panic_rule [].

(** ** [kassert.c] *)

Definition _kassert_fail (expr file : list Z) (line : Z) : list out :=
  printed (newline +:+ "[ASSERT FAILED] %s" +:+ newline +:+ "  at %s:%d" +:+ newline)
    [ArgStr (Some expr); ArgStr (Some file); ArgInt line] ++
  panic_output (chars "Assertion failed").

(** ** [heap_stats] of [heap.c] *)

Definition heap_stats {S} (h : heap S) : list out :=
  printed ("heap: allocs=%lu  frees=%lu  slab_pages=%lu  large_pages=%lu" +:+ newline)
    [ArgInt (heap_alloc_count h); ArgInt (heap_free_count h); ArgInt (heap_slab_pages h); ArgInt (heap_large_pages h)].
