(* ===== verification/KoutProps.v ===== *)
(** * The panic screen *)

From S2P Require Import Prelude Memory Kbd Console ConsoleProps Cpu Kout.
Import StringC.

Lemma out_text_app a b : out_text (a ++ b) = out_text a ++ out_text b.
Proof. unfold out_text. apply bind_app. Qed.
Lemma out_text_put l : out_text (Put <$> l) = l.
Proof. induction l as [|c l IH]; [done|]. cbn. f_equal. exact IH. Qed.

(** Somewhere in a text. *)
Definition within (part l : list Z) : Prop := ∃ a b, l = a ++ part ++ b.
Lemma within_left part l l' : within part l → within part (l ++ l').
Proof. intros (a & b & ->). exists a, (b ++ l'). by rewrite <- !app_assoc. Qed.
Lemma within_right part l l' : within part l' → within part (l ++ l').
Proof. intros (a & b & ->). exists (l ++ a), b. by rewrite <- app_assoc. Qed.

(** Sixteen hexadecimal digits. *)
Definition hex16 (x : Z) : list Z := print_uint x 16 false 16 48.

Lemma digits_rev_few upper k : ∀ fuel n, (k <= fuel)%nat → 0 <= n < 16 ^ Z.of_nat k → digits_rev fuel n 16 upper = digits_rev k n 16 upper.
Proof.
  induction k as [|k IH]; intros fuel n Hf Hn.
  - assert (n = 0) as -> by (cbn in Hn; lia). by destruct fuel.
  - destruct fuel as [|fuel]; [lia|]. cbn [digits_rev]. destruct (0 <? n); [|done]. f_equal. apply IH; [lia|].
    rewrite Nat2Z.inj_succ, Z.pow_succ_r in Hn by lia. split; [apply Z.div_pos; lia|apply Z.div_lt_upper_bound; lia].
Qed.

Lemma value_zeros k ds : value 16 (replicate k 48 ++ ds) = value 16 ds.
Proof. unfold value. rewrite foldl_app. f_equal. induction k as [|k IH]; [done|exact IH]. Qed.

Lemma hex16_reads x : 0 <= x < 2^64 → length (hex16 x) = 16%nat ∧ value 16 (hex16 x) = x.
Proof.
  intros Hx. unfold hex16, print_uint. destruct (Z.eqb_spec x 0) as [->|Hne]; [done|].
  rewrite (digits_rev_few false 16 BUF_SIZE x) by (unfold BUF_SIZE; cbn; lia).
  pose proof (digits_rev_length 16 false 16 x) as Hl. rewrite length_app, length_replicate, length_rev, value_zeros.
  split; [lia|]. apply digits_rev_value; cbn; lia.
Qed.

(** What the screen shows of a register. *)
Definition register_lines (f : interrupt_frame) : list (string * Z) :=
  [("  Error Code : 0x", if_error_code f); ("  RIP        : 0x", if_rip f); ("  RFLAGS     : 0x", if_rflags f); ("  RSP        : 0x", if_rsp f);
   ("  RAX = 0x", if_rax f); ("   RBX = 0x", if_rbx f); ("  RCX = 0x", if_rcx f); ("   RDX = 0x", if_rdx f); ("  RSI = 0x", if_rsi f);
   ("   RDI = 0x", if_rdi f); ("  RBP = 0x", if_rbp f); ("   R8  = 0x", if_r8 f); ("  R9  = 0x", if_r9 f); ("   R10 = 0x", if_r10 f);
   ("  R11 = 0x", if_r11 f); ("   R12 = 0x", if_r12 f); ("  R13 = 0x", if_r13 f); ("   R14 = 0x", if_r14 f); ("  R15 = 0x", if_r15 f)]%string.

(** The lines with one and with two registers. *)
Lemma one_register fmt a x : kprintf_text (chars fmt) [ArgInt x] = Some (chars a ++ print_uint (u64 x) 16 false 16 48 ++ [10]) →
  within (chars a ++ print_uint (u64 x) 16 false 16 48) (out_text (printed fmt [ArgInt x])).
Proof. intros H. unfold printed. rewrite H. cbn [default]. rewrite out_text_put. exists [], [10]. by rewrite <- app_assoc. Qed.
Lemma two_registers fmt a b x y :
  kprintf_text (chars fmt) [ArgInt x; ArgInt y] = Some (chars a ++ print_uint (u64 x) 16 false 16 48 ++ chars b ++ print_uint (u64 y) 16 false 16 48 ++ [10]) →
  within (chars a ++ print_uint (u64 x) 16 false 16 48) (out_text (printed fmt [ArgInt x; ArgInt y])) ∧
  within (chars b ++ print_uint (u64 y) 16 false 16 48) (out_text (printed fmt [ArgInt x; ArgInt y])).
Proof.
  intros H. unfold printed. rewrite H. cbn [default]. rewrite out_text_put. split.
  - exists [], (chars b ++ print_uint (u64 y) 16 false 16 48 ++ [10]). by rewrite <- app_assoc.
  - exists (chars a ++ print_uint (u64 x) 16 false 16 48), [10]. by rewrite <- !app_assoc.
Qed.

(** The dump of an exception shows every register of the interrupted code, each in
    sixteen hexadecimal digits that read back as its value. *)
Theorem panic_shows_registers (f : interrupt_frame) (cr2 : Z) (label : string) (x : Z) :
  (label, x) ∈ register_lines f → 0 <= x < 2^64 →
  ∃ digits, within (chars label ++ digits) (out_text (panic_exception f cr2)) ∧ length digits = 16%nat ∧ value 16 digits = x.
Proof.
  intros Hin Hx. exists (hex16 x). split; [|by apply hex16_reads]. unfold hex16. rewrite <- (u64_small x Hx). clear Hx.
  pose proof (one_register ("  Error Code : 0x%016lx" +:+ newline) "  Error Code : 0x" (if_error_code f) eq_refl) as Hec.
  pose proof (one_register ("  RIP        : 0x%016lx" +:+ newline) "  RIP        : 0x" (if_rip f) eq_refl) as Hrip.
  pose proof (one_register ("  RFLAGS     : 0x%016lx" +:+ newline) "  RFLAGS     : 0x" (if_rflags f) eq_refl) as Hfl.
  pose proof (one_register ("  RSP        : 0x%016lx" +:+ newline) "  RSP        : 0x" (if_rsp f) eq_refl) as Hrsp.
  pose proof (one_register ("  R15 = 0x%016lx" +:+ newline) "  R15 = 0x" (if_r15 f) eq_refl) as H15.
  pose proof (two_registers ("  RAX = 0x%016lx   RBX = 0x%016lx" +:+ newline) "  RAX = 0x" "   RBX = 0x" (if_rax f) (if_rbx f) eq_refl) as [A1 B1].
  pose proof (two_registers ("  RCX = 0x%016lx   RDX = 0x%016lx" +:+ newline) "  RCX = 0x" "   RDX = 0x" (if_rcx f) (if_rdx f) eq_refl) as [A2 B2].
  pose proof (two_registers ("  RSI = 0x%016lx   RDI = 0x%016lx" +:+ newline) "  RSI = 0x" "   RDI = 0x" (if_rsi f) (if_rdi f) eq_refl) as [A3 B3].
  pose proof (two_registers ("  RBP = 0x%016lx   R8  = 0x%016lx" +:+ newline) "  RBP = 0x" "   R8  = 0x" (if_rbp f) (if_r8 f) eq_refl) as [A4 B4].
  pose proof (two_registers ("  R9  = 0x%016lx   R10 = 0x%016lx" +:+ newline) "  R9  = 0x" "   R10 = 0x" (if_r9 f) (if_r10 f) eq_refl) as [A5 B5].
  pose proof (two_registers ("  R11 = 0x%016lx   R12 = 0x%016lx" +:+ newline) "  R11 = 0x" "   R12 = 0x" (if_r11 f) (if_r12 f) eq_refl) as [A6 B6].
  pose proof (two_registers ("  R13 = 0x%016lx   R14 = 0x%016lx" +:+ newline) "  R13 = 0x" "   R14 = 0x" (if_r13 f) (if_r14 f) eq_refl) as [A7 B7].
  unfold register_lines in Hin. rewrite !elem_of_cons in Hin.
  unfold panic_exception. cbv zeta. rewrite !out_text_app. do 5 apply within_right.
  destruct_or! Hin; [injection Hin as -> ->; apply within_right..|by apply elem_of_nil in Hin].
  - do 0 apply within_right. apply within_left. exact Hec.
  - do 1 apply within_right. apply within_left. exact Hrip.
  - do 3 apply within_right. apply within_left. exact Hfl.
  - do 4 apply within_right. apply within_left. exact Hrsp.
  - do 7 apply within_right. apply within_left. exact A1.
  - do 7 apply within_right. apply within_left. exact B1.
  - do 8 apply within_right. apply within_left. exact A2.
  - do 8 apply within_right. apply within_left. exact B2.
  - do 9 apply within_right. apply within_left. exact A3.
  - do 9 apply within_right. apply within_left. exact B3.
  - do 10 apply within_right. apply within_left. exact A4.
  - do 10 apply within_right. apply within_left. exact B4.
  - do 11 apply within_right. apply within_left. exact A5.
  - do 11 apply within_right. apply within_left. exact B5.
  - do 12 apply within_right. apply within_left. exact A6.
  - do 12 apply within_right. apply within_left. exact B6.
  - do 13 apply within_right. apply within_left. exact A7.
  - do 13 apply within_right. apply within_left. exact B7.
  - do 14 apply within_right. apply within_left. exact H15.
Qed.
