(* ===== verification/Entry.v ===== *)
(** * Entry and exit code: [syscall_entry.asm], [context.asm], [isr_stubs.asm]

    The sequences of pushes and pops around the C handlers, on the general registers and
    the words of the kernel stack, top first.  The frame a handler sees is the words at
    the top of the stack. *)

From S2P Require Import Prelude Memory Kbd Vfs Sched Vmm Heap Console Cpu Kout.

Inductive reg := RAX | RBX | RCX | RDX | RSI | RDI | RBP | R8 | R9 | R10 | R11 | R12 | R13 | R14 | R15.
#[export] Instance reg_eq_dec : EqDecision reg.
Proof. solve_decision. Defined.

Definition regs : Type := reg → Z.
Definition set_reg (r : reg) (v : Z) (rs : regs) : regs := λ r', if decide (r' = r) then v else rs r'.

Inductive asm := PushR (r : reg) | PushW (w : Z) | PopR (r : reg) | Discard.

(** [None]: more is popped than there is. *)
Definition exec1 (i : asm) (x : regs * list Z) : option (regs * list Z) :=
  let '(rs, st) := x in
  match i, st with
  | PushR r, _ => Some (rs, rs r :: st)
  | PushW w, _ => Some (rs, w :: st)
  | PopR r, w :: st' => Some (set_reg r w rs, st')
  | Discard, _ :: st' => Some (rs, st')
  | _, [] => None
  end.
Fixpoint exec (l : list asm) (x : regs * list Z) : option (regs * list Z) :=
  match l with [] => Some x | i :: l' => y ← exec1 i x; exec l' y end.

(** What [iretq] takes from the stack. *)
Record iret := Iret { ir_rip : Z; ir_cs : Z; ir_rflags : Z; ir_rsp : Z; ir_ss : Z }.
Definition iretq (x : regs * list Z) : option (regs * iret * list Z) :=
  match x.2 with
  | rip :: cs :: fl :: rsp :: ss :: st => Some (x.1, Iret rip cs fl rsp ss, st)
  | _ => None
  end.

(** ** System calls *)

Definition GDT_USER_CODE_RPL3 : Z := 0x1B.
Definition GDT_USER_DATA_RPL3 : Z := 0x23.

(** The instruction [syscall] has put the return address into rcx and the flags into r11;
    [rsp] is the user stack pointer the first instruction saves. *)
Definition syscall_entry (rsp : Z) : list asm :=
  [PushW rsp; PushR R11; PushR RCX; PushR RAX; PushR RBX; PushR RCX; PushR RDX; PushR RSI; PushR RDI; PushR RBP;
   PushR R8; PushR R9; PushR R10; PushR R11; PushR R12; PushR R13; PushR R14; PushR R15].

Definition syscall_return_from_frame : list asm :=
  [PopR R15; PopR R14; PopR R13; PopR R12; PopR R11; PopR R10; PopR R9; PopR R8; PopR RBP; PopR RDI; PopR RSI; PopR RDX;
   PopR RCX; PopR RBX; PopR RAX; PopR RCX; PopR R11; PopR RDX;
   PushW GDT_USER_DATA_RPL3; PushR RDX; PushR R11; PushW GDT_USER_CODE_RPL3; PushR RCX].

(** The words of [syscall_frame_t], lowest address first. *)
Definition frame_words (f : syscall_frame) : list Z :=
  [fr_r15 f; fr_r14 f; fr_r13 f; fr_r12 f; fr_r11 f; fr_r10 f; fr_r9 f; fr_r8 f; fr_rbp f; fr_rdi f; fr_rsi f; fr_rdx f;
   fr_rcx f; fr_rbx f; fr_rax f; user_rip f; user_rflags f; user_rsp f].

(** ** Context switch

    The words saved for the task that leaves, and the registers and return address of
    the one that comes. *)

Definition save_callee : list asm := [PushR R15; PushR R14; PushR R13; PushR R12; PushR RBP; PushR RBX].
Definition load_callee : list asm := [PopR RBX; PopR RBP; PopR R12; PopR R13; PopR R14; PopR R15].

(** [ret] is the address the caller of context_switch pushed; [st] the rest of the old
    stack and [new] the words at the new stack pointer. *)
Definition context_switch (rs : regs) (ret : Z) (st new : list Z) : option (list Z * regs * Z * list Z) :=
  '(_, saved) ← exec save_callee (rs, ret :: st);
  '(rs', w) ← exec load_callee (rs, new);
  match w with rip :: st' => Some (saved, rs', rip, st') | [] => None end.

(** [user_mode_enter] up to its [iretq]. *)
Definition user_mode_enter_code : list asm := [PushW 0x23; PushR R13; PushW 0x202; PushW 0x1B; PushR R12].

(** ** Interrupts

    The processor has pushed [ss], [rsp], [rflags], [cs], [rip] and, for some vectors, an
    error code; the stub adds a zero for the others and the vector. *)

Definition has_error_code (v : Z) : bool := bool_decide (v ∈ [8; 10; 11; 12; 13; 14; 17; 21; 29; 30]).
Definition isr_stub (v : Z) : list asm := (if has_error_code v then [] else [PushW 0]) ++ [PushW v].
Definition isr_save : list asm :=
  [PushR RAX; PushR RBX; PushR RCX; PushR RDX; PushR RSI; PushR RDI; PushR RBP; PushR R8; PushR R9; PushR R10; PushR R11;
   PushR R12; PushR R13; PushR R14; PushR R15].
Definition isr_restore : list asm :=
  [PopR R15; PopR R14; PopR R13; PopR R12; PopR R11; PopR R10; PopR R9; PopR R8; PopR RBP; PopR RDI; PopR RSI; PopR RDX;
   PopR RCX; PopR RBX; PopR RAX; Discard; Discard].

(** The words of [interrupt_frame_t], lowest address first. *)
Definition iframe_words (f : interrupt_frame) : list Z :=
  [if_r15 f; if_r14 f; if_r13 f; if_r12 f; if_r11 f; if_r10 f; if_r9 f; if_r8 f; if_rbp f; if_rdi f; if_rsi f; if_rdx f;
   if_rcx f; if_rbx f; if_rax f; if_vector f; if_error_code f; if_rip f; if_cs f; if_rflags f; if_rsp f; if_ss f].

(** What the processor pushes. *)
Definition cpu_pushes (v ec : Z) (i : iret) : list Z :=
  (if has_error_code v then [ec] else []) ++ [ir_rip i; ir_cs i; ir_rflags i; ir_rsp i; ir_ss i].

(** ** Properties *)

(** The frame the dispatcher gets holds every register of the program. *)
Definition frame_of (rs : regs) (rsp : Z) : syscall_frame :=
  Frame (rs R15) (rs R14) (rs R13) (rs R12) (rs R11) (rs R10) (rs R9) (rs R8) (rs RBP) (rs RDI) (rs RSI) (rs RDX)
    (rs RCX) (rs RBX) (rs RAX) (rs RCX) (rs R11) rsp.

Lemma syscall_entry_frame rs rsp st : exec (syscall_entry rsp) (rs, st) = Some (rs, frame_words (frame_of rs rsp) ++ st).
Proof. reflexivity. Qed.

(** What the program sees after a frame was returned to. *)
Definition returned (f : syscall_frame) (r : reg) : Z :=
  match r with
  | RAX => fr_rax f | RBX => fr_rbx f | RSI => fr_rsi f | RDI => fr_rdi f | RBP => fr_rbp f
  | R8 => fr_r8 f | R9 => fr_r9 f | R10 => fr_r10 f | R12 => fr_r12 f | R13 => fr_r13 f | R14 => fr_r14 f | R15 => fr_r15 f
  | RCX => user_rip f | R11 => user_rflags f | RDX => user_rsp f
  end.

Lemma return_from_frame f rs st : ∃ rs', exec syscall_return_from_frame (rs, frame_words f ++ st) ≫= iretq =
    Some (rs', Iret (user_rip f) GDT_USER_CODE_RPL3 (user_rflags f) (user_rsp f) GDT_USER_DATA_RPL3, st) ∧ ∀ r, rs' r = returned f r.
Proof. eexists. split; [reflexivity|]. by intros []. Qed.


(** A task that is switched away from and later back to continues where it called, with
    its stack and the registers a callee keeps. *)
Theorem context_switch_back (rs other : regs) (ret : Z) (st new : list Z) (saved : list Z) (rs1 : regs) (rip : Z) (st1 : list Z)
    (ret2 : Z) (st2 : list Z) :
  context_switch rs ret st new = Some (saved, rs1, rip, st1) →
  ∃ saved2 rs2, context_switch other ret2 st2 saved = Some (saved2, rs2, ret, st) ∧
    ∀ r, r ∈ [RBX; RBP; R12; R13; R14; R15] → rs2 r = rs r.
Proof.
  intros H. unfold context_switch in H. change (exec save_callee (rs, ret :: st)) with
    (Some (rs, [rs RBX; rs RBP; rs R12; rs R13; rs R14; rs R15] ++ ret :: st)) in H. cbn [mbind option_bind] in H.
  destruct (exec load_callee (rs, new)) as [[rs' w]|]; [|done]. destruct w as [|rip' st']; [done|]. injection H as <- _ _ _.
  eexists _, _. split; [reflexivity|]. intros r. rewrite !elem_of_cons, elem_of_nil. intros Hr.
  by destruct_or? Hr; subst.
Qed.

Lemma context_switch_back_witness :
  ∃ saved2 rs2, context_switch (λ _, 9) 0x300 [] ([1; 1; 1; 1; 1; 1] ++ [0x200; 5]) = Some (saved2, rs2, 0x200, [5]) ∧ rs2 R12 = 1.
Proof.
  destruct (context_switch_back (λ _, 1) (λ _, 9) 0x200 [5] [0; 0; 7; 8; 0; 0; 0x100] _ _ _ _ 0x300 [] eq_refl) as (sv & rs2 & H & Hr).
  exists sv, rs2. split; [exact H|]. apply Hr. set_solver.
Defined.

(** The stack of a new task starts it: the switch returns to its start routine with the
    words the routine expects in r12 and r13. *)
Theorem new_task_starts (rs : regs) (ret : Z) (st : list Z) (base : Z) (how : start) (r12 r13 addr : Z) (fr : option syscall_frame) :
  ∃ saved rs', context_switch rs ret st (ks_words (build_initial_stack base how r12 r13 fr) ++ [addr]) = Some (saved, rs', addr, []) ∧
    rs' R12 = r12 ∧ rs' R13 = r13 ∧
    exec user_mode_enter_code (rs', []) ≫= iretq =
      Some (rs', Iret r12 (GDT_USER_CODE .| 3) 0x202 r13 (GDT_USER_DATA .| 3), []).
Proof. eexists _, _. split; [reflexivity|]. done. Qed.

(** An interrupt is transparent: the handler sees the vector, the error code and the
    registers, and the interrupted code goes on with all of its registers. *)
Theorem interrupt_transparent (rs other : regs) (v ec : Z) (i : iret) (st : list Z) :
  ∃ f rs', exec (isr_stub v ++ isr_save) (rs, cpu_pushes v ec i ++ st) = Some (rs, iframe_words f ++ st) ∧
    if_vector f = v ∧ if_error_code f = (if has_error_code v then ec else 0) ∧ if_rip f = ir_rip i ∧
    exec isr_restore (other, iframe_words f ++ st) ≫= iretq = Some (rs', i, st) ∧ ∀ r, rs' r = rs r.
Proof.
  exists (IFrame (rs R15) (rs R14) (rs R13) (rs R12) (rs R11) (rs R10) (rs R9) (rs R8) (rs RBP) (rs RDI) (rs RSI) (rs RDX)
    (rs RCX) (rs RBX) (rs RAX) v (if has_error_code v then ec else 0) (ir_rip i) (ir_cs i) (ir_rflags i) (ir_rsp i) (ir_ss i)).
  eexists. split; [unfold isr_stub, cpu_pushes; by destruct (has_error_code v)|]. do 3 (split; [done|]).
  split; [by destruct i|]. by intros [].
Qed.
