(* ===== verification/Kshell.v ===== *)
(** * The kernel shell ([kernel/shell/shell.c]): the model

    A C string is a list of its characters.  The keyboard is the driver of [Kbd] with
    its ports; the bound on [kbd_getchar] and on the loop of [readline] is a parameter.
    The commands read the state of the other components. *)

From S2P Require Import Prelude Memory Kbd Pmm Vmm Heap Vfs.
From S2P Require Import Sched Console Power Cpu Kout.
Import StringC.

Definition LINE_MAX : Z := 512.
Definition HIST_MAX : Z := 16.
Definition MAX_ARGS : Z := 32.
Definition LITHIUM_VERSION : string := "1.0.0".
Definition LITHIUM_VERSION_FULL : string := "Lithium " +:+ LITHIUM_VERSION +:+ " x86_64".

(** ** Command history

    An entry is a cleared row of 512 bytes that [strncpy] fills with up to 511. *)

Record history := History { hist : list (list Z); hist_count : Z; hist_idx : Z }.
Definition empty_history : history := History (replicate (Z.to_nat HIST_MAX) []) 0 0.

Definition hist_row (h : history) (i : Z) : list Z := default [] (hist h !! Z.to_nat (i mod HIST_MAX)).

Definition hist_push (line : list Z) (h : history) : history :=
  match line with
  | [] => h
  | _ =>
      if (0 <? hist_count h) && bool_decide (hist_row h (hist_count h - 1) = line) then h
      else
        let n := hist_count h + 1 in
        History (<[Z.to_nat (hist_count h mod HIST_MAX) := take (Z.to_nat (LINE_MAX - 1)) line]> (hist h)) n n
  end.
Definition hist_rewind (h : history) : history := History (hist h) (hist_count h) (hist_count h).

(** ** State *)

Record machine (S : Type) := Machine {
  m_timer : timer; m_pmm : pmm_state; m_heap : heap S; m_cpu : cpuid_features; m_sched : sched; m_power : power_state;
}.
Arguments m_timer {S}. Arguments m_pmm {S}. Arguments m_heap {S}.
Arguments m_cpu {S}. Arguments m_sched {S}. Arguments m_power {S}.

Record kshell (Dev S : Type) := KShell {
  ks_hist : history;
  ks_kbd : kbd;
  ks_dev : Dev;
  ks_fs : vfs;
  ks_machine : machine S;
  ks_out : list out;
}.
Arguments KShell {Dev S}.
Arguments ks_hist {Dev S}. Arguments ks_kbd {Dev S}. Arguments ks_dev {Dev S}.
Arguments ks_fs {Dev S}. Arguments ks_machine {Dev S}. Arguments ks_out {Dev S}.

(** What the shell does after a command: it goes on, or the machine has stopped. *)
Inductive outcome := Goes | Halts | Reboots | PowersOff (writes : list io).

(** [kputchar('\b'); kputchar(' '); kputchar('\b');] *)
Definition rubout : list out := [Put 8; Put 32; Put 8].

(** ** [parse_args]

    The words, as the pointers in [argv] show them once the separators are zeros. *)

Definition is_blank (c : Z) : bool := (c =? 32) || (c =? 9).
Fixpoint skip_blanks (p : list Z) : list Z :=
  match p with c :: p' => if is_blank c then skip_blanks p' else p | [] => [] end.
Fixpoint take_word (p : list Z) : list Z * list Z :=
  match p with
  | c :: p' => if is_blank c then ([], p') else let '(w, r) := take_word p' in (c :: w, r)
  | [] => ([], [])
  end.
Fixpoint parse_loop (max : nat) (p : list Z) : list (list Z) :=
  match max, p with
  | Datatypes.S m, _ :: _ =>
      match skip_blanks p with
      | [] => []
      | q => let '(w, r) := take_word q in w :: parse_loop m r
      end
  | _, _ => []
  end.
Definition parse_args (line : list Z) (max : Z) : list (list Z) := parse_loop (Z.to_nat max) line.

Definition set_color_for_type (t : vnode_type) : out :=
  match t with
  | VFS_DIR => Color VGA_LIGHT_BLUE VGA_BLACK
  | VFS_DEVICE => Color VGA_LIGHT_CYAN VGA_BLACK
  | _ => Color VGA_LIGHT_GREY VGA_BLACK
  end.

Section Shell.
Context {Dev S : Type} `{P : Ports Dev}.
Context (fuel : nat) (wait : kbd * Dev → kbd * Dev).
Context (can_alloc : Z → vfs → bool) (fresh : vfs → array) (stack_tail write_tail : list Z).
Context (inw : Z → Z).

Notation sh := (kshell Dev S).

Definition emit (l : list out) : M sh () :=
  modify (λ s, KShell (ks_hist s) (ks_kbd s) (ks_dev s) (ks_fs s) (ks_machine s) (ks_out s ++ l)).
Definition say (fmt : string) (args : list arg) : M sh () := emit (printed fmt args).
Definition color (fg : Z) : M sh () := emit [Color fg VGA_BLACK].
Definition set_hist (f : history → history) : M sh () :=
  modify (λ s, KShell (f (ks_hist s)) (ks_kbd s) (ks_dev s) (ks_fs s) (ks_machine s) (ks_out s)).
Definition set_keyboard (k : kbd) (d : Dev) : M sh () :=
  modify (λ s, KShell (ks_hist s) k d (ks_fs s) (ks_machine s) (ks_out s)).

(** [char] is signed: the value of the byte the driver returns. *)
Definition getchar : M sh Z :=
  s ← get;
  match kbd_getchar fuel wait (ks_kbd s) (ks_dev s) with
  | Some (c, k, d) => set_keyboard k d;; mret (s8 c)
  | None => no_fuel
  end.
Definition trygetchar : M sh Z :=
  s ← get;
  let '(c, k, d) := kbd_trygetchar (ks_kbd s) (ks_dev s) in set_keyboard k d;; mret (s8 c).

(** An operation of the file system. *)
Definition on_fs {A} (f : vfs → A * vfs) : M sh A := λ s,
  let '(a, v) := f (ks_fs s) in
  Ret (a, KShell (ks_hist s) (ks_kbd s) (ks_dev s) v (ks_machine s) (ks_out s)).

(** ** [readline]

    [line] is [buf[0..i)]; the bytes behind it are not read before [buf[i]] is set to
    zero.  [h] is the local history position. *)

(** [while (i-- > 0)] ... [i = 0] *)
Definition erase (line : list Z) : M sh () := emit (mjoin (replicate (length line) rubout)).

Definition recall (line : list Z) (h : Z) (max : Z) : M sh (list Z) :=
  erase line;;
  hs ← gets ks_hist;
  let entry := take (Z.to_nat (max - 1)) (hist_row hs h) in
  say "%s" [ArgStr (Some entry)];;
  mret entry.

(** The part after ESC: the new line and position. *)
Definition escape (line : list Z) (h max : Z) : M sh (list Z * Z) :=
  c2 ← trygetchar;
  if c2 =? 91 then
    c3 ← getchar;
    hs ← gets ks_hist;
    if (c3 =? 65) && (0 <? hist_count hs) then
      let h := if 0 <? h then h - 1 else h in
      line ← recall line h max;
      mret (line, h)
    else if c3 =? 66 then
      let h := if h <? hist_count hs then h + 1 else h in
      if h <? hist_count hs then line ← recall line h max; mret (line, h)
      else erase line;; mret ([], h)
    else mret (line, h)
  else mret (line, h).

Fixpoint readline_loop (n : nat) (max : Z) (line : list Z) (h : Z) : M sh (list Z) :=
  match n with
  | O => no_fuel
  | Datatypes.S n' =>
      c ← getchar;
      if c =? 27 then '(line, h) ← escape line h max; readline_loop n' max line h
      else if (c =? 10) || (c =? 13) then
        emit [Put 10];; set_hist (hist_push line);; set_hist hist_rewind;; mret line
      else if c =? 8 then
        match line with
        | [] => readline_loop n' max [] h
        | _ => emit rubout;; readline_loop n' max (removelast line) h
        end
      else if c =? 3 then say ("^C" +:+ newline) [];; set_hist hist_rewind;; mret []
      else if c =? 21 then erase line;; readline_loop n' max [] h
      else if (32 <=? c) && (len line <? max - 1) then emit [Put c];; readline_loop n' max (line ++ [c]) h
      else readline_loop n' max line h
  end.
Definition readline (n : nat) (max : Z) : M sh (list Z) :=
  hs ← gets ks_hist; readline_loop n max [] (hist_idx hs).

(** ** Built-in commands *)

Definition arg_at (argv : list (list Z)) (i : nat) : list Z := default [] (argv !! i).

Definition help_lines : list string :=
  ["  help              show this list"; "  uname [-a]        kernel name and version";
   "  uptime            time since boot"; "  mem               memory statistics";
   "  cpu               CPU information"; "  tasks             list scheduled tasks";
   "  ls [path]         list directory contents"; "  cat <file>        print file to stdout";
   "  echo [text]       print text"; "  write <f> <text>  write text to /tmp file";
   "  mkdir <path>      create directory"; "  clear             clear screen";
   "  history           show command history"; "  panic             trigger kernel panic (test)";
   "  reboot            reboot the system"; "  shutdown          power off the VM";
   "  poweroff          alias for shutdown"]%string.

Fixpoint say_all (l : list string) : M sh () :=
  match l with [] => mret () | f :: l' => say (f +:+ newline) [];; say_all l' end.

Definition cmd_help (argv : list (list Z)) : M sh outcome :=
  color VGA_YELLOW;;
  say ("Lithium OS — built-in commands" +:+ newline) [];;
  color VGA_LIGHT_GREY;;
  say_all help_lines;;
  mret Goes.

Definition cmd_uname (argv : list (list Z)) : M sh outcome :=
  let all := (2 <=? len argv) && bool_decide (arg_at argv 1 = chars "-a") in
  color VGA_LIGHT_GREEN;;
  (if all : bool then say ("%s (GCC/Clang cross, Multiboot2) Lithium/%s" +:+ newline) [str LITHIUM_VERSION_FULL; str LITHIUM_VERSION]
   else say ("%s" +:+ newline) [str LITHIUM_VERSION_FULL]);;
  color VGA_LIGHT_GREY;;
  mret Goes.

Definition cmd_uptime (argv : list (list Z)) : M sh outcome :=
  mc ← gets ks_machine;
  let ms := timer_ms (m_timer mc) in
  let s := ms / 1000 in
  let m := s / 60 in
  let h := m / 60 in
  say ("up %luh %02lum %02lus  (%lu ms, %lu ticks)" +:+ newline)
    [ArgInt h; ArgInt (m mod 60); ArgInt (s mod 60); ArgInt ms; ArgInt (jiffies (m_timer mc))];;
  mret Goes.

Definition mem_line (label : string) (n : Z) : M sh () :=
  say ("  " +:+ label +:+ " : %6lu MiB  (%lu KiB)" +:+ newline) [ArgInt (n / 2^20); ArgInt (n / 1024)].

Definition cmd_mem (argv : list (list Z)) : M sh outcome :=
  mc ← gets ks_machine;
  let total := pmm_total_bytes (m_pmm mc) in
  let free_b := pmm_free_bytes (m_pmm mc) in
  let used := u64 (total - free_b) in
  color VGA_LIGHT_CYAN;;
  say ("Physical memory:" +:+ newline) [];;
  color VGA_LIGHT_GREY;;
  mem_line "Total" total;; mem_line "Used " used;; mem_line "Free " free_b;;
  emit (heap_stats (m_heap mc));;
  mret Goes.

Definition cmd_cpu (argv : list (list Z)) : M sh outcome :=
  mc ← gets ks_machine;
  let f := m_cpu mc in
  color VGA_LIGHT_CYAN;;
  say ("CPU info:" +:+ newline) [];;
  color VGA_LIGHT_GREY;;
  say ("  Vendor   : %s" +:+ newline) [ArgStr (Some (zstr (vendor f)))];;
  say ("  Features :%s%s%s%s%s%s%s%s" +:+ newline)
    [flag_text (has_apic f) " APIC"; flag_text (has_sse f) " SSE"; flag_text (has_sse2 f) " SSE2";
     flag_text (has_avx f) " AVX"; flag_text (has_avx2 f) " AVX2"; flag_text (has_nx f) " NX";
     flag_text (has_syscall f) " SYSCALL"; flag_text (has_1gb_pages f) " 1GB-PG"];;
  say ("  Max leaf : 0x%x (ext: 0x%x)" +:+ newline) [ArgInt (max_basic f); ArgInt (max_extended f)];;
  mret Goes.

(** Every state has a case; the initial text is never shown. *)
Definition state_text (t : task_state) : string :=
  match t with
  | TASK_READY => "ready  "
  | TASK_RUNNING => "running"
  | TASK_BLOCKED => "blocked"
  | TASK_DEAD => "dead   "
  end%string.

(** The do-while loop from task [i]; a task that is not linked in has no next one. *)
Fixpoint tasks_loop (n : nat) (sc : sched) (cur i : nat) : M sh () :=
  match n with
  | O => mret ()
  | Datatypes.S n' =>
      match tasks sc !! i with
      | None => panic "null dereference"
      | Some t =>
          say ("  %3u  %s  %5lu  %s" +:+ newline)
            [ArgInt (t_pid t); str (state_text (t_state t)); ArgInt (t_ticks t); ArgStr (Some (t_name t))];;
          match t_next t with
          | None => match n' with O => mret () | _ => panic "null dereference" end
          | Some j => if decide (j = cur) then mret () else tasks_loop n' sc cur j
          end
      end
  end.

Definition cmd_tasks (argv : list (list Z)) : M sh outcome :=
  say ("  PID  STATE    TICKS  NAME" +:+ newline) [];;
  say ("  ---  -------  -----  ----" +:+ newline) [];;
  mc ← gets ks_machine;
  match current_task (m_sched mc) with
  | None => say ("  (scheduler not active)" +:+ newline) [];; mret Goes
  | Some cur => tasks_loop 64 (m_sched mc) cur cur;; mret Goes
  end.

Fixpoint ls_loop (n : nat) (path : list Z) (count : Z) : M sh Z :=
  match n with
  | O => no_fuel
  | Datatypes.S n' =>
      v ← gets ks_fs;
      match vfs_readdir stack_tail v path count with
      | None => mret count
      | Some (name, type) =>
          emit [set_color_for_type type];;
          say "  %-20s" [ArgStr (Some name)];;
          color VGA_DARK_GREY;;
          say (match type with VFS_DIR => " <DIR>" +:+ newline | VFS_DEVICE => " <DEV>" +:+ newline | _ => newline end) [];;
          ls_loop n' path (count + 1)
      end
  end.

(** No directory has more entries than there are vnodes. *)
Definition cmd_ls (argv : list (list Z)) : M sh outcome :=
  let path := if 2 <=? len argv then arg_at argv 1 else [slash] in
  color VGA_LIGHT_CYAN;;
  say ("%s:" +:+ newline) [ArgStr (Some path)];;
  v ← gets ks_fs;
  count ← ls_loop (Datatypes.S (size (nodes v))) path 0;
  color VGA_LIGHT_GREY;;
  (if count =? 0 then say ("  (empty)" +:+ newline) [] else mret ());;
  mret Goes.

(** [while ((n = vfs_read(fd, buf, room)) > 0) { buf[n] = 0; kprintf("%s", buf); }] *)
Fixpoint print_file (n : nat) (fd room : Z) : M sh () :=
  match n with
  | O => no_fuel
  | Datatypes.S n' =>
      r ← on_fs (vfs_read fd room);
      if 0 <? r.1 then say "%s" [ArgStr (Some (zstr r.2))];; print_file n' fd room else mret ()
  end.

(** Each round reads at least one byte of the file. *)
Definition reads_left (fd : Z) (v : vfs) : nat :=
  match get_file (kernel_fd_table v) fd with
  | Some f => match nodes v !! f_vnode f ≫= vn_data with Some tf => Datatypes.S (Z.to_nat (tf_size tf)) | None => 1 end
  | None => 1
  end.

Definition cmd_cat (argv : list (list Z)) : M sh outcome :=
  if len argv <? 2 then say ("usage: cat <file>" +:+ newline) [];; mret Goes
  else
    fd ← on_fs (vfs_open stack_tail (arg_at argv 1));
    if fd <? 0 then
      color VGA_LIGHT_RED;;
      say ("cat: %s: no such file" +:+ newline) [ArgStr (Some (arg_at argv 1))];;
      color VGA_LIGHT_GREY;;
      mret Goes
    else
      v ← gets ks_fs;
      print_file (reads_left fd v) fd (128 - 1);;
      on_fs (λ v, ((), vfs_close fd v));;
      mret Goes.

(** [path] of [cmd_write]: a long absolute path is copied without its terminator and
    runs on into what the stack holds behind it. *)
Definition write_path (name : list Z) : list Z :=
  match name with
  | c :: _ => if c =? slash then path_buffer write_tail name
              else take (Z.to_nat (VFS_MAX_PATH - 1)) (chars "/tmp/" ++ name)
  | [] => chars "/tmp/"
  end.

(** A missing [/tmp] is made with no operation table, which acts as one without
    functions; the name taken from the argument is not used. *)
Definition ensure_tmp : M sh () :=
  v ← gets ks_fs;
  match vfs_lookup stack_tail v (chars "/tmp") with
  | Some _ => mret ()
  | None => on_fs (vnode_create can_alloc (Some (vfs_root v)) (chars "tmp") VFS_DIR tmpfs_dir_ops);; mret ()
  end.

Definition put_file (fd : Z) (text : list Z) : M sh () := on_fs (vfs_write can_alloc fresh fd text);; mret ().

(** The words with a blank between them. *)
Fixpoint write_words (fd : Z) (words : list (list Z)) : M sh () :=
  match words with
  | [] => mret ()
  | [w] => put_file fd w
  | w :: words' => put_file fd w;; put_file fd [32];; write_words fd words'
  end.

Definition cmd_write (argv : list (list Z)) : M sh outcome :=
  if len argv <? 3 then say ("usage: write <file> <text>" +:+ newline) [];; mret Goes
  else
    let path := write_path (arg_at argv 1) in
    ensure_tmp;;
    fd ← on_fs (vfs_open stack_tail path);
    if fd <? 0 then say ("write: cannot open %s" +:+ newline) [ArgStr (Some path)];; mret Goes
    else
      write_words fd (drop 2 argv);;
      put_file fd [10];;
      on_fs (λ v, ((), vfs_close fd v));;
      say ("wrote to %s" +:+ newline) [ArgStr (Some path)];;
      mret Goes.

(** The arguments from [start] on, a blank before each but the first. *)
Fixpoint echo_words (words : list (list Z)) : M sh () :=
  match words with
  | [] => mret ()
  | [w] => say "%s" [ArgStr (Some w)]
  | w :: words' => say "%s" [ArgStr (Some w)];; emit [Put 32];; echo_words words'
  end.
Definition cmd_echo (argv : list (list Z)) : M sh outcome :=
  let quiet := (2 <=? len argv) && bool_decide (arg_at argv 1 = chars "-n") in
  echo_words (drop (if quiet then 2 else 1) argv);;
  (if quiet then mret () else emit [Put 10]);;
  mret Goes.

Definition cmd_clear (argv : list (list Z)) : M sh outcome :=
  emit [Cls];;
  color VGA_LIGHT_GREEN;;
  say ("Welcome to lithium OS, kernel ver- %s." +:+ newline) [str LITHIUM_VERSION];;
  color VGA_LIGHT_GREY;;
  mret Goes.

Fixpoint history_loop (n : nat) (i : Z) (hs : history) : M sh () :=
  match n with
  | O => mret ()
  | Datatypes.S n' =>
      say ("  %3d  %s" +:+ newline) [ArgInt (i + 1); ArgStr (Some (hist_row hs i))];; history_loop n' (i + 1) hs
  end.
Definition cmd_history (argv : list (list Z)) : M sh outcome :=
  hs ← gets ks_hist;
  let start := if HIST_MAX <? hist_count hs then hist_count hs - HIST_MAX else 0 in
  history_loop (Z.to_nat (hist_count hs - start)) start hs;;
  mret Goes.

Definition cmd_panic (argv : list (list Z)) : M sh outcome :=
  emit (panic_output (chars "user-triggered kernel panic (shell test)"));; mret Halts.

(** The status port until its input buffer is empty. *)
Fixpoint reset_wait (n : nat) (d : Dev) : option Dev :=
  match n with
  | O => None
  | Datatypes.S n' => let '(s, d) := inb KBD_STATUS d in if s .& KBD_STAT_IN =? 0 then Some d else reset_wait n' d
  end.
Definition cmd_reboot (argv : list (list Z)) : M sh outcome :=
  say ("Rebooting..." +:+ newline) [];;
  s ← get;
  match reset_wait fuel (ks_dev s) with
  | Some d => set_keyboard (ks_kbd s) (outb KBD_CMD 0xFE d);; mret Reboots
  | None => no_fuel
  end.

(** Its messages are among the steps of [power_shutdown]. *)
Definition cmd_poweroff (argv : list (list Z)) : M sh outcome :=
  mc ← gets ks_machine; mret (PowersOff (power_shutdown inw (m_power mc))).

Definition commands : list (string * (list (list Z) → M sh outcome)) :=
  [("help", cmd_help); ("uname", cmd_uname); ("uptime", cmd_uptime); ("mem", cmd_mem); ("cpu", cmd_cpu);
   ("tasks", cmd_tasks); ("ls", cmd_ls); ("cat", cmd_cat); ("write", cmd_write); ("echo", cmd_echo);
   ("clear", cmd_clear); ("history", cmd_history); ("panic", cmd_panic); ("reboot", cmd_reboot);
   ("shutdown", cmd_poweroff); ("poweroff", cmd_poweroff)]%string.

(** ** The loop *)

Definition print_motd : M sh () :=
  fd ← on_fs (vfs_open stack_tail (chars "/etc/motd"));
  if fd <? 0 then mret ()
  else
    color VGA_LIGHT_GREEN;;
    v ← gets ks_fs;
    print_file (reads_left fd v) fd (256 - 1);;
    on_fs (λ v, ((), vfs_close fd v));;
    color VGA_LIGHT_GREY.

Definition prompt : M sh () :=
  color VGA_LIGHT_GREEN;; say "lithium" [];;
  color VGA_DARK_GREY;; say ":" [];;
  color VGA_LIGHT_BLUE;; say "~" [];;
  color VGA_LIGHT_GREY;; say "# " [].

Fixpoint find_command (l : list (string * (list (list Z) → M sh outcome))) (name : list Z) : option (list (list Z) → M sh outcome) :=
  match l with
  | [] => None
  | (n, f) :: l' => if decide (name = chars n) then Some f else find_command l' name
  end.

Definition run_line (line : list Z) : M sh outcome :=
  match parse_args line MAX_ARGS with
  | [] => mret Goes
  | (name :: _) as argv =>
      match find_command commands name with
      | Some f => f argv
      | None =>
          color VGA_LIGHT_RED;;
          say ("-%s: %s: command not found" +:+ newline) [str "lithium"; ArgStr (Some name)];;
          color VGA_LIGHT_GREY;;
          mret Goes
      end
  end.

(** One round of the loop of [shell_run], for a bound [n] on the keys of the line. *)
Definition shell_round (n : nat) : M sh outcome :=
  prompt;; line ← readline n LINE_MAX; match line with [] => mret Goes | _ => run_line line end.

Fixpoint rounds (k n : nat) : M sh outcome :=
  match k with
  | O => no_fuel
  | Datatypes.S k' => r ← shell_round n; match r with Goes => rounds k' n | _ => mret r end
  end.
Definition shell_run (k n : nat) : M sh outcome := print_motd;; rounds k n.

End Shell.
