(* ===== verification/KshellProps.v ===== *)
(** * The kernel shell: history, words and typed lines *)

From S2P Require Import Prelude Memory Kbd KbdProps Pmm Vmm Heap Vfs.
From S2P Require Import Sched Console ConsoleProps Power Cpu Kout Kshell.
Import StringC.

(** ** The history is the log of the lines that were entered

    [log] holds_log every line, oldest first, without empty lines and without a line that
    repeats the one before it. *)

Definition log_push (log : list (list Z)) (line : list Z) : list (list Z) :=
  if decide (line = [] ∨ last log = Some line) then log else log ++ [line].

(** The ring has the last 16 lines of the log. *)
Record holds_log (h : history) (log : list (list Z)) : Prop := {
  holds_rows : length (hist h) = 16%nat;
  holds_count : hist_count h = len log;
  holds_row i line : log !! i = Some line → len log - 16 <= Z.of_nat i → hist_row h (Z.of_nat i) = line;
}.

Lemma holds_empty : holds_log empty_history [].
Proof. by constructor. Qed.

Lemma last_row h log : holds_log h log → log ≠ [] → Some (hist_row h (hist_count h - 1)) = last log.
Proof.
  intros [_ Hc Hr] Hne. destruct (exists_last Hne) as (l & x & ->). rewrite last_snoc. f_equal.
  rewrite Hc, length_app. cbn [length]. replace (Z.of_nat (length l + 1) - 1) with (Z.of_nat (length l)) by lia.
  apply Hr; [by rewrite lookup_app_r, Nat.sub_diag by lia|rewrite length_app; cbn [length]; lia].
Qed.

(** Going up past the sixteenth line wraps to the newest one. *)
Lemma history_wraps h log : holds_log h log → 17 <= len log → Some (hist_row h (hist_count h - 17)) = last log.
Proof.
  intros K Hl. rewrite <- (last_row h log K) by (intros ->; cbn in Hl; lia). unfold hist_row, HIST_MAX.
  replace (hist_count h - 17) with (hist_count h - 1 + (-1) * 16) by lia. by rewrite Z_mod_plus_full.
Qed.

Lemma row_of_insert h i j n x : length (hist h) = 16%nat → 0 <= i → 0 <= j →
  hist_row (History (<[Z.to_nat (i mod HIST_MAX) := x]> (hist h)) n n) j =
  if i mod 16 =? j mod 16 then x else hist_row h j.
Proof.
  intros Hl Hi Hj. unfold hist_row, HIST_MAX. cbn [hist].
  pose proof (Z.mod_pos_bound i 16). pose proof (Z.mod_pos_bound j 16).
  destruct (Z.eqb_spec (i mod 16) (j mod 16)) as [->|Hne].
  - by rewrite list_lookup_insert_eq by lia.
  - by rewrite list_lookup_insert_ne by lia.
Qed.

Lemma push_holds h log line : holds_log h log → len line <= LINE_MAX - 1 → holds_log (hist_push line h) (log_push log line).
Proof.
  intros K Hlen. pose proof K as [Hl Hc Hr]. unfold hist_push, log_push. destruct line as [|c line'] eqn:E.
  { by rewrite decide_True by (by left). }
  rewrite <- E in *. assert (line ≠ []) as Hne by (by subst).
  assert ((0 <? hist_count h) && bool_decide (hist_row h (hist_count h - 1) = line) = bool_decide (last log = Some line)) as ->.
  { destruct (decide (log = [])) as [->|Hlog]; [by rewrite Hc|]. rewrite <- (last_row h log K Hlog).
    rewrite (proj2 (Z.ltb_lt 0 _)) by (rewrite Hc; destruct log; [done|cbn [length]; lia]). cbn.
    apply bool_decide_ext. split; [by intros ->|by intros [=]]. }
  case_bool_decide as Hlast; [by rewrite decide_True by (by right)|]. rewrite decide_False by tauto.
  rewrite take_ge by (unfold LINE_MAX in *; lia). constructor.
  - cbn. by rewrite length_insert.
  - cbn [hist_count]. rewrite length_app. cbn [length]. lia.
  - intros i x Hi Hge. rewrite length_app in Hge. cbn [length] in Hge.
    rewrite row_of_insert by lia. apply lookup_app_Some in Hi as [Hi|[Hi1 Hi2]].
    + apply lookup_lt_Some in Hi as Hlt. rewrite (proj2 (Z.eqb_neq _ _)); [apply Hr; [done|lia]|].
      rewrite Hc. intros Hm. assert ((len log - Z.of_nat i) mod 16 = 0) as H0 by (rewrite Zminus_mod, Hm, Z.sub_diag; done).
      rewrite Z.mod_small in H0; lia.
    + apply list_lookup_singleton_Some in Hi2 as [Hi2 <-]. rewrite (proj2 (Z.eqb_eq _ _)); [done|]. f_equal. lia.
Qed.

Lemma rewind_holds h log : holds_log h log → holds_log (hist_rewind h) log.
Proof. intros [Hl Hc Hr]. by constructor. Qed.

(** What [history] prints of a log: its last 16 lines with their numbers. *)
Definition history_text (log : list (list Z)) : list out :=
  mjoin (imap (λ i line, printed ("  %3d  %s" +:+ newline) [ArgInt (Z.of_nat (i + (length log - 16)) + 1); ArgStr (Some line)])
           (drop (length log - 16) log)).

Section Commands.
Context {Dev S : Type} `{P : Ports Dev}.
Notation sh := (kshell Dev S).
Implicit Types s : sh.

Definition with_out (l : list out) (s : sh) : sh :=
  KShell (ks_hist s) (ks_kbd s) (ks_dev s) (ks_fs s) (ks_machine s) (ks_out s ++ l).

Lemma with_out_app l l' s : with_out l' (with_out l s) = with_out (l ++ l') s.
Proof. unfold with_out. cbn. by rewrite <- app_assoc. Qed.
Lemma with_out_nil s : with_out [] s = s.
Proof. destruct s. unfold with_out. cbn. by rewrite app_nil_r. Qed.
Lemma emit_bind {B} l (m : () → M sh B) s : (emit l ≫= m) s = m () (with_out l s).
Proof. done. Qed.
Lemma gets_bind {A B} (f : sh → A) (m : A → M sh B) s : (gets f ≫= m) s = m (f s) s.
Proof. done. Qed.
Lemma ret_bind {A B} (a : A) (m : A → M sh B) s : (mret a ≫= m) s = m a s.
Proof. done. Qed.
Lemma bind_assoc {A B C} (m : M sh A) (f : A → M sh B) (g : B → M sh C) s : ((m ≫= f) ≫= g) s = (m ≫= (λ a, f a ≫= g)) s.
Proof. unfold mbind, M_bind. by destruct (m s) as [[a s']| |]. Qed.

Lemma history_loop_prints log h : holds_log h log → ∀ n k s, (k + n = length log)%nat → (length log <= k + 16)%nat →
  history_loop n (Z.of_nat k) h s =
  Ret ((), with_out (mjoin (imap (λ i line, printed ("  %3d  %s" +:+ newline) [ArgInt (Z.of_nat (i + k) + 1); ArgStr (Some line)]) (drop k log))) s).
Proof.
  intros K. induction n as [|n IH]; intros k s Hk H16; cbn [history_loop].
  - rewrite drop_ge by lia. cbn. by rewrite with_out_nil.
  - destruct (lookup_lt_is_Some_2 log k ltac:(lia)) as [line Hline]. rewrite (drop_S _ _ _ Hline).
    unfold say. rewrite emit_bind. assert (Z.of_nat k + 1 = Z.of_nat (Datatypes.S k)) as Hs by lia.
    rewrite Hs, IH by lia. rewrite with_out_app. do 3 f_equal. cbn [imap mjoin list_join].
    rewrite (holds_row _ _ K k line Hline), <- Hs by lia. cbn [Nat.add app]. do 2 f_equal.
    apply imap_ext. intros i x _. cbn. by replace (i + Datatypes.S k)%nat with (Datatypes.S (i + k)) by lia.
Qed.

(** Whatever lines were entered, [history] lists the last 16 of the log, numbered from
    the first line entered, oldest first. *)
Theorem history_lists_log (lines : list (list Z)) (argv : list (list Z)) s :
  Forall (λ l, len l <= LINE_MAX - 1) lines → ks_hist s = foldl (λ h l, hist_push l h) empty_history lines →
  cmd_history argv s = Ret (Goes, with_out (history_text (foldl log_push [] lines)) s).
Proof.
  intros Hl Hh. assert (holds_log (ks_hist s) (foldl log_push [] lines)) as K.
  { rewrite Hh. clear Hh. generalize holds_empty. generalize empty_history, (@nil (list Z)).
    induction Hl as [|l ls Hl1 _ IH]; intros h log K; [done|]. cbn [foldl]. by apply IH, push_holds. }
  set (log := foldl log_push [] lines) in *. unfold cmd_history. rewrite gets_bind. cbv zeta. rewrite (holds_count _ _ K).
  set (start := if HIST_MAX <? len log then len log - HIST_MAX else 0).
  assert (start = Z.of_nat (length log - 16)) as ->.
  { unfold start, HIST_MAX. destruct (Z.ltb_spec 16 (len log)); lia. }
  unfold mbind, M_bind. by rewrite (history_loop_prints log _ K) by lia.
Qed.
End Commands.

(** ** Words *)

(** The text between blanks, empty pieces included. *)
Fixpoint pieces_at (p : list Z) : list (list Z) :=
  match p with
  | [] => [[]]
  | c :: p' =>
      if is_blank c then [] :: pieces_at p'
      else match pieces_at p' with w :: ws => (c :: w) :: ws | [] => [[c]] end
  end.
Definition words (p : list Z) : list (list Z) := filter (λ w, w ≠ []) (pieces_at p).

Lemma pieces_word p : pieces_at p = (take_word p).1 :: (if forallb (λ c, negb (is_blank c)) p then [] else pieces_at (take_word p).2).
Proof.
  induction p as [|c p IH]; [done|]. cbn. destruct (is_blank c); cbn; [done|]. rewrite IH. by destruct (take_word p).
Qed.
Lemma take_word_end p : forallb (λ c, negb (is_blank c)) p = true → (take_word p).2 = [].
Proof.
  induction p as [|c p IH]; [done|]. cbn. destruct (is_blank c); cbn; [done|]. intros H. specialize (IH H). by destruct (take_word p).
Qed.
Lemma words_skip p : words (skip_blanks p) = words p.
Proof. induction p as [|c p IH]; [done|]. cbn [skip_blanks]. destruct (is_blank c) eqn:E; [|done]. rewrite IH. unfold words. cbn. by rewrite E. Qed.
Lemma skip_head p c q : skip_blanks p = c :: q → is_blank c = false.
Proof. induction p as [|d p IH]; [done|]. cbn. destruct (is_blank d) eqn:E; [exact IH|]. by intros [= -> ->]. Qed.
Lemma kwords_word c q : is_blank c = false → words (c :: q) = (take_word (c :: q)).1 :: words (take_word (c :: q)).2.
Proof.
  intros Hc. unfold words. rewrite pieces_word, filter_cons_True.
  2: { cbn. rewrite Hc. by destruct (take_word q). }
  f_equal. case_match eqn:E; [|done]. by rewrite (take_word_end _ E).
Qed.

(** [parse_args] finds the words of the line, the first [max] of them. *)
Theorem parse_args_words (line : list Z) (max : Z) : parse_args line max = take (Z.to_nat max) (words line).
Proof.
  unfold parse_args. generalize (Z.to_nat max). intros m. revert line. induction m as [|m IH]; intros line; [done|].
  cbn [parse_loop]. destruct line as [|c0 line0] eqn:E; [done|]. rewrite <- E. rewrite <- (words_skip line).
  destruct (skip_blanks line) as [|c q] eqn:Es; [done|]. rewrite kwords_word by (by apply (skip_head line c q)).
  destruct (take_word (c :: q)) as [w r]. cbn [take fst snd]. by rewrite IH.
Qed.

(** ** Typed lines *)

(** What one key does to the line being typed. *)
Definition edit (max : Z) (line : list Z) (c : Z) : list Z :=
  if c =? 8 then removelast line
  else if c =? 21 then []
  else if (32 <=? c) && (len line <? max - 1) then line ++ [c] else line.
(** What it puts on the console. *)
Definition echo_of (max : Z) (line : list Z) (c : Z) : list out :=
  if c =? 8 then match line with [] => [] | _ => rubout end
  else if c =? 21 then mjoin (replicate (length line) rubout)
  else if (32 <=? c) && (len line <? max - 1) then [Put c] else [].
Fixpoint echoes (max : Z) (line keys : list Z) : list out :=
  match keys with [] => [] | c :: keys' => echo_of max line c ++ echoes max (edit max line c) keys' end.

(** A key that stays within the line: not ESC, not the end of it, not Ctrl-C. *)
Definition plain (c : Z) : bool := (0 <? c) && (c <? 128) && negb (bool_decide (c ∈ [27; 10; 13; 3])).

Section Typing.
Context {Dev S : Type} `{P : Ports Dev}.
Context (fuel : nat) (wait : kbd * Dev → kbd * Dev).
Notation sh := (kshell Dev S).
Implicit Types s : sh.

(** What the shell relies on in the keyboard: [will x q] says that the characters [q]
    are typed, and each call of [kbd_getchar] returns the next. *)
Class Typist (will : kbd * Dev → list Z → Prop) := {
  next_char k d c q : will (k, d) (c :: q) → ∃ k' d', kbd_getchar fuel wait k d = Some (c, k', d') ∧ will (k', d') q;
}.
Context (will : kbd * Dev → list Z → Prop) `{T : Typist will}.

Definition keyboard s : kbd * Dev := (ks_kbd s, ks_dev s).

Lemma getchar_next s c q : will (keyboard s) (c :: q) → -128 <= c < 128 →
  ∃ k d, getchar fuel wait s = Ret (c, KShell (ks_hist s) k d (ks_fs s) (ks_machine s) (ks_out s)) ∧ will (k, d) q.
Proof.
  intros Hw Hc. destruct (next_char _ _ _ _ Hw) as (k & d & Hg & Hw'). exists k, d. split; [|done].
  unfold getchar, mbind, M_bind, get. rewrite Hg. unfold set_keyboard, modify, mret, M_ret. cbn.
  do 3 f_equal. unfold s8. rewrite Z.mod_small; lia.
Qed.

Definition typed_state (s : sh) (k : kbd) (d : Dev) (l : list out) : sh :=
  KShell (ks_hist s) k d (ks_fs s) (ks_machine s) (ks_out s ++ l).

Lemma readline_keys max h ks : forallb plain ks = true → ∀ n line s q, (length ks < n)%nat → will (keyboard s) (ks ++ q) →
  ∃ k d, readline_loop fuel wait n max line h s =
    readline_loop fuel wait (n - length ks) max (foldl (edit max) line ks) h (typed_state s k d (echoes max line ks)) ∧ will (k, d) q.
Proof.
  induction ks as [|c ks IH]; intros Hks n line s q Hn Hw.
  { exists (ks_kbd s), (ks_dev s). split; [|done]. cbn [length foldl echoes]. rewrite Nat.sub_0_r. unfold typed_state. rewrite app_nil_r. by destruct s. }
  cbn [forallb] in Hks. apply andb_true_iff in Hks as [Hc Hks]. destruct n as [|n]; [cbn in Hn; lia|].
  unfold plain in Hc. apply andb_true_iff in Hc as [Hc Hne]. apply andb_true_iff in Hc as [H0 H128].
  apply Z.ltb_lt in H0, H128. apply negb_true_iff, bool_decide_eq_false in Hne.
  destruct (getchar_next s c (ks ++ q) Hw ltac:(lia)) as (k1 & d1 & Hg & Hw1).
  set (s1 := KShell (ks_hist s) k1 d1 (ks_fs s) (ks_machine s) (ks_out s)) in *.
  assert (∀ l line', will (keyboard (with_out l s1)) (ks ++ q) →
    ∃ k d, readline_loop fuel wait n max line' h (with_out l s1) =
      readline_loop fuel wait (n - length ks) max (foldl (edit max) line' ks) h (typed_state s k d (l ++ echoes max line' ks)) ∧ will (k, d) q) as Hgo.
  { intros l line' Hwl. destruct (IH Hks n line' (with_out l s1) q ltac:(cbn in Hn; lia) Hwl) as (k & d & Hr & Hq).
    exists k, d. split; [|done]. rewrite Hr.
    assert (∀ X, typed_state (with_out l s1) k d X = typed_state s k d (l ++ X)) as HX; [|by rewrite HX].
    intros X. unfold typed_state, with_out. cbn. by rewrite <- app_assoc. }
  cbn [length foldl echoes]. replace (Datatypes.S n - Datatypes.S (length ks))%nat with (n - length ks)%nat by lia.
  assert (readline_loop fuel wait (Datatypes.S n) max line h s = readline_loop fuel wait n max (edit max line c) h (with_out (echo_of max line c) s1)) as ->.
  2: { by apply Hgo. }
  cbn [readline_loop]. unfold mbind at 1, M_bind at 1. rewrite Hg. assert (c ≠ 27 ∧ c ≠ 10 ∧ c ≠ 13 ∧ c ≠ 3) as (H27 & H10 & H13 & H3) by set_solver.
  rewrite (proj2 (Z.eqb_neq c 27)), (proj2 (Z.eqb_neq c 10)), (proj2 (Z.eqb_neq c 13)), (proj2 (Z.eqb_neq c 3)) by done. cbn [orb].
  unfold edit, echo_of. destruct (c =? 8); [destruct line; [by rewrite with_out_nil|done]|].
  destruct (c =? 21); [done|]. case_match; [done|by rewrite with_out_nil].
Qed.

(** The keys up to Enter make the line that [readline] returns; it is echoed as it is
    typed and goes into the history, and the keys behind Enter stay for the next line. *)
Theorem readline_reads (keys rest : list Z) (n : nat) (max : Z) s :
  forallb plain keys = true → (length keys < n)%nat → will (keyboard s) (keys ++ 10 :: rest) →
  let line := foldl (edit max) [] keys in
  ∃ k d, readline fuel wait n max s =
    Ret (line, KShell (hist_rewind (hist_push line (ks_hist s))) k d (ks_fs s) (ks_machine s) (ks_out s ++ echoes max [] keys ++ [Put 10])) ∧
    will (k, d) rest.
Proof.
  intros Hk Hn Hw line. unfold readline. rewrite gets_bind.
  destruct (readline_keys max (hist_idx (ks_hist s)) keys Hk n [] s (10 :: rest) Hn Hw) as (k & d & -> & Hw1). fold line.
  destruct (n - length keys)%nat as [|m] eqn:Em; [lia|].
  destruct (getchar_next (typed_state s k d (echoes max [] keys)) 10 rest Hw1 ltac:(lia)) as (k2 & d2 & Hg & Hw2).
  exists k2, d2. split; [|done]. cbn [readline_loop]. unfold mbind at 1, M_bind at 1. rewrite Hg. cbn. rewrite emit_bind.
  unfold with_out. cbn. by rewrite <- app_assoc.
Qed.
End Typing.

(** ** The driver and the controller deliver what is typed *)

Lemma feed_app cs1 : ∀ cs2 s, feed (cs1 ++ cs2) s =
  let '(o1, s1) := feed cs1 s in let '(o2, s2) := feed cs2 s1 in (o1 ++ o2, s2).
Proof.
  induction cs1 as [|c cs1 IH]; intros cs2 s; [by cbn; destruct (feed cs2 s)|].
  cbn. destruct (kbd_decode_scancode c s) as [[ok ch] s1]. rewrite IH.
  destruct (feed cs1 s1) as [o1 s2]. destruct (feed cs2 s2) as [o2 s3]. by destruct (ok && negb (ch =? 0)).
Qed.

Lemma graft_twice a b s : graft a (graft b s) = graft a s.
Proof. done. Qed.

(** Handling bytes leaves the decoder where feeding them does. *)
Lemma handle_all_decoder cs : ∀ s q, ring s q → graft (handle_all cs s) (feed cs s).2 = handle_all cs s.
Proof.
  induction cs as [|c cs IH]; intros s q R; [apply graft_self|].
  cbn [handle_all feed]. pose proof (handle_one c s q R) as H. destruct (kbd_decode_scancode c s) as [[ok ch] s1]. destruct H as [R1 Hg].
  specialize (IH _ _ R1). rewrite <- Hg in IH at 2. rewrite feed_graft in IH. destruct (feed cs s1) as [o s2]. cbn in *. by rewrite graft_twice in IH.
Qed.

Lemma enqueue_all cs : ∀ q, len (q ++ cs) <= 255 → foldl enqueue q cs = q ++ cs.
Proof.
  induction cs as [|c cs IH]; intros q Hl; [by rewrite app_nil_r|]. rewrite length_app in Hl. cbn [length] in Hl. cbn [foldl].
  unfold enqueue at 2. rewrite (proj2 (Z.ltb_lt _ _)) by lia. rewrite IH; [by rewrite <- app_assoc|].
  rewrite !length_app. cbn [length]. lia.
Qed.

Section Controller.
Context {Dev : Type} `{C : I8042 Dev}.

(** The characters in the ring buffer, then those of the bytes in the controller. *)
Definition delivers (x : kbd * Dev) (q : list Z) : Prop :=
  ∃ q1, ring x.1 q1 ∧ q = q1 ++ (feed (keyboard_bytes (pending x.2)) x.1).1 ∧ len q <= 255.

Lemma keyboard_bytes_app l1 l2 : keyboard_bytes (l1 ++ l2) = keyboard_bytes l1 ++ keyboard_bytes l2.
Proof. apply omap_app. Qed.

Lemma poll_step s d q : delivers (s, d) q →
  ∃ q1 q2, kbd_poll s d = ((kbd_poll s d).1, (kbd_poll s d).2) ∧ ring (kbd_poll s d).1 q1 ∧ q = q1 ++ q2 ∧
    q2 = (feed (keyboard_bytes (pending (kbd_poll s d).2)) (kbd_poll s d).1).1 ∧ pending (kbd_poll s d).2 = drop 16 (pending d).
Proof.
  intros (q1 & R & -> & Hl). cbn [fst snd] in *. unfold kbd_poll. destruct (poll_loop_bytes 16 s d) as [H1 H2].
  set (now := keyboard_bytes (take 16 (pending d))). set (later := keyboard_bytes (drop 16 (pending d))).
  assert (keyboard_bytes (pending d) = now ++ later) as Hk by (unfold now, later; by rewrite <- keyboard_bytes_app, take_drop).
  rewrite Hk, feed_app in Hl |- *. pose proof (handle_all_queue now s q1 R) as R'. pose proof (handle_all_decoder now s q1 R) as Hg.
  destruct (feed now s) as [o1 s1]. destruct (feed later s1) as [o2 s2] eqn:E2. cbn [fst snd] in *.
  exists (q1 ++ o1), o2. split; [apply surjective_pairing|]. rewrite H1, H2. fold now later.
  rewrite enqueue_all in R' by (rewrite !length_app in *; lia).
  split; [done|]. split; [by rewrite app_assoc|]. split; [|done].
  rewrite <- Hg, feed_graft, E2. done.
Qed.

Lemma delivers_poll s d q : delivers (s, d) q → delivers (kbd_poll s d) q.
Proof.
  intros D. pose proof D as (? & _ & _ & Hl). destruct (poll_step s d q D) as (q1 & q2 & _ & R & Hq & H2 & _). exists q1. split; [done|]. by rewrite <- H2.
Qed.

Lemma available_ring s q : ring s q → kbd_available s = negb (bool_decide (q = [])).
Proof.
  intros [Hh Ht Hl _]. unfold kbd_available. f_equal. apply eq_true_iff_eq. rewrite Z.eqb_eq, bool_decide_eq_true.
  split; [intros E; rewrite E, Z.sub_diag in Hl; cbn in Hl; by destruct q|intros ->; cbn in Hl; lia].
Qed.

Lemma pop_delivers s d c q : delivers (s, d) (c :: q) → kbd_available (kbd_poll s d).1 = true →
  ∃ s' d', kbd_trygetchar s d = (c, s', d') ∧ delivers (s', d') q ∧ (length (pending d') <= length (pending d))%nat.
Proof.
  intros D Ha. pose proof D as (? & _ & _ & Hl). destruct (poll_step s d _ D) as (q1 & q2 & Hp & R & Hq & H2 & H3).
  rewrite (available_ring _ _ R) in Ha. destruct q1 as [|c1 q1]; [done|]. injection Hq as <- ->.
  unfold kbd_trygetchar. rewrite Hp. pose proof (buf_pop_dequeue _ _ R) as [Hc R1].
  assert (buf_pop (kbd_poll s d).1 = (c, (buf_pop (kbd_poll s d).1).2)) as Hb by (rewrite <- Hc; apply surjective_pairing).
  rewrite Hb. eexists _, _. split; [done|]. split; [|rewrite H3, length_drop; lia]. exists q1. split; [done|]. cbn [fst snd].
  split; [|cbn [length] in Hl; lia]. f_equal. rewrite H2. set (s1 := (kbd_poll s d).1).
  assert ((buf_pop s1).2 = graft (buf_pop s1).2 s1) as ->.
  { unfold buf_pop. destruct (negb (kbd_available s1)); [by rewrite graft_self|done]. }
  rewrite feed_graft. by destruct (feed _ s1).
Qed.

(** While the processor waits the interrupt handler polls. *)
Definition irq_poll (x : kbd * Dev) : kbd * Dev := kbd_poll x.1 x.2.

Lemma available_poll s d q : delivers (s, d) q → kbd_available s = true → kbd_available (kbd_poll s d).1 = true.
Proof.
  intros (q1 & R & -> & Hl) Ha. cbn [fst snd] in *. rewrite (available_ring _ _ R) in Ha. destruct q1 as [|c q1]; [done|].
  unfold kbd_poll. destruct (poll_loop_bytes 16 s d) as [-> _]. rewrite (available_ring _ _ (handle_all_queue _ s _ R)).
  enough (∀ l q, q ≠ [] → foldl enqueue q l ≠ []) as Hne by (rewrite bool_decide_eq_false_2; [done|by apply Hne]).
  induction l as [|x l IH]; intros q2 Hq; [done|]. cbn. apply IH. unfold enqueue. case_match; [|done]. by destruct q2.
Qed.

Lemma getchar_delivers fuel : ∀ s d c q, delivers (s, d) (c :: q) → (length (pending d) + 2 <= fuel)%nat →
  ∃ s' d', kbd_getchar fuel irq_poll s d = Some (c, s', d') ∧ delivers (s', d') q ∧ (length (pending d') <= length (pending d))%nat.
Proof.
  induction fuel as [|fuel IH]; intros s d c q D Hf; [lia|]. cbn [kbd_getchar].
  destruct (kbd_available s) eqn:Ha.
  { destruct (pop_delivers s d c q D) as (s' & d' & -> & D' & Hp); [by eapply available_poll|]. by exists s', d'. }
  assert (∀ x, delivers x (c :: q) → (length (pending x.2) <= length (pending d) - 1)%nat → (1 <= length (pending d))%nat →
    ∃ s' d', kbd_getchar fuel irq_poll x.1 x.2 = Some (c, s', d') ∧ delivers (s', d') q ∧ (length (pending d') <= length (pending d))%nat) as Hgo.
  { intros [s1 d1] D1 Hp1 Hp. cbn in Hp1. destruct (IH s1 d1 c q D1 ltac:(lia)) as (s' & d' & H1 & H2 & H3). exists s', d'. split; [done|]. split; [done|lia]. }
  assert (1 <= length (pending d))%nat as Hp1.
  { destruct D as (q1 & R & Hq & _). cbn [fst snd] in *. rewrite (available_ring _ _ R) in Ha. destruct q1; [|done].
    destruct (pending d); [done|cbn; lia]. }
  destruct (poll_step s d _ D) as (_ & _ & Hp & _ & _ & _ & H16). rewrite Hp. apply delivers_poll in D as D1.
  destruct (kbd_available (kbd_poll s d).1).
  - apply (Hgo (kbd_poll s d)); [done|rewrite H16, length_drop; lia|done].
  - rewrite Hp in D1. destruct (poll_step _ _ _ D1) as (_ & _ & _ & _ & _ & _ & H16').
    unfold irq_poll at 1. cbn [fst snd]. destruct (kbd_poll (kbd_poll s d).1 (kbd_poll s d).2) as [s2 d2] eqn:E2.
    apply delivers_poll in D1. rewrite E2 in D1. cbn [snd] in H16'. apply (Hgo (s2, d2)); [done|cbn; rewrite H16', H16, !length_drop; lia|done].
Qed.

(** The driver is a typist: with a bound above the bytes that wait. *)
Definition at_keyboard (fuel : nat) (x : kbd * Dev) (q : list Z) : Prop :=
  delivers x q ∧ (length (pending x.2) + 2 <= fuel)%nat.
#[export] Instance driver_types fuel : Typist fuel irq_poll (at_keyboard fuel).
Proof.
  constructor. intros k d c q [D Hf]. destruct (getchar_delivers fuel k d c q D Hf) as (k' & d' & Hg & D' & Hp).
  exists k', d'. split; [done|]. split; [done|]. cbn in *. lia.
Qed.
End Controller.

(** ** What the keyboard cannot type

    No key and no combination gives ESC or Ctrl-U: the history keys and the key that
    erases the line have no effect. *)
Lemma translate_plain set key s : 0 <= key < 256 → translate set key s ≠ 27 ∧ translate set key s ≠ 21.
Proof.
  intros Hk. unfold translate. destruct (Z.leb_spec 128 key); [done|].
  assert (all_keys (λ k, forallb (λ c, negb (c =? 27) && negb (c =? 21)) [sc1_normal k; sc2_normal k; sc1_shifted k; sc2_shifted k]) = true) as Hall
    by (vm_compute; reflexivity).
  pose proof (all_keys_spec _ key Hall ltac:(lia)) as Hkey. cbn [forallb] in Hkey.
  rewrite !andb_true_iff, !negb_true_iff, !Z.eqb_neq in Hkey. destruct Hkey as ((?&?)&(?&?)&(?&?)&(?&?)&_).
  repeat case_match; done.
Qed.

Theorem no_escape_key (b : Z) (s : kbd) : 0 <= b < 256 →
  let '(ok, c, _) := kbd_decode_scancode b s in c ≠ 27 ∧ c ≠ 21.
Proof.
  intros Hb. unfold kbd_decode_scancode. destruct (b =? 0xE0); [done|]. destruct (b =? 0xF0); [done|].
  pose proof (classify_key b s Hb) as Hk. destruct (classify b s) as [[[set rel] key] s1]. cbn in Hk.
  destruct (kbd_extended s1); [done|]. cbv zeta.
  destruct (_ || rel); [done|]. destruct (kbd_ctrl_held _ && _); [done|].
  pose proof (translate_plain set key (update_modifier set key rel s1) Hk). by destruct (negb (_ =? 0)).
Qed.

(** ** From scancodes to a line *)

(** C20: The bytes of the keyboard that wait in the controller, decoded, are the line that
    [readline] returns, with the edits typed; it is echoed, kept in the history, and
    what was typed after Enter is read next. *)
Theorem shell_line_typed {Dev S} `{I8042 Dev} (fuel n : nat) (max : Z) (keys rest : list Z) (s : kshell Dev S) :
  ring (ks_kbd s) [] → (feed (keyboard_bytes (pending (ks_dev s))) (ks_kbd s)).1 = keys ++ 10 :: rest →
  forallb plain keys = true → len (keys ++ 10 :: rest) <= 255 → (length keys < n)%nat → (length (pending (ks_dev s)) + 2 <= fuel)%nat →
  let line := foldl (edit max) [] keys in
  ∃ k d, readline fuel irq_poll n max s =
    Ret (line, KShell (hist_rewind (hist_push line (ks_hist s))) k d (ks_fs s) (ks_machine s) (ks_out s ++ echoes max [] keys ++ [Put 10])) ∧
    delivers (k, d) rest.
Proof.
  intros R Hfeed Hk Hlen Hn Hf line.
  destruct (readline_reads fuel irq_poll (at_keyboard fuel) keys rest n max s Hk Hn) as (k & d & Hr & Hw & _).
  - split; [|done]. exists []. rewrite <- Hfeed in Hlen |- *. done.
  - exists k, d. done.
Qed.

(** ** Applications: a keyboard with bytes waiting *)

Definition w_machine : machine () :=
  Machine () (Timer 0 1000) (Pmm (arr_fill 0) (arr_fill 0) 0 0 0) (Heap (Vm () (arr_fill 0) 0 0 0) (arr_fill 0) (arr_fill 0) 0 0 0 0)
    (cpuid_init (λ _, Regs4 0 0 0 0)) (Sched ∅ None 1 [] [] None None 0 None 0 0 0) power_zero.
Definition w_shell (fs : vfs) (bytes : list Z) : kshell (list (bool * Z)) () :=
  KShell empty_history fresh_kbd (pair false <$> bytes) fs w_machine [].

(** "a", backspace, "hi", Enter, "l" on a set 1 keyboard. *)
Definition w_typing : kshell (list (bool * Z)) () := w_shell (Vfs ∅ 0 0 []) [0x1E; 0x0E; 0x23; 0x17; 0x1C; 0x26].

Lemma shell_line_typed_witness : ∃ k d, readline 8 irq_poll 5 LINE_MAX w_typing =
  Ret (chars "hi", KShell (History (chars "hi" :: replicate 15 []) 1 1) k d (ks_fs w_typing) w_machine
         ([Put 97] ++ rubout ++ [Put 104; Put 105; Put 10])) ∧ delivers (k, d) [108].
Proof.
  destruct (shell_line_typed 8 5 LINE_MAX [97; 8; 104; 105] [108] w_typing fresh_ring) as (k & d & Hr & Hd).
  - vm_compute. reflexivity.
  - vm_compute. reflexivity.
  - vm_compute. congruence.
  - cbn. lia.
  - cbn. lia.
  - exists k, d. split; [|exact Hd]. rewrite Hr. reflexivity.
Defined.

Definition w_lines : list (list Z) := chars <$> ["ls"; "ls"; "help"; ""; "ls"]%string.

Lemma history_lists_log_witness :
  cmd_history [] (KShell (foldl (λ h l, hist_push l h) empty_history w_lines) fresh_kbd ([] : list (bool * Z)) (Vfs ∅ 0 0 []) w_machine []) =
  Ret (Goes, KShell (foldl (λ h l, hist_push l h) empty_history w_lines) fresh_kbd [] (Vfs ∅ 0 0 []) w_machine
         (Put <$> (chars "    1  ls" ++ [10] ++ chars "    2  help" ++ [10] ++ chars "    3  ls" ++ [10]))).
Proof.
  rewrite (history_lists_log w_lines [] (KShell (foldl (λ h l, hist_push l h) empty_history w_lines) fresh_kbd [] (Vfs ∅ 0 0 []) w_machine [])).
  - vm_compute. reflexivity.
  - repeat constructor; vm_compute; congruence.
  - reflexivity.
Defined.
