(* ===== verification/KshellFiles.v ===== *)
(** * The kernel shell and files: [write], [cat], [ls] *)

From S2P Require Import Prelude Memory Kbd KbdProps Pmm Vmm Heap Vfs VfsInv VfsProps.
From S2P Require Import Sched Console ConsoleProps Power Cpu Kout Kshell KshellProps.
Import StringC.

(** ** An open file *)

(** Descriptor [fd] of the kernel's table stands at [pos] in the regular file [i], which
    holds [c]. *)
Record at_file (v : vfs) (fd : Z) (i : nat) (pos : Z) (c : list Z) : Prop := {
  af_open : opened (kernel_fd_table v) fd (File i pos true);
  af_node : ∃ n, nodes v !! i = Some n ∧ vn_type n = VFS_FILE ∧ vn_ops n = tmpfs_file_ops ∧ size_ok n ∧ contents n = c;
  af_pos : 0 <= pos <= len c;
}.

(** Nothing but the contents of files and the descriptors differs. *)
Record same_names (v v' : vfs) : Prop := {
  sn_wf : vfs_wf v';
  sn_root : vfs_root v' = vfs_root v;
  sn_child d name : find_child v' d name = find_child v d name;
}.

Lemma same_names_trans u v w : same_names u v → same_names v w → same_names u w.
Proof. intros [H1 H2 H3] [H4 H5 H6]. constructor; [done|congruence|]. intros. by rewrite H6, H3. Qed.

Lemma same_names_lookup v v' tail path : same_names v v' → vfs_lookup tail v' path = vfs_lookup tail v path.
Proof.
  intros [_ Hr Hc]. assert (∀ fuel d tok, lookup_loop fuel v' d tok = lookup_loop fuel v d tok) as Hl.
  { induction fuel as [|fuel IH]; intros d [|x tok]; cbn [lookup_loop]; try done. destruct (break_slash (x :: tok)) as [name rest].
    rewrite Hc. destruct (find_child v d name); [|done]. destruct rest; [apply IH|done]. }
  unfold vfs_lookup. destruct path as [|x path]; [done|]. destruct (negb (x =? slash)); [done|]. destruct path; [by f_equal|]. by rewrite Hr, Hl.
Qed.

Lemma files_same_names v files : vfs_wf v → same_names v (set_kernel_files files v).
Proof. intros [H1 H2 H3]. by constructor. Qed.

Lemma node_same_names i v v' : vfs_wf v → only_node i v v' → same_names v v'.
Proof.
  intros Hwf Hon. constructor; [by apply (only_node_wf i v)|apply (on_root _ _ _ Hon)|intros; by apply (only_node_find_child i)].
Qed.

(** Reading moves on by what it returns. *)
Lemma vfs_read_step v fd i pos c count : at_file v fd i pos c → 0 <= count →
  let bs := take (Z.to_nat count) (drop (Z.to_nat pos) c) in
  ∃ v', vfs_read fd count v = (len bs, bs, v') ∧ at_file v' fd i (pos + len bs) c ∧ nodes v' = nodes v ∧
    v' = set_kernel_files (kernel_fd_table v') v ∧ (∀ j, j ≠ Z.to_nat fd → kernel_fd_table v' !! j = kernel_fd_table v !! j).
Proof.
  intros [Ho (n & Hn & Hty & Hops & Hsz & <-) Hp] Hc bs.
  pose proof (contents_length n Hsz) as Hcl. pose proof (size_ok_bound n Hsz).
  destruct (vfs_read_in_steps v _ fd _ n count Ho Hn Hops Hsz Hc ltac:(cbn; lia)) as [Hr Ho']. cbn [f_offset f_vnode] in *. fold bs in Hr, Ho'.
  exists (set_kernel_files (advance (len bs) fd (kernel_fd_table v)) v). unfold vfs_read. rewrite Hr. split; [done|].
  split; [|split; [done|split; [done|intros j Hj; by apply advance_other]]]. constructor; [done|by exists n|].
  unfold bs. rewrite length_take, length_drop. lia.
Qed.

Section Write.
Context (can_alloc : Z → vfs → bool) (fresh : vfs → array).

(** With memory for it, writing puts the bytes at the position. *)
Lemma vfs_write_step v fd i pos c buf : (∀ k w, can_alloc k w = true) → vfs_wf v → at_file v fd i pos c → 2 * (pos + len buf) + 64 < 2^31 →
  ∃ v', vfs_write can_alloc fresh fd buf v = (len buf, v') ∧ at_file v' fd i (pos + len buf) (splice pos buf c) ∧ same_names v v' ∧
    (∀ j, j ≠ Z.to_nat fd → kernel_fd_table v' !! j = kernel_fd_table v !! j).
Proof.
  intros Hmem Hwf [Ho (n & Hn & Hty & Hops & Hsz & <-) Hp] Hlen. pose proof (contents_length n Hsz) as Hcl.
  pose proof (tmpfs_write_steps can_alloc fresh i n buf pos v Hn Hsz ltac:(lia) Hlen) as Hw.
  unfold vfs_write, vfs_write_in. rewrite (get_file_opened _ _ _ Ho). cbn [f_vnode f_offset]. rewrite Hn. unfold ops_write. rewrite Hops.
  destruct (tmpfs_write can_alloc fresh i buf pos v) as [r v1]. destruct Hw as (Hon & n' & Hn' & [[-> Hc]|(_ & _ & k & w & Ha)]); [|by rewrite Hmem in Ha].
  eexists. split; [done|]. split; [|split].
  - constructor.
    + cbn [set_kernel_files kernel_fd_table].
      change (File i (pos + len buf) true) with (File (f_vnode (File i pos true)) (f_offset (File i pos true) + len buf) true).
      apply advance_opened; [done|lia|cbn; lia|cbn; lia].
    + destruct (on_node _ _ _ Hon n Hn) as (m & Hm & Hs & Hz). simplify_eq. exists n'. cbn. split; [done|]. rewrite (sh_ops _ _ Hs), (sh_type _ _ Hs). auto.
    + unfold splice. rewrite !length_app, length_take, length_drop. lia.
  - pose proof (node_same_names i v v1 Hwf Hon) as Hs1. eapply same_names_trans; [exact Hs1|]. apply files_same_names, Hs1.
  - intros j Hj. cbn. by apply advance_other.
Qed.

End Write.

Lemma vfs_open_step stack_tail v path i n : vfs_wf v → vfs_lookup stack_tail v path = Some i → nodes v !! i = Some n → vn_type n = VFS_FILE →
  len (kernel_fd_table v) = VFS_MAX_FDS → is_Some (first_free 3 (drop 3 (kernel_fd_table v))) →
  ∃ fd v', vfs_open stack_tail path v = (fd, v') ∧ 3 <= fd ∧ at_file v' fd i 0 (contents n) ∧ nodes v' = nodes v ∧ same_names v v' ∧
    (∀ j, j ≠ Z.to_nat fd → kernel_fd_table v' !! j = kernel_fd_table v !! j) ∧ len (kernel_fd_table v') = VFS_MAX_FDS.
Proof.
  intros Hwf Hl Hn Hty Hlen [fd Hfd]. pose proof (first_free_spec (drop 3 (kernel_fd_table v)) 3) as Hf. rewrite Hfd, length_drop in Hf.
  destruct Hf as (Hr & _ & _). unfold VFS_MAX_FDS in *. unfold vfs_open, vfs_open_in. rewrite Hl, Hfd.
  eexists fd, _. split; [done|]. split; [lia|]. split; [|split; [done|split; [by apply files_same_names|split]]].
  - pose proof (wf_node v Hwf i n Hn) as Hok. constructor; [|exists n; split; [done|]; split; [done|]; split; [by apply (ok_file _ _ _ Hok)|split; [apply (ok_size _ _ _ Hok)|done]]|lia].
    unfold opened, VFS_MAX_FDS. cbn. split; [lia|]. by rewrite list_lookup_insert_eq by lia.
  - intros j Hj. cbn. by rewrite list_lookup_insert_ne by done.
  - cbn. by rewrite length_insert.
Qed.

(** Closing frees a descriptor. *)
Lemma close_free v fd : 3 <= fd < VFS_MAX_FDS → len (kernel_fd_table v) = VFS_MAX_FDS →
  is_Some (first_free 3 (drop 3 (kernel_fd_table (vfs_close fd v)))).
Proof.
  intros Hfd Hlen. unfold vfs_close, vfs_close_in. rewrite (proj2 (Z.leb_le 0 fd)), (proj2 (Z.ltb_lt fd _)) by lia. cbn.
  set (files := alter _ _ _). destruct (first_free 3 (drop 3 files)) eqn:E; [done|].
  pose proof (first_free_spec (drop 3 files) 3) as Hf. rewrite E in Hf.
  destruct (lookup_lt_is_Some_2 (kernel_fd_table v) (Z.to_nat fd)) as [f Hff]; [lia|].
  specialize (Hf (Z.to_nat fd - 3)%nat (File (f_vnode f) (f_offset f) false)). rewrite lookup_drop in Hf.
  replace (3 + (Z.to_nat fd - 3))%nat with (Z.to_nat fd) in Hf by lia. unfold files in Hf. rewrite list_lookup_alter_eq, Hff in Hf. by specialize (Hf eq_refl).
Qed.

(** ** Printing a file *)

Lemma zstr_text l : 0 ∉ l → zstr l = l.
Proof. induction l as [|c l IH]; intros H; [done|]. cbn. rewrite (proj2 (Z.eqb_neq c 0)), IH by set_solver. done. Qed.

Lemma printed_string l : printed "%s" [ArgStr (Some l)] = Put <$> l.
Proof. unfold printed. assert (kprintf_text (chars "%s") [ArgStr (Some l)] = Some (l ++ [])) as -> by reflexivity. cbn. by rewrite app_nil_r. Qed.

(** A call of the file system goes on with its result. *)
Section Shell.
Context {Dev S : Type} `{P : Ports Dev}.
Notation sh := (kshell Dev S).
Implicit Types s : sh.

Definition with_fs (v : vfs) (s : sh) : sh := KShell (ks_hist s) (ks_kbd s) (ks_dev s) v (ks_machine s) (ks_out s).

Lemma on_fs_bind {A B} (f : vfs → A * vfs) (m : A → M sh B) s a v : f (ks_fs s) = (a, v) → (on_fs f ≫= m) s = m a (with_fs v s).
Proof. intros H. unfold on_fs, mbind, M_bind. by rewrite H. Qed.

Lemma with_fs_same s : with_fs (ks_fs s) s = s.
Proof. by destruct s. Qed.

Lemma print_file_steps fd i c room : 0 < room → 0 ∉ c → ∀ n pos s, at_file (ks_fs s) fd i pos c → (Z.to_nat (len c - pos) < n)%nat →
  ∃ v', print_file n fd room s = Ret ((), with_out (Put <$> drop (Z.to_nat pos) c) (with_fs v' s)) ∧
    at_file v' fd i (len c) c ∧ nodes v' = nodes (ks_fs s) ∧ v' = set_kernel_files (kernel_fd_table v') (ks_fs s) ∧
    ∀ j, j ≠ Z.to_nat fd → kernel_fd_table v' !! j = kernel_fd_table (ks_fs s) !! j.
Proof.
  intros Hroom H0. induction n as [|n IH]; intros pos s Ha Hn; [lia|]. cbn [print_file]. pose proof (af_pos _ _ _ _ _ Ha) as Hp.
  destruct (vfs_read_step _ fd i pos c room Ha ltac:(lia)) as (v1 & Hr & Ha1 & Hn1 & Hk1 & Ht1). set (bs := take (Z.to_nat room) (drop (Z.to_nat pos) c)) in *.
  rewrite (on_fs_bind _ _ _ _ _ Hr). cbn [fst snd]. destruct (Z.ltb_spec 0 (len bs)) as [Hpos|Hz].
  - unfold say. rewrite emit_bind, zstr_text, printed_string.
    2: { intros Hin. apply H0. apply elem_of_take in Hin as (k & Hin & _). rewrite lookup_drop in Hin. by eapply list_elem_of_lookup_2. }
    pose proof (af_pos _ _ _ _ _ Ha1). destruct (IH (pos + len bs) (with_out (Put <$> bs) (with_fs v1 s)) Ha1 ltac:(lia)) as (v' & Hp' & Ha' & Hn' & Hk' & Ht').
    exists v'. rewrite Hp'. split; [|split; [done|split; [cbn in *; congruence|split]]].
    + unfold with_out, with_fs. cbn. do 3 f_equal. rewrite <- app_assoc, <- fmap_app. do 2 f_equal.
      rewrite Z2Nat.inj_add, <- drop_drop by lia. unfold bs.
      destruct (decide (Z.to_nat room <= length (drop (Z.to_nat pos) c))%nat).
      * rewrite length_take, Nat.min_l, Nat2Z.id by done. apply take_drop.
      * rewrite take_ge by lia. rewrite (drop_ge _ (Z.to_nat (len _))) by lia. apply app_nil_r.
    + cbn in Hk'. rewrite Hk', Hk1. done.
    + intros j Hj. rewrite (Ht' j Hj). cbn. by apply Ht1.
  - exists v1. assert (bs = []) as Hbs by (destruct bs; [done|cbn [length] in Hz; lia]). assert (pos = len c) as ->.
    { apply (f_equal length) in Hbs. unfold bs in Hbs. rewrite length_take, length_drop in Hbs. cbn in Hbs. lia. }
    rewrite drop_ge by lia. cbn. rewrite with_out_nil. rewrite Hbs, Z.add_0_r in Ha1. done.
Qed.

Lemma reads_left_file v fd i pos c : at_file v fd i pos c → (Z.to_nat (len c - pos) < reads_left fd v)%nat.
Proof.
  intros [Ho (n & Hn & _ & _ & Hsz & <-) Hp]. unfold reads_left. rewrite (get_file_opened _ _ _ Ho). cbn [f_vnode]. rewrite Hn. cbn.
  rewrite contents_length in * by done. unfold size_ok in Hsz. destruct (vn_data n) as [tf|]; lia.
Qed.

(** The descriptors after a command that opened and closed one. *)
Lemma closed_table (files files' : list file) fd : len files = VFS_MAX_FDS → 3 <= fd < VFS_MAX_FDS → (∀ j, j ≠ Z.to_nat fd → files' !! j = files !! j) → is_Some (files' !! Z.to_nat fd) →
  len files' = VFS_MAX_FDS.
Proof.
  intros Hlen Hfd Hj [f Hf]. unfold VFS_MAX_FDS in *. apply lookup_lt_Some in Hf as Hlt.
  assert (length files' <= 32)%nat. { destruct (decide (32 < length files'))%nat as [H|]; [|lia]. destruct (lookup_lt_is_Some_2 files' 32%nat H) as [g Hg].
    rewrite Hj, lookup_ge_None_2 in Hg by lia. done. }
  assert (32 <= length files')%nat; [|lia]. destruct (decide (32 <= length files')%nat) as [|H']; [done|].
  destruct (decide (Z.to_nat fd = 31%nat)); [lia|]. destruct (lookup_lt_is_Some_2 files 31%nat ltac:(lia)) as [g Hg].
  rewrite <- Hj in Hg by lia. apply lookup_lt_Some in Hg. lia.
Qed.

(** ** [cat] and [write] *)

Definition has_slot (v : vfs) : Prop := len (kernel_fd_table v) = VFS_MAX_FDS ∧ is_Some (first_free 3 (drop 3 (kernel_fd_table v))).

Lemma close_slot v v1 fd : len (kernel_fd_table v) = VFS_MAX_FDS → 3 <= fd < VFS_MAX_FDS →
  (∀ j, j ≠ Z.to_nat fd → kernel_fd_table v1 !! j = kernel_fd_table v !! j) → is_Some (kernel_fd_table v1 !! Z.to_nat fd) →
  has_slot (vfs_close fd v1).
Proof.
  intros Hl Hfd Hj Hs. pose proof (closed_table _ _ fd Hl Hfd Hj Hs) as Hl1. split; [|by apply close_free].
  unfold vfs_close, vfs_close_in. rewrite (proj2 (Z.leb_le 0 fd)), (proj2 (Z.ltb_lt fd _)) by lia. cbn. by rewrite length_alter.
Qed.

Lemma close_names v fd : vfs_wf v → same_names v (vfs_close fd v).
Proof. intros. by apply files_same_names. Qed.

Context (can_alloc : Z → vfs → bool) (fresh : vfs → array) (stack_tail write_tail : list Z).

Lemma kcat_steps argv s i n : vfs_wf (ks_fs s) → has_slot (ks_fs s) → 2 <= len argv →
  vfs_lookup stack_tail (ks_fs s) (arg_at argv 1) = Some i → nodes (ks_fs s) !! i = Some n → vn_type n = VFS_FILE → 0 ∉ contents n →
  ∃ v', cmd_cat stack_tail argv s = Ret (Goes, with_out (Put <$> contents n) (with_fs v' s)) ∧
    nodes v' = nodes (ks_fs s) ∧ same_names (ks_fs s) v' ∧ has_slot v'.
Proof.
  intros Hwf [Hlen Hfree] Hargs Hl Hn Hty H0. unfold cmd_cat. rewrite (proj2 (Z.ltb_ge _ _)) by done.
  destruct (vfs_open_step stack_tail _ _ i n Hwf Hl Hn Hty Hlen Hfree) as (fd & v1 & Ho & Hfd & Ha & Hn1 & Hs1 & Ht1 & Hlen1).
  rewrite (on_fs_bind _ _ _ _ _ Ho), (proj2 (Z.ltb_ge fd 0)) by lia. rewrite gets_bind. cbn [ks_fs with_fs].
  destruct (print_file_steps fd i (contents n) (128 - 1) ltac:(lia) H0 (reads_left fd v1) 0 (with_fs v1 s) Ha (reads_left_file _ _ _ _ _ Ha))
    as (v2 & Hp & Ha2 & Hn2 & Hk2 & Ht2).
  unfold mbind at 1, M_bind at 1. rewrite Hp. change (Z.to_nat 0) with 0%nat. rewrite drop_0.
  rewrite (on_fs_bind (λ v, ((), vfs_close fd v)) _ _ _ _ eq_refl). eexists. split; [reflexivity|].
  pose proof (af_open _ _ _ _ _ Ha2) as (Hfd2 & Hf2 & _).
  cbn [ks_fs with_fs with_out] in *. split; [by rewrite <- Hn1, <- Hn2|]. split.
  - assert (same_names v1 v2) as H12 by (rewrite Hk2; by apply files_same_names, Hs1).
    eapply same_names_trans; [exact Hs1|]. eapply same_names_trans; [exact H12|]. apply close_names, H12.
  - eapply (close_slot (ks_fs s)); [done|lia| |by rewrite Hf2]. intros j Hj. rewrite (Ht2 j Hj). by apply Ht1.
Qed.

(** The words with single blanks between them. *)
Fixpoint joined (ws : list (list Z)) : list Z :=
  match ws with [] => [] | [w] => w | w :: ws' => w ++ 32 :: joined ws' end.

Lemma splice_app pos a b c : 0 <= pos <= len c → splice (pos + len a) b (splice pos a c) = splice pos (a ++ b) c.
Proof.
  intros Hp. unfold splice. assert (length (take (Z.to_nat pos) c) = Z.to_nat pos) as Hlt by (rewrite length_take; lia).
  rewrite (app_assoc (take (Z.to_nat pos) c) a). assert (length (take (Z.to_nat pos) c ++ a) = Z.to_nat (pos + len a)) as Hla by (rewrite length_app, Hlt; lia).
  rewrite take_app_length' by done. rewrite <- !app_assoc. do 2 f_equal. f_equal.
  replace (Z.to_nat (pos + len a + len b)) with (length (take (Z.to_nat pos) c ++ a) + length b)%nat by lia.
  rewrite (app_assoc (take (Z.to_nat pos) c) a), drop_app_add, drop_drop. f_equal. rewrite length_app. lia.
Qed.

Lemma bind_result {A B} (m : M sh A) (f : A → M sh B) s a s' : m s = Ret (a, s') → (m ≫= f) s = f a s'.
Proof. intros H. unfold mbind, M_bind. by rewrite H. Qed.

Context (Hmem : ∀ k w, can_alloc k w = true).

(** Writing [text] at the place of [fd]. *)
Definition writes (fd : Z) (i : nat) (text : list Z) (m : M sh ()) : Prop :=
  ∀ pos c s, vfs_wf (ks_fs s) → at_file (ks_fs s) fd i pos c → 2 * (pos + len text) + 64 < 2^31 →
  ∃ v', m s = Ret ((), with_fs v' s) ∧ at_file v' fd i (pos + len text) (splice pos text c) ∧
    same_names (ks_fs s) v' ∧ ∀ j, j ≠ Z.to_nat fd → kernel_fd_table v' !! j = kernel_fd_table (ks_fs s) !! j.

Lemma put_file_writes fd i text : writes fd i text (put_file can_alloc fresh fd text).
Proof.
  intros pos c s Hwf Ha Hl. destruct (vfs_write_step can_alloc fresh _ fd i pos c text Hmem Hwf Ha Hl) as (v' & Hw & Ha' & Hs & Ht).
  exists v'. split; [|done]. unfold put_file. by rewrite (on_fs_bind _ _ _ _ _ Hw).
Qed.

Lemma writes_app fd i a b m1 m2 : writes fd i a m1 → writes fd i b m2 → writes fd i (a ++ b) (m1;; m2).
Proof.
  intros H1 H2 pos c s Hwf Ha Hl. rewrite length_app in Hl. destruct (H1 pos c s Hwf Ha ltac:(lia)) as (v1 & E1 & Ha1 & Hs1 & Ht1).
  destruct (H2 _ _ (with_fs v1 s) (sn_wf _ _ Hs1) Ha1 ltac:(lia)) as (v2 & E2 & Ha2 & Hs2 & Ht2).
  exists v2. split; [by rewrite (bind_result _ _ _ _ _ E1), E2|]. cbn [ks_fs with_fs] in *.
  split; [|split; [by eapply same_names_trans|intros j Hj; by rewrite Ht2, Ht1]].
  rewrite splice_app in Ha2 by apply Ha. by rewrite length_app, Nat2Z.inj_add, Z.add_assoc.
Qed.

Lemma write_words_writes fd i ws : ws ≠ [] → writes fd i (joined ws) (write_words can_alloc fresh fd ws).
Proof.
  induction ws as [|w ws IH]; intros Hne; [done|]. destruct ws as [|w' ws']; [apply put_file_writes|].
  change (joined (w :: w' :: ws')) with (w ++ [32] ++ joined (w' :: ws')).
  apply writes_app; [apply put_file_writes|]. apply writes_app; [apply put_file_writes|]. by apply IH.
Qed.

(** What [write] leaves in a file that held [c]. *)
Definition rewritten (ws : list (list Z)) (c : list Z) : list Z := let t := joined ws ++ [10] in t ++ drop (length t) c.

Lemma kwrite_steps w0 name ws s i n t : vfs_wf (ks_fs s) → has_slot (ks_fs s) → ws ≠ [] →
  vfs_lookup stack_tail (ks_fs s) (chars "/tmp") = Some t →
  vfs_lookup stack_tail (ks_fs s) (write_path write_tail name) = Some i → nodes (ks_fs s) !! i = Some n → vn_type n = VFS_FILE →
  2 * (len (joined ws) + 1) + 64 < 2^31 →
  ∃ v' n', cmd_write can_alloc fresh stack_tail write_tail (w0 :: name :: ws) s =
      Ret (Goes, with_out (printed ("wrote to %s" +:+ newline) [ArgStr (Some (write_path write_tail name))]) (with_fs v' s)) ∧
    nodes v' !! i = Some n' ∧ vn_type n' = VFS_FILE ∧ contents n' = rewritten ws (contents n) ∧ same_names (ks_fs s) v' ∧ has_slot v'.
Proof.
  intros Hwf [Hlen Hfree] Hws Htmp Hl Hn Hty Hsz. unfold cmd_write. cbn [length]. rewrite (proj2 (Z.ltb_ge _ _)).
  2: { destruct ws; [done|cbn [length]; lia]. }
  cbn [arg_at lookup list_lookup default]. set (path := write_path write_tail name) in *. change (drop 2 (w0 :: name :: ws)) with ws.
  assert (ensure_tmp can_alloc stack_tail s = Ret ((), s)) as He by (unfold ensure_tmp; rewrite gets_bind; by rewrite Htmp).
  rewrite (bind_result _ _ _ _ _ He).
  destruct (vfs_open_step stack_tail _ _ i n Hwf Hl Hn Hty Hlen Hfree) as (fd & v1 & Ho & Hfd & Ha & Hn1 & Hs1 & Ht1 & Hlen1).
  rewrite (on_fs_bind _ _ _ _ _ Ho), (proj2 (Z.ltb_ge fd 0)) by lia.
  destruct (writes_app fd i _ [10] _ _ (write_words_writes fd i ws Hws) (put_file_writes fd i [10]) 0 (contents n) (with_fs v1 s) (sn_wf _ _ Hs1) Ha)
    as (v2 & Hw & Ha2 & Hs2 & Ht2); [rewrite length_app; cbn [length]; lia|].
  pose proof (af_open _ _ _ _ _ Ha2) as (Hfd2 & Hf2 & _). pose proof (af_node _ _ _ _ _ Ha2) as (n' & Hn' & Hty' & _ & _ & Hc').
  match goal with |- context [mbind (λ _ : (), mbind (λ _ : (), ?m) (put_file _ _ _ _)) (write_words _ _ _ _)] => set (k := m) end.
  assert ((write_words can_alloc fresh fd ws;; put_file can_alloc fresh fd [10];; k) (with_fs v1 s) = k (with_fs v2 (with_fs v1 s))) as ->.
  { rewrite <- (bind_result _ (λ _, k) _ _ _ Hw). by rewrite bind_assoc. }
  unfold k. rewrite (on_fs_bind (λ v, ((), vfs_close fd v)) _ _ _ _ eq_refl). cbn [ks_fs with_fs] in *.
  eexists _, n'. split; [reflexivity|]. split; [exact Hn'|]. split; [done|]. split.
  { rewrite Hc'. unfold splice, rewritten. change (Z.to_nat 0) with 0%nat. rewrite take_0, Z.add_0_l, Nat2Z.id. done. }
  split.
  - eapply same_names_trans; [exact Hs1|]. eapply same_names_trans; [exact Hs2|]. apply close_names, Hs2.
  - eapply (close_slot (ks_fs s)); [done|lia| |by rewrite Hf2]. intros j Hj. rewrite (Ht2 j Hj). by apply Ht1.
Qed.

End Shell.

(** ** What the help text promises and the commands do not do *)

(** [kprintf] has no left-justified strings: the format of [ls] is printed as it is and
    the name of the entry never appears. *)
Theorem ls_prints_no_names (name : list Z) : printed "  %-20s" [ArgStr (Some name)] = Put <$> chars "  %-20s".
Proof. reflexivity. Qed.

(** [write] does not create a file. *)
Theorem write_needs_file {Dev S} `{Ports Dev} can_alloc fresh stack_tail write_tail (w0 name : list Z) (ws : list (list Z)) (s : kshell Dev S) t :
  ws ≠ [] → vfs_lookup stack_tail (ks_fs s) (chars "/tmp") = Some t →
  vfs_lookup stack_tail (ks_fs s) (write_path write_tail name) = None →
  cmd_write can_alloc fresh stack_tail write_tail (w0 :: name :: ws) s =
    Ret (Goes, with_out (printed ("write: cannot open %s" +:+ newline) [ArgStr (Some (write_path write_tail name))]) s).
Proof.
  intros Hws Htmp Hl. unfold cmd_write. cbn [length]. rewrite (proj2 (Z.ltb_ge _ _)) by (destruct ws; [done|cbn [length]; lia]).
  assert (ensure_tmp can_alloc stack_tail s = Ret ((), s)) as He by (unfold ensure_tmp; rewrite gets_bind; by rewrite Htmp).
  rewrite (bind_result _ _ _ _ _ He). assert (vfs_open stack_tail (write_path write_tail name) (ks_fs s) = (-1, ks_fs s)) as Ho.
  { unfold vfs_open, vfs_open_in. rewrite Hl. by destruct (ks_fs s). }
  cbn [arg_at lookup list_lookup default]. rewrite (on_fs_bind _ _ _ _ _ Ho), with_fs_same. done.
Qed.

(** ** Applications: the file system as booted *)

Definition w_booted : kshell (list (bool * Z)) () := w_shell boot_vfs [].

Lemma boot_slot : has_slot boot_vfs.
Proof. split; vm_compute; [reflexivity|eauto]. Qed.

