(* ===== verification/Boot.v ===== *)
(** * Booting: [kernel/main.c], [syscall_init]

    [kmain] initialises the components in turn.  Each keeps its own state, so the model
    is the sequence of their initialisations, with what is printed in between.
    Addresses the linker fixes, the contents of memory, the processor's answers and the
    program images are the parameters of a machine; the heap's answers are those of the
    components that ask. *)

From S2P Require Import Prelude Memory Frames Pmm PmmInv PmmProps Vmm Heap Kbd Vfs.
From S2P Require Import Sched Elf Console Power Cpu Kout Kshell.
Import StringC.

(** ** Model-specific registers *)

Definition EFER_SCE : Z := 1.
Definition EFER_NXE : Z := Z.shiftl 1 11.
Definition SYSCALL_FMASK : Z := 0x700.
Definition SYSCALL_STACK_SIZE : Z := 16 * 1024.

Record msrs := Msrs { msr_efer : Z; msr_star : Z; msr_lstar : Z; msr_fmask : Z }.

(** The registers and the kernel stack for system calls, and the message. *)
Definition syscall_init (f : cpuid_features) (boot_stack entry : Z) (m : msrs) (stack_top : Z) : msrs * Z * list out :=
  if negb (has_syscall f) then (m, stack_top, printed ("[boot] Syscall: SYSCALL unsupported on this CPU" +:+ newline) [])
  else
    (Msrs (msr_efer m .| EFER_SCE) (u64 (Z.shiftl GDT_KERNEL_CODE 32)) entry SYSCALL_FMASK,
     u64 (boot_stack + SYSCALL_STACK_SIZE),
     printed ("[boot] Syscall: SYSCALL entry ready" +:+ newline) []).

(** ** The programs in /bin *)

Section Programs.
Context (can_alloc : Z → vfs → bool) (fresh : vfs → array) (stack_tail : list Z).

(** [KASSERT(vfs_create_file("/bin/..", image, size) == 0)] *)
Definition install (f : string * list Z) : M vfs () :=
  r ← (λ v, Ret (vfs_create_file can_alloc fresh stack_tail (chars "/bin/" ++ chars f.1) (Some f.2) (len f.2) v));
  KASSERT (r =? 0) "vfs_create_file == 0".
Fixpoint install_all (l : list (string * list Z)) : M vfs () :=
  match l with [] => mret () | f :: l' => install f;; install_all l' end.

Definition make_bin : M vfs () :=
  r ← (λ v, Ret (vfs_mkdir can_alloc stack_tail (chars "/bin") v));
  KASSERT (r =? 0) "vfs_mkdir == 0".

Definition populate (l : list (string * list Z)) : M vfs () := make_bin;; install_all l.
End Programs.

(** ** The machine that is booted *)

Record platform (Dev H : Type) := Platform {
  p_mem : mem; p_kernel_end : Z; p_stack_bottom : Z; p_stack_top : Z;
  p_tss : Z; p_gdt : Z; p_idt : Z; p_isr_table : Z → Z;
  p_cpuid : Z → regs4; p_msrs : msrs; p_boot_stack : Z; p_entry : Z;
  p_dev : Dev; p_timer_irq : H; p_kbd_irq : H;
  p_programs : list (string * list Z); p_execer : list Z;
  p_can_alloc : Z → vfs → bool; p_fresh : vfs → array; p_stack_tail : list Z;
  p_new_init : option (nat * Z); p_new_idle : option (nat * Z); p_idle_fn : Z;
}.
Arguments p_mem {Dev H}. Arguments p_kernel_end {Dev H}. Arguments p_stack_bottom {Dev H}. Arguments p_stack_top {Dev H}.
Arguments p_tss {Dev H}. Arguments p_gdt {Dev H}. Arguments p_idt {Dev H}. Arguments p_isr_table {Dev H}.
Arguments p_cpuid {Dev H}. Arguments p_msrs {Dev H}. Arguments p_boot_stack {Dev H}. Arguments p_entry {Dev H}.
Arguments p_dev {Dev H}. Arguments p_timer_irq {Dev H}. Arguments p_kbd_irq {Dev H}.
Arguments p_programs {Dev H}. Arguments p_execer {Dev H}.
Arguments p_can_alloc {Dev H}. Arguments p_fresh {Dev H}. Arguments p_stack_tail {Dev H}.
Arguments p_new_init {Dev H}. Arguments p_new_idle {Dev H}. Arguments p_idle_fn {Dev H}.

(** What [kmain] has set up when it starts the first task. *)
Record booted_machine (Dev H : Type) := Booted {
  bm_tss : tss; bm_gdt : list gdt_entry * (Z * Z) * Z; bm_idt : list (Z * Z) * list idt_entry * (Z * Z);
  bm_cpu : cpuid_features; bm_msrs : msrs; bm_heap : heap pmm_state; bm_timer : timer; bm_handlers : handlers H; bm_pic : pic;
  bm_kbd : kbd; bm_dev : Dev; bm_fs : vfs; bm_power : power_state; bm_sched : sched; bm_out : list out;
}.
Arguments Booted {Dev H}.
Arguments bm_tss {Dev H}. Arguments bm_gdt {Dev H}. Arguments bm_idt {Dev H}. Arguments bm_cpu {Dev H}. Arguments bm_msrs {Dev H}.
Arguments bm_heap {Dev H}. Arguments bm_timer {Dev H}. Arguments bm_handlers {Dev H}. Arguments bm_pic {Dev H}. Arguments bm_kbd {Dev H}.
Arguments bm_dev {Dev H}. Arguments bm_fs {Dev H}. Arguments bm_power {Dev H}. Arguments bm_sched {Dev H}. Arguments bm_out {Dev H}.

Definition zero_pmm : pmm_state := Pmm (arr_fill 0) (arr_fill 0) 0 0 0.
Definition zero_sched (stack_top : Z) : sched := Sched ∅ None 1 [] [] None None 0 None 0 0 stack_top.
Definition zero_kbd : kbd := Kbd (arr_fill 0) 0 0 false false false false false false 0.

Definition banner : list out :=
  [Cls; Color VGA_LIGHT_GREEN VGA_BLACK] ++
  printed ("  _     _ _   _     _" +:+ newline) [] ++
  printed (" | |   (_) |_| |__ (_)_   _ _ __ ___" +:+ newline) [] ++
  printed (" | |   | | __| '_ \| | | | | '_ ` _ \" +:+ newline) [] ++
  printed (" | |___| | |_| | | | | |_| | | | | | |" +:+ newline) [] ++
  printed (" |_____|_|\__|_| |_|_|\__,_|_| |_| |_|" +:+ newline) [] ++
  [Color VGA_LIGHT_GREY VGA_BLACK] ++
  printed ("  Lithium Kernel %s  x86_64" +:+ newline +:+ newline) [str LITHIUM_VERSION] ++
  printed ("[boot] Version: kernel %s" +:+ newline) [str LITHIUM_VERSION].

(** A step of [kmain] that may stop the machine. *)
Definition res_bind {A B} (m : res A) (f : A → res B) : res B :=
  match m with Ret a => f a | Panic w => Panic w | NoFuel => NoFuel end.
Definition from_option {A} (o : option A) : res A := match o with Some a => Ret a | None => Panic "undefined" end.
Notation "'let*' p ':=' m 'in' k" := (res_bind m (λ x, match x with p => k end)) (at level 200, p pattern, m at level 100, k at level 200).

(** [kmain] up to the screen being cleared, ready for the first task. *)
Definition kmain_devices {Dev H} `{Ports Dev} (fuel : nat) (p : platform Dev H) (magic info : Z) : res (booted_machine Dev H) :=
  (* processor *)
  let tss := tss_init (p_stack_top p) in
  let gdt := gdt_init (p_tss p) (p_gdt p) in
  let idt := idt_init (p_isr_table p) (p_idt p) in
  let f := cpuid_init (p_cpuid p) in
  let m0 := p_msrs p in
  let m1 := if has_nx f then Msrs (msr_efer m0 .| EFER_NXE) (msr_star m0) (msr_lstar m0) (msr_fmask m0) else m0 in
  let '(m2, syscall_stack, said) := syscall_init f (p_boot_stack p) (p_entry p) m1 0 in
  let out := banner ++ said ++ printed ("[boot] CPU: GDT/IDT/TSS  EFER=0x%lx" +:+ newline) [ArgInt (msr_efer m2)] in
  (* memory *)
  let* (_, pm) := pmm_init (p_kernel_end p) (p_mem p) magic info zero_pmm in
  let out := out ++ printed ("[boot] PMM: %lu MiB usable RAM" +:+ newline) [ArgInt (pmm_free_bytes pm / (1024 * 1024))] in
  let* (_, v) := vmm_init (p_stack_bottom p) (p_kernel_end p) (Vm pm (p_mem p) 0 0 0) in
  let out := out ++ printed ("[boot] VMM: paging active, null+guard unmapped" +:+ newline) [] in
  let* (_, h) := heap_init (Heap v (arr_fill 0) (arr_fill 0) 0 0 0 0) in
  (* timer, scheduler, keyboard *)
  let* (_, t, hs, pc) := from_option (timer_init (p_timer_irq p) 1000 (Timer 0 0) (replicate 16 None) (Pic 0xFF 0xFF)) in
  let out := out ++ printed ("[boot] Timer: PIT @ 1000 Hz" +:+ newline) [] in
  let sc := sched_init (zero_sched syscall_stack) in
  let out := out ++ printed ("[boot] Scheduler: round-robin ready" +:+ newline) [] in
  let '(kb, dev) := kbd_init zero_kbd (p_dev p) in
  let* hs := from_option (irq_register 1 (p_kbd_irq p) hs) in
  let pc := irq_unmask 1 pc in
  let out := out ++ printed ("[boot] Keyboard: PS/2 IRQ1 active" +:+ newline) [] in
  (* files *)
  let* fs := from_option (vfs_init (p_can_alloc p) (p_fresh p)) in
  let* (_, fs) := populate (p_can_alloc p) (p_fresh p) (p_stack_tail p) (p_programs p) fs in
  let* (pw, said) := from_option (power_init (p_mem p) magic info) in
  let out := out ++ (Put <$> said) ++ printed ("[boot] Boot complete; launching init..." +:+ newline) [] in
  let* t := from_option (timer_sleep_ms fuel 1500 t) in
  let out := out ++ [Cls] in
  Ret (Booted tss gdt idt f m2 h t hs pc kb dev fs pw sc out).

(** The first task and the switch to it; the loader runs when the heap has room for the
    task. *)
Definition kmain_start {Dev H} (p : platform Dev H) (b : booted_machine Dev H) : res (booted_machine Dev H) :=
  let h := bm_heap b in
  let* (img, v) := (match p_new_init p with Some _ => load_user_image (p_execer p) | None => mret None end) (h_vm h) in
  let '(init, sc) := task_create_user_elf (p_new_init p) (fst <$> img) (chars "init-loader") (bm_sched b) in
  match init with
  | None => Panic "init != NULL"
  | Some i =>
      Ret (Booted (bm_tss b) (bm_gdt b) (bm_idt b) (bm_cpu b) (bm_msrs b)
             (Heap v (h_mem h) (slab_heads h) (heap_alloc_count h) (heap_free_count h) (heap_slab_pages h) (heap_large_pages h))
             (bm_timer b) (bm_handlers b) (bm_pic b) (bm_kbd b) (bm_dev b) (bm_fs b) (bm_power b)
             (sched_start (p_new_idle p) (p_idle_fn p) i sc) (bm_out b))
  end.

Definition kmain {Dev H} `{Ports Dev} (fuel : nat) (p : platform Dev H) (magic info : Z) : res (booted_machine Dev H) :=
  let* b := kmain_devices fuel p magic info in kmain_start p b.
