(* ===== verification/BootProps.v ===== *)
(** * Booting: properties *)

From S2P Require Import Prelude Memory Frames Pmm PmmInv PmmProps Vmm VmmInv VmmProps Heap Kbd KbdProps Vfs VfsInv VfsProps.
From S2P Require Import Sched Elf Console Power Cpu CpuProps Kout Kshell Boot.
Import StringC.

(** ** The programs are in /bin *)

Section Populate.
Context (can_alloc : Z → vfs → bool) (fresh : vfs → array) (stack_tail : list Z).
Context (Hmem : ∀ k w, can_alloc k w = true).

Lemma memory : ¬ out_of_memory can_alloc.
Proof. intros (k & w & H). by rewrite Hmem in H. Qed.

Definition bin_path (name : string) : list Z := chars "/bin/" ++ chars name.
Lemma bin_path_of name : bin_path name = path_of ([chars "bin"] ++ [chars name]).
Proof. unfold bin_path, path_of. cbn. by rewrite app_nil_r. Qed.

(** A file that can be installed. *)
Definition program_ok (f : string * list Z) : Prop :=
  component (chars f.1) ∧ len (chars f.1) < VFS_NAME_MAX ∧ 2 * len f.2 + 64 < 2^31.

(** /bin is the directory [d] and has no entry of these names. *)
Record bin_ready (v : vfs) (d : nat) (names : list (list Z)) : Prop := {
  br_wf : vfs_wf v;
  br_dir : resolve v (vfs_root v) [chars "bin"] = Some d;
  br_type : node_type v d = Some VFS_DIR;
  br_free name : name ∈ names → find_child v d name = None;
}.

Lemma bin_entry v d names f : bin_ready v d names → program_ok f → entry_path v [chars "bin"] (chars f.1) d.
Proof.
  intros [Hwf Hd Ht _] (Hc & Hn & _). constructor; [|  |done|done|done].
  - apply Forall_app. split; [|by apply Forall_singleton]. apply Forall_singleton. split; [done|]. vm_compute. set_solver.
  - rewrite path_of_snoc, length_app. cbn [length]. change (length (path_of [chars "bin"])) with 4%nat. unfold VFS_MAX_PATH, VFS_NAME_MAX in *. lia.
Qed.

(** [f] is in /bin. *)
Definition installed (v : vfs) (f : string * list Z) : Prop :=
  ∃ i n, vfs_lookup stack_tail v (bin_path f.1) = Some i ∧ nodes v !! i = Some n ∧ vn_type n = VFS_FILE ∧ contents n = f.2.

Lemma installed_kept v v' f : program_ok f → keeps (λ _, False) v v' → installed v f → installed v' f.
Proof.
  intros (Hc & Hn & _) Hk (i & n & Hl & Hi & Ht & Hf).
  assert (∀ w, vfs_lookup stack_tail w (bin_path f.1) = resolve w (vfs_root w) ([chars "bin"] ++ [chars f.1])) as Hres.
  { intros w. rewrite bin_path_of. apply vfs_lookup_resolve; [|done|].
    - apply Forall_app. split; [|by apply Forall_singleton]. apply Forall_singleton. split; [done|]. vm_compute. set_solver.
    - rewrite path_of_snoc, length_app. cbn [length]. change (length (path_of [chars "bin"])) with 4%nat. unfold VFS_MAX_PATH, VFS_NAME_MAX in *. lia. }
  destruct (kp_node _ _ _ Hk i n Hi ltac:(intros [])) as (n' & Hn' & Ht' & Hc'). exists i, n'.
  rewrite Hres in Hl |- *. rewrite (kp_root _ _ _ Hk). split; [by apply (kp_resolve _ _ _ Hk)|]. split; [done|]. split; congruence.
Qed.

Lemma keeps_none_trans v v1 v2 : keeps (λ _, False) v v1 → keeps (λ _, False) v1 v2 → keeps (λ _, False) v v2.
Proof. intros H1 H2. eapply keeps_mono; [|exact (keeps_trans fresh _ _ _ _ _ H1 H2)]. by intros j _ [?|?]. Qed.

Lemma install_step v d names f : bin_ready v d (chars f.1 :: names) → chars f.1 ∉ names → program_ok f →
  ∃ v', install can_alloc fresh stack_tail f v = Ret ((), v') ∧ keeps (λ _, False) v v' ∧ bin_ready v' d names ∧ installed v' f.
Proof.
  intros Hb Hni Hok. pose proof Hb as [Hwf Hd Ht Hfree]. specialize (Hfree _ (list_elem_of_here _ _)) as Hno.
  pose proof (create_file_steps can_alloc fresh stack_tail v [chars "bin"] (chars f.1) f.2 d Hwf (bin_entry _ _ _ _ Hb Hok)
    ltac:(intros i Hi; congruence) ltac:(apply Hok)) as H. cbv zeta in H. rewrite <- bin_path_of in H.
  unfold install, mbind, M_bind. fold (bin_path f.1). destruct (vfs_create_file _ _ _ _ _ _ _) as [r v'].
  destruct H as (Hsib & Hk & [(-> & (i & n & Hl & Hn & Hty & Hc) & _)|(_ & Hoom)]); [|by destruct (memory Hoom)].
  assert (keeps (λ _, False) v v') as Hk' by (eapply keeps_mono; [|exact Hk]; intros j _ Hj; cbn in Hj; congruence).
  exists v'. split; [done|]. split; [done|]. split; [|by exists i, n]. constructor.
  - apply Hk'.
  - rewrite (kp_root _ _ _ Hk'). by apply (kp_resolve _ _ _ Hk').
  - unfold node_type in Ht |- *. destruct (nodes v !! d) as [dn|] eqn:Edn; [|done].
    destruct (kp_node _ _ _ Hk' d dn Edn ltac:(intros [])) as (dn' & -> & Htd & _). cbn in *. congruence.
  - intros name Hin. rewrite Hsib by (intros ->; done). apply Hfree. by constructor.
Qed.

Lemma install_all_steps l : ∀ v d, NoDup ((λ f, chars f.1) <$> l) → Forall program_ok l → bin_ready v d ((λ f, chars f.1) <$> l) →
  ∃ v', install_all can_alloc fresh stack_tail l v = Ret ((), v') ∧ keeps (λ _, False) v v' ∧ Forall (installed v') l.
Proof.
  induction l as [|f l IH]; intros v d Hnd Hok Hb.
  { exists v. split; [done|]. split; [|constructor]. constructor; [apply Hb|done|done|]. intros j n Hn _. by exists n. }
  rewrite fmap_cons in Hnd, Hb. apply NoDup_cons in Hnd as [Hni Hnd]. apply Forall_cons in Hok as [Hf Hok].
  destruct (install_step v d _ f Hb Hni Hf) as (v1 & Hi & Hk1 & Hb1 & Hin).
  destruct (IH v1 d Hnd Hok Hb1) as (v2 & Hi2 & Hk2 & Hall).
  exists v2. cbn [install_all]. unfold mbind, M_bind. rewrite Hi, Hi2. split; [done|].
  split; [by eapply keeps_none_trans|]. constructor; [by eapply installed_kept|done].
Qed.

(** With memory for them, the files made at boot read back from /bin with the bytes of
    their images, every assertion on the way holds, and everything that was there is
    where it was, with its contents. *)
Theorem populate_installs (v : vfs) (l : list (string * list Z)) :
  vfs_wf v → node_type v (vfs_root v) = Some VFS_DIR → find_child v (vfs_root v) (chars "bin") = None →
  NoDup ((λ f, chars f.1) <$> l) → Forall program_ok l →
  ∃ v', populate can_alloc fresh stack_tail l v = Ret ((), v') ∧ keeps (λ _, False) v v' ∧
    ∀ f, f ∈ l → vfs_read_all can_alloc stack_tail (bin_path f.1) v' = Some f.2.
Proof.
  intros Hwf Hroot Hnone Hnd Hok.
  assert (entry_path v [] (chars "bin") (vfs_root v)) as Hep.
  { constructor; [|done|done|done|done]. apply Forall_singleton. split; [done|]. vm_compute. set_solver. }
  pose proof (vfs_mkdir_correct can_alloc fresh stack_tail v [] (chars "bin") (vfs_root v) Hwf Hep) as H. cbv zeta in H. rewrite Hnone in H.
  change (path_of ([] ++ [chars "bin"])) with (chars "/bin") in H.
  unfold populate, make_bin. destruct (vfs_mkdir can_alloc stack_tail (chars "/bin") v) as [r v1] eqn:Em.
  destruct H as [(_ & _ & Hoom)|(-> & Hk & d & Hl & _ & Ht & Hfree)]; [by destruct (memory Hoom)|].
  assert (resolve v1 (vfs_root v1) [chars "bin"] = Some d) as Hd.
  { rewrite <- (vfs_lookup_resolve stack_tail v1 [chars "bin"]); [exact Hl| |done|done].
    apply Forall_singleton. split; [done|]. vm_compute. set_solver. }
  destruct (install_all_steps l v1 d Hnd Hok) as (v2 & Hi & Hk2 & Hall).
  { constructor; [apply Hk|done|done|]. intros name _. apply Hfree. }
  exists v2. split; [|split; [by eapply keeps_none_trans|]].
  - unfold mbind, M_bind. rewrite Em. exact Hi.
  - intros f Hf. rewrite Forall_forall in Hall. destruct (Hall f Hf) as (i & n & Hlk & Hn & Hty & <-).
    destruct (read_all_contents can_alloc stack_tail (bin_path f.1) v2 i n (kp_wf _ _ _ Hk2) Hlk Hn Hty) as [H|Hoom]; [done|by destruct (memory Hoom)].
Qed.
End Populate.

Lemma populate_installs_witness : ∃ v', populate always zeroed [] [("sh"%string, [127; 69]); ("ls"%string, [])] boot_vfs = Ret ((), v') ∧
  vfs_read_all always [] (chars "/bin/sh") v' = Some [127; 69].
Proof.
  destruct (populate_installs always zeroed [] (λ _ _, eq_refl) boot_vfs [("sh"%string, [127; 69]); ("ls"%string, [])] boot_vfs_wf)
    as (v' & H & _ & Hr).
  - vm_compute. reflexivity.
  - vm_compute. reflexivity.
  - cbn. apply NoDup_cons. split; [|apply NoDup_singleton]. set_solver.
  - repeat constructor; try (vm_compute; congruence); vm_compute; set_solver.
  - exists v'. split; [exact H|]. apply (Hr ("sh"%string, [127; 69])). apply list_elem_of_here.
Defined.

(** ** System call registers *)

(** With the instruction available, it is enabled and set to enter the kernel at the
    entry point in the kernel's code segment with interrupts, traps and direction clear,
    and the kernel stack is the boot stack; nothing is touched without it. *)
Theorem syscall_init_registers (f : cpuid_features) (boot_stack entry : Z) (m : msrs) (top : Z) :
  let '(m', top', _) := syscall_init f boot_stack entry m top in
  if has_syscall f then
    Z.testbit (msr_efer m') 0 = true ∧ (∀ b, 0 < b → Z.testbit (msr_efer m') b = Z.testbit (msr_efer m) b) ∧
    msr_lstar m' = entry ∧ Z.shiftr (msr_star m') 32 mod 2^16 = GDT_KERNEL_CODE ∧
    Z.testbit (msr_fmask m') 9 = true ∧ Z.testbit (msr_fmask m') 8 = true ∧ Z.testbit (msr_fmask m') 10 = true ∧
    top' = u64 (boot_stack + SYSCALL_STACK_SIZE)
  else m' = m ∧ top' = top.
Proof.
  unfold syscall_init. destruct (has_syscall f); cbn [negb]; [|done]. cbn [msr_efer msr_lstar msr_star msr_fmask].
  split; [rewrite Z.lor_spec; apply orb_true_r|]. split.
  { intros b Hb. rewrite Z.lor_spec. change EFER_SCE with (2^0). rewrite Z.pow2_bits_false by lia. apply orb_false_r. }
  split_and!; reflexivity.
Qed.

(** ** Up to the first task *)

Lemma sleep_from_zero ms fuel : 0 <= ms < 2^40 → ms <= Z.of_nat fuel → timer_sleep_ms fuel ms (Timer 0 1000) = Some (Timer ms 1000).
Proof.
  intros Hms Hf. unfold timer_sleep_ms.
  assert (∀ k, Z.of_nat k < 2^50 → ticks k (Timer 0 1000) = Timer (Z.of_nat k) 1000) as Ht.
  { intros k Hk. rewrite ticks_jiffies by (cbn; lia). done. }
  assert (∀ k, Z.of_nat k < 2^50 → timer_ms (ticks k (Timer 0 1000)) = Z.of_nat k) as Hm.
  { intros k Hk. rewrite Ht by done. unfold timer_ms. cbn [timer_hz jiffies]. change (1000 =? 0) with false. cbv iota.
    rewrite u64_small by lia. by rewrite Z.div_mul by lia. }
  change (timer_ms (Timer 0 1000)) with 0. rewrite Z.add_0_l, u64_small by lia.
  destruct (sleep_loop_ends ms (Z.to_nat ms) fuel (Timer 0 1000)) as (n & Hn & -> & Hd & Hmin); [lia|rewrite Hm; lia|].
  rewrite Hm in Hd by lia. rewrite Ht by lia. do 2 f_equal. lia.
Qed.

Lemma initial_tree b : ∃ v, vfs_init always (λ _, arr_fill b) = Some v ∧ vfs_wf v ∧
  node_type v (vfs_root v) = Some VFS_DIR ∧ find_child v (vfs_root v) (chars "bin") = None.
Proof.
  assert ((λ v, (vfs_wfb v, node_type v (vfs_root v), find_child v (vfs_root v) (chars "bin"))) <$> vfs_init always (λ _, arr_fill b) =
    Some (true, Some VFS_DIR, None)) as H by (vm_compute; reflexivity).
  destruct (vfs_init always (λ _, arr_fill b)) as [v|]; [|done]. exists v. injection H as H1 H2 H3.
  split; [done|]. split; [by apply vfs_wfb_sound|done].
Qed.

(** What the platform brings: a PVH memory map with six free frames beyond the kernel, a
    heap that has room, programs that fit. *)
Record bootable {Dev H} (p : platform Dev H) (magic info b : Z) : Prop := {
  bp_pvh : magic ≠ MB2_BOOTLOADER_MAGIC ∧ info ≠ 0 ∧ si_magic (p_mem p) info = HVM_START_MAGIC;
  bp_kernel : 0x100000 <= p_kernel_end p < PMM_MAX_PHYS ∧ p_kernel_end p mod PMM_FRAME_SIZE = 0;
  bp_memory : 0 < pvh_total (p_mem p) info;
  bp_frames pm : pmm_init (p_kernel_end p) (p_mem p) magic info zero_pmm = Ret ((), pm) → 6 <= pmm_free_frames pm;
  bp_heap : p_can_alloc p = always ∧ p_fresh p = λ _, arr_fill b;
  bp_programs : NoDup ((λ f, chars f.1) <$> p_programs p) ∧ Forall program_ok (p_programs p);
}.

Lemma open_lines i : 0 <= i < 16 → masked (irq_unmask 1 (irq_unmask 0 (Pic 0xFF 0xFF))) i = (2 <=? i).
Proof.
  intros Hi. assert (forallb (λ i, eqb (masked (irq_unmask 1 (irq_unmask 0 (Pic 0xFF 0xFF))) i) (2 <=? i)) (seqZ 0 16) = true) as H by reflexivity.
  rewrite forallb_forall in H. apply eqb_prop, H, list_elem_of_In, elem_of_seqZ. lia.
Qed.

Lemma power_init_pvh m magic info : magic ≠ MB2_BOOTLOADER_MAGIC → is_Some (power_init m magic info).
Proof. intros H. unfold power_init. rewrite (proj2 (Z.eqb_neq _ _) H). cbn. repeat case_match; eauto. Qed.


(** A small machine: 2 MiB, no ACPI, a shell in /bin. *)
Definition w_platform : platform (list (bool * Z)) nat :=
  Platform _ _ sample_boot_mem 0x110000 0x105000 0x109000 0x10A000 0x10A100 0x10B000 (λ i, 0x101000 + 16 * i) (λ _, Regs4 0 0 0 0)
    (Msrs 0x500 0 0 0) 0x10C000 0x102000 [] 0%nat 1%nat [("sh"%string, [127; 69; 76; 70])] [] always (λ _, arr_fill 0) []
    (Some (1%nat, 0x200000)) (Some (2%nat, 0x300000)) 0x101234.

Lemma w_bootable : bootable w_platform 0 0x1000 0.
Proof.
  constructor.
  - vm_compute. split_and!; congruence.
  - vm_compute. split_and!; congruence.
  - vm_compute. reflexivity.
  - assert (match pmm_init (p_kernel_end w_platform) (p_mem w_platform) 0 0x1000 zero_pmm with Ret (_, pm) => 6 <=? pmm_free_frames pm | _ => false end = true)
      as H by (vm_compute; reflexivity).
    intros pm Hp. rewrite Hp in H. by apply Z.leb_le in H.
  - done.
  - split; [apply NoDup_singleton|]. repeat constructor; try (vm_compute; congruence); vm_compute; set_solver.
Qed.

